(** * MathClock: the scheduling and game-state core

    A shallow embedding of the Arduino sketch of the LED matrix math clock
    (main sketch, input tab, Dino, Dodge and Snake tabs) together with the
    properties of its mode controller and of its three game engines.

    Modelling conventions.
    - The sketch keeps all its state in global variables.  They are grouped
      here per source tab into records ([Sketch], [Dino], [Dodge], [Snake],
      the previous line levels of the input tab) and collected in [World];
      every sketch function is a function [World -> World].
    - The board is an Arduino Nano: [int] is 16 bits wide, [int8_t] 8 bits,
      [unsigned long] 32 bits.  Values are integers of [Z]; the result of
      an arithmetic operation stored into such a variable goes through
      [to_int8], [to_int] or [to_ulong], which wrap around as the AVR does
      (for [int] the C++ standard leaves overflow undefined; no statement
      below relies on a counter passing 32767).
    - [millis()] reads the field [clock] of the hardware record.  The
      environment sets it at the start of each pass through [loop];
      [delay] advances it.
    - [random(lo, hi)] consumes one raw value of an arbitrary stream
      [rngDraws], so that every theorem holds for every behaviour of the
      generator.
    - The EEPROM is a finite map from addresses to the values stored there,
      with a log of the writes performed.
    - The display adapter is outside the model: drawing calls are dropped.
      The blocking flash sequences of the three death handlers are recorded
      in [trace]. *)

From Stdlib Require Import DecimalString.
From stdpp Require Import base numbers list gmap strings sorting.

Local Open Scope Z_scope.

(** ** Machine integers *)

Definition wrap_signed (bits v : Z) : Z :=
  (v + 2 ^ (bits - 1)) mod 2 ^ bits - 2 ^ (bits - 1).

Definition to_int8 (v : Z) : Z := wrap_signed 8 v.
Definition to_int (v : Z) : Z := wrap_signed 16 v.
Definition to_ulong (v : Z) : Z := v mod 2 ^ 32.

(** ** Modes and structures of the sketch *)

Inductive Mode : Type :=
  | CLOCK
  | SETTING
  | GAME
  | DODGE_GAME
  | GAME_SELECT
  | SET_TIME
  | SET_DATE
  | SNAKE_GAME.

Inductive SettingMenu : Type :=
  | MENU_DIFFICULTY
  | MENU_TIME
  | MENU_DATE
  | MENU_EXIT.

#[global] Instance Mode_eq_dec : EqDecision Mode.
Proof. solve_decision. Defined.

#[global] Instance SettingMenu_eq_dec : EqDecision SettingMenu.
Proof. solve_decision. Defined.

(** The flash sequences shown by [handleGameOver], [handleDodgeGameOver]
    and [handleSnakeDeath]. *)
Inductive Event : Type :=
  | DinoGameOver
  | DodgeGameOver
  | SnakeDeath.

Module Block.
Record DodgeBlock : Type := mk {
  x : Z;
  y : Z;
  width : Z;
  active : bool
}.
End Block.
Abbreviation DodgeBlock := Block.DodgeBlock.

Module Segment.
Record SnakeSegment : Type := mk {
  x : Z;
  y : Z
}.
End Segment.
Abbreviation SnakeSegment := Segment.SnakeSegment.

#[global] Instance SnakeSegment_eq_dec : EqDecision SnakeSegment.
Proof. solve_decision. Defined.

#[global] Instance SnakeSegment_inhabited : Inhabited SnakeSegment :=
  populate (Segment.mk 0 0).

Record DateTime : Type := mkDateTime {
  year : Z;
  month : Z;
  day : Z;
  hour : Z;
  minute : Z;
  second : Z
}.

Record Lines : Type := mkLines {
  lnReturn : bool;
  lnUp : bool;
  lnDown : bool;
  lnLeft : bool;
  lnRight : bool;
  lnOk : bool;
  lnGame1 : bool;
  lnGame2 : bool;
  lnGame3 : bool;
  lnOptions : bool
}.

Record Hw : Type := mkHw {
  clock : Z;
  rngDraws : nat -> Z;
  rngPos : nat;
  eeprom : gmap Z Z;
  eepromWrites : list (Z * Z);
  rtcTime : DateTime;
  trace : list Event
}.

Definition set_clock (v : Z) (r : Hw) : Hw :=
  mkHw v (rngDraws r) (rngPos r) (eeprom r) (eepromWrites r) (rtcTime r) (trace r).
Definition set_rngDraws (v : nat -> Z) (r : Hw) : Hw :=
  mkHw (clock r) v (rngPos r) (eeprom r) (eepromWrites r) (rtcTime r) (trace r).
Definition set_rngPos (v : nat) (r : Hw) : Hw :=
  mkHw (clock r) (rngDraws r) v (eeprom r) (eepromWrites r) (rtcTime r) (trace r).
Definition set_eeprom (v : gmap Z Z) (r : Hw) : Hw :=
  mkHw (clock r) (rngDraws r) (rngPos r) v (eepromWrites r) (rtcTime r) (trace r).
Definition set_eepromWrites (v : list (Z * Z)) (r : Hw) : Hw :=
  mkHw (clock r) (rngDraws r) (rngPos r) (eeprom r) v (rtcTime r) (trace r).
Definition set_rtcTime (v : DateTime) (r : Hw) : Hw :=
  mkHw (clock r) (rngDraws r) (rngPos r) (eeprom r) (eepromWrites r) v (trace r).
Definition set_trace (v : list Event) (r : Hw) : Hw :=
  mkHw (clock r) (rngDraws r) (rngPos r) (eeprom r) (eepromWrites r) (rtcTime r) v.

Record Sketch : Type := mkSketch {
  currentMode : Mode;
  currentMenu : SettingMenu;
  gameSelectChoice : Z;
  settingStep : Z;
  tempHour : Z;
  tempMinute : Z;
  tempYear : Z;
  tempMonth : Z;
  tempDay : Z;
  difficulty : Z;
  score : Z;
  highScore : Z;
  lastMin : Z;
  btnTimer : Z;
  btnActive : bool;
  btnMediumFired : bool;
  lastIRActivity : Z;
  lastGameIRActivity : Z;
  irJumpTriggered : bool;
  snakeTurnUp : bool;
  snakeTurnDown : bool;
  snakeTurnLeft : bool;
  snakeTurnRight : bool;
  lastActivity : Z
}.

Definition set_currentMode (v : Mode) (r : Sketch) : Sketch :=
  mkSketch v (currentMenu r) (gameSelectChoice r) (settingStep r) (tempHour r) (tempMinute r) (tempYear r) (tempMonth r) (tempDay r) (difficulty r) (score r) (highScore r) (lastMin r) (btnTimer r) (btnActive r) (btnMediumFired r) (lastIRActivity r) (lastGameIRActivity r) (irJumpTriggered r) (snakeTurnUp r) (snakeTurnDown r) (snakeTurnLeft r) (snakeTurnRight r) (lastActivity r).
Definition set_currentMenu (v : SettingMenu) (r : Sketch) : Sketch :=
  mkSketch (currentMode r) v (gameSelectChoice r) (settingStep r) (tempHour r) (tempMinute r) (tempYear r) (tempMonth r) (tempDay r) (difficulty r) (score r) (highScore r) (lastMin r) (btnTimer r) (btnActive r) (btnMediumFired r) (lastIRActivity r) (lastGameIRActivity r) (irJumpTriggered r) (snakeTurnUp r) (snakeTurnDown r) (snakeTurnLeft r) (snakeTurnRight r) (lastActivity r).
Definition set_gameSelectChoice (v : Z) (r : Sketch) : Sketch :=
  mkSketch (currentMode r) (currentMenu r) v (settingStep r) (tempHour r) (tempMinute r) (tempYear r) (tempMonth r) (tempDay r) (difficulty r) (score r) (highScore r) (lastMin r) (btnTimer r) (btnActive r) (btnMediumFired r) (lastIRActivity r) (lastGameIRActivity r) (irJumpTriggered r) (snakeTurnUp r) (snakeTurnDown r) (snakeTurnLeft r) (snakeTurnRight r) (lastActivity r).
Definition set_settingStep (v : Z) (r : Sketch) : Sketch :=
  mkSketch (currentMode r) (currentMenu r) (gameSelectChoice r) v (tempHour r) (tempMinute r) (tempYear r) (tempMonth r) (tempDay r) (difficulty r) (score r) (highScore r) (lastMin r) (btnTimer r) (btnActive r) (btnMediumFired r) (lastIRActivity r) (lastGameIRActivity r) (irJumpTriggered r) (snakeTurnUp r) (snakeTurnDown r) (snakeTurnLeft r) (snakeTurnRight r) (lastActivity r).
Definition set_tempHour (v : Z) (r : Sketch) : Sketch :=
  mkSketch (currentMode r) (currentMenu r) (gameSelectChoice r) (settingStep r) v (tempMinute r) (tempYear r) (tempMonth r) (tempDay r) (difficulty r) (score r) (highScore r) (lastMin r) (btnTimer r) (btnActive r) (btnMediumFired r) (lastIRActivity r) (lastGameIRActivity r) (irJumpTriggered r) (snakeTurnUp r) (snakeTurnDown r) (snakeTurnLeft r) (snakeTurnRight r) (lastActivity r).
Definition set_tempMinute (v : Z) (r : Sketch) : Sketch :=
  mkSketch (currentMode r) (currentMenu r) (gameSelectChoice r) (settingStep r) (tempHour r) v (tempYear r) (tempMonth r) (tempDay r) (difficulty r) (score r) (highScore r) (lastMin r) (btnTimer r) (btnActive r) (btnMediumFired r) (lastIRActivity r) (lastGameIRActivity r) (irJumpTriggered r) (snakeTurnUp r) (snakeTurnDown r) (snakeTurnLeft r) (snakeTurnRight r) (lastActivity r).
Definition set_tempYear (v : Z) (r : Sketch) : Sketch :=
  mkSketch (currentMode r) (currentMenu r) (gameSelectChoice r) (settingStep r) (tempHour r) (tempMinute r) v (tempMonth r) (tempDay r) (difficulty r) (score r) (highScore r) (lastMin r) (btnTimer r) (btnActive r) (btnMediumFired r) (lastIRActivity r) (lastGameIRActivity r) (irJumpTriggered r) (snakeTurnUp r) (snakeTurnDown r) (snakeTurnLeft r) (snakeTurnRight r) (lastActivity r).
Definition set_tempMonth (v : Z) (r : Sketch) : Sketch :=
  mkSketch (currentMode r) (currentMenu r) (gameSelectChoice r) (settingStep r) (tempHour r) (tempMinute r) (tempYear r) v (tempDay r) (difficulty r) (score r) (highScore r) (lastMin r) (btnTimer r) (btnActive r) (btnMediumFired r) (lastIRActivity r) (lastGameIRActivity r) (irJumpTriggered r) (snakeTurnUp r) (snakeTurnDown r) (snakeTurnLeft r) (snakeTurnRight r) (lastActivity r).
Definition set_tempDay (v : Z) (r : Sketch) : Sketch :=
  mkSketch (currentMode r) (currentMenu r) (gameSelectChoice r) (settingStep r) (tempHour r) (tempMinute r) (tempYear r) (tempMonth r) v (difficulty r) (score r) (highScore r) (lastMin r) (btnTimer r) (btnActive r) (btnMediumFired r) (lastIRActivity r) (lastGameIRActivity r) (irJumpTriggered r) (snakeTurnUp r) (snakeTurnDown r) (snakeTurnLeft r) (snakeTurnRight r) (lastActivity r).
Definition set_difficulty (v : Z) (r : Sketch) : Sketch :=
  mkSketch (currentMode r) (currentMenu r) (gameSelectChoice r) (settingStep r) (tempHour r) (tempMinute r) (tempYear r) (tempMonth r) (tempDay r) v (score r) (highScore r) (lastMin r) (btnTimer r) (btnActive r) (btnMediumFired r) (lastIRActivity r) (lastGameIRActivity r) (irJumpTriggered r) (snakeTurnUp r) (snakeTurnDown r) (snakeTurnLeft r) (snakeTurnRight r) (lastActivity r).
Definition set_score (v : Z) (r : Sketch) : Sketch :=
  mkSketch (currentMode r) (currentMenu r) (gameSelectChoice r) (settingStep r) (tempHour r) (tempMinute r) (tempYear r) (tempMonth r) (tempDay r) (difficulty r) v (highScore r) (lastMin r) (btnTimer r) (btnActive r) (btnMediumFired r) (lastIRActivity r) (lastGameIRActivity r) (irJumpTriggered r) (snakeTurnUp r) (snakeTurnDown r) (snakeTurnLeft r) (snakeTurnRight r) (lastActivity r).
Definition set_highScore (v : Z) (r : Sketch) : Sketch :=
  mkSketch (currentMode r) (currentMenu r) (gameSelectChoice r) (settingStep r) (tempHour r) (tempMinute r) (tempYear r) (tempMonth r) (tempDay r) (difficulty r) (score r) v (lastMin r) (btnTimer r) (btnActive r) (btnMediumFired r) (lastIRActivity r) (lastGameIRActivity r) (irJumpTriggered r) (snakeTurnUp r) (snakeTurnDown r) (snakeTurnLeft r) (snakeTurnRight r) (lastActivity r).
Definition set_lastMin (v : Z) (r : Sketch) : Sketch :=
  mkSketch (currentMode r) (currentMenu r) (gameSelectChoice r) (settingStep r) (tempHour r) (tempMinute r) (tempYear r) (tempMonth r) (tempDay r) (difficulty r) (score r) (highScore r) v (btnTimer r) (btnActive r) (btnMediumFired r) (lastIRActivity r) (lastGameIRActivity r) (irJumpTriggered r) (snakeTurnUp r) (snakeTurnDown r) (snakeTurnLeft r) (snakeTurnRight r) (lastActivity r).
Definition set_btnTimer (v : Z) (r : Sketch) : Sketch :=
  mkSketch (currentMode r) (currentMenu r) (gameSelectChoice r) (settingStep r) (tempHour r) (tempMinute r) (tempYear r) (tempMonth r) (tempDay r) (difficulty r) (score r) (highScore r) (lastMin r) v (btnActive r) (btnMediumFired r) (lastIRActivity r) (lastGameIRActivity r) (irJumpTriggered r) (snakeTurnUp r) (snakeTurnDown r) (snakeTurnLeft r) (snakeTurnRight r) (lastActivity r).
Definition set_btnActive (v : bool) (r : Sketch) : Sketch :=
  mkSketch (currentMode r) (currentMenu r) (gameSelectChoice r) (settingStep r) (tempHour r) (tempMinute r) (tempYear r) (tempMonth r) (tempDay r) (difficulty r) (score r) (highScore r) (lastMin r) (btnTimer r) v (btnMediumFired r) (lastIRActivity r) (lastGameIRActivity r) (irJumpTriggered r) (snakeTurnUp r) (snakeTurnDown r) (snakeTurnLeft r) (snakeTurnRight r) (lastActivity r).
Definition set_btnMediumFired (v : bool) (r : Sketch) : Sketch :=
  mkSketch (currentMode r) (currentMenu r) (gameSelectChoice r) (settingStep r) (tempHour r) (tempMinute r) (tempYear r) (tempMonth r) (tempDay r) (difficulty r) (score r) (highScore r) (lastMin r) (btnTimer r) (btnActive r) v (lastIRActivity r) (lastGameIRActivity r) (irJumpTriggered r) (snakeTurnUp r) (snakeTurnDown r) (snakeTurnLeft r) (snakeTurnRight r) (lastActivity r).
Definition set_lastIRActivity (v : Z) (r : Sketch) : Sketch :=
  mkSketch (currentMode r) (currentMenu r) (gameSelectChoice r) (settingStep r) (tempHour r) (tempMinute r) (tempYear r) (tempMonth r) (tempDay r) (difficulty r) (score r) (highScore r) (lastMin r) (btnTimer r) (btnActive r) (btnMediumFired r) v (lastGameIRActivity r) (irJumpTriggered r) (snakeTurnUp r) (snakeTurnDown r) (snakeTurnLeft r) (snakeTurnRight r) (lastActivity r).
Definition set_lastGameIRActivity (v : Z) (r : Sketch) : Sketch :=
  mkSketch (currentMode r) (currentMenu r) (gameSelectChoice r) (settingStep r) (tempHour r) (tempMinute r) (tempYear r) (tempMonth r) (tempDay r) (difficulty r) (score r) (highScore r) (lastMin r) (btnTimer r) (btnActive r) (btnMediumFired r) (lastIRActivity r) v (irJumpTriggered r) (snakeTurnUp r) (snakeTurnDown r) (snakeTurnLeft r) (snakeTurnRight r) (lastActivity r).
Definition set_irJumpTriggered (v : bool) (r : Sketch) : Sketch :=
  mkSketch (currentMode r) (currentMenu r) (gameSelectChoice r) (settingStep r) (tempHour r) (tempMinute r) (tempYear r) (tempMonth r) (tempDay r) (difficulty r) (score r) (highScore r) (lastMin r) (btnTimer r) (btnActive r) (btnMediumFired r) (lastIRActivity r) (lastGameIRActivity r) v (snakeTurnUp r) (snakeTurnDown r) (snakeTurnLeft r) (snakeTurnRight r) (lastActivity r).
Definition set_snakeTurnUp (v : bool) (r : Sketch) : Sketch :=
  mkSketch (currentMode r) (currentMenu r) (gameSelectChoice r) (settingStep r) (tempHour r) (tempMinute r) (tempYear r) (tempMonth r) (tempDay r) (difficulty r) (score r) (highScore r) (lastMin r) (btnTimer r) (btnActive r) (btnMediumFired r) (lastIRActivity r) (lastGameIRActivity r) (irJumpTriggered r) v (snakeTurnDown r) (snakeTurnLeft r) (snakeTurnRight r) (lastActivity r).
Definition set_snakeTurnDown (v : bool) (r : Sketch) : Sketch :=
  mkSketch (currentMode r) (currentMenu r) (gameSelectChoice r) (settingStep r) (tempHour r) (tempMinute r) (tempYear r) (tempMonth r) (tempDay r) (difficulty r) (score r) (highScore r) (lastMin r) (btnTimer r) (btnActive r) (btnMediumFired r) (lastIRActivity r) (lastGameIRActivity r) (irJumpTriggered r) (snakeTurnUp r) v (snakeTurnLeft r) (snakeTurnRight r) (lastActivity r).
Definition set_snakeTurnLeft (v : bool) (r : Sketch) : Sketch :=
  mkSketch (currentMode r) (currentMenu r) (gameSelectChoice r) (settingStep r) (tempHour r) (tempMinute r) (tempYear r) (tempMonth r) (tempDay r) (difficulty r) (score r) (highScore r) (lastMin r) (btnTimer r) (btnActive r) (btnMediumFired r) (lastIRActivity r) (lastGameIRActivity r) (irJumpTriggered r) (snakeTurnUp r) (snakeTurnDown r) v (snakeTurnRight r) (lastActivity r).
Definition set_snakeTurnRight (v : bool) (r : Sketch) : Sketch :=
  mkSketch (currentMode r) (currentMenu r) (gameSelectChoice r) (settingStep r) (tempHour r) (tempMinute r) (tempYear r) (tempMonth r) (tempDay r) (difficulty r) (score r) (highScore r) (lastMin r) (btnTimer r) (btnActive r) (btnMediumFired r) (lastIRActivity r) (lastGameIRActivity r) (irJumpTriggered r) (snakeTurnUp r) (snakeTurnDown r) (snakeTurnLeft r) v (lastActivity r).
Definition set_lastActivity (v : Z) (r : Sketch) : Sketch :=
  mkSketch (currentMode r) (currentMenu r) (gameSelectChoice r) (settingStep r) (tempHour r) (tempMinute r) (tempYear r) (tempMonth r) (tempDay r) (difficulty r) (score r) (highScore r) (lastMin r) (btnTimer r) (btnActive r) (btnMediumFired r) (lastIRActivity r) (lastGameIRActivity r) (irJumpTriggered r) (snakeTurnUp r) (snakeTurnDown r) (snakeTurnLeft r) (snakeTurnRight r) v.

Record Dino : Type := mkDino {
  playerY : Z;
  isJumping : bool;
  jumpTimer : Z;
  obstacleX : Z;
  obstacleType : Z;
  gameSpeed : Z;
  frameTimer : Z
}.

Definition set_playerY (v : Z) (r : Dino) : Dino :=
  mkDino v (isJumping r) (jumpTimer r) (obstacleX r) (obstacleType r) (gameSpeed r) (frameTimer r).
Definition set_isJumping (v : bool) (r : Dino) : Dino :=
  mkDino (playerY r) v (jumpTimer r) (obstacleX r) (obstacleType r) (gameSpeed r) (frameTimer r).
Definition set_jumpTimer (v : Z) (r : Dino) : Dino :=
  mkDino (playerY r) (isJumping r) v (obstacleX r) (obstacleType r) (gameSpeed r) (frameTimer r).
Definition set_obstacleX (v : Z) (r : Dino) : Dino :=
  mkDino (playerY r) (isJumping r) (jumpTimer r) v (obstacleType r) (gameSpeed r) (frameTimer r).
Definition set_obstacleType (v : Z) (r : Dino) : Dino :=
  mkDino (playerY r) (isJumping r) (jumpTimer r) (obstacleX r) v (gameSpeed r) (frameTimer r).
Definition set_gameSpeed (v : Z) (r : Dino) : Dino :=
  mkDino (playerY r) (isJumping r) (jumpTimer r) (obstacleX r) (obstacleType r) v (frameTimer r).
Definition set_frameTimer (v : Z) (r : Dino) : Dino :=
  mkDino (playerY r) (isJumping r) (jumpTimer r) (obstacleX r) (obstacleType r) (gameSpeed r) v.

Record Dodge : Type := mkDodge {
  dodgePlayerX : Z;
  dodgeSpeed : Z;
  dodgeScore : Z;
  dodgeHighScore : Z;
  dodgeBlocks : list DodgeBlock;
  dodgeFrameTimer : Z;
  dodgeMoveLeft : bool;
  dodgeMoveRight : bool
}.

Definition set_dodgePlayerX (v : Z) (r : Dodge) : Dodge :=
  mkDodge v (dodgeSpeed r) (dodgeScore r) (dodgeHighScore r) (dodgeBlocks r) (dodgeFrameTimer r) (dodgeMoveLeft r) (dodgeMoveRight r).
Definition set_dodgeSpeed (v : Z) (r : Dodge) : Dodge :=
  mkDodge (dodgePlayerX r) v (dodgeScore r) (dodgeHighScore r) (dodgeBlocks r) (dodgeFrameTimer r) (dodgeMoveLeft r) (dodgeMoveRight r).
Definition set_dodgeScore (v : Z) (r : Dodge) : Dodge :=
  mkDodge (dodgePlayerX r) (dodgeSpeed r) v (dodgeHighScore r) (dodgeBlocks r) (dodgeFrameTimer r) (dodgeMoveLeft r) (dodgeMoveRight r).
Definition set_dodgeHighScore (v : Z) (r : Dodge) : Dodge :=
  mkDodge (dodgePlayerX r) (dodgeSpeed r) (dodgeScore r) v (dodgeBlocks r) (dodgeFrameTimer r) (dodgeMoveLeft r) (dodgeMoveRight r).
Definition set_dodgeBlocks (v : list DodgeBlock) (r : Dodge) : Dodge :=
  mkDodge (dodgePlayerX r) (dodgeSpeed r) (dodgeScore r) (dodgeHighScore r) v (dodgeFrameTimer r) (dodgeMoveLeft r) (dodgeMoveRight r).
Definition set_dodgeFrameTimer (v : Z) (r : Dodge) : Dodge :=
  mkDodge (dodgePlayerX r) (dodgeSpeed r) (dodgeScore r) (dodgeHighScore r) (dodgeBlocks r) v (dodgeMoveLeft r) (dodgeMoveRight r).
Definition set_dodgeMoveLeft (v : bool) (r : Dodge) : Dodge :=
  mkDodge (dodgePlayerX r) (dodgeSpeed r) (dodgeScore r) (dodgeHighScore r) (dodgeBlocks r) (dodgeFrameTimer r) v (dodgeMoveRight r).
Definition set_dodgeMoveRight (v : bool) (r : Dodge) : Dodge :=
  mkDodge (dodgePlayerX r) (dodgeSpeed r) (dodgeScore r) (dodgeHighScore r) (dodgeBlocks r) (dodgeFrameTimer r) (dodgeMoveLeft r) v.

Record Snake : Type := mkSnake {
  snakeBody : list SnakeSegment;
  snakeLength : Z;
  snakeDir : Z;
  snakePendingDir : Z;
  foodX : Z;
  foodY : Z;
  snakeSpeed : Z;
  snakeScore : Z;
  snakeHighScore : Z;
  snakeMoveTimer : Z
}.

Definition set_snakeBody (v : list SnakeSegment) (r : Snake) : Snake :=
  mkSnake v (snakeLength r) (snakeDir r) (snakePendingDir r) (foodX r) (foodY r) (snakeSpeed r) (snakeScore r) (snakeHighScore r) (snakeMoveTimer r).
Definition set_snakeLength (v : Z) (r : Snake) : Snake :=
  mkSnake (snakeBody r) v (snakeDir r) (snakePendingDir r) (foodX r) (foodY r) (snakeSpeed r) (snakeScore r) (snakeHighScore r) (snakeMoveTimer r).
Definition set_snakeDir (v : Z) (r : Snake) : Snake :=
  mkSnake (snakeBody r) (snakeLength r) v (snakePendingDir r) (foodX r) (foodY r) (snakeSpeed r) (snakeScore r) (snakeHighScore r) (snakeMoveTimer r).
Definition set_snakePendingDir (v : Z) (r : Snake) : Snake :=
  mkSnake (snakeBody r) (snakeLength r) (snakeDir r) v (foodX r) (foodY r) (snakeSpeed r) (snakeScore r) (snakeHighScore r) (snakeMoveTimer r).
Definition set_foodX (v : Z) (r : Snake) : Snake :=
  mkSnake (snakeBody r) (snakeLength r) (snakeDir r) (snakePendingDir r) v (foodY r) (snakeSpeed r) (snakeScore r) (snakeHighScore r) (snakeMoveTimer r).
Definition set_foodY (v : Z) (r : Snake) : Snake :=
  mkSnake (snakeBody r) (snakeLength r) (snakeDir r) (snakePendingDir r) (foodX r) v (snakeSpeed r) (snakeScore r) (snakeHighScore r) (snakeMoveTimer r).
Definition set_snakeSpeed (v : Z) (r : Snake) : Snake :=
  mkSnake (snakeBody r) (snakeLength r) (snakeDir r) (snakePendingDir r) (foodX r) (foodY r) v (snakeScore r) (snakeHighScore r) (snakeMoveTimer r).
Definition set_snakeScore (v : Z) (r : Snake) : Snake :=
  mkSnake (snakeBody r) (snakeLength r) (snakeDir r) (snakePendingDir r) (foodX r) (foodY r) (snakeSpeed r) v (snakeHighScore r) (snakeMoveTimer r).
Definition set_snakeHighScore (v : Z) (r : Snake) : Snake :=
  mkSnake (snakeBody r) (snakeLength r) (snakeDir r) (snakePendingDir r) (foodX r) (foodY r) (snakeSpeed r) (snakeScore r) v (snakeMoveTimer r).
Definition set_snakeMoveTimer (v : Z) (r : Snake) : Snake :=
  mkSnake (snakeBody r) (snakeLength r) (snakeDir r) (snakePendingDir r) (foodX r) (foodY r) (snakeSpeed r) (snakeScore r) (snakeHighScore r) v.

Record World : Type := mkWorld {
  sketch : Sketch;
  lastLines : Lines;
  dino : Dino;
  dodge : Dodge;
  snake : Snake;
  hw : Hw
}.

Definition set_sketch (v : Sketch) (r : World) : World :=
  mkWorld v (lastLines r) (dino r) (dodge r) (snake r) (hw r).
Definition set_lastLines (v : Lines) (r : World) : World :=
  mkWorld (sketch r) v (dino r) (dodge r) (snake r) (hw r).
Definition set_dino (v : Dino) (r : World) : World :=
  mkWorld (sketch r) (lastLines r) v (dodge r) (snake r) (hw r).
Definition set_dodge (v : Dodge) (r : World) : World :=
  mkWorld (sketch r) (lastLines r) (dino r) v (snake r) (hw r).
Definition set_snake (v : Snake) (r : World) : World :=
  mkWorld (sketch r) (lastLines r) (dino r) (dodge r) v (hw r).
Definition set_hw (v : Hw) (r : World) : World :=
  mkWorld (sketch r) (lastLines r) (dino r) (dodge r) (snake r) v.

Definition with_sketch (f : Sketch -> Sketch) (w : World) : World :=
  set_sketch (f (sketch w)) w.
Definition with_dino (f : Dino -> Dino) (w : World) : World :=
  set_dino (f (dino w)) w.
Definition with_dodge (f : Dodge -> Dodge) (w : World) : World :=
  set_dodge (f (dodge w)) w.
Definition with_snake (f : Snake -> Snake) (w : World) : World :=
  set_snake (f (snake w)) w.
Definition with_hw (f : Hw -> Hw) (w : World) : World :=
  set_hw (f (hw w)) w.

(** ** Arduino core and peripherals *)

Definition millis (w : World) : Z := clock (hw w).

Definition delay (ms : Z) (w : World) : World :=
  with_hw (fun h => set_clock (to_ulong (clock h + ms)) h) w.

(** [millis() - since], in [unsigned long] arithmetic. *)
Definition elapsed (since : Z) (w : World) : Z := to_ulong (millis w - since).

(** [random(howsmall, howbig)]: the core returns [howsmall] when the range
    is empty and [random() % (howbig - howsmall) + howsmall] otherwise. *)
Definition random (howsmall howbig : Z) (w : World) : Z * World :=
  if howsmall >=? howbig then (howsmall, w)
  else
    let raw := rngDraws (hw w) (rngPos (hw w)) in
    (raw mod (howbig - howsmall) + howsmall,
     with_hw (fun h => set_rngPos (S (rngPos h)) h) w).

Definition EEPROM_put (addr v : Z) (w : World) : World :=
  with_hw (fun h =>
    set_eepromWrites ((addr, v) :: eepromWrites h)
      (set_eeprom (<[addr := v]> (eeprom h)) h)) w.

Definition EEPROM_write (addr v : Z) (w : World) : World :=
  EEPROM_put addr v w.

(** An address never written reads as erased flash: all bits set. *)
Definition EEPROM_get (addr : Z) (w : World) : Z :=
  default (-1) (eeprom (hw w) !! addr).

Definition EEPROM_read (addr : Z) (w : World) : Z :=
  default 255 (eeprom (hw w) !! addr).

Definition rtc_now (w : World) : DateTime := rtcTime (hw w).

Definition rtc_adjust (t : DateTime) (w : World) : World :=
  with_hw (set_rtcTime t) w.

(** A blocking flash sequence reaches the display. *)
Definition flash (e : Event) (w : World) : World :=
  with_hw (fun h => set_trace (e :: trace h) h) w.

(** ** Main sketch: constants *)

Definition GRID_WIDTH : Z := 15.
Definition GRID_HEIGHT : Z := 5.
Definition BUTTON_SHORT_PRESS_MS : Z := 1000.
Definition BUTTON_MEDIUM_PRESS_MS : Z := 3000.
Definition BUTTON_LONG_PRESS_MS : Z := 5000.
Definition GAME_TIMEOUT_MS : Z := 15000.
Definition SETTINGS_TIMEOUT_MS : Z := 30000.
Definition EEPROM_DIFFICULTY_ADDR : Z := 0.
Definition EEPROM_HIGHSCORE_ADDR : Z := 1.

(** ** Dino game tab *)

Definition JUMP_DURATION_MS : Z := 450.
Definition INITIAL_GAME_SPEED : Z := 100.
Definition MIN_GAME_SPEED : Z := 40.
Definition SPEED_DECREASE : Z := 1.
Definition OBSTACLE_START_X : Z := 14.
Definition PLAYER_X : Z := 1.
Definition PLAYER_GROUND_Y : Z := 3.
Definition PLAYER_AIR_Y : Z := 0.
Definition GROUND_OBSTACLE : Z := 0.
Definition AIR_OBSTACLE : Z := 1.
Definition COLLISION_FLASH_MS : Z := 3000.

Definition saveHighScore (w : World) : World :=
  if score (sketch w) >? highScore (sketch w) then
    let w := with_sketch (fun s => set_highScore (score s) s) w in
    EEPROM_put EEPROM_HIGHSCORE_ADDR (highScore (sketch w)) w
  else w.

Definition handleGameOver (w : World) : World :=
  let w := saveHighScore w in
  let w := flash DinoGameOver w in
  let w := delay COLLISION_FLASH_MS w in
  let w := with_sketch (set_score 0) w in
  let w := with_dino (set_gameSpeed INITIAL_GAME_SPEED) w in
  let w := with_dino (set_obstacleX OBSTACLE_START_X) w in
  let w := with_dino (set_obstacleType GROUND_OBSTACLE) w in
  let w := with_dino (set_playerY PLAYER_GROUND_Y) w in
  let w := with_dino (set_isJumping false) w in
  with_sketch (set_lastIRActivity (millis w)) w.

(** [runDinoGame], "Handle jump input from IR remote". *)
Definition dino_jump_input (w : World) : World :=
  if irJumpTriggered (sketch w) && negb (isJumping (dino w)) then
    let w := with_dino (set_isJumping true) w in
    let w := with_dino (set_jumpTimer (millis w)) w in
    with_sketch (set_irJumpTriggered false) w
  else w.

(** [runDinoGame], "End jump after duration". *)
Definition dino_jump_end (w : World) : World :=
  if isJumping (dino w) && (elapsed (jumpTimer (dino w)) w >? JUMP_DURATION_MS)
  then with_dino (set_isJumping false) w
  else w.

(** [runDinoGame], "Update player Y position". *)
Definition dino_player_y (w : World) : World :=
  with_dino
    (set_playerY (if isJumping (dino w) then PLAYER_AIR_Y else PLAYER_GROUND_Y))
    w.

(** [runDinoGame], "Move obstacle and spawn new ones".  The comparison
    converts [gameSpeed] to [unsigned long]. *)
Definition dino_move_obstacle (w : World) : World :=
  if elapsed (frameTimer (dino w)) w >? to_ulong (gameSpeed (dino w)) then
    let w := with_dino (fun d => set_obstacleX (to_int8 (obstacleX d - 1)) d) w in
    let w :=
      if obstacleX (dino w) <? 0 then
        let w := with_dino (set_obstacleX OBSTACLE_START_X) w in
        let '(r, w) := random 0 2 w in
        let w := with_dino (set_obstacleType (to_int8 r)) w in
        let w := with_sketch (fun s => set_score (to_int (score s + 1)) s) w in
        if gameSpeed (dino w) >? MIN_GAME_SPEED then
          with_dino (fun d => set_gameSpeed (to_int (gameSpeed d - SPEED_DECREASE)) d) w
        else w
      else w in
    with_dino (set_frameTimer (millis w)) w
  else w.

(** [runDinoGame], "Collision detection": the value of [collision] when the
    obstacle is in the player's column, [false] otherwise. *)
Definition dino_collision (w : World) : bool :=
  if obstacleX (dino w) =? PLAYER_X then
    if (obstacleType (dino w) =? GROUND_OBSTACLE) && negb (isJumping (dino w))
    then true
    else if (obstacleType (dino w) =? AIR_OBSTACLE) && isJumping (dino w)
    then true
    else false
  else false.

Definition runDinoGame (w : World) : World :=
  let w := dino_jump_input w in
  let w := dino_jump_end w in
  let w := dino_player_y w in
  let w := dino_move_obstacle w in
  if dino_collision w then handleGameOver w else w.

(** ** Dodge game tab *)

Definition EEPROM_DODGE_HIGHSCORE_ADDR : Z := 456.
Definition DODGE_COLS : Z := 15.
Definition DODGE_ROWS : Z := 10.
Definition DODGE_PLAYER_Y : Z := 9.
Definition DODGE_PLAYER_START_X : Z := 7.
Definition DODGE_INITIAL_SPEED : Z := 160.
Definition DODGE_MIN_SPEED : Z := 35.
Definition DODGE_SPEED_DECREASE : Z := 2.
Definition DODGE_DEATH_FLASH : Z := 2500.
Definition DODGE_TIMEOUT_MS : Z := 15000.
Definition DODGE_MAX_BLOCKS : nat := 2.

Definition loadDodgeHighScore (w : World) : World :=
  let v := to_int (EEPROM_get EEPROM_DODGE_HIGHSCORE_ADDR w) in
  with_dodge (set_dodgeHighScore (if (v <? 0) || (v >? 9999) then 0 else v)) w.

Definition saveDodgeHighScore (w : World) : World :=
  if dodgeScore (dodge w) >? dodgeHighScore (dodge w) then
    let w := with_dodge (fun d => set_dodgeHighScore (dodgeScore d) d) w in
    EEPROM_put EEPROM_DODGE_HIGHSCORE_ADDR (dodgeHighScore (dodge w)) w
  else w.

(** [dodgeBlocks[slot] = b]. *)
Definition set_block (slot : nat) (b : DodgeBlock) (w : World) : World :=
  with_dodge (fun d => set_dodgeBlocks (<[slot := b]> (dodgeBlocks d)) d) w.

Definition spawnBlock (slot : nat) (w : World) : World :=
  let '(r, w) := random 1 4 w in
  let w_ := to_int8 r in
  let maxX := to_int8 (DODGE_COLS - w_) in
  let '(rx, w) := random 0 (maxX + 1) w in
  set_block slot (Block.mk (to_int8 rx) 0 w_ true) w.

Definition deactivate (b : DodgeBlock) : DodgeBlock :=
  Block.mk (Block.x b) (Block.y b) (Block.width b) false.

Definition resetDodgeGame (w : World) : World :=
  let w := with_dodge (set_dodgePlayerX DODGE_PLAYER_START_X) w in
  let w := with_dodge (set_dodgeSpeed DODGE_INITIAL_SPEED) w in
  let w := with_dodge (set_dodgeScore 0) w in
  let w := with_dodge (set_dodgeMoveLeft false) w in
  let w := with_dodge (set_dodgeMoveRight false) w in
  let w := with_dodge (fun d => set_dodgeBlocks (deactivate <$> dodgeBlocks d) d) w in
  let w := spawnBlock 0 w in
  let w := with_dodge (set_dodgeFrameTimer (millis w)) w in
  with_sketch (set_lastGameIRActivity (millis w)) w.

Definition blockHitsPlayer (bx bw : Z) (w : World) : bool :=
  (dodgePlayerX (dodge w) >=? bx) && (dodgePlayerX (dodge w) <? bx + bw).

(** [runDodgeGame], "Player movement". *)
Definition dodge_player_move (w : World) : World :=
  let w :=
    if dodgeMoveLeft (dodge w) then
      let w :=
        if dodgePlayerX (dodge w) >? 0
        then with_dodge (fun d => set_dodgePlayerX (to_int8 (dodgePlayerX d - 1)) d) w
        else w in
      let w := with_dodge (set_dodgeMoveLeft false) w in
      with_sketch (set_lastGameIRActivity (millis w)) w
    else w in
  if dodgeMoveRight (dodge w) then
    let w :=
      if dodgePlayerX (dodge w) <? DODGE_COLS - 1
      then with_dodge (fun d => set_dodgePlayerX (to_int8 (dodgePlayerX d + 1)) d) w
      else w in
    let w := with_dodge (set_dodgeMoveRight false) w in
    with_sketch (set_lastGameIRActivity (millis w)) w
  else w.

(** The counting loop that initialises [activeCount]. *)
Definition dodge_count_active (w : World) : Z :=
  foldl (fun activeCount i =>
           match dodgeBlocks (dodge w) !! i with
           | Some b => if Block.active b then activeCount + 1 else activeCount
           | None => activeCount
           end)
        0 (seq 0 DODGE_MAX_BLOCKS).

(** One iteration of the loop that advances the blocks, on slot [i]. *)
Definition dodge_advance_block (st : World * Z) (i : nat) : World * Z :=
  let '(w, activeCount) := st in
  match dodgeBlocks (dodge w) !! i with
  | None => st
  | Some b =>
      if negb (Block.active b) then st
      else
        let b := Block.mk (Block.x b) (to_int8 (Block.y b + 1)) (Block.width b) true in
        let w := set_block i b w in
        if Block.y b >? DODGE_PLAYER_Y then
          let w := set_block i (deactivate b) w in
          let w := with_dodge (fun d => set_dodgeScore (to_int (dodgeScore d + 1)) d) w in
          let w :=
            if dodgeSpeed (dodge w) >? DODGE_MIN_SPEED
            then with_dodge
                   (fun d => set_dodgeSpeed (to_int (dodgeSpeed d - DODGE_SPEED_DECREASE)) d) w
            else w in
          (w, activeCount - 1)
        else (w, activeCount)
  end.

Definition dodge_advance_blocks (w : World) (activeCount : Z) : World * Z :=
  foldl dodge_advance_block (w, activeCount) (seq 0 DODGE_MAX_BLOCKS).

(** "How many blocks should be active?" *)
Definition dodge_target_blocks (w : World) : Z * World :=
  if dodgeScore (dodge w) >=? 15 then (2, w)
  else if dodgeScore (dodge w) >=? 5 then
    let '(r, w) := random 0 2 w in
    (if r =? 0 then 2 else 1, w)
  else (1, w).

(** "Fill empty slots up to target": [n] iterations are left, the next
    slot is [i]; the loop stops as soon as [activeCount] reaches the
    target. *)
Fixpoint dodge_fill_slots (n i : nat) (targetBlocks : Z) (st : World * Z)
  : World * Z :=
  match n with
  | O => st
  | S n' =>
      let '(w, activeCount) := st in
      if activeCount <? targetBlocks then
        let st :=
          match dodgeBlocks (dodge w) !! i with
          | Some b =>
              if negb (Block.active b) then (spawnBlock i w, activeCount + 1)
              else st
          | None => st
          end in
        dodge_fill_slots n' (S i) targetBlocks st
      else st
  end.

(** The body of "Advance blocks on frame tick". *)
Definition dodge_frame (w : World) : World :=
  let w := with_dodge (set_dodgeFrameTimer (millis w)) w in
  let activeCount := dodge_count_active w in
  let '(w, activeCount) := dodge_advance_blocks w activeCount in
  let '(targetBlocks, w) := dodge_target_blocks w in
  fst (dodge_fill_slots DODGE_MAX_BLOCKS 0 targetBlocks (w, activeCount)).

Definition dodge_frame_due (w : World) : bool :=
  elapsed (dodgeFrameTimer (dodge w)) w >? to_ulong (dodgeSpeed (dodge w)).

(** [runDodgeGame], "Collision detection": does the loop reach
    [handleDodgeGameOver]? *)
Definition dodge_collision (w : World) : bool :=
  existsb (fun i =>
             match dodgeBlocks (dodge w) !! i with
             | Some b =>
                 Block.active b
                 && ((Block.y b >=? DODGE_PLAYER_Y - 1)
                     && blockHitsPlayer (Block.x b) (Block.width b) w)
             | None => false
             end)
          (seq 0 DODGE_MAX_BLOCKS).

Definition handleDodgeGameOver (w : World) : World :=
  let w := saveDodgeHighScore w in
  let w := flash DodgeGameOver w in
  let w := delay 300 w in
  let w := delay DODGE_DEATH_FLASH w in
  let w := resetDodgeGame w in
  with_sketch (set_lastGameIRActivity (millis w)) w.

Definition runDodgeGame (w : World) : World :=
  if elapsed (lastGameIRActivity (sketch w)) w >? DODGE_TIMEOUT_MS then
    let w := with_sketch (set_currentMode CLOCK) w in
    with_sketch (set_lastMin (-1)) w
  else
    let w := dodge_player_move w in
    let w := if dodge_frame_due w then dodge_frame w else w in
    if dodge_collision w then handleDodgeGameOver w else w.

(** ** Snake game tab *)

Definition EEPROM_SNAKE_HIGHSCORE_ADDR : Z := 460.
Definition SNAKE_COLS : Z := 15.
Definition SNAKE_ROWS : Z := 10.
Definition SNAKE_MAX_LENGTH : Z := 24.
Definition SNAKE_INITIAL_SPEED : Z := 300.
Definition SNAKE_MIN_SPEED : Z := 80.
Definition SNAKE_SPEED_STEP : Z := 3.
Definition SNAKE_DEATH_FLASH : Z := 3000.
Definition DIR_UP : Z := 0.
Definition DIR_RIGHT : Z := 1.
Definition DIR_DOWN : Z := 2.
Definition DIR_LEFT : Z := 3.
Definition SNAKE_TIMEOUT_MS : Z := 20000.

Definition loadSnakeHighScore (w : World) : World :=
  let v := to_int (EEPROM_get EEPROM_SNAKE_HIGHSCORE_ADDR w) in
  with_snake (set_snakeHighScore (if (v <? 0) || (v >? 99999) then 0 else v)) w.

Definition saveSnakeHighScore (w : World) : World :=
  if snakeScore (snake w) >? snakeHighScore (snake w) then
    let w := with_snake (fun s => set_snakeHighScore (snakeScore s) s) w in
    EEPROM_put EEPROM_SNAKE_HIGHSCORE_ADDR (snakeHighScore (snake w)) w
  else w.

Definition seg_at (sx sy : Z) (s : SnakeSegment) : bool :=
  (Segment.x s =? sx) && (Segment.y s =? sy).

(** The segments [snakeBody[0 .. n-1]]. *)
Definition body_prefix (n : Z) (w : World) : list SnakeSegment :=
  take (Z.to_nat n) (snakeBody (snake w)).

(** The inner loop of [spawnFood]: is [(fx, fy)] a cell of the snake? *)
Definition snake_occupied (fx fy : Z) (w : World) : bool :=
  existsb (seg_at fx fy) (body_prefix (snakeLength (snake w)) w).

(** The [do ... while (tries < 200)] loop of [spawnFood]; [fuel] bounds the
    number of iterations and is never exhausted from [tries = 0] with
    [fuel = 200]. *)
Fixpoint spawnFood_loop (fuel : nat) (tries : Z) (w : World) : Z * Z * World :=
  let '(rx, w) := random 0 SNAKE_COLS w in
  let fx := to_int8 rx in
  let '(ry, w) := random 0 SNAKE_ROWS w in
  let fy := to_int8 ry in
  let tries := tries + 1 in
  let occupied := snake_occupied fx fy w in
  if negb occupied then (fx, fy, w)
  else if tries <? 200 then
    match fuel with
    | S fuel' => spawnFood_loop fuel' tries w
    | O => (fx, fy, w)
    end
  else (fx, fy, w).

Definition spawnFood (w : World) : World :=
  let '(fx, fy, w) := spawnFood_loop 200 0 w in
  let w := with_snake (set_foodX fx) w in
  with_snake (set_foodY fy) w.

(** [snakeBody[i] = s]. *)
Definition set_segment (i : nat) (s : SnakeSegment) (w : World) : World :=
  with_snake (fun k => set_snakeBody (<[i := s]> (snakeBody k)) k) w.

Definition clear_turn_flags (w : World) : World :=
  let w := with_sketch (set_snakeTurnRight false) w in
  let w := with_sketch (set_snakeTurnLeft false) w in
  let w := with_sketch (set_snakeTurnDown false) w in
  with_sketch (set_snakeTurnUp false) w.

Definition resetSnake (w : World) : World :=
  let w := with_snake (set_snakeLength 3) w in
  let w := with_snake (set_snakeDir DIR_RIGHT) w in
  let w := with_snake (set_snakePendingDir DIR_RIGHT) w in
  let w := with_snake (set_snakeSpeed SNAKE_INITIAL_SPEED) w in
  let w := with_snake (set_snakeScore 0) w in
  let w := with_snake (set_snakeMoveTimer (millis w)) w in
  let w := with_sketch (set_lastGameIRActivity (millis w)) w in
  let w := set_segment 0 (Segment.mk 7 5) w in
  let w := set_segment 1 (Segment.mk 6 5) w in
  let w := set_segment 2 (Segment.mk 5 5) w in
  let w := clear_turn_flags w in
  spawnFood w.

Definition handleSnakeDeath (w : World) : World :=
  let w := saveSnakeHighScore w in
  let w := flash SnakeDeath w in
  let w := Nat.iter 3 (fun w => delay 150 (delay 200 w)) w in
  let w := delay SNAKE_DEATH_FLASH w in
  let w := resetSnake w in
  with_sketch (set_lastGameIRActivity (millis w)) w.

(** [runSnakeGame], "Apply buffered direction input". *)
Definition snake_buffer_input (w : World) : World :=
  let w :=
    if snakeTurnUp (sketch w) && negb (snakeDir (snake w) =? DIR_DOWN)
    then with_snake (set_snakePendingDir DIR_UP) w else w in
  let w :=
    if snakeTurnDown (sketch w) && negb (snakeDir (snake w) =? DIR_UP)
    then with_snake (set_snakePendingDir DIR_DOWN) w else w in
  let w :=
    if snakeTurnLeft (sketch w) && negb (snakeDir (snake w) =? DIR_RIGHT)
    then with_snake (set_snakePendingDir DIR_LEFT) w else w in
  let w :=
    if snakeTurnRight (sketch w) && negb (snakeDir (snake w) =? DIR_LEFT)
    then with_snake (set_snakePendingDir DIR_RIGHT) w else w in
  clear_turn_flags w.

(** The heading of the movement tick: [snakeDir = snakePendingDir]. *)
Definition snake_turn (w : World) : World :=
  with_snake (fun s => set_snakeDir (snakePendingDir s) s) w.

(** "Calculate new head position". *)
Definition snake_new_head (w : World) : Z * Z :=
  let head := snakeBody (snake w) !!! 0%nat in
  let newX := Segment.x head in
  let newY := Segment.y head in
  let newY := if snakeDir (snake w) =? DIR_UP then to_int8 (newY - 1) else newY in
  let newY := if snakeDir (snake w) =? DIR_DOWN then to_int8 (newY + 1) else newY in
  let newX := if snakeDir (snake w) =? DIR_LEFT then to_int8 (newX - 1) else newX in
  let newX := if snakeDir (snake w) =? DIR_RIGHT then to_int8 (newX + 1) else newX in
  (newX, newY).

(** "Shift all segments back one position":
    [for (i = snakeLength - 1; i > 0; i--) snakeBody[i] = snakeBody[i - 1]],
    entered with [i]. *)
Fixpoint shift_body (i : nat) (body : list SnakeSegment) : list SnakeSegment :=
  match i with
  | O => body
  | S j => shift_body j (<[S j := body !!! j]> body)
  end.

(** "Did we eat food?" and what follows, once the new head [(newX, newY)]
    has passed the wall and self-collision tests. *)
Definition snake_step (newX newY : Z) (w : World) : World :=
  let ate := (newX =? foodX (snake w)) && (newY =? foodY (snake w)) in
  let w :=
    if ate && (snakeLength (snake w) <? SNAKE_MAX_LENGTH)
    then with_snake (fun s => set_snakeLength (to_int8 (snakeLength s + 1)) s) w
    else w in
  let w :=
    with_snake
      (fun s => set_snakeBody
                  (shift_body (Z.to_nat (snakeLength s - 1)) (snakeBody s)) s) w in
  let w := set_segment 0 (Segment.mk newX newY) w in
  if ate then
    let w := with_snake (fun s => set_snakeScore (to_int (snakeScore s + 1)) s) w in
    let w :=
      if (Z.rem (snakeScore (snake w)) 5 =? 0)
         && (snakeSpeed (snake w) >? SNAKE_MIN_SPEED)
      then
        let w := with_snake
                   (fun s => set_snakeSpeed
                               (to_int (snakeSpeed s - SNAKE_SPEED_STEP * 5)) s) w in
        if snakeSpeed (snake w) <? SNAKE_MIN_SPEED
        then with_snake (set_snakeSpeed SNAKE_MIN_SPEED) w
        else w
      else w in
    spawnFood w
  else w.

(** "Wall collision". *)
Definition snake_hits_wall (newX newY : Z) : bool :=
  (newX <? 0) || (newX >=? SNAKE_COLS) || (newY <? 0) || (newY >=? SNAKE_ROWS).

(** "Self collision": the loop skips the last segment. *)
Definition snake_hits_self (newX newY : Z) (w : World) : bool :=
  existsb (seg_at newX newY) (body_prefix (snakeLength (snake w) - 1) w).

(** The body of "Move snake on timer". *)
Definition snake_move (w : World) : World :=
  let w := with_snake (set_snakeMoveTimer (millis w)) w in
  let w := snake_turn w in
  let '(newX, newY) := snake_new_head w in
  if snake_hits_wall newX newY then handleSnakeDeath w
  else if snake_hits_self newX newY w then handleSnakeDeath w
  else snake_step newX newY w.

Definition snake_move_due (w : World) : bool :=
  elapsed (snakeMoveTimer (snake w)) w >=? to_ulong (snakeSpeed (snake w)).

Definition runSnakeGame (w : World) : World :=
  if elapsed (lastGameIRActivity (sketch w)) w >? SNAKE_TIMEOUT_MS then
    let w := with_sketch (set_currentMode CLOCK) w in
    with_sketch (set_lastMin (-1)) w
  else
    let w := snake_buffer_input w in
    if snake_move_due w then snake_move w else w.

(** ** Input tab *)

Definition to_clock (w : World) : World :=
  let w := with_sketch (set_currentMode CLOCK) w in
  with_sketch (set_lastMin (-1)) w.

Definition launchGame (choice : Z) (w : World) : World :=
  if choice =? 0 then
    let w := with_sketch (set_currentMode GAME) w in
    let w := with_sketch (set_score 0) w in
    let w := with_dino (set_gameSpeed INITIAL_GAME_SPEED) w in
    let w := with_dino (set_obstacleX OBSTACLE_START_X) w in
    let w := with_dino (set_playerY PLAYER_GROUND_Y) w in
    let w := with_dino (set_isJumping false) w in
    let w := with_sketch (set_lastIRActivity (millis w)) w in
    let w := with_sketch (set_lastGameIRActivity (millis w)) w in
    delay 200 w
  else if choice =? 1 then
    let w := with_sketch (set_currentMode DODGE_GAME) w in
    let w := with_sketch (set_lastGameIRActivity (millis w)) w in
    let w := resetDodgeGame w in
    delay 200 w
  else
    let w := with_sketch (set_currentMode SNAKE_GAME) w in
    let w := with_sketch (set_lastGameIRActivity (millis w)) w in
    let w := resetSnake w in
    delay 200 w.

(** The argument of [launchGame] is a [uint8_t]. *)
Definition launchSelectedGame (w : World) : World :=
  launchGame (gameSelectChoice (sketch w) mod 256) w.

Definition menu_index (m : SettingMenu) : Z :=
  match m with
  | MENU_DIFFICULTY => 0
  | MENU_TIME => 1
  | MENU_DATE => 2
  | MENU_EXIT => 3
  end.

Definition menu_of_index (i : Z) : SettingMenu :=
  if i =? 0 then MENU_DIFFICULTY
  else if i =? 1 then MENU_TIME
  else if i =? 2 then MENU_DATE
  else MENU_EXIT.

Definition menu_step (k : Z) (w : World) : World :=
  with_sketch
    (fun s => set_currentMenu (menu_of_index (Z.rem (menu_index (currentMenu s) + k) 4)) s)
    w.

Definition touch (w : World) : World :=
  with_sketch (set_lastActivity (millis w)) w.

Definition selectMenuItem (w : World) : World :=
  let now := rtc_now w in
  match currentMenu (sketch w) with
  | MENU_DIFFICULTY =>
      let w := with_sketch
                 (fun s => set_difficulty (to_int8 (Z.rem (difficulty s) 5 + 1)) s) w in
      EEPROM_write EEPROM_DIFFICULTY_ADDR (difficulty (sketch w)) w
  | MENU_TIME =>
      let w := with_sketch (set_currentMode SET_TIME) w in
      let w := with_sketch (set_settingStep 0) w in
      let w := with_sketch (set_tempHour (to_int8 (hour now))) w in
      with_sketch (set_tempMinute (to_int8 (minute now))) w
  | MENU_DATE =>
      let w := with_sketch (set_currentMode SET_DATE) w in
      let w := with_sketch (set_settingStep 0) w in
      let w := with_sketch (set_tempYear (to_int (year now))) w in
      let w := with_sketch (set_tempMonth (to_int8 (month now))) w in
      with_sketch (set_tempDay (to_int8 (day now))) w
  | MENU_EXIT =>
      let w := with_sketch (set_currentMode CLOCK) w in
      let w := EEPROM_write EEPROM_DIFFICULTY_ADDR (difficulty (sketch w)) w in
      with_sketch (set_lastMin (-1)) w
  end.

Definition incrementTimeField (w : World) : World :=
  if settingStep (sketch w) =? 0
  then with_sketch (fun s => set_tempHour (to_int8 (Z.rem (tempHour s + 1) 24)) s) w
  else with_sketch (fun s => set_tempMinute (to_int8 (Z.rem (tempMinute s + 1) 60)) s) w.

Definition saveTime (w : World) : World :=
  let now := rtc_now w in
  rtc_adjust
    (mkDateTime (year now) (month now) (day now)
                (tempHour (sketch w)) (tempMinute (sketch w)) 0) w.

Definition incrementDateField (w : World) : World :=
  if settingStep (sketch w) =? 0 then
    let w := with_sketch (fun s => set_tempYear (to_int (tempYear s + 1)) s) w in
    if tempYear (sketch w) >? 2099 then with_sketch (set_tempYear 2000) w else w
  else if settingStep (sketch w) =? 1 then
    let w := with_sketch (fun s => set_tempMonth (to_int8 (tempMonth s + 1)) s) w in
    if tempMonth (sketch w) >? 12 then with_sketch (set_tempMonth 1) w else w
  else
    let w := with_sketch (fun s => set_tempDay (to_int8 (tempDay s + 1)) s) w in
    if tempDay (sketch w) >? 31 then with_sketch (set_tempDay 1) w else w.

Definition saveDate (w : World) : World :=
  let now := rtc_now w in
  rtc_adjust
    (mkDateTime (tempYear (sketch w)) (tempMonth (sketch w)) (tempDay (sketch w))
                (hour now) (minute now) (second now)) w.

Definition next_step (w : World) : World :=
  with_sketch (fun s => set_settingStep (to_int8 (settingStep s + 1)) s) w.

Definition any_line (p : Lines) : bool :=
  lnReturn p || lnUp p || lnDown p || lnLeft p || lnRight p || lnOk p
  || lnGame1 p || lnGame2 p || lnGame3 p || lnOptions p.

(** The rising edges: asserted now and not at the previous pass. *)
Definition edges (pin last : Lines) : Lines :=
  mkLines (lnReturn pin && negb (lnReturn last))
          (lnUp pin && negb (lnUp last))
          (lnDown pin && negb (lnDown last))
          (lnLeft pin && negb (lnLeft last))
          (lnRight pin && negb (lnRight last))
          (lnOk pin && negb (lnOk last))
          (lnGame1 pin && negb (lnGame1 last))
          (lnGame2 pin && negb (lnGame2 last))
          (lnGame3 pin && negb (lnGame3 last))
          (lnOptions pin && negb (lnOptions last)).

(** [handleIRInput], "MODE DISPATCH", on the edges [e]. *)
Definition mode_dispatch (e : Lines) (w : World) : World :=
  match currentMode (sketch w) with
  | CLOCK =>
      if lnGame1 e then launchGame 0 w
      else if lnGame2 e then launchGame 1 w
      else if lnGame3 e then launchGame 2 w
      else if lnOptions e then
        let w := with_sketch (set_currentMode SETTING) w in
        let w := with_sketch (set_currentMenu MENU_DIFFICULTY) w in
        touch w
      else w
  | GAME_SELECT =>
      let w :=
        if lnReturn e then to_clock w
        else if lnUp e then
          with_sketch
            (fun s => set_gameSelectChoice (to_int8 (Z.rem (gameSelectChoice s + 2) 3)) s) w
        else if lnDown e then
          with_sketch
            (fun s => set_gameSelectChoice (to_int8 (Z.rem (gameSelectChoice s + 1) 3)) s) w
        else if lnOk e then launchSelectedGame w
        else w in
      if elapsed (lastIRActivity (sketch w)) w >? 10000 then to_clock w else w
  | GAME =>
      if lnReturn e then to_clock w
      else if lnUp e || lnDown e || lnLeft e || lnRight e || lnOk e
      then with_sketch (set_irJumpTriggered true) w
      else w
  | DODGE_GAME =>
      if lnReturn e then to_clock w
      else
        let w := if lnLeft e then with_dodge (set_dodgeMoveLeft true) w else w in
        if lnRight e then with_dodge (set_dodgeMoveRight true) w else w
  | SNAKE_GAME =>
      if lnReturn e then to_clock w
      else
        let w := if lnUp e then with_sketch (set_snakeTurnUp true) w else w in
        let w := if lnDown e then with_sketch (set_snakeTurnDown true) w else w in
        let w := if lnLeft e then with_sketch (set_snakeTurnLeft true) w else w in
        if lnRight e then with_sketch (set_snakeTurnRight true) w else w
  | SETTING =>
      if lnReturn e then
        let w := with_sketch (set_currentMode CLOCK) w in
        let w := EEPROM_write EEPROM_DIFFICULTY_ADDR (difficulty (sketch w)) w in
        with_sketch (set_lastMin (-1)) w
      else
        let w := if lnDown e then touch (menu_step 1 w) else w in
        let w := if lnUp e then touch (menu_step 3 w) else w in
        if lnOk e then touch (selectMenuItem w) else w
  | SET_TIME =>
      if lnReturn e then touch (with_sketch (set_currentMode SETTING) w)
      else
        let w := if lnUp e || lnDown e then touch (incrementTimeField w) else w in
        if lnOk e then
          let w :=
            if settingStep (sketch w) <? 1 then next_step w
            else to_clock (saveTime w) in
          touch w
        else w
  | SET_DATE =>
      if lnReturn e then touch (with_sketch (set_currentMode SETTING) w)
      else
        let w := if lnUp e || lnDown e then touch (incrementDateField w) else w in
        if lnOk e then
          let w :=
            if settingStep (sketch w) <? 2 then next_step w
            else to_clock (saveDate w) in
          touch w
        else w
  end.

Definition handleIRInput (pin : Lines) (w : World) : World :=
  let e := edges pin (lastLines w) in
  let w :=
    if any_line pin then
      let w := with_sketch (set_lastIRActivity (millis w)) w in
      with_sketch (set_lastGameIRActivity (millis w)) w
    else w in
  let w := mode_dispatch e w in
  set_lastLines pin w.

Definition handleShortPress (w : World) : World :=
  let w := touch w in
  match currentMode (sketch w) with
  | SETTING => menu_step 1 w
  | SET_TIME => incrementTimeField w
  | SET_DATE => incrementDateField w
  | GAME_SELECT =>
      with_sketch
        (fun s => set_gameSelectChoice (to_int8 (Z.rem (gameSelectChoice s + 1) 3)) s) w
  | _ => w
  end.

Definition handleMediumHold (w : World) : World :=
  match currentMode (sketch w) with
  | CLOCK =>
      let w := with_sketch (set_currentMode SETTING) w in
      let w := with_sketch (set_currentMenu MENU_DIFFICULTY) w in
      touch w
  | _ => w
  end.

Definition handleLongPress (w : World) : World :=
  let w := touch w in
  match currentMode (sketch w) with
  | SETTING => selectMenuItem w
  | SET_TIME =>
      if settingStep (sketch w) =? 0 then with_sketch (set_settingStep 1) w
      else to_clock (saveTime w)
  | SET_DATE =>
      if settingStep (sketch w) <? 2 then next_step w
      else to_clock (saveDate w)
  | GAME_SELECT => launchSelectedGame w
  | _ => w
  end.

Definition editing (m : Mode) : bool :=
  match m with
  | SETTING | SET_TIME | SET_DATE => true
  | _ => false
  end.

Definition handleButton (btnPressed : bool) (w : World) : World :=
  let w :=
    if btnPressed && negb (btnActive (sketch w)) then
      let w := with_sketch (set_btnTimer (millis w)) w in
      let w := with_sketch (set_btnActive true) w in
      with_sketch (set_btnMediumFired false) w
    else w in
  let w :=
    if btnActive (sketch w) && btnPressed then
      if negb (btnMediumFired (sketch w))
         && (elapsed (btnTimer (sketch w)) w >=? BUTTON_MEDIUM_PRESS_MS)
      then handleMediumHold (with_sketch (set_btnMediumFired true) w)
      else w
    else w in
  if btnActive (sketch w) && negb btnPressed then
    let dur := elapsed (btnTimer (sketch w)) w in
    let w := with_sketch (set_btnActive false) w in
    if btnMediumFired (sketch w) then
      if (dur >=? BUTTON_LONG_PRESS_MS) && editing (currentMode (sketch w))
      then handleLongPress w
      else w
    else if dur <? BUTTON_SHORT_PRESS_MS then handleShortPress w
    else w
  else w.

(** ** The math tab: equations for the clock face *)

(** A format string of [getEquation] together with its arguments:
    ["%d"], ["%d+%d"] and the like, ["%dx%d+%d"] and the like.  The
    multiplication sign is the letter [x]. *)
Inductive Op : Type := Plus | Minus | Times | Divide.

Inductive Equation : Type :=
  | Num (a : Z)
  | Bin (a : Z) (o : Op) (b : Z)
  | Tri (a : Z) (o1 : Op) (b : Z) (o2 : Op) (c : Z).

Definition op_text (o : Op) : string :=
  match o with
  | Plus => "+"
  | Minus => "-"
  | Times => "x"
  | Divide => "/"
  end.

(** The conversion [%d]. *)
Definition fmt_d (n : Z) : string := NilZero.string_of_int (Z.to_int n).

Definition text (e : Equation) : string :=
  match e with
  | Num a => fmt_d a
  | Bin a o b => fmt_d a +:+ op_text o +:+ fmt_d b
  | Tri a o1 b o2 c =>
      fmt_d a +:+ op_text o1 +:+ fmt_d b +:+ op_text o2 +:+ fmt_d c
  end.

(** [snprintf] into a buffer of [size] bytes keeps [size - 1] characters. *)
Definition snprintf (size : nat) (e : Equation) : string :=
  String.substring 0 (size - 1) (text e).

(** The macro [TRY]: format into [_tmp], and copy to [_eqBuf] only what
    fits in five characters. *)
Definition TRY (e : Equation) (_eqBuf : string) : string :=
  let _tmp := snprintf 12 e in
  if (String.length _tmp <=? 5)%nat then _tmp else _eqBuf.

(** [for (int factor = 9; factor >= 2; factor--)], left by [break] at the
    first factor the body accepts. *)
Definition factors : list Z := [9; 8; 7; 6; 5; 4; 3; 2].

Definition divides (product factor : Z) : bool :=
  Z.rem product factor =? 0.

(** The factor loop of level 5: it stops at the first factor that divides
    [product] with a one-digit quotient; [eqn] builds the text from the
    factor and the quotient. *)
Definition small_factor (product : Z) (eqn : Z -> Z -> Equation)
    (_eqBuf : string) : string :=
  match find (fun factor =>
                divides product factor
                && (to_int (Z.quot product factor) <=? 9)) factors with
  | Some factor => TRY (eqn factor (to_int (Z.quot product factor))) _eqBuf
  | None => _eqBuf
  end.

Definition equation_level1 (target : Z) (_eqBuf : string) (w : World)
    : string * World :=
  let '(r, w) := random 0 (to_int (target + 1)) w in
  let a := to_int r in
  let b := to_int (target - a) in
  (TRY (Bin a Plus b) _eqBuf, w).

Definition equation_level2 (target : Z) (_eqBuf : string) (w : World)
    : string * World :=
  let '(r, w) := random 0 2 w in
  if r =? 0 then
    let '(r, w) := random 0 (Z.min (to_int (target + 1)) 50) w in
    let a := to_int r in
    let b := to_int (target - a) in
    (if (b >=? 0) && (b <=? 50) then TRY (Bin a Plus b) _eqBuf else _eqBuf, w)
  else
    let '(r, w) := random target (Z.min (to_int (target + 50)) 99) w in
    let a := to_int r in
    let b := to_int (a - target) in
    (TRY (Bin a Minus b) _eqBuf, w).

(** Addition and subtraction with numbers up to 99, as levels 3 and 4
    both have them. *)
Definition equation_add_high (target : Z) (_eqBuf : string) (w : World)
    : string * World :=
  let '(r, w) := random 0 (Z.min 100 (to_int (target + 1))) w in
  let a := to_int r in
  let b := to_int (target - a) in
  (if (b >=? 0) && (b <=? 99) then TRY (Bin a Plus b) _eqBuf else _eqBuf, w).

Definition equation_sub_high (target : Z) (_eqBuf : string) (w : World)
    : string * World :=
  let '(r, w) := random target 100 w in
  let a := to_int r in
  let b := to_int (a - target) in
  (if b <=? 99 then TRY (Bin a Minus b) _eqBuf else _eqBuf, w).

Definition equation_level3 (target : Z) (_eqBuf : string) (w : World)
    : string * World :=
  let '(r, w) := random 0 3 w in
  let opChoice := to_int r in
  if opChoice =? 0 then equation_add_high target _eqBuf w
  else if opChoice =? 1 then equation_sub_high target _eqBuf w
  else
    let '(r, w) := random 2 9 w in
    let b := to_int r in
    let a := to_int (target * b) in
    (if a <=? 999 then TRY (Bin a Divide b) _eqBuf else _eqBuf, w).

Definition equation_level4 (target : Z) (_eqBuf : string) (w : World)
    : string * World :=
  let '(r, w) := random 0 3 w in
  let opChoice := to_int r in
  if (opChoice =? 0) && (target >=? 2) then
    (match find (divides target) factors with
     | Some factor =>
         TRY (Bin factor Times (to_int (Z.quot target factor))) _eqBuf
     | None => _eqBuf
     end, w)
  else if opChoice =? 1 then equation_add_high target _eqBuf w
  else equation_sub_high target _eqBuf w.

Definition equation_level5 (target : Z) (_eqBuf : string) (w : World)
    : string * World :=
  let '(r, w) := random 0 6 w in
  let pattern := to_int r in
  if (pattern =? 0) && (target >=? 2) then
    let '(r, w) := random 1 target w in
    let c := to_int r in
    let product := to_int (target - c) in
    (if product >? 0
     then small_factor product (fun f q => Tri f Times q Plus c) _eqBuf
     else _eqBuf, w)
  else if (pattern =? 1) && (target >=? 2) then
    let '(r, w) := random 1 20 w in
    let c := to_int r in
    let product := to_int (target + c) in
    (small_factor product (fun f q => Tri f Times q Minus c) _eqBuf, w)
  else if (pattern =? 2) && (target >=? 2) then
    let '(r, w) := random 1 target w in
    let c := to_int r in
    let quotient := to_int (target - c) in
    if quotient >? 0 then
      let '(r, w) := random 2 9 w in
      let b := to_int r in
      let a := to_int (quotient * b) in
      (if a <=? 99 then TRY (Tri a Divide b Plus c) _eqBuf else _eqBuf, w)
    else (_eqBuf, w)
  else if (pattern =? 3) && (target >=? 2) then
    let '(r, w) := random 1 30 w in
    let c := to_int r in
    let quotient := to_int (target + c) in
    let '(r, w) := random 2 9 w in
    let b := to_int r in
    let a := to_int (quotient * b) in
    (if a <=? 99 then TRY (Tri a Divide b Minus c) _eqBuf else _eqBuf, w)
  else if (pattern =? 4) && (target >=? 2) then
    let '(r, w) := random 1 target w in
    let a := to_int r in
    let product := to_int (target - a) in
    (if product >? 0
     then small_factor product (fun f q => Tri a Plus f Times q) _eqBuf
     else _eqBuf, w)
  else if (pattern =? 5) && (target >=? 2) then
    let '(r, w) := random 2 50 w in
    let product := to_int r in
    let a := to_int (target + product) in
    (if a <=? 99
     then small_factor product (fun f q => Tri a Minus f Times q) _eqBuf
     else _eqBuf, w)
  else (_eqBuf, w).

(** One attempt: the buffer is cleared, then the level writes to it or
    leaves it empty. *)
Definition equation_attempt (target lvl : Z) (w : World) : string * World :=
  let _eqBuf := EmptyString in
  if lvl =? 1 then equation_level1 target _eqBuf w
  else if lvl =? 2 then equation_level2 target _eqBuf w
  else if lvl =? 3 then equation_level3 target _eqBuf w
  else if lvl =? 4 then equation_level4 target _eqBuf w
  else if lvl =? 5 then equation_level5 target _eqBuf w
  else equation_level1 target _eqBuf w.

Definition fits (_eqBuf : string) : bool :=
  negb (String.eqb _eqBuf EmptyString) && (String.length _eqBuf <=? 5)%nat.

(** The attempts of [getEquation]: [inl] is the text returned from inside
    the loop, [inr] the buffer left when the attempts are used up. *)
Fixpoint equation_attempts (attempts : nat) (target lvl : Z)
    (_eqBuf : string) (w : World) : (string + string) * World :=
  match attempts with
  | O => (inr _eqBuf, w)
  | S n =>
      let '(_eqBuf, w) := equation_attempt target lvl w in
      if fits _eqBuf then (inl _eqBuf, w)
      else equation_attempts n target lvl _eqBuf w
  end.

(** [getEquation], from the content [_eqBuf] of the static buffer; the
    text returned is the buffer's, or the literal for zero. *)
Definition getEquation (target lvl : Z) (_eqBuf : string) (w : World)
    : string * World :=
  if target =? 0 then ("0+0"%string, w)
  else
    match equation_attempts 150 target lvl _eqBuf w with
    | (inl found, w) => (found, w)
    | (inr _eqBuf, w) =>
        let '(r, w) := random 0 (Z.min (to_int (target + 1)) 9) w in
        let a := to_int r in
        let b := to_int (target - a) in
        let _eqBuf := TRY (Bin a Plus b) _eqBuf in
        let _eqBuf :=
          if (5 <? String.length _eqBuf)%nat then TRY (Num target) _eqBuf
          else _eqBuf in
        (_eqBuf, w)
    end.

(** [updateClock]: at a change of minute the two rows are made by
    [getEquation], which takes values from the random source; the texts
    are drawn and not kept.  [getEquation] clears its static buffer before
    it reads it, so the buffer is no part of the state and the calls start
    from an empty one. *)
Definition updateClock (w : World) : World :=
  let now := rtc_now w in
  if negb (minute now =? lastMin (sketch w)) then
    let '(_, w) := getEquation (hour now) (difficulty (sketch w)) EmptyString w in
    let '(_, w) := getEquation (minute now) (difficulty (sketch w)) EmptyString w in
    with_sketch (set_lastMin (to_int8 (minute now))) w
  else w.

Definition runSettingsMenu (w : World) : World :=
  if elapsed (lastActivity (sketch w)) w >? SETTINGS_TIMEOUT_MS then
    let w := with_sketch (set_currentMode CLOCK) w in
    let w := EEPROM_write EEPROM_DIFFICULTY_ADDR (difficulty (sketch w)) w in
    with_sketch (set_lastMin (-1)) w
  else w.

(** [runTimeSettingMode] and [runDateSettingMode] only draw. *)
Definition runTimeSettingMode (w : World) : World := w.
Definition runDateSettingMode (w : World) : World := w.

(** ** Main sketch *)

Definition runGameSelectMenu (w : World) : World :=
  if elapsed (lastIRActivity (sketch w)) w >? 10000 then to_clock w else w.

(** What one pass through [loop] reads from outside: the time, the ten
    lines of the remote-control decoder and the push button. *)
Record Input : Type := mkInput {
  in_millis : Z;
  in_lines : Lines;
  in_button : bool
}.

Definition loop (i : Input) (w : World) : World :=
  let w := with_hw (set_clock (to_ulong (in_millis i))) w in
  let w := handleButton (in_button i) w in
  let w := handleIRInput (in_lines i) w in
  let now := rtc_now w in
  match currentMode (sketch w) with
  | GAME =>
      let w :=
        if elapsed (lastGameIRActivity (sketch w)) w >? GAME_TIMEOUT_MS
        then to_clock w else w in
      runDinoGame w
  | DODGE_GAME => runDodgeGame w
  | SNAKE_GAME => runSnakeGame w
  | GAME_SELECT => runGameSelectMenu w
  | SETTING => runSettingsMenu w
  | SET_TIME => runTimeSettingMode w
  | SET_DATE => runDateSettingMode w
  | CLOCK =>
      if (hour now =? 7) && (minute now =? 30) then w else updateClock w
  end.

Definition no_lines : Lines :=
  mkLines false false false false false false false false false false.

(** The globals as their declarations initialise them. *)
Definition power_on (h : Hw) : World :=
  mkWorld
    (mkSketch CLOCK MENU_DIFFICULTY 0 0 0 0 2025 1 1 1 0 0 (-1)
              0 false false 0 0 false false false false false 0)
    no_lines
    (mkDino PLAYER_GROUND_Y false 0 OBSTACLE_START_X GROUND_OBSTACLE
            INITIAL_GAME_SPEED 0)
    (mkDodge DODGE_PLAYER_START_X DODGE_INITIAL_SPEED 0 0
             (replicate DODGE_MAX_BLOCKS (Block.mk 0 0 0 false)) 0 false false)
    (mkSnake (replicate (Z.to_nat SNAKE_MAX_LENGTH) (Segment.mk 0 0))
             0 DIR_RIGHT DIR_RIGHT 0 0 SNAKE_INITIAL_SPEED 0 0 0)
    h.

Definition setup (h : Hw) : World :=
  let w := power_on h in
  let w := with_sketch
             (set_difficulty (to_int8 (EEPROM_read EEPROM_DIFFICULTY_ADDR w))) w in
  let w :=
    if (difficulty (sketch w) <? 1) || (difficulty (sketch w) >? 5) then
      let w := with_sketch (set_difficulty 1) w in
      EEPROM_write EEPROM_DIFFICULTY_ADDR (difficulty (sketch w)) w
    else w in
  let w := with_sketch
             (set_highScore (to_int (EEPROM_get EEPROM_HIGHSCORE_ADDR w))) w in
  let w :=
    if (highScore (sketch w) <? 0) || (highScore (sketch w) >? 9999)
    then with_sketch (set_highScore 0) w else w in
  let w := loadDodgeHighScore w in
  let w := loadSnakeHighScore w in
  let w := with_sketch (set_lastIRActivity (millis w)) w in
  with_sketch (set_lastGameIRActivity (millis w)) w.

(** A run of the sketch: [setup], then one pass through [loop] per input. *)
Definition run (inputs : list Input) (w : World) : World :=
  foldl (fun w i => loop i w) w inputs.

(** ** Scenarios

    Concrete hardware, line levels and input sequences used by the
    examples below.  Every scenario starts from [setup] on a blank EEPROM
    at time 0. *)

Definition blank_hw (draws : nat -> Z) : Hw :=
  mkHw 0 draws 0 ∅ [] (mkDateTime 2025 1 1 12 0 0) [].

Definition line_up : Lines :=
  mkLines false true false false false false false false false false.
Definition line_down : Lines :=
  mkLines false false true false false false false false false false.
Definition line_left : Lines :=
  mkLines false false false true false false false false false false.
Definition line_right : Lines :=
  mkLines false false false false true false false false false false.
Definition line_ok : Lines :=
  mkLines false false false false false true false false false false.
Definition line_game1 : Lines :=
  mkLines false false false false false false true false false false.
Definition line_game2 : Lines :=
  mkLines false false false false false false false true false false.
Definition line_game3 : Lines :=
  mkLines false false false false false false false false true false.

Definition line_options : Lines :=
  mkLines false false false false false false false false false true.

(** The first [n] passes through [loop] of a session: pass 0 at time 0,
    pass [k] at time [start + period * k], with the line levels [lines k]
    and the push button released.  [start] leaves room for the 200 ms
    splash of [launchGame] at pass 0. *)
Definition pass_time (start period : Z) (k : nat) : Z :=
  if (k =? 0)%nat then 0 else start + period * Z.of_nat k.

Definition passes (start period : Z) (lines : nat -> Lines) (n : nat)
  : list Input :=
  (fun k => mkInput (pass_time start period k) (lines k) false) <$> seq 0 n.

(** Dodge: button 2 launches the game; the player then taps LEFT and RIGHT
    in turn every two seconds; the generator always draws 0, so that every
    block is one column wide and falls in column 0. *)
Definition dodge_lines (k : nat) : Lines :=
  if (k =? 0)%nat then line_game2
  else if (k mod 20 =? 10)%nat then line_left
  else if (k mod 20 =? 0)%nat then line_right
  else no_lines.

Definition dodge_session (n : nat) : World :=
  run (passes 0 200 dodge_lines n) (setup (blank_hw (fun _ => 0))).

(** Dino: button 1 launches the game, UP is pressed at pass 12 and, when
    [again] is set, once more at pass 14, while the first jump is still in
    progress.  Without any press the first obstacle runs into the player
    at pass 12. *)
Definition dino_lines (again : bool) (k : nat) : Lines :=
  if (k =? 0)%nat then line_game1
  else if (k =? 12)%nat then line_up
  else if (k =? 14)%nat then (if again then line_up else no_lines)
  else no_lines.

Definition dino_idle_lines (k : nat) : Lines :=
  if (k =? 0)%nat then line_game1 else no_lines.

(** The world in which [runDinoGame] is entered at pass 12 of the session
    without presses. *)
Definition dino_hit_world : World :=
  handleIRInput no_lines
    (handleButton false
       (with_hw (set_clock (to_ulong (pass_time 200 110 12)))
          (run (passes 200 110 dino_idle_lines 12)
               (setup (blank_hw (fun _ => 0)))))).

Definition dino_session (again : bool) (n : nat) : World :=
  run (passes 200 110 (dino_lines again) n) (setup (blank_hw (fun _ => 0))).

(** Snake: button 3 launches the game; the first food lands on (8,5), in
    front of the head; from then on the generator only draws the cell
    (7,5).  The player steers DOWN, LEFT, UP around a square. *)
Definition snake_draws (n : nat) : Z :=
  if (n =? 0)%nat then 8 else if Nat.even n then 7 else 5.

Definition snake_lines (k : nat) : Lines :=
  match k with
  | 0%nat => line_game3
  | 2%nat => line_down
  | 3%nat => line_left
  | 4%nat => line_up
  | _ => no_lines
  end.

Definition snake_session (n : nat) : World :=
  run (passes 0 400 snake_lines n) (setup (blank_hw snake_draws)).

(** Settings: OPTIONS opens the menu, DOWN moves to the second (Time) or
    third (Date) item, OK enters the editor. *)
Definition edit_lines (downs : nat) (k : nat) : Lines :=
  if (k =? 0)%nat then line_options
  else if Nat.even k then no_lines
  else if (k <? 2 * downs)%nat then line_down
  else if (k =? 2 * downs + 1)%nat then line_ok
  else no_lines.

Definition set_time_session : World :=
  run (passes 0 200 (edit_lines 1) 6) (setup (blank_hw (fun _ => 0))).

Definition set_date_session : World :=
  run (passes 0 200 (edit_lines 2) 8) (setup (blank_hw (fun _ => 0))).

(** Dodge with a block falling on the player: one column wide, in the
    player's column 7. *)
Definition dodge_hit_draws (n : nat) : Z := if Nat.even n then 0 else 7.

Definition dodge_hit_session (n : nat) : World :=
  run (passes 0 200 dodge_lines n) (setup (blank_hw dodge_hit_draws)).

(** The world in which [runDodgeGame] is entered at the ninth pass of that
    session, at time 1600. *)
Definition dodge_hit_world : World :=
  handleIRInput no_lines
    (handleButton false
       (with_hw (set_clock (to_ulong 1600)) (dodge_hit_session 8))).

(** ** Vocabulary of the statements *)

(** The state in which [runDinoGame] evaluates its collision rule. *)
Definition dino_before_collision (w : World) : World :=
  dino_move_obstacle (dino_player_y (dino_jump_end (dino_jump_input w))).

(** The state in which [runDodgeGame] evaluates its collision rule, when
    the game has not timed out. *)
Definition dodge_before_collision (w : World) : World :=
  let w := dodge_player_move w in
  if dodge_frame_due w then dodge_frame w else w.

Definition dodge_timed_out (w : World) : bool :=
  elapsed (lastGameIRActivity (sketch w)) w >? DODGE_TIMEOUT_MS.

(** Number of active blocks. *)
Definition active_blocks (w : World) : Z :=
  Z.of_nat (length (List.filter Block.active (dodgeBlocks (dodge w)))).

(** The heading at 180 degrees of [d]. *)
Definition opposite (d : Z) : Z :=
  if d =? DIR_UP then DIR_DOWN
  else if d =? DIR_DOWN then DIR_UP
  else if d =? DIR_LEFT then DIR_RIGHT
  else DIR_LEFT.

(** The edge raised by one press of the direction key for heading [d]. *)
Definition turn_edge (d : Z) : Lines :=
  if d =? DIR_UP then line_up
  else if d =? DIR_DOWN then line_down
  else if d =? DIR_LEFT then line_left
  else line_right.

(** The cell tried by the [k]-th iteration of the retry loop of
    [spawnFood] entered in [w] (counting from 0). *)
Definition food_candidate (w : World) (k : nat) : Z * Z :=
  let p := (rngPos (hw w) + 2 * k)%nat in
  (to_int8 (rngDraws (hw w) p mod (SNAKE_COLS - 0) + 0),
   to_int8 (rngDraws (hw w) (S p) mod (SNAKE_ROWS - 0) + 0)).

(** [w] with [n] more random values consumed. *)
Definition rng_advance (n : nat) (w : World) : World :=
  with_hw (fun h => set_rngPos (rngPos h + n)%nat h) w.

(** [w] with the food at [(fx, fy)] and [n] more random values consumed. *)
Definition food_placed (fx fy : Z) (n : nat) (w : World) : World :=
  with_snake (set_foodY fy) (with_snake (set_foodX fx) (rng_advance n w)).

(** No buffered direction input is pending. *)
Definition flags_clear (w : World) : Prop :=
  snakeTurnUp (sketch w) = false /\ snakeTurnDown (sketch w) = false
  /\ snakeTurnLeft (sketch w) = false /\ snakeTurnRight (sketch w) = false.

(** The idle window of each mode and the activity timestamp it is measured
    against; [None] for the modes whose code compares no timestamp. *)
Definition idle_window (m : Mode) : option Z :=
  match m with
  | GAME => Some GAME_TIMEOUT_MS
  | DODGE_GAME => Some DODGE_TIMEOUT_MS
  | SNAKE_GAME => Some SNAKE_TIMEOUT_MS
  | GAME_SELECT => Some 10000
  | SETTING => Some SETTINGS_TIMEOUT_MS
  | CLOCK | SET_TIME | SET_DATE => None
  end.

Definition activity_stamp (m : Mode) (w : World) : Z :=
  match m with
  | GAME | DODGE_GAME | SNAKE_GAME => lastGameIRActivity (sketch w)
  | GAME_SELECT => lastIRActivity (sketch w)
  | SETTING => lastActivity (sketch w)
  | CLOCK | SET_TIME | SET_DATE => 0
  end.

(** A pass through [loop] at time [now] with every line idle and the push
    button released. *)
Definition idle_pass (now : Z) : Input := mkInput now no_lines false.

(** [keeps w w']: the mode and the record of flash sequences are the
    same in [w'] as in [w]. *)
Definition keeps (w w' : World) : Prop :=
  currentMode (sketch w') = currentMode (sketch w)
  /\ trace (hw w') = trace (hw w).

(** The functions that keep both, whatever their argument. *)
Class Keeps (f : World -> World) : Prop :=
  keeps_app : forall w x : World, keeps w x -> keeps w (f x).

(** The segments in use, head first. *)
Definition snake_segments (w : World) : list SnakeSegment :=
  body_prefix (snakeLength (snake w)) w.

(** The body array has its declared size and the length is within it. *)
Definition snake_wf (w : World) : Prop :=
  length (snakeBody (snake w)) = Z.to_nat SNAKE_MAX_LENGTH
  /\ 1 <= snakeLength (snake w) <= SNAKE_MAX_LENGTH.

(** Dodge: the interval starts even and loses 2 at a time while it is
    above the odd [DODGE_MIN_SPEED]; what it never goes below is
    [DODGE_MIN_SPEED - 1]. *)
Definition dodge_ramp (w w' : World) : Prop :=
  (DODGE_MIN_SPEED - 1 <= dodgeSpeed (dodge w') <= dodgeSpeed (dodge w)
   /\ exists k, dodgeSpeed (dodge w') = 2 * k)
  /\ dodgeScore (dodge w) <= dodgeScore (dodge w').

(** ** The font index of a character *)

(** [getCharIdx]; [char] is signed. *)
Definition char_code (c : Ascii.ascii) : Z :=
  to_int8 (Z.of_N (Ascii.N_of_ascii c)).

Definition getCharIdx (ch : Ascii.ascii) : Z :=
  let c := char_code ch in
  if (c >=? 48) && (c <=? 57) then to_int (c - 48)
  else if c =? 43 then 10
  else if c =? 45 then 11
  else if c =? 120 then 12
  else if c =? 47 then 13
  else if (c >=? 65) && (c <=? 90) then to_int (14 + (c - 65))
  else if c =? 60 then 40
  else if c =? 61 then 41
  else -1.

(** What an equation text says.  Multiplication and division bind tighter
    than addition and subtraction; a division counts only when it is
    exact. *)
Definition apply_op (o : Op) (a b : Z) : option Z :=
  match o with
  | Plus => Some (a + b)
  | Minus => Some (a - b)
  | Times => Some (a * b)
  | Divide => if (b =? 0) || negb (a mod b =? 0) then None else Some (a / b)
  end.

Definition binds_tighter (o : Op) : bool :=
  match o with
  | Times | Divide => true
  | Plus | Minus => false
  end.

Definition value (e : Equation) : option Z :=
  match e with
  | Num a => Some a
  | Bin a o b => apply_op o a b
  | Tri a o1 b o2 c =>
      if binds_tighter o2 && negb (binds_tighter o1)
      then apply_op o2 b c ≫= apply_op o1 a
      else apply_op o1 a b ≫= fun v => apply_op o2 v c
  end.

Definition operands (e : Equation) : list Z :=
  match e with
  | Num a => [a]
  | Bin a _ b => [a; b]
  | Tri a _ b _ c => [a; b; c]
  end.

(** [s] is the text of an equation over natural numbers whose value is
    [target]. *)
Definition reads_as (target : Z) (s : string) : Prop :=
  exists e : Equation,
    s = text e /\ value e = Some target /\ Forall (fun n => 0 <= n) (operands e).

(** The characters of a text. *)
Definition chars (s : string) : list Ascii.ascii := String.list_ascii_of_string s.

(** A powered-on sketch whose random source yields 3, 10, 17, ... *)
Definition equation_world : World :=
  power_on (blank_hw (fun n => Z.of_nat n * 7 + 3)).

(** A world in which each game has just beaten its high score. *)
Definition record_world : World :=
  with_snake (set_snakeScore 4)
    (with_dodge (set_dodgeScore 7)
       (with_sketch (set_score 5) equation_world)).

(** ** Invariants of the engines *)

(** Dino: the obstacle is on the grid and of one of the two kinds, the
    frame interval is within its limits, the player is on one of its two
    rows. *)
Definition dino_ok (w : World) : Prop :=
  0 <= obstacleX (dino w) <= OBSTACLE_START_X
  /\ (obstacleType (dino w) = GROUND_OBSTACLE
      \/ obstacleType (dino w) = AIR_OBSTACLE)
  /\ MIN_GAME_SPEED <= gameSpeed (dino w) <= INITIAL_GAME_SPEED
  /\ (playerY (dino w) = PLAYER_AIR_Y \/ playerY (dino w) = PLAYER_GROUND_Y).

(** Dodge: a falling block covers one to three columns of the grid and is
    on one of its rows. *)
Definition block_ok (b : DodgeBlock) : Prop :=
  Block.active b = true ->
  1 <= Block.width b <= 3
  /\ 0 <= Block.x b /\ Block.x b + Block.width b <= DODGE_COLS
  /\ 0 <= Block.y b <= DODGE_PLAYER_Y.

(** Dodge: the player is on a column of the grid, both slots hold blocks
    that are on the grid while they fall, and the frame interval is an even
    number within its limits. *)
Definition dodge_ok (w : World) : Prop :=
  0 <= dodgePlayerX (dodge w) <= DODGE_COLS - 1
  /\ length (dodgeBlocks (dodge w)) = DODGE_MAX_BLOCKS
  /\ Forall block_ok (dodgeBlocks (dodge w))
  /\ DODGE_MIN_SPEED - 1 <= dodgeSpeed (dodge w) <= DODGE_INITIAL_SPEED
  /\ exists k, dodgeSpeed (dodge w) = 2 * k.

(** Snake: a cell of the grid. *)
Definition in_grid (s : SnakeSegment) : Prop :=
  0 <= Segment.x s < SNAKE_COLS /\ 0 <= Segment.y s < SNAKE_ROWS.

(** Snake: the body array and the length are in order, every segment and
    the food are on the grid, the heading and the buffered heading are
    directions, and the move interval is within its limits. *)
Definition snake_ok (w : World) : Prop :=
  snake_wf w
  /\ Forall in_grid (snake_segments w)
  /\ in_grid (Segment.mk (foodX (snake w)) (foodY (snake w)))
  /\ DIR_UP <= snakeDir (snake w) <= DIR_LEFT
  /\ DIR_UP <= snakePendingDir (snake w) <= DIR_LEFT
  /\ SNAKE_MIN_SPEED <= snakeSpeed (snake w) <= SNAKE_INITIAL_SPEED.

(** ** What the engines leave alone *)

(** [same obs w w']: the observation [obs] gives the same in [w'] as in
    [w]. *)
Definition same {A : Type} (obs : World -> A) (w w' : World) : Prop :=
  obs w' = obs w.

(** The functions that keep an observation. *)
Class Frames {A : Type} (obs : World -> A) (f : World -> World) : Prop :=
  frames_app : forall w x : World, same obs w x -> same obs w (f x).

(** The settings, the staging fields of the editors and the state of the
    push button. *)
Definition sketch_settings (s : Sketch) :=
  (difficulty s, gameSelectChoice s, currentMenu s, settingStep s,
   (tempHour s, tempMinute s), (tempYear s, tempMonth s, tempDay s),
   (btnTimer s, btnActive s, btnMediumFired s, lastActivity s)).

(** The same, with the time of the RTC. *)
Definition settings_of (w : World) := (sketch_settings (sketch w), rtcTime (hw w)).

(** [spares w w']: the settings and the RTC are the same in [w'] as in
    [w]. *)
Definition spares (w w' : World) : Prop := same settings_of w w'.

Class Spares (f : World -> World) : Prop :=
  spares_app : forall w x : World, spares w x -> spares w (f x).


(** The two values that index the tables of the menus: the difficulty
    (colours of the five levels) and the game-select cursor (names of the
    three games). *)
Definition menu_ok (w : World) : Prop :=
  1 <= difficulty (sketch w) <= 5 /\ 0 <= gameSelectChoice (sketch w) <= 2.

Class KeepsMenu (f : World -> World) : Prop :=
  menu_app : forall x : World, menu_ok x -> menu_ok (f x).

(** ** Who writes the RTC *)

(** The RTC shows [t] and neither editor is open. *)
Definition outside_editors (t : DateTime) (w : World) : Prop :=
  rtcTime (hw w) = t
  /\ currentMode (sketch w) <> SET_TIME /\ currentMode (sketch w) <> SET_DATE.

(** The RTC shows [t], and an editor that is open is at its first field. *)
Definition rtc_guard (t : DateTime) (w : World) : Prop :=
  rtcTime (hw w) = t
  /\ (currentMode (sketch w) = SET_TIME \/ currentMode (sketch w) = SET_DATE ->
      settingStep (sketch w) = 0).

(** ** Keys of the remote control *)

(** The keys pressed one after the other, each seen as a rising edge by
    the mode dispatch of [handleIRInput]. *)
Definition press (keys : list Lines) (w : World) : World :=
  foldl (fun w e => mode_dispatch e w) w keys.

(** The time editor is open on field [step] with [h] and [m] staged. *)
Definition editing_time (step h m : Z) (w : World) : Prop :=
  currentMode (sketch w) = SET_TIME /\ settingStep (sketch w) = step
  /\ tempHour (sketch w) = h /\ tempMinute (sketch w) = m.

(** The date editor is open on field [step] with [y], [m] and [d] staged. *)
Definition editing_date (step y m d : Z) (w : World) : Prop :=
  currentMode (sketch w) = SET_DATE /\ settingStep (sketch w) = step
  /\ tempYear (sketch w) = y /\ tempMonth (sketch w) = m
  /\ tempDay (sketch w) = d.

Definition line_return : Lines :=
  mkLines true false false false false false false false false false.

(** The activity timers of [handleIRInput]: any asserted line refreshes
    both. *)
Definition stamp_activity (pin : Lines) (w : World) : World :=
  if any_line pin then
    let w := with_sketch (set_lastIRActivity (millis w)) w in
    with_sketch (set_lastGameIRActivity (millis w)) w
  else w.

(** ** The push button over several passes *)

(** The clock as a pass through [loop] reads it. *)
Definition at_time (t : Z) (w : World) : World :=
  with_hw (set_clock (to_ulong t)) w.

(** The button is found held at each of the times [ts], one pass each. *)
Definition hold (ts : list Z) (w : World) : World :=
  foldl (fun w t => handleButton true (at_time t w)) w ts.

(** The bookkeeping of a press that started at [t0]. *)
Definition pressed_at (t0 : Z) (fired : bool) (w : World) : World :=
  with_sketch (set_btnMediumFired fired)
    (with_sketch (set_btnActive true)
       (with_sketch (set_btnTimer (to_ulong t0)) w)).

(** ** The state of the engines in every reachable state *)

(** The body array has its size, and while the Snake game is on the state
    of the snake is in order. *)
Definition snake_ready (w : World) : Prop :=
  length (snakeBody (snake w)) = Z.to_nat SNAKE_MAX_LENGTH
  /\ (currentMode (sketch w) = SNAKE_GAME -> snake_ok w).

Definition engines_ok (w : World) : Prop :=
  dino_ok w /\ dodge_ok w /\ snake_ready w.

Class KeepsEngines (f : World -> World) : Prop :=
  engines_app : forall x : World, engines_ok x -> engines_ok (f x).

(** ** Drawing *)

(** A call [drawPixelToGrid(x, y, col, top)], without the colour. *)
Definition GridPixel : Type := Z * Z * bool.

(** [dodgeDrawPixel] and [snakeDrawPixel]: the call each makes, if any. *)
Definition dodgeDrawPixel (x y : Z) : option GridPixel :=
  if (x <? 0) || (x >=? DODGE_COLS) || (y <? 0) || (y >=? DODGE_ROWS) then None
  else if y <? 5 then Some (x, y, true)
  else Some (x, to_int (y - 5), false).

Definition snakeDrawPixel (x y : Z) : option GridPixel :=
  if (x <? 0) || (x >=? SNAKE_COLS) || (y <? 0) || (y >=? SNAKE_ROWS) then None
  else if y <? 5 then Some (x, y, true)
  else Some (x, to_int (y - 5), false).

(** [runDodgeGame], "Draw": the player, two pixels tall, then every active
    block across its width. *)
Definition dodge_draw (w : World) : list (option GridPixel) :=
  [dodgeDrawPixel (dodgePlayerX (dodge w)) DODGE_PLAYER_Y;
   dodgeDrawPixel (dodgePlayerX (dodge w)) (to_int (DODGE_PLAYER_Y - 1))]
  ++ concat
       ((fun i =>
           match dodgeBlocks (dodge w) !! i with
           | Some b =>
               if negb (Block.active b) then []
               else (fun col => dodgeDrawPixel (to_int (Block.x b + col))
                                              (Block.y b))
                      <$> seqZ 0 (Block.width b)
           | None => []
           end) <$> seq 0 DODGE_MAX_BLOCKS).

(** [runSnakeGame], "Draw food" and "Draw snake": the food on the even
    fifths of a second, then the segments from the tail to the head. *)
Definition snake_draw (w : World) : list (option GridPixel) :=
  (if Z.rem (millis w / 200) 2 =? 0
   then [snakeDrawPixel (foodX (snake w)) (foodY (snake w))] else [])
  ++ ((fun i => let s := snakeBody (snake w) !!! i in
                snakeDrawPixel (Segment.x s) (Segment.y s))
        <$> reverse (seq 0 (Z.to_nat (snakeLength (snake w))))).

(** A call that stays inside one half of the panel. *)
Definition on_panel (p : option GridPixel) : Prop :=
  exists (x y : Z) (top : bool),
    p = Some (x, y, top) /\ 0 <= x < GRID_WIDTH /\ 0 <= y < GRID_HEIGHT.

(** ** Birthdays tab *)

Definition to_uint8 (v : Z) : Z := v mod 2 ^ 8.

Definition NUL : Ascii.ascii := Ascii.zero.

(** [name[i]] for a string with the characters [name]: the terminator
    follows the last of them. *)
Definition name_at (name : list Ascii.ascii) (i : Z) : Ascii.ascii :=
  nth (Z.to_nat i) name NUL.

(** The loop of [countNameWords]; the index [i] and [count] are [uint8_t].
    [fuel] bounds the number of characters looked at. *)
Fixpoint countNameWords_loop (fuel : nat) (name : list Ascii.ascii)
    (i count : Z) : option Z :=
  match fuel with
  | O => None
  | S fuel =>
      let c := name_at name i in
      if Ascii.eqb c NUL then Some count
      else
        countNameWords_loop fuel name (to_uint8 (i + 1))
          (if Ascii.eqb c Ascii.Space then to_uint8 (count + 1) else count)
  end.

Definition countNameWords (fuel : nat) (name : list Ascii.ascii) : option Z :=
  countNameWords_loop fuel name 0 1.

(** The loop of [getNthNameWord] on the buffer [out] of six characters;
    [i], [word] and [j] are [uint8_t]. *)
Fixpoint getNthNameWord_loop (fuel : nat) (name : list Ascii.ascii)
    (n i word j : Z) (out : list Ascii.ascii) : option (list Ascii.ascii) :=
  match fuel with
  | O => None
  | S fuel =>
      let c := name_at name i in
      if Ascii.eqb c NUL then
        Some (if word =? n then <[Z.to_nat j := NUL]> out else out)
      else if Ascii.eqb c Ascii.Space then
        if word =? n then Some (<[Z.to_nat j := NUL]> out)
        else
          getNthNameWord_loop fuel name n (to_uint8 (i + 1))
            (to_uint8 (word + 1)) 0 out
      else if (word =? n) && (j <? 5) then
        getNthNameWord_loop fuel name n (to_uint8 (i + 1)) word
          (to_uint8 (j + 1)) (<[Z.to_nat j := c]> out)
      else getNthNameWord_loop fuel name n (to_uint8 (i + 1)) word j out
  end.

Definition getNthNameWord (fuel : nat) (name : list Ascii.ascii) (n : Z)
    (out : list Ascii.ascii) : option (list Ascii.ascii) :=
  getNthNameWord_loop fuel name n 0 0 0 (<[0%nat := NUL]> out).

(** The string a buffer holds: its characters up to the first terminator. *)
Fixpoint c_str (buf : list Ascii.ascii) : list Ascii.ascii :=
  match buf with
  | [] => []
  | c :: buf => if Ascii.eqb c NUL then [] else c :: c_str buf
  end.

(** The words of a name: the runs of characters between its spaces. *)
Fixpoint name_words (name : list Ascii.ascii) : list (list Ascii.ascii) :=
  match name with
  | [] => [[]]
  | c :: name =>
      if Ascii.eqb c Ascii.Space then [] :: name_words name
      else
        match name_words name with
        | word :: words => (c :: word) :: words
        | [] => [[c]]
        end
  end.

(** The same loops over the characters still to come, without the index. *)
Fixpoint count_rest (rest : list Ascii.ascii) (count : Z) : Z :=
  match rest with
  | [] => count
  | c :: rest =>
      count_rest rest
        (if Ascii.eqb c Ascii.Space then to_uint8 (count + 1) else count)
  end.

Fixpoint word_rest (rest : list Ascii.ascii) (n word j : Z)
    (out : list Ascii.ascii) : list Ascii.ascii :=
  match rest with
  | [] => if word =? n then <[Z.to_nat j := NUL]> out else out
  | c :: rest =>
      if Ascii.eqb c Ascii.Space then
        if word =? n then <[Z.to_nat j := NUL]> out
        else word_rest rest n (to_uint8 (word + 1)) 0 out
      else if (word =? n) && (j <? 5) then
        word_rest rest n word (to_uint8 (j + 1)) (<[Z.to_nat j := c]> out)
      else word_rest rest n word j out
  end.

(** ** Birthdays tab: the display *)

Module Flash.
Record BirthdayFlash : Type := mk {
  name : list Ascii.ascii;
  month : Z;
  day : Z;
  year : Z
}.
End Flash.
Abbreviation BirthdayFlash := Flash.BirthdayFlash.

#[global] Instance BirthdayFlash_inhabited : Inhabited BirthdayFlash :=
  populate (Flash.mk [] 0 0 0).

Definition to_uint16 (v : Z) : Z := v mod 2 ^ 16.

(** The table as the source has it; entries are added and removed
    freely, so the functions below take the table as an argument. *)
Definition familyBirthdays : list BirthdayFlash :=
  [Flash.mk (String.list_ascii_of_string "FAM ONE") 2 6 1960;
   Flash.mk (String.list_ascii_of_string "FAM TWO") 2 14 1991].

Definition is_today (now : DateTime) (b : BirthdayFlash) : bool :=
  (Flash.month b =? month now) && (Flash.day b =? day now).

(** The first loop of [checkAndDisplayBirthdays]: [matchIdx] takes the
    indices of the entries of today, and the loop ends at eight of them.
    [entries] are the entries from index [i] on. *)
Fixpoint birthday_matches (entries : list BirthdayFlash) (i : nat)
    (now : DateTime) (matchIdx : list nat) : list nat :=
  match entries with
  | [] => matchIdx
  | b :: entries =>
      if (length matchIdx <? 8)%nat then
        birthday_matches entries (S i) now
          (if is_today now b then matchIdx ++ [i] else matchIdx)
      else matchIdx
  end.

(** The second loop: [totalWords] is [uint8_t]. *)
Fixpoint birthday_total (fuel : nat) (table : list BirthdayFlash)
    (matchIdx : list nat) (totalWords : Z) : option Z :=
  match matchIdx with
  | [] => Some totalWords
  | m :: matchIdx =>
      c ← countNameWords fuel (Flash.name (table !!! m));
      birthday_total fuel table matchIdx (to_uint8 (totalWords + (c + 1)))
  end.

(** [snprintf(bottomWord, sizeof(bottomWord), "%dJ", now.year() - birthYear)]:
    the difference of two [uint16_t] printed as an [int]. *)
Definition age_text (now : DateTime) (birthYear : Z) : list Ascii.ascii :=
  take 5 (String.list_ascii_of_string
            (fmt_d (to_int (year now - birthYear)) +:+ "J")).

(** The third loop, left by [break]; the result is the string that
    [bottomWord] holds after it. *)
Fixpoint birthday_word (fuel : nat) (table : list BirthdayFlash)
    (now : DateTime) (matchIdx : list nat) (wordIdx wordsSoFar : Z)
    (bottomWord : list Ascii.ascii) : option (list Ascii.ascii) :=
  match matchIdx with
  | [] => Some (c_str bottomWord)
  | m :: matchIdx =>
      let name := Flash.name (table !!! m) in
      let birthYear := Flash.year (table !!! m) in
      nameWords ← countNameWords fuel name;
      let wordsThis := to_uint8 (nameWords + 1) in
      if wordIdx <? wordsSoFar + wordsThis then
        let localIdx := to_uint8 (wordIdx - wordsSoFar) in
        if localIdx <? nameWords
        then c_str <$> getNthNameWord fuel name localIdx bottomWord
        else Some (age_text now birthYear)
      else
        birthday_word fuel table now matchIdx wordIdx
          (to_uint8 (wordsSoFar + wordsThis)) bottomWord
  end.

(** [checkAndDisplayBirthdays]: [Some None] is [return false], and
    [Some (Some (top, bottom))] the two rows drawn before [return true].
    [None] is no result: a name that is never counted, or the remainder
    by a [totalPhases] of zero. *)
Definition checkAndDisplayBirthdays (fuel : nat) (table : list BirthdayFlash)
    (now : DateTime) (w : World)
    : option (option (string * list Ascii.ascii)) :=
  let FAMILY_BDAY_COUNT := to_uint8 (Z.of_nat (length table)) in
  let matchIdx :=
    birthday_matches (take (Z.to_nat FAMILY_BDAY_COUNT) table) 0 now [] in
  if (length matchIdx =? 0)%nat then Some None
  else
    totalWords ← birthday_total fuel table matchIdx 0;
    let phaseIdx := to_uint16 (millis w / 5000) in
    let totalPhases := to_uint16 (totalWords * 2) in
    if totalPhases =? 0 then None
    else
      let phase := phaseIdx mod totalPhases in
      let isHappy := phase mod 2 =? 0 in
      let wordIdx := to_uint8 (phase / 2) in
      bottomWord ←
        birthday_word fuel table now matchIdx wordIdx 0 (repeat NUL 6);
      Some (Some (if isHappy then "HAPPY"%string else "BDAY"%string,
                  bottomWord)).

(** The people of today that are shown, and what the bottom row goes
    through for them: the words of each name, five characters of each,
    then the age. *)
Definition todays (table : list BirthdayFlash) (now : DateTime)
    : list BirthdayFlash :=
  take 8 (List.filter (is_today now) table).

Definition birthday_script (now : DateTime) (b : BirthdayFlash)
    : list (list Ascii.ascii) :=
  (take 5 <$> name_words (Flash.name b)) ++ [age_text now (Flash.year b)].

Definition bottom_words (table : list BirthdayFlash) (now : DateTime)
    : list (list Ascii.ascii) :=
  concat (birthday_script now <$> todays table now).

(** A name the helpers handle with [fuel] steps. *)
Definition name_ok (fuel : nat) (b : BirthdayFlash) : Prop :=
  Forall (fun c => c <> NUL) (Flash.name b)
  /\ (length (Flash.name b) <= 255)%nat
  /\ (length (Flash.name b) < fuel)%nat.

(** ** Snake: a direction key and the next movement tick *)

(** The cell next to the segment [s] in the direction [d]. *)
Definition ahead (d : Z) (s : SnakeSegment) : Z * Z :=
  if d =? DIR_UP then (Segment.x s, Segment.y s - 1)
  else if d =? DIR_DOWN then (Segment.x s, Segment.y s + 1)
  else if d =? DIR_LEFT then (Segment.x s - 1, Segment.y s)
  else (Segment.x s + 1, Segment.y s).

(** What the Snake game reads of the sketch: the mode, the four buffered
    direction inputs and the time of the last key. *)
Definition game_fields (s : Sketch) : Mode * (bool * bool * bool * bool) * Z :=
  (currentMode s,
   (snakeTurnUp s, snakeTurnDown s, snakeTurnLeft s, snakeTurnRight s),
   lastGameIRActivity s).

(** [same_game w x]: the Snake game and the remote control read the same
    in [x] as in [w]. *)
Definition same_game (w x : World) : Prop :=
  game_fields (sketch x) = game_fields (sketch w)
  /\ lastLines x = lastLines w /\ snake x = snake w /\ hw x = hw w.

(** The heading staged by "Apply buffered direction input" from the four
    flags, the heading [dir] and the heading [pend] staged before. *)
Definition staged_dir (up down left right : bool) (dir pend : Z) : Z :=
  let pend := if up && negb (dir =? DIR_DOWN) then DIR_UP else pend in
  let pend := if down && negb (dir =? DIR_UP) then DIR_DOWN else pend in
  let pend := if left && negb (dir =? DIR_RIGHT) then DIR_LEFT else pend in
  if right && negb (dir =? DIR_LEFT) then DIR_RIGHT else pend.

(** [snake_waiting d w0 pend tlast w]: since [w0] the Snake game has gone
    on without a movement tick and without a death; the heading staged is
    [pend]; no key but the direction key for [d] has been down; the last
    key went down at [tlast] at the latest. *)
Definition snake_waiting (d : Z) (w0 : World) (pend tlast : Z) (w : World)
    : Prop :=
  currentMode (sketch w) = SNAKE_GAME
  /\ flags_clear w
  /\ (lastLines w = no_lines \/ lastLines w = turn_edge d)
  /\ lastGameIRActivity (sketch w0) <= lastGameIRActivity (sketch w) <= tlast
  /\ trace (hw w) = trace (hw w0)
  /\ snake w = set_snakePendingDir pend (snake w0).

(** The heading staged after one more pass that saw the lines [pin]. *)
Definition staged_after (d h pend : Z) (pin last : Lines) : Z :=
  if any_line (edges pin last)
  then (if d =? opposite h then pend else d)
  else pend.

(** The time of a pass that comes before the next movement tick of the
    game in [w], and of the pass of the tick: within the idle window of
    the game, and before or past the move interval. *)
Definition in_window (w : World) (i : Input) : Prop :=
  0 <= in_millis i < 2 ^ 32
  /\ lastGameIRActivity (sketch w) <= in_millis i
     <= lastGameIRActivity (sketch w) + SNAKE_TIMEOUT_MS
  /\ 0 <= snakeMoveTimer (snake w) <= in_millis i.

Definition before_tick (w : World) (i : Input) : Prop :=
  in_window w i
  /\ in_millis i < snakeMoveTimer (snake w) + snakeSpeed (snake w).

Definition at_tick (w : World) (i : Input) : Prop :=
  in_window w i
  /\ snakeMoveTimer (snake w) + snakeSpeed (snake w) <= in_millis i.

(** The Snake session after its launch and one more pass, at 250 ms, that
    saw every key released: the snake heads RIGHT from (7,5), the food is
    at (8,5), the next movement tick is due at 300 ms. *)
Definition snake_start : World :=
  loop (mkInput 250 no_lines false) (snake_session 1).

(** DOWN goes down at 270 ms while the push button is held, stays down at
    280 ms and is released at 290 ms; the tick comes with the pass at
    310 ms. *)
Definition snake_key_passes (d : Z) : list Input :=
  [mkInput 260 no_lines false] ++ mkInput 270 (turn_edge d) true
  :: [mkInput 280 (turn_edge d) true; mkInput 290 no_lines false]
  ++ [mkInput 310 no_lines false].

(** ** Snake: a random source that does not starve [spawnFood] *)

(** The cell that [spawnFood] makes of two values of the stream that
    follow one another, the first at position [p]. *)
Definition drawn_cell (draws : nat -> Z) (p : nat) : Z * Z :=
  (to_int8 (draws p mod (SNAKE_COLS - 0) + 0),
   to_int8 (draws (S p) mod (SNAKE_ROWS - 0) + 0)).

(** The cells of 200 tries in a row, the first of them at position [p]. *)
Definition tried_cells (draws : nat -> Z) (p : nat) : list (Z * Z) :=
  (fun j => drawn_cell draws (p + 2 * j)) <$> seq 0 200.

(** A stream in which 200 tries in a row, wherever they start, fall on
    more cells than a snake has segments. *)
Definition fair_stream (draws : nat -> Z) : Prop :=
  forall p : nat,
    (Z.to_nat SNAKE_MAX_LENGTH < length (remove_dups (tried_cells draws p)))%nat.

(** The food is not under the snake. *)
Definition food_free (w : World) : Prop :=
  snake_occupied (foodX (snake w)) (foodY (snake w)) w = false.

(** What holds of the snake in every state reached with such a stream:
    the engines are in order, and while the Snake game is on no two
    segments share a cell and the food is not under the snake. *)
Definition distinct_ok (w : World) : Prop :=
  engines_ok w
  /\ fair_stream (rngDraws (hw w))
  /\ (currentMode (sketch w) = SNAKE_GAME ->
      NoDup (snake_segments w) /\ food_free w).

Class KeepsDistinct (f : World -> World) : Prop :=
  distinct_app : forall x : World, distinct_ok x -> distinct_ok (f x).



(** * Properties *)

(** ** Reduction and case analysis *)

#[global] Arguments to_ulong : simpl never.
#[global] Arguments to_int : simpl never.
#[global] Arguments to_int8 : simpl never.
#[global] Arguments Z.modulo : simpl never.
#[global] Arguments Z.rem : simpl never.

(** Split on the test of the first conditional of the goal. *)
Ltac split_if :=
  match goal with
  | |- context [if ?b then _ else _] => destruct b eqn:?
  end.

Lemma cons_neq_self {A : Type} (a : A) (l : list A) : a :: l <> l.
Proof.
  intros H. apply (f_equal length) in H. cbn in H. lia.
Qed.

(** ** The random source *)

Lemma random_spec (lo hi : Z) (w : World) :
  random lo hi w =
    if lo >=? hi then (lo, w)
    else (rngDraws (hw w) (rngPos (hw w)) mod (hi - lo) + lo,
          with_hw (fun h => set_rngPos (S (rngPos h)) h) w).
Proof. reflexivity. Qed.

Lemma random_range (lo hi : Z) (w : World) :
  lo < hi -> lo <= (random lo hi w).1 < hi.
Proof.
  intros Hlt. rewrite random_spec.
  destruct (lo >=? hi) eqn:E; [lia|]. cbn.
  pose proof (Z.mod_pos_bound (rngDraws (hw w) (rngPos (hw w))) (hi - lo)).
  lia.
Qed.

(** ** Frames: what a step leaves alone *)

Lemma keeps_refl (w : World) : keeps w w.
Proof. split; reflexivity. Qed.

Lemma keeps_trans (w1 w2 w3 : World) :
  keeps w1 w2 -> keeps w2 w3 -> keeps w1 w3.
Proof. intros [H1 H2] [H3 H4]. split; congruence. Qed.

Lemma keeps_with_sketch (f : Sketch -> Sketch) (w x : World) :
  (forall s, currentMode (f s) = currentMode s) ->
  keeps w x -> keeps w (with_sketch f x).
Proof. intros Hf [Hm Ht]. split; [cbn; rewrite Hf; exact Hm | exact Ht]. Qed.

Lemma keeps_with_hw (f : Hw -> Hw) (w x : World) :
  (forall h, trace (f h) = trace h) ->
  keeps w x -> keeps w (with_hw f x).
Proof. intros Hf [Hm Ht]. split; [exact Hm | cbn; rewrite Hf; exact Ht]. Qed.

#[global] Instance Keeps_with_dino (f : Dino -> Dino) : Keeps (with_dino f).
Proof. intros w x [Hm Ht]. split; assumption. Qed.

#[global] Instance Keeps_with_dodge (f : Dodge -> Dodge) : Keeps (with_dodge f).
Proof. intros w x [Hm Ht]. split; assumption. Qed.

#[global] Instance Keeps_with_snake (f : Snake -> Snake) : Keeps (with_snake f).
Proof. intros w x [Hm Ht]. split; assumption. Qed.

#[global] Instance Keeps_set_lastLines (l : Lines) : Keeps (set_lastLines l).
Proof. intros w x [Hm Ht]. split; assumption. Qed.

#[global] Instance Keeps_set_block (i : nat) (b : DodgeBlock) :
  Keeps (set_block i b).
Proof. apply Keeps_with_dodge. Qed.

#[global] Instance Keeps_set_segment (i : nat) (s : SnakeSegment) :
  Keeps (set_segment i s).
Proof. apply Keeps_with_snake. Qed.

#[global] Instance Keeps_delay (ms : Z) : Keeps (delay ms).
Proof. intros w x. apply keeps_with_hw. reflexivity. Qed.

#[global] Instance Keeps_EEPROM_put (addr v : Z) : Keeps (EEPROM_put addr v).
Proof. intros w x. apply keeps_with_hw. reflexivity. Qed.

#[global] Instance Keeps_EEPROM_write (addr v : Z) : Keeps (EEPROM_write addr v).
Proof. apply Keeps_EEPROM_put. Qed.

#[global] Instance Keeps_rtc_adjust (t : DateTime) : Keeps (rtc_adjust t).
Proof. intros w x. apply keeps_with_hw. reflexivity. Qed.

#[global] Instance Keeps_touch : Keeps touch.
Proof. intros w x. apply keeps_with_sketch. reflexivity. Qed.

Lemma keeps_random (lo hi : Z) (w x : World) :
  keeps w x -> keeps w (random lo hi x).2.
Proof.
  intros H. rewrite random_spec. destruct (lo >=? hi); [exact H|].
  apply keeps_with_hw; [reflexivity | exact H].
Qed.

Lemma keeps_if (b : bool) (w x y : World) :
  keeps w x -> keeps w y -> keeps w (if b then x else y).
Proof. destruct b; intros; assumption. Qed.

(** Peel the updates off a goal [keeps w x], outermost first.  A pair
    returned by [random] is named, with the fact that its world keeps
    what the argument kept. *)
Ltac keeps_step :=
  match goal with
  | |- keeps ?w ?w => apply keeps_refl
  | H : keeps ?w ?y |- keeps ?w ?y => exact H
  | H : keeps ?x ?y |- keeps ?w ?y =>
      apply (keeps_trans w x y); [|exact H]
  | |- keeps _ (with_sketch _ _) =>
      apply keeps_with_sketch; [intros; reflexivity|]
  | |- keeps _ (with_hw _ _) =>
      apply keeps_with_hw; [intros; reflexivity|]
  | |- keeps _ (if _ then _ else _) => apply keeps_if
  | |- keeps _ (let '(_, _) := random ?lo ?hi ?x in _) =>
      let H := fresh "Hrnd" in
      pose proof (keeps_random lo hi x x (keeps_refl x)) as H;
      destruct (random lo hi x); cbn [snd] in H
  | |- keeps _ (?f ?x) => apply (@keeps_app f _)
  end.

Ltac keeps_tac := cbv zeta; repeat keeps_step.

#[global] Instance Keeps_saveHighScore : Keeps saveHighScore.
Proof. intros w x H. unfold saveHighScore. keeps_tac. Qed.

Lemma keeps_dino_jump_input (w : World) : keeps w (dino_jump_input w).
Proof. unfold dino_jump_input. keeps_tac. Qed.

Lemma keeps_dino_jump_end (w : World) : keeps w (dino_jump_end w).
Proof. unfold dino_jump_end. keeps_tac. Qed.

Lemma keeps_dino_player_y (w : World) : keeps w (dino_player_y w).
Proof. unfold dino_player_y. keeps_tac. Qed.

Lemma keeps_dino_move_obstacle (w : World) : keeps w (dino_move_obstacle w).
Proof. unfold dino_move_obstacle. keeps_tac. Qed.

Lemma keeps_dino_before_collision (w : World) :
  keeps w (dino_before_collision w).
Proof.
  unfold dino_before_collision.
  eapply keeps_trans; [apply keeps_dino_jump_input|].
  eapply keeps_trans; [apply keeps_dino_jump_end|].
  eapply keeps_trans; [apply keeps_dino_player_y|].
  apply keeps_dino_move_obstacle.
Qed.

(** The flash sequence is the only change a death handler makes to what
    [keeps] observes. *)
Lemma flash_mode (e : Event) (w : World) :
  currentMode (sketch (flash e w)) = currentMode (sketch w).
Proof. reflexivity. Qed.

Lemma flash_trace (e : Event) (w : World) :
  trace (hw (flash e w)) = e :: trace (hw w).
Proof. reflexivity. Qed.

Lemma handleGameOver_keeps (w : World) :
  keeps (flash DinoGameOver (saveHighScore w)) (handleGameOver w).
Proof. unfold handleGameOver. keeps_tac. Qed.

Lemma handleGameOver_mode (w : World) :
  currentMode (sketch (handleGameOver w)) = currentMode (sketch w).
Proof.
  rewrite (proj1 (handleGameOver_keeps w)), flash_mode.
  apply (keeps_app (f := saveHighScore) w w (keeps_refl w)).
Qed.

Lemma handleGameOver_trace (w : World) :
  trace (hw (handleGameOver w)) = DinoGameOver :: trace (hw w).
Proof.
  rewrite (proj2 (handleGameOver_keeps w)), flash_trace.
  f_equal. apply (keeps_app (f := saveHighScore) w w (keeps_refl w)).
Qed.

Lemma runDinoGame_unfold (w : World) :
  runDinoGame w =
    if dino_collision (dino_before_collision w)
    then handleGameOver (dino_before_collision w)
    else dino_before_collision w.
Proof. reflexivity. Qed.

Lemma runDinoGame_mode (w : World) :
  currentMode (sketch (runDinoGame w)) = currentMode (sketch w).
Proof.
  rewrite runDinoGame_unfold. split_if.
  - rewrite handleGameOver_mode. apply keeps_dino_before_collision.
  - apply keeps_dino_before_collision.
Qed.

(** The collision test of [runDinoGame], as a proposition. *)
Lemma dino_collision_true (w : World) :
  dino_collision w = true <->
  obstacleX (dino w) = PLAYER_X
  /\ (obstacleType (dino w) = GROUND_OBSTACLE /\ isJumping (dino w) = false
      \/ obstacleType (dino w) = AIR_OBSTACLE /\ isJumping (dino w) = true).
Proof.
  unfold dino_collision, GROUND_OBSTACLE, AIR_OBSTACLE.
  destruct (Z.eqb_spec (obstacleX (dino w)) PLAYER_X) as [Hx|Hx];
    [|intuition congruence].
  destruct (Z.eqb_spec (obstacleType (dino w)) 0) as [H0|H0];
    destruct (Z.eqb_spec (obstacleType (dino w)) 1) as [H1|H1];
    destruct (isJumping (dino w)); cbn;
    intuition (congruence || lia).
Qed.

(** ** Dino: the collision rule *)

(** C3.  A pass through [runDinoGame] ends in the game-over sequence if and
    only if, once the jump and the obstacle have been updated, the obstacle
    is in the player's column and its type matches the player's vertical
    state: a ground obstacle with a grounded player or an air obstacle with
    a jumping player.  With the obstacle in the player's column and type
    and state in disagreement, the pass shows no game-over sequence. *)
Theorem dino_collision_rule (w : World) :
  let w' := dino_before_collision w in
  (trace (hw (runDinoGame w)) = DinoGameOver :: trace (hw w) <->
     obstacleX (dino w') = PLAYER_X
     /\ (obstacleType (dino w') = GROUND_OBSTACLE /\ isJumping (dino w') = false
         \/ obstacleType (dino w') = AIR_OBSTACLE /\ isJumping (dino w') = true))
  /\ (trace (hw (runDinoGame w)) = trace (hw w) <->
        ~ (obstacleX (dino w') = PLAYER_X
           /\ (obstacleType (dino w') = GROUND_OBSTACLE
                 /\ isJumping (dino w') = false
               \/ obstacleType (dino w') = AIR_OBSTACLE
                    /\ isJumping (dino w') = true))).
Proof.
  intros w'. subst w'.
  rewrite <- dino_collision_true, runDinoGame_unfold.
  destruct (keeps_dino_before_collision w) as [_ Ht].
  destruct (dino_collision (dino_before_collision w)) eqn:Hc.
  - rewrite handleGameOver_trace, Ht. split; split; try done.
    intros Habs. exfalso. exact (cons_neq_self _ _ Habs).
  - rewrite Ht. split; split; try done.
    intros Habs. exfalso. symmetry in Habs. exact (cons_neq_self _ _ Habs).
Qed.

(** ** High scores: write only on improvement *)

Lemma gtb_irrefl (a : Z) : (a >? a) = false.
Proof. destruct (Z.gtb_spec a a); [lia | reflexivity]. Qed.

Lemma saveHighScore_spec (w : World) :
  eepromWrites (hw (saveHighScore w)) =
    (if highScore (sketch w) <? score (sketch w)
     then (EEPROM_HIGHSCORE_ADDR, score (sketch w)) :: eepromWrites (hw w)
     else eepromWrites (hw w))
  /\ highScore (sketch (saveHighScore w))
     = Z.max (highScore (sketch w)) (score (sketch w))
  /\ saveHighScore (saveHighScore w) = saveHighScore w.
Proof.
  unfold saveHighScore.
  destruct (Z.gtb_spec (score (sketch w)) (highScore (sketch w))) as [Hgt|Hle];
    destruct (Z.ltb_spec (highScore (sketch w)) (score (sketch w))); try lia.
  - cbn. rewrite gtb_irrefl. repeat split; [lia].
  - destruct (Z.gtb_spec (score (sketch w)) (highScore (sketch w))); [lia|].
    repeat split; lia.
Qed.

Lemma saveDodgeHighScore_spec (w : World) :
  eepromWrites (hw (saveDodgeHighScore w)) =
    (if dodgeHighScore (dodge w) <? dodgeScore (dodge w)
     then (EEPROM_DODGE_HIGHSCORE_ADDR, dodgeScore (dodge w)) :: eepromWrites (hw w)
     else eepromWrites (hw w))
  /\ dodgeHighScore (dodge (saveDodgeHighScore w))
     = Z.max (dodgeHighScore (dodge w)) (dodgeScore (dodge w))
  /\ saveDodgeHighScore (saveDodgeHighScore w) = saveDodgeHighScore w.
Proof.
  unfold saveDodgeHighScore.
  destruct (Z.gtb_spec (dodgeScore (dodge w)) (dodgeHighScore (dodge w))) as [Hgt|Hle];
    destruct (Z.ltb_spec (dodgeHighScore (dodge w)) (dodgeScore (dodge w))); try lia.
  - cbn. rewrite gtb_irrefl. repeat split; [lia].
  - destruct (Z.gtb_spec (dodgeScore (dodge w)) (dodgeHighScore (dodge w))); [lia|].
    repeat split; lia.
Qed.

Lemma saveSnakeHighScore_spec (w : World) :
  eepromWrites (hw (saveSnakeHighScore w)) =
    (if snakeHighScore (snake w) <? snakeScore (snake w)
     then (EEPROM_SNAKE_HIGHSCORE_ADDR, snakeScore (snake w)) :: eepromWrites (hw w)
     else eepromWrites (hw w))
  /\ snakeHighScore (snake (saveSnakeHighScore w))
     = Z.max (snakeHighScore (snake w)) (snakeScore (snake w))
  /\ saveSnakeHighScore (saveSnakeHighScore w) = saveSnakeHighScore w.
Proof.
  unfold saveSnakeHighScore.
  destruct (Z.gtb_spec (snakeScore (snake w)) (snakeHighScore (snake w))) as [Hgt|Hle];
    destruct (Z.ltb_spec (snakeHighScore (snake w)) (snakeScore (snake w))); try lia.
  - cbn. rewrite gtb_irrefl. repeat split; [lia].
  - destruct (Z.gtb_spec (snakeScore (snake w)) (snakeHighScore (snake w))); [lia|].
    repeat split; lia.
Qed.

(** C9.  Each of the three persist operations (Dino, Dodge, Snake) appends
    a write to the EEPROM log exactly when the score of the run strictly
    exceeds the stored high score, and is idempotent: a second call in
    succession changes nothing, neither the log of writes nor the EEPROM
    content nor the high score. *)
Theorem high_score_persist (w : World) :
  (eepromWrites (hw (saveHighScore w)) =
     (if highScore (sketch w) <? score (sketch w)
      then (EEPROM_HIGHSCORE_ADDR, score (sketch w)) :: eepromWrites (hw w)
      else eepromWrites (hw w))
   /\ saveHighScore (saveHighScore w) = saveHighScore w)
  /\ (eepromWrites (hw (saveDodgeHighScore w)) =
        (if dodgeHighScore (dodge w) <? dodgeScore (dodge w)
         then (EEPROM_DODGE_HIGHSCORE_ADDR, dodgeScore (dodge w))
                :: eepromWrites (hw w)
         else eepromWrites (hw w))
      /\ saveDodgeHighScore (saveDodgeHighScore w) = saveDodgeHighScore w)
  /\ (eepromWrites (hw (saveSnakeHighScore w)) =
        (if snakeHighScore (snake w) <? snakeScore (snake w)
         then (EEPROM_SNAKE_HIGHSCORE_ADDR, snakeScore (snake w))
                :: eepromWrites (hw w)
         else eepromWrites (hw w))
      /\ saveSnakeHighScore (saveSnakeHighScore w) = saveSnakeHighScore w).
Proof.
  destruct (saveHighScore_spec w) as (? & _ & ?).
  destruct (saveDodgeHighScore_spec w) as (? & _ & ?).
  destruct (saveSnakeHighScore_spec w) as (? & _ & ?).
  repeat split; assumption.
Qed.

(** ** Dodge: target block count and refill *)

Lemma dodge_target_blocks_spec (w : World) :
  dodge_target_blocks w =
    if dodgeScore (dodge w) >=? 15 then (2, w)
    else if dodgeScore (dodge w) >=? 5 then
      (if rngDraws (hw w) (rngPos (hw w)) mod 2 =? 0 then 2 else 1,
       with_hw (fun h => set_rngPos (S (rngPos h)) h) w)
    else (1, w).
Proof.
  unfold dodge_target_blocks. rewrite random_spec. cbn.
  rewrite Z.add_0_r. reflexivity.
Qed.

Lemma two_blocks (l : list DodgeBlock) :
  length l = DODGE_MAX_BLOCKS -> exists b0 b1, l = [b0; b1].
Proof.
  destruct l as [|b0 [|b1 [|b2 l]]]; cbn; intros H; try discriminate.
  eauto.
Qed.

(** The local variable [activeCount] is the number of active blocks once
    the blocks have been advanced. *)
Lemma dodge_advance_blocks_count (w : World) :
  length (dodgeBlocks (dodge w)) = DODGE_MAX_BLOCKS ->
  let r := dodge_advance_blocks w (dodge_count_active w) in
  r.2 = active_blocks r.1
  /\ length (dodgeBlocks (dodge r.1)) = DODGE_MAX_BLOCKS.
Proof.
  intros Hlen. destruct (two_blocks _ Hlen) as (b0 & b1 & Hb).
  destruct w as [sk ll di dg sn hh]. destruct dg. cbn in Hb. subst.
  destruct b0 as [x0 y0 w0 a0], b1 as [x1 y1 w1 a1].
  unfold dodge_advance_blocks, dodge_count_active, active_blocks,
    dodge_advance_block.
  destruct a0, a1; cbn; repeat (split_if; cbn); split; reflexivity.
Qed.

Lemma spawnBlock_blocks (i : nat) (w : World) :
  exists b, Block.active b = true
    /\ dodgeBlocks (dodge (spawnBlock i w)) = <[i := b]> (dodgeBlocks (dodge w))
    /\ dodgeScore (dodge (spawnBlock i w)) = dodgeScore (dodge w)
    /\ dodgeSpeed (dodge (spawnBlock i w)) = dodgeSpeed (dodge w)
    /\ dodgePlayerX (dodge (spawnBlock i w)) = dodgePlayerX (dodge w).
Proof.
  unfold spawnBlock. rewrite random_spec. cbn. rewrite random_spec.
  split_if; eexists; (split; [|split; [reflexivity|]]); cbn;
    repeat split; reflexivity.
Qed.

#[local] Arguments spawnBlock : simpl never.

(** Refilling brings the number of active blocks up to the target. *)
Lemma dodge_fill_slots_count (w : World) (targetBlocks : Z) :
  length (dodgeBlocks (dodge w)) = DODGE_MAX_BLOCKS ->
  targetBlocks <= 2 ->
  active_blocks
    (dodge_fill_slots DODGE_MAX_BLOCKS 0 targetBlocks (w, active_blocks w)).1
  = Z.max (active_blocks w) targetBlocks.
Proof.
  intros Hlen Ht. destruct (two_blocks _ Hlen) as (b0 & b1 & Hb).
  unfold DODGE_MAX_BLOCKS, dodge_fill_slots.
  destruct (spawnBlock_blocks 0 w) as (n0 & Hn0 & Hs0 & _).
  destruct (spawnBlock_blocks 1 w) as (n1 & Hn1 & Hs1 & _).
  destruct (spawnBlock_blocks 1 (spawnBlock 0 w)) as (n2 & Hn2 & Hs2 & _).
  rewrite Hs0 in Hs2.
  unfold active_blocks in *. rewrite Hb in *.
  destruct b0 as [x0 y0 w0 a0], b1 as [x1 y1 w1 a1].
  destruct a0, a1; cbn in *;
    repeat (match goal with
            | |- context [?a <? ?b] => destruct (Z.ltb_spec a b)
            end; cbn);
    rewrite ?Hb, ?Hs0, ?Hs1; cbn;
    rewrite ?Hs0, ?Hs1, ?Hs2, ?Hb; cbn; rewrite ?Hn0, ?Hn1, ?Hn2; cbn;
    try lia.
Qed.

(** C5.  On a frame-advance tick of the Dodge engine, once the blocks have
    moved, the target block count is 1 when the score is below 5, 2 when
    the score is at least 15, and decided by one draw of [random(0, 2)]
    when the score lies in [5,14]: 2 on an even raw value, 1 on an odd one
    (so a score of 14 does not force 2).  The refill that follows brings
    the number of active blocks up to that target. *)
Theorem dodge_target_block_policy (w : World) :
  length (dodgeBlocks (dodge w)) = DODGE_MAX_BLOCKS ->
  let w0 := with_dodge (set_dodgeFrameTimer (millis w)) w in
  let advanced := dodge_advance_blocks w0 (dodge_count_active w0) in
  let w1 := advanced.1 in
  let target := dodge_target_blocks w1 in
  let w3 :=
    (dodge_fill_slots DODGE_MAX_BLOCKS 0 target.1 (target.2, advanced.2)).1 in
  dodge_frame w = w3
  /\ (dodgeScore (dodge w1) < 5 -> target.1 = 1)
  /\ (15 <= dodgeScore (dodge w1) -> target.1 = 2)
  /\ (5 <= dodgeScore (dodge w1) <= 14 ->
        target.1 =
          (if rngDraws (hw w1) (rngPos (hw w1)) mod 2 =? 0 then 2 else 1))
  /\ active_blocks w3 = Z.max (active_blocks w1) target.1.
Proof.
  intros Hlen w0 advanced w1 target w3.
  assert (Hlen0 : length (dodgeBlocks (dodge w0)) = DODGE_MAX_BLOCKS) by exact Hlen.
  destruct (dodge_advance_blocks_count w0 Hlen0) as [Hcount Hlen1].
  fold advanced in Hcount, Hlen1. fold w1 in Hcount, Hlen1.
  assert (Htarget : target = dodge_target_blocks w1) by reflexivity.
  rewrite dodge_target_blocks_spec in Htarget.
  split.
  { unfold dodge_frame. fold w0. fold advanced.
    destruct advanced as [wa ac] eqn:Ea. cbn in w1. subst w1.
    fold target. subst w3. destruct target as [t wt]. reflexivity. }
  assert (Hblocks : dodgeBlocks (dodge target.2) = dodgeBlocks (dodge w1)).
  { rewrite Htarget. repeat split_if; reflexivity. }
  assert (Hle : target.1 <= 2).
  { rewrite Htarget. repeat split_if; cbn; lia. }
  split; [|split; [|split]].
  - intros Hs. rewrite Htarget.
    destruct (Z.geb_spec (dodgeScore (dodge w1)) 15); [lia|].
    destruct (Z.geb_spec (dodgeScore (dodge w1)) 5); [lia|]. reflexivity.
  - intros Hs. rewrite Htarget.
    destruct (Z.geb_spec (dodgeScore (dodge w1)) 15); [reflexivity|lia].
  - intros Hs. rewrite Htarget.
    destruct (Z.geb_spec (dodgeScore (dodge w1)) 15); [lia|].
    destruct (Z.geb_spec (dodgeScore (dodge w1)) 5); [reflexivity|lia].
  - subst w3. rewrite Hcount.
    assert (Hact : active_blocks w1 = active_blocks target.2)
      by (unfold active_blocks; rewrite Hblocks; reflexivity).
    rewrite Hact. apply dodge_fill_slots_count; [|exact Hle].
    rewrite Hblocks. exact Hlen1.
Qed.

(** The policy at work after 150 passes of the Dodge session. *)
Lemma dodge_target_block_policy_witness :
  length (dodgeBlocks (dodge (dodge_session 150))) = DODGE_MAX_BLOCKS
  /\ active_blocks (dodge_frame (dodge_session 150)) = 2.
Proof.
  assert (Hlen : length (dodgeBlocks (dodge (dodge_session 150))) = DODGE_MAX_BLOCKS)
    by (vm_compute; reflexivity).
  split; [exact Hlen|].
  destruct (dodge_target_block_policy (dodge_session 150) Hlen)
    as (Hframe & _ & _ & _ & Hmax).
  rewrite Hframe, Hmax. vm_compute. reflexivity.
Defined.

(** ** Dodge: the collision rule *)

#[global] Instance Keeps_spawnBlock (i : nat) : Keeps (spawnBlock i).
Proof. intros w x H. unfold spawnBlock. keeps_tac. Qed.

Lemma keeps_dodge_player_move (w : World) : keeps w (dodge_player_move w).
Proof. unfold dodge_player_move. keeps_tac. Qed.

Lemma keeps_dodge_advance_block (st : World * Z) (i : nat) :
  keeps st.1 (dodge_advance_block st i).1.
Proof.
  destruct st as [w ac]. unfold dodge_advance_block. cbn [fst].
  destruct (dodgeBlocks (dodge w) !! i) as [b|]; [|apply keeps_refl].
  destruct (negb (Block.active b)); [apply keeps_refl|].
  cbv zeta. split_if; cbn [fst]; keeps_tac.
Qed.

Lemma keeps_dodge_advance_blocks (w : World) (ac : Z) :
  keeps w (dodge_advance_blocks w ac).1.
Proof.
  unfold dodge_advance_blocks.
  change w with (w, ac).1 at 1.
  generalize (w, ac). generalize (seq 0 DODGE_MAX_BLOCKS).
  intros l. induction l as [|i l IH]; intros st; cbn [foldl].
  - apply keeps_refl.
  - eapply keeps_trans; [apply keeps_dodge_advance_block|apply IH].
Qed.

Lemma keeps_dodge_target_blocks (w : World) :
  keeps w (dodge_target_blocks w).2.
Proof.
  rewrite dodge_target_blocks_spec. repeat split_if; cbn [snd]; keeps_tac.
Qed.

Lemma keeps_dodge_fill_slots (n i : nat) (t : Z) (st : World * Z) :
  keeps st.1 (dodge_fill_slots n i t st).1.
Proof.
  revert i st. induction n as [|n IH]; intros i [w ac]; cbn [dodge_fill_slots].
  - apply keeps_refl.
  - split_if; [|apply keeps_refl].
    eapply keeps_trans; [|apply IH].
    destruct (dodgeBlocks (dodge w) !! i) as [b|]; [|apply keeps_refl].
    split_if; [|apply keeps_refl].
    cbn [fst]. apply keeps_app, keeps_refl.
Qed.

Lemma keeps_dodge_frame (w : World) : keeps w (dodge_frame w).
Proof.
  unfold dodge_frame.
  set (w0 := with_dodge (set_dodgeFrameTimer (millis w)) w).
  pose proof (keeps_dodge_advance_blocks w0 (dodge_count_active w0)) as H1.
  destruct (dodge_advance_blocks w0 (dodge_count_active w0)) as [w1 ac].
  pose proof (keeps_dodge_target_blocks w1) as H2.
  destruct (dodge_target_blocks w1) as [t w2].
  pose proof (keeps_dodge_fill_slots DODGE_MAX_BLOCKS 0 t (w2, ac)) as H3.
  cbn [fst snd] in *.
  eapply keeps_trans; [|exact H3].
  eapply keeps_trans; [|exact H2].
  eapply keeps_trans; [|exact H1].
  subst w0. keeps_tac.
Qed.

Lemma keeps_dodge_before_collision (w : World) :
  keeps w (dodge_before_collision w).
Proof.
  unfold dodge_before_collision. cbv zeta.
  apply keeps_if.
  - eapply keeps_trans; [apply keeps_dodge_player_move|apply keeps_dodge_frame].
  - apply keeps_dodge_player_move.
Qed.

#[global] Instance Keeps_resetDodgeGame : Keeps resetDodgeGame.
Proof. intros w x H. unfold resetDodgeGame. keeps_tac. Qed.

#[global] Instance Keeps_saveDodgeHighScore : Keeps saveDodgeHighScore.
Proof. intros w x H. unfold saveDodgeHighScore. keeps_tac. Qed.

Lemma handleDodgeGameOver_keeps (w : World) :
  keeps (flash DodgeGameOver (saveDodgeHighScore w)) (handleDodgeGameOver w).
Proof. unfold handleDodgeGameOver. keeps_tac. Qed.

Lemma handleDodgeGameOver_mode (w : World) :
  currentMode (sketch (handleDodgeGameOver w)) = currentMode (sketch w).
Proof.
  rewrite (proj1 (handleDodgeGameOver_keeps w)), flash_mode.
  apply (keeps_app (f := saveDodgeHighScore) w w (keeps_refl w)).
Qed.

Lemma handleDodgeGameOver_trace (w : World) :
  trace (hw (handleDodgeGameOver w)) = DodgeGameOver :: trace (hw w).
Proof.
  rewrite (proj2 (handleDodgeGameOver_keeps w)), flash_trace.
  f_equal. apply (keeps_app (f := saveDodgeHighScore) w w (keeps_refl w)).
Qed.

Lemma runDodgeGame_unfold (w : World) :
  runDodgeGame w =
    if dodge_timed_out w then to_clock w
    else if dodge_collision (dodge_before_collision w)
         then handleDodgeGameOver (dodge_before_collision w)
         else dodge_before_collision w.
Proof. reflexivity. Qed.

(** The collision loop of [runDodgeGame], as a proposition. *)
Lemma dodge_collision_true (w : World) :
  dodge_collision w = true <->
  exists (i : nat) (b : DodgeBlock),
    (i < DODGE_MAX_BLOCKS)%nat
    /\ dodgeBlocks (dodge w) !! i = Some b
    /\ Block.active b = true
    /\ DODGE_PLAYER_Y - 1 <= Block.y b
    /\ Block.x b <= dodgePlayerX (dodge w) < Block.x b + Block.width b.
Proof.
  unfold dodge_collision. rewrite existsb_exists. split.
  - intros (i & Hin & Hi). apply in_seq in Hin.
    destruct (dodgeBlocks (dodge w) !! i) as [b|] eqn:Hb; [|discriminate].
    exists i, b. unfold blockHitsPlayer in Hi.
    apply andb_prop in Hi as [Ha Hi]. apply andb_prop in Hi as [Hy Hi].
    apply andb_prop in Hi as [Hx1 Hx2].
    split; [lia|]. split; [exact Hb|]. split; [exact Ha|]. lia.
  - intros (i & b & Hi & Hb & Ha & Hy & Hx).
    exists i. split; [apply in_seq; lia|]. rewrite Hb, Ha. cbn.
    unfold blockHitsPlayer.
    apply andb_true_intro; split; [lia|].
    apply andb_true_intro; split; lia.
Qed.

(** C6, as amended.  A pass through [runDodgeGame] ends in the game-over
    sequence if and only if the game has not timed out and, once the player
    and the blocks have moved, some active block lies in row
    [DODGE_PLAYER_Y - 1] or below (the upper of the two rows of the player)
    with the player's column inside its span [x, x + width).  A block whose
    span excludes the player's column never ends the game. *)
Theorem dodge_collision_rule (w : World) :
  let w' := dodge_before_collision w in
  trace (hw (runDodgeGame w)) = DodgeGameOver :: trace (hw w) <->
  dodge_timed_out w = false
  /\ exists (i : nat) (b : DodgeBlock),
       (i < DODGE_MAX_BLOCKS)%nat
       /\ dodgeBlocks (dodge w') !! i = Some b
       /\ Block.active b = true
       /\ DODGE_PLAYER_Y - 1 <= Block.y b
       /\ Block.x b <= dodgePlayerX (dodge w') < Block.x b + Block.width b.
Proof.
  intros w'. subst w'. rewrite <- dodge_collision_true, runDodgeGame_unfold.
  destruct (keeps_dodge_before_collision w) as [_ Ht].
  destruct (dodge_timed_out w).
  - cbn. split; [|intros [? _]; discriminate].
    intros Habs. symmetry in Habs. destruct (cons_neq_self _ _ Habs).
  - destruct (dodge_collision (dodge_before_collision w)).
    + rewrite handleDodgeGameOver_trace, Ht. split; [split|]; reflexivity.
    + rewrite Ht. split; [|intros [_ ?]; discriminate].
      intros Habs. symmetry in Habs. destruct (cons_neq_self _ _ Habs).
Qed.

(** ** Snake: food placement *)

Lemma rng_advance_add (n m : nat) (w : World) :
  rng_advance m (rng_advance n w) = rng_advance (n + m) w.
Proof.
  destruct w as [sk ll di dg sn [c d p e ew r t]].
  unfold rng_advance, with_hw, set_hw, set_rngPos. cbn.
  do 2 f_equal. lia.
Qed.

Lemma random_advance (lo hi : Z) (w : World) :
  lo < hi ->
  random lo hi w =
    (rngDraws (hw w) (rngPos (hw w)) mod (hi - lo) + lo, rng_advance 1 w).
Proof.
  intros Hlt. rewrite random_spec.
  destruct (Z.geb_spec lo hi); [lia|].
  destruct w as [sk ll di dg sn [c d p e ew r t]].
  unfold rng_advance, with_hw, set_hw, set_rngPos. cbn.
  do 3 f_equal. lia.
Qed.

(** ** What the equations take from the random source *)

Lemma rng_advance_0 (w : World) : rng_advance 0 w = w.
Proof.
  destruct w as [sk ll di dg sn hh]. destruct hh as [c d p e ws t tr].
  unfold rng_advance, with_hw, set_hw, set_rngPos. cbn.
  rewrite Nat.add_0_r. reflexivity.
Qed.

(** [random] leaves everything as it is but the position in the stream. *)
Lemma random_draws (lo hi : Z) (w : World) :
  exists n : nat, (random lo hi w).2 = rng_advance n w.
Proof.
  destruct (Z.geb_spec lo hi) as [Hge|Hlt].
  - exists 0%nat. rewrite random_spec.
    destruct (Z.geb_spec lo hi); [|lia]. symmetry. apply rng_advance_0.
  - exists 1%nat. rewrite random_advance by exact Hlt. reflexivity.
Qed.

(** One call of [random] in the goal, replaced by its value and the world
    further along the stream. *)
Ltac draw_step :=
  match goal with
  | |- context [random ?lo ?hi ?w] =>
      let r := fresh "r" in
      let w1 := fresh "w" in
      let n := fresh "n" in
      let E := fresh "E" in
      destruct (random_draws lo hi w) as [n E];
      destruct (random lo hi w) as [r w1];
      cbn [snd] in E; subst w1; cbv beta iota
  end.

Ltac draws_tac :=
  repeat first [progress cbn [snd] | draw_step | split_if];
  rewrite ?rng_advance_add;
  first [eexists; reflexivity
        | exists 0%nat; symmetry; apply rng_advance_0].

Lemma equation_level1_draws (target : Z) (buf : string) (w : World) :
  exists n : nat, (equation_level1 target buf w).2 = rng_advance n w.
Proof. unfold equation_level1. draws_tac. Qed.

Lemma equation_level2_draws (target : Z) (buf : string) (w : World) :
  exists n : nat, (equation_level2 target buf w).2 = rng_advance n w.
Proof. unfold equation_level2. draws_tac. Qed.

Lemma equation_level3_draws (target : Z) (buf : string) (w : World) :
  exists n : nat, (equation_level3 target buf w).2 = rng_advance n w.
Proof.
  unfold equation_level3, equation_add_high, equation_sub_high. draws_tac.
Qed.

Lemma equation_level4_draws (target : Z) (buf : string) (w : World) :
  exists n : nat, (equation_level4 target buf w).2 = rng_advance n w.
Proof.
  unfold equation_level4, equation_add_high, equation_sub_high. draws_tac.
Qed.

Lemma equation_level5_draws (target : Z) (buf : string) (w : World) :
  exists n : nat, (equation_level5 target buf w).2 = rng_advance n w.
Proof. unfold equation_level5. draws_tac. Qed.

Lemma equation_attempt_draws (target lvl : Z) (w : World) :
  exists n : nat, (equation_attempt target lvl w).2 = rng_advance n w.
Proof.
  unfold equation_attempt. cbv zeta.
  repeat split_if;
    first [apply equation_level1_draws | apply equation_level2_draws
          | apply equation_level3_draws | apply equation_level4_draws
          | apply equation_level5_draws].
Qed.

Lemma equation_attempts_draws (attempts : nat) (target lvl : Z)
    (buf : string) (w : World) :
  exists n : nat,
    (equation_attempts attempts target lvl buf w).2 = rng_advance n w.
Proof.
  revert buf w. induction attempts as [|k IH]; intros buf w.
  - exists 0%nat. symmetry. apply rng_advance_0.
  - cbn [equation_attempts].
    destruct (equation_attempt_draws target lvl w) as [n E].
    destruct (equation_attempt target lvl w) as [b w1].
    cbn [snd] in E. subst w1. destruct (fits b).
    + exists n. reflexivity.
    + destruct (IH b (rng_advance n w)) as [m E]. exists (n + m)%nat.
      rewrite E. apply rng_advance_add.
Qed.

(** The static buffer is cleared before it is read: what it held on entry
    has no part in the result. *)
Lemma getEquation_buffer (target lvl : Z) (buf buf' : string) (w : World) :
  getEquation target lvl buf w = getEquation target lvl buf' w.
Proof. reflexivity. Qed.

Lemma getEquation_draws (target lvl : Z) (buf : string) (w : World) :
  exists n : nat, (getEquation target lvl buf w).2 = rng_advance n w.
Proof.
  unfold getEquation. destruct (target =? 0).
  - exists 0%nat. symmetry. apply rng_advance_0.
  - destruct (equation_attempts_draws 150 target lvl buf w) as [n E].
    destruct (equation_attempts 150 target lvl buf w) as [[s|b] w1];
      cbn [snd] in E; subst w1.
    + exists n. reflexivity.
    + draws_tac.
Qed.

(** [updateClock] leaves the state as it is, or moves along the random
    stream and records the minute shown. *)
Lemma updateClock_spec (w : World) :
  updateClock w = w
  \/ exists n : nat,
       updateClock w
       = with_sketch (set_lastMin (to_int8 (minute (rtc_now w))))
           (rng_advance n w).
Proof.
  unfold updateClock. cbv zeta.
  destruct (negb (minute (rtc_now w) =? lastMin (sketch w)));
    [right|left; reflexivity].
  destruct (getEquation_draws (hour (rtc_now w)) (difficulty (sketch w))
              EmptyString w) as [n E].
  destruct (getEquation (hour (rtc_now w)) (difficulty (sketch w))
              EmptyString w) as [s w1].
  cbn [snd] in E. subst w1.
  destruct (getEquation_draws (minute (rtc_now w))
              (difficulty (sketch (rng_advance n w))) EmptyString
              (rng_advance n w)) as [m E].
  destruct (getEquation (minute (rtc_now w))
              (difficulty (sketch (rng_advance n w))) EmptyString
              (rng_advance n w)) as [s' w1].
  cbn [snd] in E. subst w1.
  exists (n + m)%nat. rewrite rng_advance_add. reflexivity.
Qed.

Ltac clock_cases :=
  match goal with
  | |- context [updateClock ?x] =>
      let n := fresh "n" in
      destruct (updateClock_spec x) as [-> | [n ->]]
  end.


Lemma snake_occupied_rng_advance (fx fy : Z) (n : nat) (w : World) :
  snake_occupied fx fy (rng_advance n w) = snake_occupied fx fy w.
Proof. reflexivity. Qed.

Lemma food_candidate_rng_advance (w : World) (j : nat) :
  food_candidate (rng_advance 2 w) j = food_candidate w (S j).
Proof.
  unfold food_candidate, rng_advance.
  cbn [hw with_hw set_hw set_rngPos rngPos rngDraws].
  replace (rngPos (hw w) + 2 + 2 * j)%nat with (rngPos (hw w) + 2 * S j)%nat by lia.
  reflexivity.
Qed.

(** One iteration of the retry loop. *)
Lemma spawnFood_loop_unfold (fuel : nat) (tries : Z) (w : World) :
  spawnFood_loop fuel tries w =
    let c := food_candidate w 0 in
    let w' := rng_advance 2 w in
    if negb (snake_occupied c.1 c.2 w) then (c.1, c.2, w')
    else if tries + 1 <? 200 then
      match fuel with
      | S fuel' => spawnFood_loop fuel' (tries + 1) w'
      | O => (c.1, c.2, w')
      end
    else (c.1, c.2, w').
Proof.
  destruct fuel; cbn [spawnFood_loop];
    rewrite (random_advance 0 SNAKE_COLS w) by reflexivity;
    rewrite (random_advance 0 SNAKE_ROWS (rng_advance 1 w)) by reflexivity;
    rewrite rng_advance_add; cbv zeta;
    unfold food_candidate; cbn [fst snd];
    replace (rngPos (hw w) + 2 * 0)%nat with (rngPos (hw w)) by lia;
    replace (rngPos (hw (rng_advance 1 w))) with (S (rngPos (hw w)))
      by (cbn; lia);
    reflexivity.
Qed.

(** The loop stops at the first free candidate, or at the last of the
    tries that are left. *)
Lemma spawnFood_loop_spec (fuel : nat) :
  forall (tries : Z) (w : World),
    0 <= tries < 200 ->
    (Z.to_nat (199 - tries) <= fuel)%nat ->
    exists n : nat,
      (n < Z.to_nat (200 - tries))%nat
      /\ spawnFood_loop fuel tries w =
           ((food_candidate w n).1, (food_candidate w n).2,
            rng_advance (2 * S n) w)
      /\ (forall j, (j < n)%nat ->
            snake_occupied (food_candidate w j).1 (food_candidate w j).2 w = true)
      /\ ((S n < Z.to_nat (200 - tries))%nat ->
            snake_occupied (food_candidate w n).1 (food_candidate w n).2 w = false).
Proof.
  induction fuel as [|fuel IH]; intros tries w Ht Hfuel;
    rewrite spawnFood_loop_unfold; cbv zeta;
    destruct (snake_occupied (food_candidate w 0).1 (food_candidate w 0).2 w)
      eqn:Hocc; cbn [negb].
  - exists 0%nat. destruct (Z.ltb_spec (tries + 1) 200); [lia|].
    split; [lia|]. split; [reflexivity|]. split; intros; lia.
  - exists 0%nat.
    split; [lia|]. split; [reflexivity|]. split; intros; [lia|exact Hocc].
  - destruct (Z.ltb_spec (tries + 1) 200) as [Hlt|Hge].
    + destruct (IH (tries + 1) (rng_advance 2 w)) as (n & Hn & Heq & Hocc' & Hfree);
        [lia | lia |].
      exists (S n). split; [lia|]. split; [|split].
      * rewrite Heq, food_candidate_rng_advance, rng_advance_add.
        f_equal. f_equal. lia.
      * intros j Hj. destruct j as [|j]; [exact Hocc|].
        rewrite <- food_candidate_rng_advance.
        rewrite <- (snake_occupied_rng_advance _ _ 2). apply Hocc'. lia.
      * intros Hlt'. rewrite <- food_candidate_rng_advance.
        rewrite <- (snake_occupied_rng_advance _ _ 2). apply Hfree. lia.
    + exists 0%nat.
      split; [lia|]. split; [reflexivity|]. split; intros; lia.
  - exists 0%nat.
    split; [lia|]. split; [reflexivity|]. split; intros; [lia|exact Hocc].
Qed.

Lemma spawnFood_spec (w : World) :
  exists n : nat,
    (n < 200)%nat
    /\ spawnFood w =
         food_placed (food_candidate w n).1 (food_candidate w n).2 (2 * S n) w
    /\ (forall j, (j < n)%nat ->
          snake_occupied (food_candidate w j).1 (food_candidate w j).2 w = true)
    /\ ((S n < 200)%nat ->
          snake_occupied (food_candidate w n).1 (food_candidate w n).2 w = false).
Proof.
  destruct (spawnFood_loop_spec 200 0 w) as (n & Hn & Heq & Hocc & Hfree);
    [lia | cbn; lia |].
  exists n. split; [exact Hn|]. split; [|split; assumption].
  unfold spawnFood. rewrite Heq. reflexivity.
Qed.

(** ** Snake: frames *)

#[global] Instance Keeps_rng_advance (n : nat) : Keeps (rng_advance n).
Proof. intros w x. apply keeps_with_hw. reflexivity. Qed.

#[global] Instance Keeps_spawnFood : Keeps spawnFood.
Proof.
  intros w x H. destruct (spawnFood_spec x) as (n & _ & Heq & _).
  rewrite Heq. unfold food_placed. keeps_tac.
Qed.

#[global] Instance Keeps_clear_turn_flags : Keeps clear_turn_flags.
Proof. intros w x H. unfold clear_turn_flags. keeps_tac. Qed.

#[global] Instance Keeps_resetSnake : Keeps resetSnake.
Proof. intros w x H. unfold resetSnake. keeps_tac. Qed.

#[global] Instance Keeps_saveSnakeHighScore : Keeps saveSnakeHighScore.
Proof. intros w x H. unfold saveSnakeHighScore. keeps_tac. Qed.

#[global] Instance Keeps_snake_buffer_input : Keeps snake_buffer_input.
Proof. intros w x H. unfold snake_buffer_input. keeps_tac. Qed.

#[global] Instance Keeps_snake_turn : Keeps snake_turn.
Proof. intros w x H. unfold snake_turn. keeps_tac. Qed.

Lemma handleSnakeDeath_keeps (w : World) :
  keeps (flash SnakeDeath (saveSnakeHighScore w)) (handleSnakeDeath w).
Proof.
  unfold handleSnakeDeath. cbv zeta. cbn [Nat.iter nat_rect]. cbv beta.
  keeps_tac.
Qed.

Lemma handleSnakeDeath_mode (w : World) :
  currentMode (sketch (handleSnakeDeath w)) = currentMode (sketch w).
Proof.
  rewrite (proj1 (handleSnakeDeath_keeps w)), flash_mode.
  apply (keeps_app (f := saveSnakeHighScore) w w (keeps_refl w)).
Qed.

Lemma handleSnakeDeath_trace (w : World) :
  trace (hw (handleSnakeDeath w)) = SnakeDeath :: trace (hw w).
Proof.
  rewrite (proj2 (handleSnakeDeath_keeps w)), flash_trace.
  f_equal. apply (keeps_app (f := saveSnakeHighScore) w w (keeps_refl w)).
Qed.

#[global] Instance Keeps_snake_step (newX newY : Z) : Keeps (snake_step newX newY).
Proof. intros w x H. unfold snake_step. keeps_tac. Qed.

(** A movement tick either dies or keeps the mode and the trace. *)
Lemma snake_move_cases (w : World) :
  (exists x, keeps w x /\ snake_move w = handleSnakeDeath x)
  \/ keeps w (snake_move w).
Proof.
  unfold snake_move. cbv zeta.
  match goal with
  | |- context [snake_new_head ?x] => destruct (snake_new_head x) as [newX newY]
  end.
  split_if.
  { left. eexists. split; [|reflexivity]. keeps_tac. }
  split_if.
  { left. eexists. split; [|reflexivity]. keeps_tac. }
  right. keeps_tac.
Qed.

Lemma snake_move_mode (w : World) :
  currentMode (sketch (snake_move w)) = currentMode (sketch w).
Proof.
  destruct (snake_move_cases w) as [(x & Hk & ->) | Hk].
  - rewrite handleSnakeDeath_mode. apply Hk.
  - apply Hk.
Qed.

(** ** Mode controller: idle timeouts *)

Lemma handleButton_released (w : World) :
  btnActive (sketch w) = false -> handleButton false w = w.
Proof.
  intros H. unfold handleButton. cbv zeta. cbn [andb].
  rewrite H. cbn [andb]. rewrite H. reflexivity.
Qed.

Lemma edges_no_lines (last : Lines) : edges no_lines last = no_lines.
Proof. reflexivity. Qed.

Lemma mode_dispatch_idle (w : World) :
  mode_dispatch no_lines w =
    match currentMode (sketch w) with
    | GAME_SELECT =>
        if elapsed (lastIRActivity (sketch w)) w >? 10000 then to_clock w else w
    | _ => w
    end.
Proof.
  unfold mode_dispatch. destruct (currentMode (sketch w)); reflexivity.
Qed.

Lemma handleIRInput_idle (w : World) :
  handleIRInput no_lines w = set_lastLines no_lines (mode_dispatch no_lines w).
Proof. reflexivity. Qed.

Lemma runDodgeGame_mode (w : World) :
  currentMode (sketch (runDodgeGame w)) =
    if dodge_timed_out w then CLOCK else currentMode (sketch w).
Proof.
  rewrite runDodgeGame_unfold. destruct (dodge_timed_out w); [reflexivity|].
  destruct (keeps_dodge_before_collision w) as [Hm _].
  split_if; [rewrite handleDodgeGameOver_mode|]; exact Hm.
Qed.

Lemma runSnakeGame_mode (w : World) :
  currentMode (sketch (runSnakeGame w)) =
    if elapsed (lastGameIRActivity (sketch w)) w >? SNAKE_TIMEOUT_MS
    then CLOCK else currentMode (sketch w).
Proof.
  unfold runSnakeGame. split_if; [reflexivity|]. cbv zeta.
  pose proof (keeps_app (f := snake_buffer_input) w w (keeps_refl w)) as [Hm _].
  split_if; [rewrite snake_move_mode|]; exact Hm.
Qed.

(** C2, as amended.  On a pass through [loop] with every input idle, a
    mode that compares an activity timestamp (Dino, Dodge, Snake against
    the game timestamp, GameSelect against the remote-control timestamp,
    Settings against its own) goes to CLOCK exactly when the idle time
    measured at that pass exceeds its window, and otherwise stays; SET_TIME
    and SET_DATE compare no timestamp and stay whatever the idle time. *)
Theorem idle_timeout_policy (now : Z) (w : World) :
  btnActive (sketch w) = false ->
  let m := currentMode (sketch w) in
  let idle := to_ulong (to_ulong now - activity_stamp m w) in
  currentMode (sketch (loop (idle_pass now) w)) =
    match idle_window m with
    | Some window => if idle >? window then CLOCK else m
    | None => m
    end.
Proof.
  intros Hbtn. cbv zeta. unfold loop, idle_pass.
  cbn [in_millis in_lines in_button].
  set (w0 := with_hw (set_clock (to_ulong now)) w).
  rewrite (handleButton_released w0 Hbtn), handleIRInput_idle, mode_dispatch_idle.
  change (currentMode (sketch w0)) with (currentMode (sketch w)).
  destruct (currentMode (sketch w)) eqn:Em; cbn [idle_window activity_stamp].
  - (* CLOCK *)
    change (currentMode (sketch (set_lastLines no_lines w0)))
      with (currentMode (sketch w)) at 1.
    rewrite Em. split_if; [exact Em|].
    clock_cases; exact Em.
  - (* SETTING *)
    change (currentMode (sketch (set_lastLines no_lines w0)))
      with (currentMode (sketch w)) at 1.
    rewrite Em. unfold runSettingsMenu.
    change (elapsed (lastActivity (sketch (set_lastLines no_lines w0)))
              (set_lastLines no_lines w0))
      with (to_ulong (to_ulong now - lastActivity (sketch w))).
    split_if; [reflexivity|exact Em].
  - (* GAME *)
    change (currentMode (sketch (set_lastLines no_lines w0)))
      with (currentMode (sketch w)) at 1.
    rewrite Em.
    change (elapsed (lastGameIRActivity (sketch (set_lastLines no_lines w0)))
              (set_lastLines no_lines w0))
      with (to_ulong (to_ulong now - lastGameIRActivity (sketch w))).
    rewrite runDinoGame_mode. split_if; [reflexivity|exact Em].
  - (* DODGE_GAME *)
    change (currentMode (sketch (set_lastLines no_lines w0)))
      with (currentMode (sketch w)) at 1.
    rewrite Em, runDodgeGame_mode.
    change (dodge_timed_out (set_lastLines no_lines w0))
      with (to_ulong (to_ulong now - lastGameIRActivity (sketch w))
            >? DODGE_TIMEOUT_MS).
    split_if; [reflexivity|exact Em].
  - (* GAME_SELECT *)
    change (elapsed (lastIRActivity (sketch w0)) w0)
      with (to_ulong (to_ulong now - lastIRActivity (sketch w))).
    destruct (to_ulong (to_ulong now - lastIRActivity (sketch w)) >? 10000) eqn:Ht.
    + change (currentMode (sketch (set_lastLines no_lines (to_clock w0))))
        with CLOCK at 1.
      cbv iota. split_if; [reflexivity|].
      clock_cases; reflexivity.
    + change (currentMode (sketch (set_lastLines no_lines w0)))
        with (currentMode (sketch w)) at 1.
      rewrite Em. unfold runGameSelectMenu.
      change (elapsed (lastIRActivity (sketch (set_lastLines no_lines w0)))
                (set_lastLines no_lines w0))
        with (to_ulong (to_ulong now - lastIRActivity (sketch w))).
      rewrite Ht. exact Em.
  - (* SET_TIME *)
    change (currentMode (sketch (set_lastLines no_lines w0)))
      with (currentMode (sketch w)) at 1.
    rewrite Em. exact Em.
  - (* SET_DATE *)
    change (currentMode (sketch (set_lastLines no_lines w0)))
      with (currentMode (sketch w)) at 1.
    rewrite Em. exact Em.
  - (* SNAKE_GAME *)
    change (currentMode (sketch (set_lastLines no_lines w0)))
      with (currentMode (sketch w)) at 1.
    rewrite Em, runSnakeGame_mode.
    change (elapsed (lastGameIRActivity (sketch (set_lastLines no_lines w0)))
              (set_lastLines no_lines w0))
      with (to_ulong (to_ulong now - lastGameIRActivity (sketch w))).
    split_if; [reflexivity|exact Em].
Qed.

(** ** Snake: when the segments stay distinct *)

Lemma shift_body_length (i : nat) (body : list SnakeSegment) :
  length (shift_body i body) = length body.
Proof.
  revert body. induction i as [|j IH]; intros body; cbn [shift_body].
  - reflexivity.
  - rewrite IH, length_insert. reflexivity.
Qed.

(** After the shift, segment 0 is unchanged, segments 1 to [i] hold what
    segments 0 to [i - 1] held, and the rest is unchanged. *)
Lemma shift_body_spec (i : nat) (body : list SnakeSegment) :
  (i < length body)%nat ->
  shift_body i body = take 1 body ++ take i body ++ drop (S i) body.
Proof.
  revert body. induction i as [|j IH]; intros body Hlen; cbn [shift_body].
  - rewrite take_0. cbn [app]. rewrite take_drop. reflexivity.
  - destruct (lookup_lt_is_Some_2 body j ltac:(lia)) as [s Hs].
    rewrite (list_lookup_total_correct _ _ _ Hs).
    rewrite IH by (rewrite length_insert; lia).
    rewrite !take_insert_ge by lia.
    rewrite drop_insert_ge by lia.
    replace (S j - S j)%nat with 0%nat by lia.
    rewrite (take_S_r _ _ _ Hs).
    destruct (drop (S j) body) as [|t rest] eqn:Hd.
    { apply (f_equal length) in Hd. rewrite length_drop in Hd. cbn in Hd. lia. }
    cbn [insert list_insert].
    assert (Hd' : drop (S (S j)) body = rest).
    { replace (S (S j)) with (S j + 1)%nat by lia.
      rewrite <- drop_drop, Hd. reflexivity. }
    rewrite Hd', <- !app_assoc. reflexivity.
Qed.

(** The segments in use after the shift and the write of the new head. *)
Lemma shifted_prefix (n : nat) (h : SnakeSegment) (body : list SnakeSegment) :
  (n < length body)%nat ->
  take (S n) (<[0%nat := h]> (shift_body n body)) = h :: take n body.
Proof.
  intros Hlen. rewrite shift_body_spec by exact Hlen.
  destruct body as [|s body]; [cbn in Hlen; lia|].
  cbn [take app insert list_insert]. f_equal.
  rewrite take_0. cbn [app].
  rewrite take_app_le by (rewrite length_take; lia).
  rewrite take_take. f_equal. lia.
Qed.

Lemma to_int8_small (v : Z) : -128 <= v < 128 -> to_int8 v = v.
Proof.
  intros H. unfold to_int8, wrap_signed.
  change (2 ^ (8 - 1)) with 128. change (2 ^ 8) with 256.
  rewrite Z.mod_small by lia. lia.
Qed.

Lemma to_int_small (v : Z) : -32768 <= v < 32768 -> to_int v = v.
Proof.
  intros H. unfold to_int, wrap_signed.
  change (2 ^ (16 - 1)) with 32768. change (2 ^ 16) with 65536.
  rewrite Z.mod_small by lia. lia.
Qed.

Lemma seg_at_false (sx sy : Z) (l : list SnakeSegment) :
  existsb (seg_at sx sy) l = false <-> Segment.mk sx sy ∉ l.
Proof.
  induction l as [|s l IH]; cbn [existsb].
  - split; [intros _; apply not_elem_of_nil | reflexivity].
  - rewrite orb_false_iff, IH, not_elem_of_cons. unfold seg_at.
    destruct s as [x y]; cbn [Segment.x Segment.y].
    split; intros [H1 H2]; (split; [|exact H2]).
    + intros Heq. inversion Heq; subst.
      rewrite !Z.eqb_refl in H1. discriminate.
    + destruct (Z.eqb_spec x sx), (Z.eqb_spec y sy); subst; try reflexivity.
      destruct H1. reflexivity.
Qed.

#[local] Arguments spawnFood : simpl never.
#[local] Arguments shift_body : simpl never.

(** What [snake_step] does to the body: the new head in front of the old
    segments, all of them when the snake grows, all but the tail
    otherwise. *)
Lemma snake_step_segments (newX newY : Z) (w : World) :
  snake_wf w ->
  let grow :=
    (newX =? foodX (snake w)) && (newY =? foodY (snake w))
    && (snakeLength (snake w) <? SNAKE_MAX_LENGTH) in
  snake_segments (snake_step newX newY w) =
    Segment.mk newX newY
      :: body_prefix (if grow then snakeLength (snake w)
                      else snakeLength (snake w) - 1) w
  /\ snake_wf (snake_step newX newY w).
Proof.
  intros [Hlen Hrange] grow. subst grow.
  destruct w as [sk ll di dg sn hh].
  destruct sn as [body len dir pend fx fy speed score high timer].
  unfold snake_wf, snake_segments, body_prefix, SNAKE_MAX_LENGTH in *.
  cbn [snake snakeBody snakeLength foodX foodY] in *.
  assert (Hbody :
    forall n : Z, 1 <= n <= 24 ->
      take (Z.to_nat n)
        (<[0%nat := Segment.mk newX newY]> (shift_body (Z.to_nat (n - 1)) body))
      = Segment.mk newX newY :: take (Z.to_nat (n - 1)) body).
  { intros n Hn. replace (Z.to_nat n) with (S (Z.to_nat (n - 1))) by lia.
    apply shifted_prefix. lia. }
  assert (Hlen' :
    forall n : nat,
      length (<[0%nat := Segment.mk newX newY]> (shift_body n body))
      = Z.to_nat 24).
  { intros n. rewrite length_insert, shift_body_length. exact Hlen. }
  unfold snake_step, SNAKE_MAX_LENGTH. cbv zeta.
  cbn [snake snakeBody snakeLength foodX foodY].
  destruct ((newX =? fx) && (newY =? fy)) eqn:Hate; cbn [andb].
  - match goal with
    | |- context [spawnFood ?x] =>
        destruct (spawnFood_spec x) as (n & _ & Heq & _); rewrite Heq; clear Heq
    end.
    destruct (Z.ltb_spec len 24) as [Hlt|Hge].
    + repeat split_if; cbn; rewrite (to_int8_small (len + 1)) by lia;
        (split; [|split; [apply Hlen'|lia]]);
        rewrite (Hbody (len + 1)) by lia;
        replace (len + 1 - 1) with len by lia; reflexivity.
    + repeat split_if; cbn;
        (split; [apply Hbody; lia|split; [apply Hlen'|lia]]).
  - cbn. split; [apply Hbody; lia|split; [apply Hlen'|lia]].
Qed.

Lemma body_prefix_pred_NoDup (n : Z) (w : World) :
  NoDup (body_prefix n w) -> NoDup (body_prefix (n - 1) w).
Proof.
  unfold body_prefix. intros H.
  replace (take (Z.to_nat (n - 1)) (snakeBody (snake w)))
    with (take (Z.to_nat (n - 1)) (take (Z.to_nat n) (snakeBody (snake w)))).
  - exact (sublist_NoDup _ _ H (sublist_take _ _)).
  - rewrite take_take. f_equal. lia.
Qed.

Lemma body_prefix_pred_free (sx sy n : Z) (w : World) :
  existsb (seg_at sx sy) (body_prefix n w) = false ->
  existsb (seg_at sx sy) (body_prefix (n - 1) w) = false.
Proof.
  rewrite !seg_at_false. unfold body_prefix. intros H Hin. apply H.
  rewrite elem_of_take in Hin. destruct Hin as (i & Hi & Hlt).
  rewrite elem_of_take. exists i. split; [exact Hi|lia].
Qed.

(** A step of the snake that is not a self-collision, taken while the food
    is not under the body, leaves the segments pairwise distinct.  If
    nothing is eaten the food is still not under the body afterwards. *)
Lemma snake_step_distinct (newX newY : Z) (w : World) :
  snake_wf w ->
  NoDup (snake_segments w) ->
  snake_hits_self newX newY w = false ->
  snake_occupied (foodX (snake w)) (foodY (snake w)) w = false ->
  NoDup (snake_segments (snake_step newX newY w))
  /\ snake_wf (snake_step newX newY w)
  /\ ((newX =? foodX (snake w)) && (newY =? foodY (snake w)) = false ->
      snake_occupied (foodX (snake (snake_step newX newY w)))
        (foodY (snake (snake_step newX newY w))) (snake_step newX newY w) = false).
Proof.
  intros Hwf Hnd Hself Hfood.
  destruct (snake_step_segments newX newY w Hwf) as [Hseg Hwf'].
  cbv zeta in Hseg. unfold snake_hits_self in Hself.
  unfold snake_occupied in Hfood. unfold snake_segments in Hnd.
  split; [|split; [exact Hwf'|]].
  - rewrite Hseg. apply NoDup_cons.
    destruct ((newX =? foodX (snake w)) && (newY =? foodY (snake w))) eqn:Hate;
      cbn [andb].
    + destruct (snakeLength (snake w) <? SNAKE_MAX_LENGTH).
      * apply andb_prop in Hate as [Hx Hy].
        apply Z.eqb_eq in Hx, Hy. subst newX newY.
        split; [apply seg_at_false; exact Hfood | exact Hnd].
      * split; [apply seg_at_false; exact Hself|].
        apply body_prefix_pred_NoDup. exact Hnd.
    + split; [apply seg_at_false; exact Hself|].
      apply body_prefix_pred_NoDup. exact Hnd.
  - intros Hate. rewrite Hate in Hseg. cbn [andb] in Hseg.
    assert (Hfx : foodX (snake (snake_step newX newY w)) = foodX (snake w)
                  /\ foodY (snake (snake_step newX newY w)) = foodY (snake w)).
    { unfold snake_step. cbv zeta. rewrite Hate. cbn [andb].
      split; reflexivity. }
    destruct Hfx as [-> ->].
    change (existsb (seg_at (foodX (snake w)) (foodY (snake w)))
              (snake_segments (snake_step newX newY w)) = false).
    rewrite Hseg. cbn [existsb]. apply orb_false_iff. split.
    + unfold seg_at. cbn [Segment.x Segment.y]. exact Hate.
    + apply body_prefix_pred_free. exact Hfood.
Qed.

(** [resetSnake] lays out three distinct segments. *)
Lemma resetSnake_distinct (w : World) :
  length (snakeBody (snake w)) = Z.to_nat SNAKE_MAX_LENGTH ->
  snake_segments (resetSnake w)
  = [Segment.mk 7 5; Segment.mk 6 5; Segment.mk 5 5]
  /\ NoDup (snake_segments (resetSnake w))
  /\ snake_wf (resetSnake w).
Proof.
  intros Hlen. unfold resetSnake. cbv zeta.
  match goal with
  | |- context [spawnFood ?x] =>
      destruct (spawnFood_spec x) as (n & _ & Heq & _); rewrite Heq; clear Heq
  end.
  destruct w as [sk ll di dg sn hh].
  destruct sn as [body len dir pend fx fy speed score high timer].
  cbn [snake snakeBody] in Hlen.
  destruct body as [|s0 [|s1 [|s2 body]]]; try discriminate Hlen.
  unfold snake_wf, snake_segments, body_prefix, SNAKE_MAX_LENGTH in *.
  cbn in Hlen |- *.
  split; [reflexivity|]. split; [|split; [exact Hlen|lia]].
  apply (bool_decide_unpack _). vm_compute. reflexivity.
Qed.

(** A movement tick that does not end in death, taken while the food is
    not under the body, leaves the segments pairwise distinct. *)
Lemma snake_move_distinct (w : World) :
  snake_wf w ->
  NoDup (snake_segments w) ->
  snake_occupied (foodX (snake w)) (foodY (snake w)) w = false ->
  trace (hw (snake_move w)) = trace (hw w) ->
  NoDup (snake_segments (snake_move w)) /\ snake_wf (snake_move w).
Proof.
  intros Hwf Hnd Hfood Hlive. unfold snake_move in *. cbv zeta in *.
  set (w1 := snake_turn (with_snake (set_snakeMoveTimer (millis w)) w)) in *.
  assert (Hwf1 : snake_wf w1) by exact Hwf.
  assert (Hnd1 : NoDup (snake_segments w1)) by exact Hnd.
  assert (Hfood1 :
    snake_occupied (foodX (snake w1)) (foodY (snake w1)) w1 = false)
    by exact Hfood.
  assert (Ht1 : trace (hw w1) = trace (hw w)) by reflexivity.
  destruct (snake_new_head w1) as [newX newY].
  destruct (snake_hits_wall newX newY).
  { rewrite handleSnakeDeath_trace, Ht1 in Hlive.
    destruct (cons_neq_self _ _ Hlive). }
  destruct (snake_hits_self newX newY w1) eqn:Hself.
  { rewrite handleSnakeDeath_trace, Ht1 in Hlive.
    destruct (cons_neq_self _ _ Hlive). }
  destruct (snake_step_distinct newX newY w1 Hwf1 Hnd1 Hself Hfood1)
    as (H1 & H2 & _).
  split; assumption.
Qed.

(** ** Speed ramps and scores within a life *)

(** Turn the recorded outcomes of integer tests into inequalities. *)
Ltac arith_hyps :=
  repeat match goal with
         | H : (_ >? _) = _ |- _ => rewrite Z.gtb_ltb in H
         | H : (_ >=? _) = _ |- _ => rewrite Z.geb_leb in H
         | H : (_ <? _) = true |- _ => apply Z.ltb_lt in H
         | H : (_ <? _) = false |- _ => apply Z.ltb_ge in H
         | H : (_ <=? _) = true |- _ => apply Z.leb_le in H
         | H : (_ <=? _) = false |- _ => apply Z.leb_gt in H
         | H : (_ =? _) = true |- _ => apply Z.eqb_eq in H
         | H : (_ =? _) = false |- _ => apply Z.eqb_neq in H
         end.

(** Split on the first conditional of the goal and simplify everywhere. *)
Ltac split_if_all :=
  match goal with
  | |- context [if ?b then _ else _] =>
      let H := fresh "Hif" in destruct b eqn:H; cbn in H |- *
  end.

(** Dino: a pass that is not a collision leaves the frame interval between
    [MIN_GAME_SPEED] and its previous value, and does not lower the
    score. *)
Lemma dino_interval_and_score (w : World) :
  MIN_GAME_SPEED <= gameSpeed (dino w) <= INITIAL_GAME_SPEED ->
  0 <= score (sketch w) < 32767 ->
  MIN_GAME_SPEED <= gameSpeed (dino (dino_before_collision w))
    <= gameSpeed (dino w)
  /\ score (sketch w) <= score (sketch (dino_before_collision w)).
Proof.
  unfold MIN_GAME_SPEED, INITIAL_GAME_SPEED. intros Hs Hc.
  destruct w as [sk ll di dg sn hh].
  destruct sk as [md mn gc st th tm ty tmo td df sc hs lm bt ba bm lir lgir
                  ijt su sd sl sr la].
  destruct di as [py jmp jt ox ot gs ft].
  cbn [dino sketch gameSpeed score] in *.
  unfold dino_before_collision, dino_move_obstacle, dino_player_y,
    dino_jump_end, dino_jump_input.
  rewrite random_spec.
  repeat split_if_all; cbn in *; unfold MIN_GAME_SPEED, SPEED_DECREASE in *;
    arith_hyps; rewrite ?to_int_small by lia; lia.
Qed.

(** Snake: a step leaves the move interval between [SNAKE_MIN_SPEED] and
    its previous value, and does not lower the score. *)
Lemma snake_interval_and_score (newX newY : Z) (w : World) :
  SNAKE_MIN_SPEED <= snakeSpeed (snake w) <= SNAKE_INITIAL_SPEED ->
  0 <= snakeScore (snake w) < 32767 ->
  SNAKE_MIN_SPEED <= snakeSpeed (snake (snake_step newX newY w))
    <= snakeSpeed (snake w)
  /\ snakeScore (snake w) <= snakeScore (snake (snake_step newX newY w)).
Proof.
  unfold SNAKE_MIN_SPEED, SNAKE_INITIAL_SPEED. intros Hs Hc.
  destruct w as [sk ll di dg sn hh].
  destruct sn as [body len dir pend fx fy speed score high timer].
  cbn [snake snakeSpeed snakeScore] in *.
  unfold snake_step. cbv zeta.
  destruct ((newX =? foodX _) && (newY =? foodY _)); cbn [andb].
  - match goal with
    | |- context [spawnFood ?x] =>
        destruct (spawnFood_spec x) as (n & _ & Heq & _); rewrite Heq; clear Heq
    end.
    repeat split_if_all; cbn in *; unfold SNAKE_MIN_SPEED, SNAKE_SPEED_STEP in *;
      rewrite ?to_int_small in * by lia; arith_hyps; lia.
  - cbn. lia.
Qed.

Lemma dodge_advance_block_ramp (w : World) (ac : Z) (i : nat) :
  DODGE_MIN_SPEED - 1 <= dodgeSpeed (dodge w) <= DODGE_INITIAL_SPEED ->
  (exists k, dodgeSpeed (dodge w) = 2 * k) ->
  0 <= dodgeScore (dodge w) < 32767 ->
  dodge_ramp w (dodge_advance_block (w, ac) i).1
  /\ dodgeScore (dodge (dodge_advance_block (w, ac) i).1) <= dodgeScore (dodge w) + 1.
Proof.
  unfold dodge_ramp, DODGE_MIN_SPEED, DODGE_INITIAL_SPEED.
  intros Hs [k Hk] Hc. unfold dodge_advance_block.
  destruct (dodgeBlocks (dodge w) !! i) as [b|]; [|cbn; eauto with lia].
  destruct w as [sk ll di dg sn hh].
  destruct dg as [px sp sc hi bl ft ml mr].
  cbn [dodge dodgeSpeed dodgeScore] in *.
  repeat split_if_all; cbn in *;
    unfold DODGE_MIN_SPEED, DODGE_SPEED_DECREASE in *; arith_hyps;
    rewrite ?to_int_small by lia;
    (split; [split; [split; [lia|]|lia]|lia]).
  all: first [exists (k - 1); lia | exists k; lia].
Qed.

Lemma dodge_fill_slots_ramp (n i : nat) (t : Z) (st : World * Z) :
  dodgeSpeed (dodge (dodge_fill_slots n i t st).1) = dodgeSpeed (dodge st.1)
  /\ dodgeScore (dodge (dodge_fill_slots n i t st).1) = dodgeScore (dodge st.1).
Proof.
  revert i st. induction n as [|n IH]; intros i [w ac]; cbn [dodge_fill_slots].
  - split; reflexivity.
  - split_if; [|split; reflexivity].
    destruct (dodgeBlocks (dodge w) !! i) as [b|]; [|apply IH].
    split_if; [|apply IH].
    destruct (IH (S i) (spawnBlock i w, ac + 1)) as [-> ->].
    destruct (spawnBlock_blocks i w) as (_ & _ & _ & Hsc & Hsp & _).
    cbn [fst]. split; assumption.
Qed.

Lemma dodge_target_blocks_ramp (w : World) :
  dodgeSpeed (dodge (dodge_target_blocks w).2) = dodgeSpeed (dodge w)
  /\ dodgeScore (dodge (dodge_target_blocks w).2) = dodgeScore (dodge w).
Proof.
  rewrite dodge_target_blocks_spec. repeat split_if; split; reflexivity.
Qed.

(** A frame tick of the Dodge engine, within a life. *)
Lemma dodge_frame_ramp (w : World) :
  DODGE_MIN_SPEED - 1 <= dodgeSpeed (dodge w) <= DODGE_INITIAL_SPEED ->
  (exists k, dodgeSpeed (dodge w) = 2 * k) ->
  0 <= dodgeScore (dodge w) < 32766 ->
  dodge_ramp w (dodge_frame w).
Proof.
  unfold dodge_ramp, DODGE_MIN_SPEED, DODGE_INITIAL_SPEED.
  intros Hs Hk Hc.
  pose proof dodge_advance_block_ramp as Hstep.
  unfold dodge_ramp, DODGE_MIN_SPEED, DODGE_INITIAL_SPEED in Hstep.
  unfold dodge_frame. cbv zeta.
  set (w0 := with_dodge (set_dodgeFrameTimer (millis w)) w).
  unfold dodge_advance_blocks. cbn [seq foldl DODGE_MAX_BLOCKS].
  pose proof (Hstep w0 (dodge_count_active w0) 0%nat Hs Hk
                ltac:(change (dodgeScore (dodge w0)) with (dodgeScore (dodge w)); lia))
    as [H0 H0'].
  destruct (dodge_advance_block (w0, dodge_count_active w0) 0) as [wa ca].
  cbn [fst] in H0, H0'.
  change (dodgeSpeed (dodge w0)) with (dodgeSpeed (dodge w)) in *.
  change (dodgeScore (dodge w0)) with (dodgeScore (dodge w)) in *.
  destruct H0 as [[Hsa Hka] Hca].
  pose proof (Hstep wa ca 1%nat ltac:(lia) Hka ltac:(lia)) as [H1 _].
  destruct (dodge_advance_block (wa, ca) 1) as [wb cb].
  cbn [fst] in H1. destruct H1 as [[Hsb Hkb] Hcb].
  destruct (dodge_target_blocks_ramp wb) as [Hts Htc].
  destruct (dodge_target_blocks wb) as [t wt]. cbn [snd] in Hts, Htc.
  destruct (dodge_fill_slots_ramp DODGE_MAX_BLOCKS 0 t (wt, cb)) as [Hfs Hfc].
  cbn [fst] in Hfs, Hfc.
  rewrite Hfs, Hfc, Hts, Htc.
  split; [split; [lia|exact Hkb]|lia].
Qed.

(** ** The amended statements at work, and the runs that refute the
    original ones *)

(** Split the conjunctions of a closed goal and evaluate each part. *)
Ltac by_evaluation :=
  repeat match goal with |- _ /\ _ => split end;
  vm_compute; reflexivity.

(** Without a jump, the first obstacle, a ground obstacle, reaches the
    player's column at pass 12 and ends the run. *)
Lemma dino_collision_rule_witness :
  obstacleX (dino (dino_before_collision dino_hit_world)) = PLAYER_X
  /\ obstacleType (dino (dino_before_collision dino_hit_world)) = GROUND_OBSTACLE
  /\ isJumping (dino (dino_before_collision dino_hit_world)) = false
  /\ trace (hw (runDinoGame dino_hit_world))
     = DinoGameOver :: trace (hw dino_hit_world).
Proof.
  assert (Hx : obstacleX (dino (dino_before_collision dino_hit_world)) = PLAYER_X)
    by (vm_compute; reflexivity).
  assert (Ht : obstacleType (dino (dino_before_collision dino_hit_world))
               = GROUND_OBSTACLE) by (vm_compute; reflexivity).
  assert (Hj : isJumping (dino (dino_before_collision dino_hit_world)) = false)
    by (vm_compute; reflexivity).
  do 3 (split; [assumption|]).
  apply (proj1 (dino_collision_rule dino_hit_world)).
  split; [exact Hx|]. left. split; assumption.
Defined.

(** A block in row 8 over the player's column ends the run. *)
Lemma dodge_collision_rule_witness :
  dodgeBlocks (dodge (dodge_before_collision dodge_hit_world)) !! 0%nat
  = Some (Block.mk 7 8 1 true)
  /\ trace (hw (runDodgeGame dodge_hit_world))
     = DodgeGameOver :: trace (hw dodge_hit_world).
Proof.
  assert (Hb : dodgeBlocks (dodge (dodge_before_collision dodge_hit_world)) !! 0%nat
               = Some (Block.mk 7 8 1 true)) by (vm_compute; reflexivity).
  split; [exact Hb|].
  apply (dodge_collision_rule dodge_hit_world).
  split; [vm_compute; reflexivity|].
  exists 0%nat, (Block.mk 7 8 1 true).
  split; [unfold DODGE_MAX_BLOCKS; lia|]. split; [exact Hb|].
  split; [reflexivity|].
  split; [vm_compute; discriminate|].
  assert (Hp : dodgePlayerX (dodge (dodge_before_collision dodge_hit_world)) = 7)
    by (vm_compute; reflexivity).
  rewrite Hp. cbn. lia.
Defined.

(** Dodge, last input at 400 ms: an idle pass at 20 s returns to the
    clock, an idle pass at 15 s does not. *)
Lemma idle_timeout_policy_witness :
  btnActive (sketch (dodge_session 3)) = false
  /\ currentMode (sketch (loop (idle_pass 20000) (dodge_session 3))) = CLOCK
  /\ currentMode (sketch (loop (idle_pass 15000) (dodge_session 3))) = DODGE_GAME.
Proof.
  assert (H : btnActive (sketch (dodge_session 3)) = false)
    by (vm_compute; reflexivity).
  split; [exact H|]. split.
  - rewrite (idle_timeout_policy 20000 (dodge_session 3) H).
    vm_compute. reflexivity.
  - rewrite (idle_timeout_policy 15000 (dodge_session 3) H).
    vm_compute. reflexivity.
Defined.

(** The time editor is reached from the clock with OPTIONS, DOWN, OK, the
    date editor with OPTIONS, DOWN, DOWN, OK.  Left idle, neither returns
    to the clock: not after 31 seconds, past the longest window of any
    mode, not after an hour, not at the largest idle time an
    [unsigned long] difference can measure. *)
Lemma edit_modes_never_time_out :
  (currentMode (sketch set_time_session) = SET_TIME
   /\ Forall (fun now =>
                currentMode (sketch (loop (idle_pass now) set_time_session))
                = SET_TIME)
             [31000; 3600000; 4294967295])
  /\ (currentMode (sketch set_date_session) = SET_DATE
      /\ Forall (fun now =>
                   currentMode (sketch (loop (idle_pass now) set_date_session))
                   = SET_DATE)
                [31000; 3600000; 4294967295]).
Proof.
  split; (split; [vm_compute; reflexivity|]);
    repeat (apply Forall_cons; split; [vm_compute; reflexivity|]);
    apply Forall_nil_2.
Qed.

(** A block one column wide falls in the player's column.  At the ninth
    pass it comes down to row 8 and the game is over, although no active
    block is in row [DODGE_PLAYER_Y] = 9 or below. *)
Lemma dodge_game_over_above_player_row :
  loop (mkInput 1600 no_lines false) (dodge_hit_session 8)
  = runDodgeGame dodge_hit_world
  /\ dodge_timed_out dodge_hit_world = false
  /\ dodgeBlocks (dodge (dodge_before_collision dodge_hit_world))
     = [Block.mk 7 8 1 true; Block.mk 0 0 0 false]
  /\ dodgePlayerX (dodge (dodge_before_collision dodge_hit_world)) = 7
  /\ forallb (fun b => negb (Block.active b) || (Block.y b <? DODGE_PLAYER_Y))
       (dodgeBlocks (dodge (dodge_before_collision dodge_hit_world))) = true
  /\ trace (hw (runDodgeGame dodge_hit_world))
     = DodgeGameOver :: trace (hw dodge_hit_world).
Proof. by_evaluation. Qed.

(** ** Where the code departs from the specification *)

(** C1.  The frame interval of the Dodge engine does not stop at its
    configured minimum.  Within one life of the Dodge session (no game
    over, no reset since the launch) the interval, which starts at 160 and
    loses 2 with every retired block while it is above [DODGE_MIN_SPEED] =
    35, steps from 36 to 34. *)
Theorem dodge_speed_drops_below_minimum :
  currentMode (sketch (dodge_session 400)) = DODGE_GAME
  /\ trace (hw (dodge_session 400)) = []
  /\ dodgeScore (dodge (dodge_session 400)) = 73
  /\ dodgeSpeed (dodge (dodge_session 400)) = 34
  /\ dodgeSpeed (dodge (dodge_session 400)) < DODGE_MIN_SPEED.
Proof. by_evaluation. Qed.

(** C7.  A jump input that arrives while a jump is in progress is not
    dropped: [irJumpTriggered] stays set and starts a new jump on the
    first pass after the current jump has ended.  Two Dino sessions agree
    up to pass 14, where one of them has UP pressed a second time, 220 ms
    into the jump.  In both the jump ends at pass 17.  At pass 18, with no
    input since pass 14, the session with the second press jumps again;
    the other one stays on the ground. *)
Theorem dino_press_during_jump_starts_next_jump :
  dino_session true 14 = dino_session false 14
  /\ isJumping (dino (dino_session true 14)) = true
  /\ (irJumpTriggered (sketch (dino_session true 15)) = true
      /\ irJumpTriggered (sketch (dino_session false 15)) = false)
  /\ (isJumping (dino (dino_session true 18)) = false
      /\ isJumping (dino (dino_session false 18)) = false)
  /\ (isJumping (dino (dino_session true 19)) = true
      /\ jumpTimer (dino (dino_session true 19)) = 2180
      /\ playerY (dino (dino_session true 19)) = PLAYER_AIR_Y)
  /\ (isJumping (dino (dino_session false 19)) = false
      /\ playerY (dino (dino_session false 19)) = PLAYER_GROUND_Y)
  /\ trace (hw (dino_session true 19)) = [].
Proof. by_evaluation. Qed.

(** ** The math tab *)

Lemma string_length_append (s1 s2 : string) :
  String.length (s1 +:+ s2) = (String.length s1 + String.length s2)%nat.
Proof. induction s1 as [|c s1 IH]; simpl; [reflexivity|]. f_equal. exact IH. Qed.

Lemma substring_whole (s : string) (n k : nat) :
  (String.length (String.substring 0 n s) <= k)%nat -> (k < n)%nat ->
  String.substring 0 n s = s.
Proof.
  revert n k. induction s as [|c s IH]; intros [|n] k Hlen Hk; cbn in *;
    try reflexivity; try lia.
  destruct k as [|k]; [lia|]. f_equal. apply (IH n k); lia.
Qed.

Lemma substring_length_le (s : string) (n : nat) :
  (String.length (String.substring 0 n s) <= String.length s)%nat.
Proof.
  revert n. induction s as [|c s IH]; intros [|n]; cbn; try lia.
  specialize (IH n). lia.
Qed.

(** What [TRY] leaves in the buffer: the whole text when it fits, the old
    content otherwise. *)
Lemma TRY_cases (e : Equation) (buf : string) :
  (TRY e buf = text e /\ (String.length (text e) <= 5)%nat)
  \/ (TRY e buf = buf /\ (5 < String.length (text e))%nat).
Proof.
  unfold TRY. cbv zeta.
  destruct (String.length (snprintf 12 e) <=? 5)%nat eqn:E.
  - apply Nat.leb_le in E. left.
    assert (snprintf 12 e = text e) as Heq.
    { unfold snprintf in *. apply (substring_whole _ _ 5); [exact E|cbn; lia]. }
    rewrite Heq in *. split; [reflexivity|exact E].
  - apply Nat.leb_gt in E. right. split; [reflexivity|].
    pose proof (substring_length_le (text e) (12 - 1)) as Hle.
    unfold snprintf in E. lia.
Qed.

Lemma fmt_d_two_digits (n : Z) :
  0 <= n < 100 -> (1 <= String.length (fmt_d n) <= 2)%nat.
Proof.
  intros Hn.
  assert (forallb (fun k => let l := String.length (fmt_d (Z.of_nat k)) in
                            (1 <=? l)%nat && (l <=? 2)%nat) (seq 0 100) = true)
    as Hall by (vm_compute; reflexivity).
  rewrite forallb_forall in Hall.
  specialize (Hall (Z.to_nat n)). rewrite Z2Nat.id in Hall by lia.
  cbv zeta in Hall. rewrite andb_true_iff, !Nat.leb_le in Hall.
  apply Hall, in_seq. lia.
Qed.

Lemma TRY_reads (target : Z) (e : Equation) (buf : string) :
  value e = Some target -> Forall (fun n => 0 <= n) (operands e) ->
  buf = EmptyString \/ reads_as target buf ->
  TRY e buf = EmptyString \/ reads_as target (TRY e buf).
Proof.
  intros Hv Hn Hbuf.
  destruct (TRY_cases e buf) as [[-> _]|[-> _]]; [|exact Hbuf].
  right. exists e. auto.
Qed.

Lemma apply_divide (q b : Z) : b <> 0 -> apply_op Divide (q * b) b = Some q.
Proof.
  intros Hb. cbn. rewrite Z.mod_mul, Z.div_mul by exact Hb.
  destruct (Z.eqb_spec b 0); [contradiction|reflexivity].
Qed.

Lemma factors_range (f : Z) : In f factors -> 2 <= f <= 9.
Proof. cbn. intros H. repeat destruct H as [<-|H]; lia || contradiction. Qed.

Lemma divides_product (product f : Z) :
  f <> 0 -> divides product f = true -> f * Z.quot product f = product.
Proof.
  unfold divides. intros Hf H. apply Z.eqb_eq in H.
  symmetry. now apply Z.quot_exact.
Qed.

Ltac small_ints :=
  repeat match goal with
    | |- context [to_int ?v] => rewrite (to_int_small v) by (lia || nia)
    end.

Ltac draw :=
  small_ints;
  match goal with
  | |- context [random ?lo ?hi ?w] =>
      let E := fresh "E" in
      pose proof (random_range lo hi w) as E;
      destruct (random lo hi w) as [? ?]; cbn [fst] in E;
      try specialize (E ltac:(lia))
  end; small_ints.

Lemma small_factor_reads (target product : Z) (eqn : Z -> Z -> Equation)
    (buf : string) :
  0 < product < 32768 ->
  (forall f q : Z, 2 <= f <= 9 -> 0 <= q <= 9 -> f * q = product ->
     value (eqn f q) = Some target
     /\ Forall (fun n => 0 <= n) (operands (eqn f q))) ->
  buf = EmptyString \/ reads_as target buf ->
  small_factor product eqn buf = EmptyString
  \/ reads_as target (small_factor product eqn buf).
Proof.
  intros Hp Heqn Hbuf. unfold small_factor.
  destruct (find _ factors) as [f|] eqn:Hfind; [|exact Hbuf].
  apply find_some in Hfind as [Hin Hcond].
  apply factors_range in Hin. apply andb_true_iff in Hcond as [Hdiv Hq].
  apply divides_product in Hdiv; [|lia].
  assert (0 <= Z.quot product f <= product).
  { split; [apply Z.quot_pos; lia|]. apply Z.quot_le_upper_bound; nia. }
  rewrite to_int_small in Hq |- * by lia. apply Z.leb_le in Hq.
  destruct (Heqn f (Z.quot product f)) as [Hv Hn]; try lia.
  now apply TRY_reads.
Qed.

Ltac equation_value :=
  cbn [value binds_tighter andb negb operands];
  rewrite ?apply_divide by lia;
  cbn [apply_op mbind option_bind];
  first [ f_equal; lia | repeat constructor; (lia || nia) ].

Ltac written :=
  cbn [fst];
  repeat split_if; arith_hyps;
  first
    [ assumption
    | apply TRY_reads; [equation_value | equation_value | assumption]
    | apply small_factor_reads;
      [ lia | intros ? ? ? ? ?; split; equation_value | assumption ] ].

Section Levels.
Context (target : Z) (buf : string).
Hypothesis target_range : 1 <= target <= 59.
Hypothesis buf_ok : buf = EmptyString \/ reads_as target buf.

Lemma equation_level1_reads (w : World) :
  (equation_level1 target buf w).1 = EmptyString
  \/ reads_as target (equation_level1 target buf w).1.
Proof. unfold equation_level1. draw. cbv zeta. small_ints. written. Qed.

Lemma equation_level2_reads (w : World) :
  (equation_level2 target buf w).1 = EmptyString
  \/ reads_as target (equation_level2 target buf w).1.
Proof.
  unfold equation_level2. draw. split_if; draw; cbv zeta; small_ints; written.
Qed.

Lemma equation_add_high_reads (w : World) :
  (equation_add_high target buf w).1 = EmptyString
  \/ reads_as target (equation_add_high target buf w).1.
Proof. unfold equation_add_high. draw. cbv zeta. small_ints. written. Qed.

Lemma equation_sub_high_reads (w : World) :
  (equation_sub_high target buf w).1 = EmptyString
  \/ reads_as target (equation_sub_high target buf w).1.
Proof. unfold equation_sub_high. draw. cbv zeta. small_ints. written. Qed.

Lemma equation_level3_reads (w : World) :
  (equation_level3 target buf w).1 = EmptyString
  \/ reads_as target (equation_level3 target buf w).1.
Proof.
  unfold equation_level3. draw. cbv zeta. small_ints.
  split_if; [apply equation_add_high_reads|].
  split_if; [apply equation_sub_high_reads|].
  draw. small_ints. written.
Qed.

Lemma equation_level4_reads (w : World) :
  (equation_level4 target buf w).1 = EmptyString
  \/ reads_as target (equation_level4 target buf w).1.
Proof.
  unfold equation_level4. draw. cbv zeta. small_ints.
  split_if; [|split_if; [apply equation_add_high_reads
                        |apply equation_sub_high_reads]].
  cbn [fst]. destruct (find _ factors) as [f|] eqn:Hfind; [|exact buf_ok].
  apply find_some in Hfind as [Hin Hdiv].
  apply factors_range in Hin. apply divides_product in Hdiv; [|lia].
  assert (0 <= Z.quot target f <= target).
  { split; [apply Z.quot_pos; lia|]. apply Z.quot_le_upper_bound; nia. }
  small_ints. written.
Qed.

Lemma equation_level5_reads (w : World) :
  (equation_level5 target buf w).1 = EmptyString
  \/ reads_as target (equation_level5 target buf w).1.
Proof.
  unfold equation_level5. draw. cbv zeta. small_ints.
  repeat (split_if; [arith_hyps; repeat draw; cbv zeta; small_ints; written|]).
  exact buf_ok.
Qed.
End Levels.

Lemma equation_attempt_reads (target lvl : Z) (w : World) :
  1 <= target <= 59 ->
  (equation_attempt target lvl w).1 = EmptyString
  \/ reads_as target (equation_attempt target lvl w).1.
Proof.
  intros Ht. unfold equation_attempt. cbv zeta.
  repeat split_if;
    auto using equation_level1_reads, equation_level2_reads,
      equation_level3_reads, equation_level4_reads, equation_level5_reads.
Qed.

Lemma fits_spec (s : string) :
  fits s = true -> s <> EmptyString /\ (1 <= String.length s <= 5)%nat.
Proof.
  unfold fits. rewrite andb_true_iff, negb_true_iff, Nat.leb_le.
  intros [Hne Hle]. apply String.eqb_neq in Hne.
  split; [exact Hne|]. destruct s; [contradiction|cbn in *; lia].
Qed.

Lemma equation_attempts_found (n : nat) (target lvl : Z) (buf s : string)
    (w w' : World) :
  1 <= target <= 59 ->
  equation_attempts n target lvl buf w = (inl s, w') ->
  reads_as target s /\ (1 <= String.length s <= 5)%nat.
Proof.
  intros Ht. revert buf w. induction n as [|n IH]; intros buf w; cbn.
  - discriminate.
  - pose proof (equation_attempt_reads target lvl w Ht) as Hread.
    destruct (equation_attempt target lvl w) as [b w1]. cbn [fst] in Hread.
    destruct (fits b) eqn:Hfits; [|apply IH].
    intros [= <- <-]. apply fits_spec in Hfits as [Hne Hlen].
    split; [|exact Hlen]. destruct Hread; [contradiction|assumption].
Qed.

(** The last resort always fits: a one-digit number plus a number of at
    most two digits. *)
Lemma fallback_fits (a b : Z) (buf : string) :
  0 <= a < 10 -> 0 <= b < 100 ->
  TRY (Bin a Plus b) buf = text (Bin a Plus b)
  /\ (1 <= String.length (text (Bin a Plus b)) <= 5)%nat.
Proof.
  intros Ha Hb.
  assert (1 <= String.length (text (Bin a Plus b)) <= 5)%nat as Hlen.
  { cbn [text]. rewrite !string_length_append.
    pose proof (fmt_d_two_digits a). pose proof (fmt_d_two_digits b).
    change (String.length (op_text Plus)) with 1%nat. lia. }
  split; [|exact Hlen].
  destruct (TRY_cases (Bin a Plus b) buf) as [[-> _]|[_ Hbig]];
    [reflexivity|lia].
Qed.

Lemma getEquation_text (target lvl : Z) (buf : string)
    (w : World) :
  0 <= target <= 59 ->
  reads_as target (getEquation target lvl buf w).1
  /\ (1 <= String.length (getEquation target lvl buf w).1 <= 5)%nat.
Proof.
  intros Ht. unfold getEquation.
  destruct (Z.eqb_spec target 0) as [->|Hnz].
  - cbn [fst]. split; [|cbn; lia].
    exists (Bin 0 Plus 0). split; [reflexivity|].
    split; [reflexivity|repeat constructor; lia].
  - destruct (equation_attempts 150 target lvl buf w) as [[s|b] w1] eqn:Hloop.
    + cbn [fst]. eapply equation_attempts_found; [|exact Hloop]. lia.
    + draw. cbv zeta. small_ints.
      destruct (fallback_fits z (target - z) b) as [-> Hlen]; try lia.
      replace (5 <? _)%nat with false by (symmetry; apply Nat.ltb_ge; lia).
      cbn [fst]. split; [|exact Hlen].
      exists (Bin z Plus (target - z)). split; [reflexivity|].
      split; [cbn; f_equal; lia|repeat constructor; lia].
Qed.

(** X1 ([getEquation]): for a target from 0 to 59, at any level and from any
    random source, the text returned is an equation over natural numbers
    whose value, with the usual precedence and exact division, is the
    target; it has between one and five characters. *)
Theorem getEquation_reads_as_target (target lvl : Z) (buf : string)
    (w : World) :
  0 <= target <= 59 ->
  reads_as target (getEquation target lvl buf w).1
  /\ (1 <= String.length (getEquation target lvl buf w).1 <= 5)%nat.
Proof. apply getEquation_text. Qed.

Lemma getEquation_reads_as_target_witness :
  0 <= 37 <= 59
  /\ reads_as 37 (getEquation 37 5 EmptyString equation_world).1
  /\ (1 <= String.length (getEquation 37 5 EmptyString equation_world).1
      <= 5)%nat.
Proof. split; [lia|]. apply getEquation_reads_as_target. lia. Defined.

Lemma chars_append (s1 s2 : string) :
  chars (s1 +:+ s2) = chars s1 ++ chars s2.
Proof.
  unfold chars. induction s1 as [|c s1 IH]; simpl; [reflexivity|].
  f_equal. exact IH.
Qed.

Lemma digit_glyphs (d : Decimal.uint) :
  Forall (fun c => 0 <= getCharIdx c <= 9) (chars (NilEmpty.string_of_uint d)).
Proof.
  induction d; cbn; constructor; try assumption; vm_compute;
    split; discriminate.
Qed.

Lemma fmt_d_glyphs (n : Z) :
  0 <= n -> Forall (fun c => 0 <= getCharIdx c <= 9) (chars (fmt_d n)).
Proof.
  intros Hn. unfold fmt_d. destruct n as [|p|p]; [| |lia].
  - cbn. constructor; [vm_compute; split; discriminate|constructor].
  - cbn [Z.to_int NilZero.string_of_int NilZero.string_of_uint].
    destruct (Pos.to_uint p) eqn:E; try apply digit_glyphs.
    cbn. constructor; [vm_compute; split; discriminate|constructor].
Qed.

Lemma op_glyph (o : Op) :
  Forall (fun c => 10 <= getCharIdx c <= 13) (chars (op_text o)).
Proof.
  destruct o; cbn; (constructor; [vm_compute; split; discriminate|constructor]).
Qed.

(** X2 ([getEquation], [getCharIdx]): every character of an equation shown
    for a target from 0 to 59 has a glyph: a digit (font index 0 to 9) or
    one of the four operator signs (10 to 13). *)
Theorem getEquation_has_glyphs (target lvl : Z) (buf : string) (w : World) :
  0 <= target <= 59 ->
  Forall (fun c => 0 <= getCharIdx c <= 13)
    (chars (getEquation target lvl buf w).1).
Proof.
  intros Ht.
  destruct (getEquation_text target lvl buf w Ht)
    as [(e & -> & _ & Hn) _].
  assert (forall n, 0 <= n ->
            Forall (fun c => 0 <= getCharIdx c <= 13) (chars (fmt_d n))) as Hd.
  { intros n H. eapply Forall_impl; [apply fmt_d_glyphs, H|]. cbn. lia. }
  assert (forall o, Forall (fun c => 0 <= getCharIdx c <= 13)
                      (chars (op_text o))) as Ho.
  { intros o. eapply Forall_impl; [apply op_glyph|]. cbn. lia. }
  destruct e; cbn [text operands] in *; rewrite ?chars_append;
    repeat match goal with
      | H : Forall _ (_ :: _) |- _ => apply Forall_cons in H as [? H]
      end;
    repeat (apply Forall_app; split); auto.
Qed.

Lemma getEquation_has_glyphs_witness :
  0 <= 37 <= 59
  /\ Forall (fun c => 0 <= getCharIdx c <= 13)
       (chars (getEquation 37 5 EmptyString equation_world).1).
Proof. split; [lia|]. apply getEquation_has_glyphs. lia. Defined.

Lemma all_chars (c : Ascii.ascii) :
  In c (map Ascii.ascii_of_nat (seq 0 256)).
Proof.
  apply in_map_iff. exists (Ascii.nat_of_ascii c).
  split; [apply Ascii.ascii_nat_embedding|].
  apply in_seq. pose proof (Ascii.nat_ascii_bounded c). lia.
Qed.

(** X3 ([getCharIdx]): the result is -1 or an index from 0 to 41 into the
    font, and two different characters never share an index. *)
Theorem getCharIdx_index (c1 c2 : Ascii.ascii) :
  -1 <= getCharIdx c1 <= 41
  /\ (0 <= getCharIdx c1 -> getCharIdx c1 = getCharIdx c2 -> c1 = c2).
Proof.
  assert (forallb (fun a =>
            (-1 <=? getCharIdx a) && (getCharIdx a <=? 41)
            && forallb (fun b =>
                 implb ((0 <=? getCharIdx a) && (getCharIdx a =? getCharIdx b))
                       (Ascii.eqb a b))
                 (map Ascii.ascii_of_nat (seq 0 256)))
            (map Ascii.ascii_of_nat (seq 0 256)) = true) as Hall
    by (vm_compute; reflexivity).
  rewrite forallb_forall in Hall. specialize (Hall c1 (all_chars c1)).
  apply andb_true_iff in Hall as [Hrange Hinj].
  apply andb_true_iff in Hrange as [Hlo Hhi].
  split; [lia|]. intros Hpos Heq.
  rewrite forallb_forall in Hinj. specialize (Hinj c2 (all_chars c2)).
  apply Ascii.eqb_eq. destruct (Ascii.eqb c1 c2); [reflexivity|].
  rewrite implb_false_r, negb_true_iff, andb_false_iff in Hinj. lia.
Qed.

Lemma getCharIdx_index_witness :
  getCharIdx (Ascii.ascii_of_nat 120) = 12
  /\ -1 <= getCharIdx (Ascii.ascii_of_nat 120) <= 41
  /\ Ascii.ascii_of_nat 88 <> Ascii.ascii_of_nat 120
  /\ getCharIdx (Ascii.ascii_of_nat 120) <> getCharIdx (Ascii.ascii_of_nat 88).
Proof.
  split; [vm_compute; reflexivity|].
  split; [apply (getCharIdx_index _ (Ascii.ascii_of_nat 88))|].
  split; [discriminate|].
  intros Heq.
  assert (Ascii.ascii_of_nat 120 = Ascii.ascii_of_nat 88) as Habs; [|discriminate].
  apply (proj2 (getCharIdx_index _ _)); [vm_compute; discriminate|exact Heq].
Defined.

(** ** Start-up *)

Lemma to_int_range (v : Z) : -32768 <= to_int v < 32768.
Proof.
  unfold to_int, wrap_signed.
  change (2 ^ (16 - 1)) with 32768. change (2 ^ 16) with 65536.
  pose proof (Z.mod_pos_bound (v + 32768) 65536). lia.
Qed.

Lemma to_int8_range (v : Z) : -128 <= to_int8 v < 128.
Proof.
  unfold to_int8, wrap_signed.
  change (2 ^ (8 - 1)) with 128. change (2 ^ 8) with 256.
  pose proof (Z.mod_pos_bound (v + 128) 256). lia.
Qed.

(** Boolean tests in the context as the inequalities they decide. *)
Ltac bool_hyps :=
  repeat match goal with
    | H : _ || _ = true |- _ => apply orb_true_iff in H as [H|H]
    | H : _ || _ = false |- _ => apply orb_false_iff in H as [? ?]
    | H : _ && _ = true |- _ => apply andb_true_iff in H as [? ?]
    | H : _ && _ = false |- _ => apply andb_false_iff in H as [H|H]
    | H : negb _ = true |- _ => apply negb_true_iff in H
    | H : negb _ = false |- _ => apply negb_false_iff in H
    end;
  arith_hyps.

Ltac int_ranges :=
  repeat match goal with
    | |- context [to_int ?v] =>
        lazymatch goal with
        | _ : -32768 <= to_int v < 32768 |- _ => fail
        | _ => pose proof (to_int_range v)
        end
    | |- context [to_int8 ?v] =>
        lazymatch goal with
        | _ : -128 <= to_int8 v < 128 |- _ => fail
        | _ => pose proof (to_int8_range v)
        end
    end.

Lemma setup_values (h : Hw) :
  currentMode (sketch (setup h)) = CLOCK
  /\ 1 <= difficulty (sketch (setup h)) <= 5
  /\ 0 <= highScore (sketch (setup h)) <= 9999
  /\ 0 <= dodgeHighScore (dodge (setup h)) <= 9999
  /\ 0 <= snakeHighScore (snake (setup h)) <= 32767.
Proof.
  unfold setup, loadDodgeHighScore, loadSnakeHighScore. cbv zeta.
  repeat split_if; cbn in *; bool_hyps; int_ranges;
    (split; [reflexivity|lia]).
Qed.

(** X4 ([setup]): whatever the EEPROM holds, the sketch starts in Clock
    mode with a difficulty from 1 to 5, Dino and Dodge high scores from 0
    to 9999 and a Snake high score that is not negative. *)
Theorem setup_loads_valid_values (h : Hw) :
  currentMode (sketch (setup h)) = CLOCK
  /\ 1 <= difficulty (sketch (setup h)) <= 5
  /\ 0 <= highScore (sketch (setup h)) <= 9999
  /\ 0 <= dodgeHighScore (dodge (setup h)) <= 9999
  /\ 0 <= snakeHighScore (snake (setup h)) <= 32767.
Proof. apply setup_values. Qed.

(** What [setup] reads back from each high-score cell. *)
Lemma setup_high_scores (h : Hw) :
  highScore (sketch (setup h))
  = (let v := to_int (default (-1) (eeprom h !! EEPROM_HIGHSCORE_ADDR)) in
     if (v <? 0) || (v >? 9999) then 0 else v)
  /\ dodgeHighScore (dodge (setup h))
     = (let v := to_int (default (-1) (eeprom h !! EEPROM_DODGE_HIGHSCORE_ADDR)) in
        if (v <? 0) || (v >? 9999) then 0 else v)
  /\ snakeHighScore (snake (setup h))
     = (let v := to_int (default (-1) (eeprom h !! EEPROM_SNAKE_HIGHSCORE_ADDR)) in
        if (v <? 0) || (v >? 99999) then 0 else v).
Proof.
  unfold setup, loadDodgeHighScore, loadSnakeHighScore. cbv zeta.
  repeat split_if; cbn in *;
    unfold EEPROM_get, EEPROM_write, EEPROM_put in *;
    cbn [hw sketch dodge snake with_sketch with_hw with_dodge with_snake
         set_hw set_sketch set_dodge set_snake power_on eeprom set_eeprom
         set_eepromWrites] in *;
    rewrite ?lookup_insert_ne in * by (vm_compute; discriminate);
    repeat split; reflexivity || congruence.
Qed.

Ltac reboot_read :=
  unfold EEPROM_put;
  cbn [hw sketch dodge snake with_sketch with_hw with_dodge with_snake
       set_hw set_sketch set_dodge set_snake eeprom set_eeprom
       set_eepromWrites highScore set_highScore dodgeHighScore
       set_dodgeHighScore snakeHighScore set_snakeHighScore];
  rewrite lookup_insert_eq; cbn [default from_option id];
  rewrite to_int_small by lia;
  repeat split_if; bool_hyps; lia.

(** X5 ([saveHighScore], [saveDodgeHighScore], [saveSnakeHighScore],
    [setup]): a record that a game saves is the high score after the next
    power-up: [setup], run on the hardware the save left behind, loads
    exactly that score. *)
Theorem high_score_survives_reboot (w : World) :
  (0 <= highScore (sketch w) < score (sketch w) ->
   score (sketch w) <= 9999 ->
   highScore (sketch (setup (hw (saveHighScore w)))) = score (sketch w))
  /\ (0 <= dodgeHighScore (dodge w) < dodgeScore (dodge w) ->
      dodgeScore (dodge w) <= 9999 ->
      dodgeHighScore (dodge (setup (hw (saveDodgeHighScore w))))
      = dodgeScore (dodge w))
  /\ (0 <= snakeHighScore (snake w) < snakeScore (snake w) ->
      snakeScore (snake w) <= 32767 ->
      snakeHighScore (snake (setup (hw (saveSnakeHighScore w))))
      = snakeScore (snake w)).
Proof.
  split; [|split]; intros Hgt Hmax.
  - destruct (setup_high_scores (hw (saveHighScore w))) as (-> & _).
    unfold saveHighScore.
    destruct (Z.gtb_spec (score (sketch w)) (highScore (sketch w))); [|lia].
    cbv zeta. reboot_read.
  - destruct (setup_high_scores (hw (saveDodgeHighScore w))) as (_ & -> & _).
    unfold saveDodgeHighScore.
    destruct (Z.gtb_spec (dodgeScore (dodge w)) (dodgeHighScore (dodge w)));
      [|lia].
    cbv zeta. reboot_read.
  - destruct (setup_high_scores (hw (saveSnakeHighScore w))) as (_ & _ & ->).
    unfold saveSnakeHighScore.
    destruct (Z.gtb_spec (snakeScore (snake w)) (snakeHighScore (snake w)));
      [|lia].
    cbv zeta. reboot_read.
Qed.

Lemma high_score_survives_reboot_witness :
  highScore (sketch (setup (hw (saveHighScore record_world)))) = 5
  /\ dodgeHighScore (dodge (setup (hw (saveDodgeHighScore record_world)))) = 7
  /\ snakeHighScore (snake (setup (hw (saveSnakeHighScore record_world)))) = 4.
Proof.
  destruct (high_score_survives_reboot record_world) as (Hdino & Hdodge & Hsnake).
  split; [apply Hdino; vm_compute; intuition discriminate|].
  split; [apply Hdodge; vm_compute; intuition discriminate|].
  apply Hsnake; vm_compute; intuition discriminate.
Defined.

(** ** Invariants of the engines *)

Lemma dino_before_collision_ok (w : World) :
  dino_ok w -> dino_ok (dino_before_collision w).
Proof.
  unfold dino_ok, OBSTACLE_START_X, GROUND_OBSTACLE, AIR_OBSTACLE,
    MIN_GAME_SPEED, INITIAL_GAME_SPEED, PLAYER_AIR_Y, PLAYER_GROUND_Y.
  intros (Hx & Ht & Hs & Hy).
  destruct w as [sk ll di dg sn hh].
  destruct di as [py jmp jt ox ot gs ft].
  cbn [dino obstacleX obstacleType gameSpeed playerY] in *.
  unfold dino_before_collision, dino_move_obstacle, dino_player_y,
    dino_jump_end, dino_jump_input.
  rewrite random_spec.
  pose proof (Z.mod_pos_bound (rngDraws hh (rngPos hh)) (2 - 0) ltac:(lia)).
  repeat split_if_all; cbn in *;
    unfold MIN_GAME_SPEED, SPEED_DECREASE, OBSTACLE_START_X, PLAYER_AIR_Y,
      PLAYER_GROUND_Y in *;
    arith_hyps; rewrite ?to_int_small, ?to_int8_small in * by lia; lia.
Qed.

(** The game-over sequence puts the Dino state back to its start values;
    the two timers are left as they are. *)
Lemma handleGameOver_dino (w : World) :
  dino (handleGameOver w)
  = mkDino PLAYER_GROUND_Y false (jumpTimer (dino w)) OBSTACLE_START_X
           GROUND_OBSTACLE INITIAL_GAME_SPEED (frameTimer (dino w)).
Proof.
  unfold handleGameOver, saveHighScore. cbv zeta.
  split_if; reflexivity.
Qed.

Lemma runDinoGame_ok_pass (w : World) :
  dino_ok w -> dino_ok (runDinoGame w).
Proof.
  intros Hok. rewrite runDinoGame_unfold.
  apply dino_before_collision_ok in Hok.
  split_if; [|exact Hok].
  unfold dino_ok. rewrite handleGameOver_dino. cbn.
  unfold OBSTACLE_START_X, MIN_GAME_SPEED, INITIAL_GAME_SPEED. lia.
Qed.

(** X6 ([runDinoGame], [handleGameOver]): a pass of the Dino engine keeps
    the obstacle on the grid (column 0 to 14) and of one of the two kinds,
    the frame interval between 40 and 100 ms, and the player on row 0 or
    row 3, whether or not the pass ends in a game over. *)
Theorem runDinoGame_ok (w : World) :
  dino_ok w -> dino_ok (runDinoGame w).
Proof. apply runDinoGame_ok_pass. Qed.

Lemma runDinoGame_ok_witness :
  dino_ok (dino_session false 11) /\ dino_ok (runDinoGame (dino_session false 11)).
Proof.
  assert (dino_ok (dino_session false 11)) as H
    by (unfold dino_ok; vm_compute; intuition discriminate).
  split; [exact H|]. apply runDinoGame_ok, H.
Defined.

(** Up to the collision test a pass does not raise the frame interval,
    and it leaves the score alone or adds 1 to it as an [int]. *)
Lemma dino_interval_and_score_int (w : World) :
  MIN_GAME_SPEED <= gameSpeed (dino w) <= INITIAL_GAME_SPEED ->
  MIN_GAME_SPEED <= gameSpeed (dino (dino_before_collision w))
    <= gameSpeed (dino w)
  /\ (score (sketch (dino_before_collision w)) = score (sketch w)
      \/ score (sketch (dino_before_collision w))
         = to_int (score (sketch w) + 1)).
Proof.
  unfold MIN_GAME_SPEED, INITIAL_GAME_SPEED. intros Hs.
  destruct w as [sk ll di dg sn hh].
  destruct sk as [md mn gc st th tm ty tmo td df sc hs lm bt ba bm lir lgir
                  ijt su sd sl sr la].
  destruct di as [py jmp jt ox ot gs ft].
  cbn [dino sketch gameSpeed score] in *.
  unfold dino_before_collision, dino_move_obstacle, dino_player_y,
    dino_jump_end, dino_jump_input.
  rewrite random_spec.
  repeat split_if_all; cbn in *; unfold MIN_GAME_SPEED, SPEED_DECREASE in *;
    arith_hyps; rewrite ?(to_int_small (gs - 1)) by lia;
    (split; [lia|auto]).
Qed.

(** X7 ([runDinoGame], [handleGameOver]): with the frame interval within
    its limits, a pass that ends in a game over leaves the score at 0 and
    the interval at its start value of 100 ms; any other pass leaves the
    interval between 40 ms and its previous value, and leaves the score as
    it was or adds 1 to it as an [int]: the score is only lowered at
    32767, which becomes -32768. *)
Theorem runDinoGame_ramp (w : World) :
  MIN_GAME_SPEED <= gameSpeed (dino w) <= INITIAL_GAME_SPEED ->
  if dino_collision (dino_before_collision w)
  then gameSpeed (dino (runDinoGame w)) = INITIAL_GAME_SPEED
       /\ score (sketch (runDinoGame w)) = 0
  else MIN_GAME_SPEED <= gameSpeed (dino (runDinoGame w)) <= gameSpeed (dino w)
       /\ (score (sketch (runDinoGame w)) = score (sketch w)
           \/ score (sketch (runDinoGame w)) = to_int (score (sketch w) + 1))
       /\ (-32768 <= score (sketch w) <= 32767 ->
           score (sketch (runDinoGame w)) < score (sketch w) ->
           score (sketch w) = 32767
           /\ score (sketch (runDinoGame w)) = -32768).
Proof.
  intros Hs. rewrite runDinoGame_unfold.
  destruct (dino_collision (dino_before_collision w)).
  - rewrite handleGameOver_dino. split; [reflexivity|].
    unfold handleGameOver, saveHighScore. cbv zeta. split_if; reflexivity.
  - destruct (dino_interval_and_score_int w Hs) as [Hi Hc].
    split; [exact Hi|]. split; [exact Hc|].
    destruct Hc as [-> | ->]; [lia|].
    unfold to_int, wrap_signed. change (2 ^ (16 - 1)) with 32768.
    change (2 ^ 16) with 65536.
    intros Hr Hlt. Z.div_mod_to_equations. lia.
Qed.

Lemma runDinoGame_ramp_witness :
  gameSpeed (dino (dino_session false 11)) = 100
  /\ score (sketch (dino_session false 11)) = 0
  /\ dino_collision (dino_before_collision (dino_session false 11)) = false
  /\ MIN_GAME_SPEED <= gameSpeed (dino (runDinoGame (dino_session false 11)))
     <= gameSpeed (dino (dino_session false 11))
  /\ (score (sketch (runDinoGame (dino_session false 11)))
      = score (sketch (dino_session false 11))
      \/ score (sketch (runDinoGame (dino_session false 11)))
         = to_int (score (sketch (dino_session false 11)) + 1)).
Proof.
  assert (gameSpeed (dino (dino_session false 11)) = 100) as Hs
    by (vm_compute; reflexivity).
  assert (score (sketch (dino_session false 11)) = 0) as Hc
    by (vm_compute; reflexivity).
  assert (dino_collision (dino_before_collision (dino_session false 11)) = false)
    as Hno by (vm_compute; reflexivity).
  do 3 (split; [assumption|]).
  pose proof (runDinoGame_ramp (dino_session false 11)) as H.
  rewrite Hno in H. destruct H as (Hi & Hsc & _).
  - rewrite Hs. unfold MIN_GAME_SPEED, INITIAL_GAME_SPEED. lia.
  - split; assumption.
Defined.

(** *** Dodge *)

(** [spawnBlock] puts a block that is on the grid into its slot and
    changes nothing else of the Dodge state. *)
Lemma spawnBlock_ok (i : nat) (w : World) :
  exists b, block_ok b /\ Block.active b = true
    /\ dodge (spawnBlock i w)
       = set_dodgeBlocks (<[i := b]> (dodgeBlocks (dodge w))) (dodge w).
Proof.
  unfold spawnBlock.
  pose proof (random_range 1 4 w ltac:(lia)) as Hr.
  destruct (random 1 4 w) as [r w1] eqn:E1. cbn [fst] in Hr. cbv zeta.
  assert (dodge w1 = dodge w) as Hd.
  { rewrite random_spec in E1. destruct (1 >=? 4); injection E1 as _ <-;
      reflexivity. }
  rewrite (to_int8_small r) by lia.
  unfold DODGE_COLS. rewrite (to_int8_small (15 - r)) by lia.
  pose proof (random_range 0 (15 - r + 1) w1 ltac:(lia)) as Hx.
  destruct (random 0 (15 - r + 1) w1) as [rx w2] eqn:E2. cbn [fst] in Hx.
  assert (dodge w2 = dodge w1) as Hd2.
  { rewrite random_spec in E2. destruct (0 >=? 15 - r + 1);
      injection E2 as _ <-; reflexivity. }
  rewrite (to_int8_small rx) by lia.
  exists (Block.mk rx 0 r true). split; [|split; [reflexivity|]].
  - intros _. cbn. unfold DODGE_COLS, DODGE_PLAYER_Y. lia.
  - unfold set_block. cbn [dodge with_dodge set_dodge]. rewrite Hd2, Hd. reflexivity.
Qed.
(** Drop the conversions to [int] and [int8_t] of the values that fit. *)
Ltac wraps :=
  repeat match goal with
    | |- context [to_int ?v] => rewrite (to_int_small v) by lia
    | |- context [to_int8 ?v] => rewrite (to_int8_small v) by lia
    | H : context [to_int ?v] |- _ => rewrite (to_int_small v) in H by lia
    | H : context [to_int8 ?v] |- _ => rewrite (to_int8_small v) in H by lia
    end.

(** [dodge_ok] looks at the player's column, the blocks and the interval. *)
Lemma dodge_ok_ext (w w' : World) :
  dodgePlayerX (dodge w') = dodgePlayerX (dodge w) ->
  dodgeBlocks (dodge w') = dodgeBlocks (dodge w) ->
  dodgeSpeed (dodge w') = dodgeSpeed (dodge w) ->
  dodge_ok w -> dodge_ok w'.
Proof. unfold dodge_ok. intros -> -> ->. exact id. Qed.

Lemma dodge_player_move_ok (w : World) :
  dodge_ok w -> dodge_ok (dodge_player_move w).
Proof.
  unfold dodge_ok, DODGE_COLS. intros (Hp & Hrest).
  destruct w as [sk ll di dg sn hh].
  destruct dg as [px sp sc hi bl ft ml mr].
  cbn [dodge dodgePlayerX dodgeBlocks dodgeSpeed] in *.
  unfold dodge_player_move.
  repeat split_if_all; cbn in *; unfold DODGE_COLS in *; arith_hyps;
    wraps; (split; [lia|exact Hrest]).
Qed.

Lemma dodge_advance_block_ok (w : World) (ac : Z) (i : nat) :
  dodge_ok w -> dodge_ok (dodge_advance_block (w, ac) i).1.
Proof.
  unfold dodge_ok, DODGE_COLS, DODGE_MIN_SPEED, DODGE_INITIAL_SPEED.
  intros (Hp & Hl & Hb & Hs & k & Hk). unfold dodge_advance_block.
  destruct (dodgeBlocks (dodge w) !! i) as [b|] eqn:Hi;
    [|cbn; eauto 10].
  pose proof (Forall_lookup_1 _ _ _ _ Hb Hi) as Hbi.
  destruct w as [sk ll di dg sn hh].
  destruct dg as [px sp sc hi bl ft ml mr].
  destruct b as [bx by_ bw ba].
  cbn [dodge dodgePlayerX dodgeBlocks dodgeSpeed] in *.
  unfold block_ok in Hbi. cbn in Hbi.
  destruct ba; cbn [negb Block.active]; [|cbn; eauto 10].
  specialize (Hbi eq_refl). unfold DODGE_COLS, DODGE_PLAYER_Y in Hbi.
  repeat split_if_all; cbn in *;
    unfold DODGE_MIN_SPEED, DODGE_SPEED_DECREASE, DODGE_PLAYER_Y in *;
    arith_hyps; wraps;
    rewrite ?length_insert, ?list_insert_insert_eq;
    (split; [lia|]); (split; [assumption|]);
    (split; [apply Forall_insert; [assumption|];
             unfold block_ok; cbn; unfold DODGE_COLS, DODGE_PLAYER_Y;
             intros; lia || discriminate|]);
    (split; [lia|]);
    first [exists (k - 1); lia | exists k; lia].
Qed.

Lemma dodge_advance_blocks_ok (w : World) (ac : Z) :
  dodge_ok w -> dodge_ok (dodge_advance_blocks w ac).1.
Proof.
  intros Hok. unfold dodge_advance_blocks. cbn [seq foldl DODGE_MAX_BLOCKS].
  pose proof (dodge_advance_block_ok w ac 0 Hok) as H0.
  destruct (dodge_advance_block (w, ac) 0) as [w0 a0]. cbn [fst] in H0.
  apply dodge_advance_block_ok, H0.
Qed.

Lemma dodge_target_blocks_ok (w : World) :
  dodge_ok w -> dodge_ok (dodge_target_blocks w).2.
Proof.
  apply dodge_ok_ext; rewrite dodge_target_blocks_spec;
    repeat split_if; reflexivity.
Qed.

Lemma dodge_fill_slots_ok (n i : nat) (t : Z) (st : World * Z) :
  dodge_ok st.1 -> dodge_ok (dodge_fill_slots n i t st).1.
Proof.
  revert i st. induction n as [|n IH]; intros i [w ac] Hok;
    cbn [dodge_fill_slots]; [exact Hok|].
  split_if; [|exact Hok].
  destruct (dodgeBlocks (dodge w) !! i) as [b|]; [|apply IH, Hok].
  split_if; [|apply IH, Hok].
  apply IH. cbn [fst] in *.
  destruct (spawnBlock_ok i w) as (nb & Hnb & _ & Heq).
  destruct Hok as (Hp & Hl & Hb & Hs).
  unfold dodge_ok. rewrite Heq. cbn.
  rewrite length_insert.
  split; [exact Hp|]. split; [exact Hl|].
  split; [apply Forall_insert; assumption|exact Hs].
Qed.

Lemma dodge_frame_ok (w : World) : dodge_ok w -> dodge_ok (dodge_frame w).
Proof.
  intros Hok. unfold dodge_frame. cbv zeta.
  set (w0 := with_dodge (set_dodgeFrameTimer (millis w)) w).
  assert (dodge_ok w0) as H0 by exact Hok.
  pose proof (dodge_advance_blocks_ok w0 (dodge_count_active w0) H0) as Ha.
  destruct (dodge_advance_blocks w0 (dodge_count_active w0)) as [wa ca].
  cbn [fst] in Ha.
  pose proof (dodge_target_blocks_ok wa Ha) as Ht.
  destruct (dodge_target_blocks wa) as [t wt]. cbn [snd] in Ht.
  apply (dodge_fill_slots_ok _ _ _ (wt, ca)), Ht.
Qed.

(** [resetDodgeGame] needs nothing but the two slots to start a game whose
    state is in order. *)
Lemma resetDodgeGame_ok (w : World) :
  length (dodgeBlocks (dodge w)) = DODGE_MAX_BLOCKS ->
  dodge_ok (resetDodgeGame w).
Proof.
  intros Hl. unfold resetDodgeGame. cbv zeta.
  match goal with
  | |- context [spawnBlock 0 ?x] =>
      set (w0 := x); destruct (spawnBlock_ok 0 w0) as (b & Hb & _ & Heq)
  end.
  unfold dodge_ok.
  cbn [dodge with_sketch with_dodge set_sketch set_dodge dodgePlayerX
       dodgeBlocks dodgeSpeed set_dodgeFrameTimer].
  rewrite Heq. subst w0.
  cbn [dodge with_sketch with_dodge set_sketch set_dodge dodgePlayerX
       dodgeBlocks dodgeSpeed set_dodgeFrameTimer set_dodgeBlocks
       set_dodgeMoveLeft set_dodgeMoveRight set_dodgeScore set_dodgeSpeed
       set_dodgePlayerX].
  rewrite length_insert, length_fmap.
  unfold DODGE_PLAYER_START_X, DODGE_COLS, DODGE_MIN_SPEED, DODGE_INITIAL_SPEED.
  split; [lia|]. split; [exact Hl|].
  split; [|split; [lia|exists 80; lia]].
  apply Forall_insert; [|exact Hb].
  apply Forall_fmap, Forall_forall. intros blk _ Habs. discriminate Habs.
Qed.

Lemma saveDodgeHighScore_ok (w : World) :
  dodge_ok w -> dodge_ok (saveDodgeHighScore w).
Proof.
  apply dodge_ok_ext; unfold saveDodgeHighScore; split_if; reflexivity.
Qed.

Lemma dodge_ok_with_sketch (f : Sketch -> Sketch) (w : World) :
  dodge_ok w -> dodge_ok (with_sketch f w).
Proof. exact id. Qed.

Lemma dodge_ok_with_hw (f : Hw -> Hw) (w : World) :
  dodge_ok w -> dodge_ok (with_hw f w).
Proof. exact id. Qed.

Lemma handleDodgeGameOver_ok (w : World) :
  dodge_ok w -> dodge_ok (handleDodgeGameOver w).
Proof.
  intros Hok. apply saveDodgeHighScore_ok in Hok.
  unfold handleDodgeGameOver. cbv zeta.
  apply dodge_ok_with_sketch, resetDodgeGame_ok.
  unfold delay, flash. apply Hok.
Qed.

Lemma runDodgeGame_ok_pass (w : World) :
  dodge_ok w -> dodge_ok (runDodgeGame w).
Proof.
  intros Hok. rewrite runDodgeGame_unfold.
  split_if; [exact Hok|].
  assert (dodge_ok (dodge_before_collision w)) as Hb.
  { unfold dodge_before_collision. cbv zeta.
    apply dodge_player_move_ok in Hok.
    split_if; [apply dodge_frame_ok|]; exact Hok. }
  split_if; [apply handleDodgeGameOver_ok|]; exact Hb.
Qed.

(** X8 ([runDodgeGame], [spawnBlock], [resetDodgeGame],
    [handleDodgeGameOver]): a pass of the Dodge engine keeps the player on
    a column of the grid (0 to 14), every falling block within the grid
    (one to three columns wide, rows 0 to 9), and the frame interval even
    and between 34 and 160 ms. *)
Theorem runDodgeGame_ok (w : World) :
  dodge_ok w -> dodge_ok (runDodgeGame w).
Proof. apply runDodgeGame_ok_pass. Qed.

Lemma runDodgeGame_ok_witness :
  dodge_ok (dodge_session 30) /\ dodge_ok (runDodgeGame (dodge_session 30)).
Proof.
  assert (dodge_ok (dodge_session 30)) as H.
  { unfold dodge_ok. split; [vm_compute; intuition discriminate|].
    split; [vm_compute; reflexivity|].
    split; [|split; [vm_compute; intuition discriminate|]].
    - remember (dodgeBlocks (dodge (dodge_session 30))) as bl eqn:E.
      vm_compute in E. subst bl.
      repeat constructor; intros Ha; vm_compute; intuition discriminate.
    - exists 78. vm_compute. reflexivity. }
  split; [exact H|]. apply runDodgeGame_ok, H.
Defined.

(** *** Snake *)

(** [spawnFood] puts the food on a cell of the grid and changes nothing
    else of the Snake state. *)
Lemma spawnFood_snake (w : World) :
  exists fx fy : Z,
    in_grid (Segment.mk fx fy)
    /\ snake (spawnFood w) = set_foodY fy (set_foodX fx (snake w)).
Proof.
  destruct (spawnFood_spec w) as (n & _ & Heq & _). rewrite Heq.
  exists (food_candidate w n).1, (food_candidate w n).2.
  split; [|reflexivity].
  unfold food_candidate, in_grid, SNAKE_COLS, SNAKE_ROWS. cbn.
  match goal with
  | |- context [to_int8 (?a mod _ + 0)] =>
      pose proof (Z.mod_pos_bound a (15 - 0) ltac:(lia))
  end.
  match goal with
  | |- context [to_int8 (?a mod (10 - 0) + 0)] =>
      pose proof (Z.mod_pos_bound a (10 - 0) ltac:(lia))
  end.
  wraps. lia.
Qed.

Lemma snake_hits_wall_false (newX newY : Z) :
  snake_hits_wall newX newY = false -> in_grid (Segment.mk newX newY).
Proof.
  unfold snake_hits_wall, in_grid. cbn. intros H. bool_hyps. lia.
Qed.

Lemma body_prefix_in_grid (n m : Z) (w : World) :
  m <= n -> Forall in_grid (body_prefix n w) -> Forall in_grid (body_prefix m w).
Proof.
  unfold body_prefix. intros Hle H.
  replace (take (Z.to_nat m) (snakeBody (snake w)))
    with (take (Z.to_nat m) (take (Z.to_nat n) (snakeBody (snake w)))).
  - apply Forall_take, H.
  - rewrite take_take. f_equal. lia.
Qed.

(** What a step does to the food, the headings and the interval. *)
Lemma snake_step_fields (newX newY : Z) (w : World) :
  in_grid (Segment.mk (foodX (snake w)) (foodY (snake w))) ->
  SNAKE_MIN_SPEED <= snakeSpeed (snake w) <= SNAKE_INITIAL_SPEED ->
  in_grid (Segment.mk (foodX (snake (snake_step newX newY w)))
                      (foodY (snake (snake_step newX newY w))))
  /\ snakeDir (snake (snake_step newX newY w)) = snakeDir (snake w)
  /\ snakePendingDir (snake (snake_step newX newY w)) = snakePendingDir (snake w)
  /\ SNAKE_MIN_SPEED <= snakeSpeed (snake (snake_step newX newY w))
     <= SNAKE_INITIAL_SPEED.
Proof.
  unfold SNAKE_MIN_SPEED, SNAKE_INITIAL_SPEED. intros Hfood Hs.
  destruct w as [sk ll di dg sn hh].
  destruct sn as [body len dir pend fx fy speed score high timer].
  cbn [snake snakeSpeed foodX foodY snakeDir snakePendingDir] in *.
  unfold snake_step. cbv zeta.
  destruct ((newX =? foodX _) && (newY =? foodY _)); cbn [andb].
  - match goal with
    | |- context [spawnFood ?x] =>
        destruct (spawnFood_snake x) as (gx & gy & Hg & Heq); rewrite Heq;
        clear Heq
    end.
    repeat split_if_all; cbn in *; unfold SNAKE_MIN_SPEED, SNAKE_SPEED_STEP in *;
      arith_hyps; wraps; (split; [exact Hg|]); lia.
  - cbn. split; [exact Hfood|]. lia.
Qed.

Lemma snake_step_ok (newX newY : Z) (w : World) :
  snake_ok w -> in_grid (Segment.mk newX newY) ->
  snake_ok (snake_step newX newY w).
Proof.
  intros (Hwf & Hseg & Hfood & Hdir & Hpend & Hspeed) Hhead.
  destruct (snake_step_segments newX newY w Hwf) as [Heq Hwf'].
  destruct (snake_step_fields newX newY w Hfood Hspeed) as (Hf & Hd & Hp & Hs).
  cbv zeta in Heq.
  split; [exact Hwf'|]. split; [|rewrite Hd, Hp; auto].
  rewrite Heq. constructor; [exact Hhead|].
  eapply body_prefix_in_grid; [|exact Hseg]. split_if; lia.
Qed.

Lemma resetSnake_ok (w : World) :
  length (snakeBody (snake w)) = Z.to_nat SNAKE_MAX_LENGTH ->
  snake_ok (resetSnake w).
Proof.
  intros Hlen.
  destruct (resetSnake_distinct w Hlen) as (Hseg & _ & Hwf).
  split; [exact Hwf|]. split.
  { rewrite Hseg. unfold in_grid, SNAKE_COLS, SNAKE_ROWS.
    repeat constructor; cbn; lia. }
  unfold resetSnake. cbv zeta.
  match goal with
  | |- context [spawnFood ?x] =>
      destruct (spawnFood_snake x) as (gx & gy & Hg & Heq); rewrite Heq;
      clear Heq
  end.
  cbn. unfold in_grid, DIR_UP, DIR_RIGHT, DIR_LEFT, SNAKE_MIN_SPEED,
    SNAKE_INITIAL_SPEED in *. cbn in *. lia.
Qed.

Lemma saveSnakeHighScore_body (w : World) :
  snakeBody (snake (saveSnakeHighScore w)) = snakeBody (snake w).
Proof. unfold saveSnakeHighScore. split_if; reflexivity. Qed.

Lemma snake_ok_with_sketch (f : Sketch -> Sketch) (w : World) :
  snake_ok w -> snake_ok (with_sketch f w).
Proof. exact id. Qed.

Lemma handleSnakeDeath_ok (w : World) :
  length (snakeBody (snake w)) = Z.to_nat SNAKE_MAX_LENGTH ->
  snake_ok (handleSnakeDeath w).
Proof.
  intros Hlen. rewrite <- saveSnakeHighScore_body in Hlen.
  unfold handleSnakeDeath. cbv zeta.
  apply snake_ok_with_sketch, resetSnake_ok.
  cbn [Nat.iter nat_rect]. unfold delay, flash. exact Hlen.
Qed.

Lemma snake_buffer_input_snake (w : World) :
  DIR_UP <= snakePendingDir (snake w) <= DIR_LEFT ->
  exists d, DIR_UP <= d <= DIR_LEFT
    /\ snake (snake_buffer_input w) = set_snakePendingDir d (snake w).
Proof.
  unfold DIR_UP, DIR_LEFT. intros Hpend.
  destruct w as [sk ll di dg sn hh].
  destruct sn as [body len dir pend fx fy speed score high timer].
  unfold snake_buffer_input. cbv zeta.
  repeat split_if_all; cbn in *; eexists; (split; [|reflexivity]);
    unfold DIR_UP, DIR_DOWN, DIR_LEFT, DIR_RIGHT; lia.
Qed.

Lemma snake_buffer_input_ok (w : World) :
  snake_ok w -> snake_ok (snake_buffer_input w).
Proof.
  intros (Hwf & Hseg & Hfood & Hdir & Hpend & Hspeed).
  destruct (snake_buffer_input_snake w Hpend) as (d & Hd & Heq).
  unfold snake_ok, snake_wf, snake_segments, body_prefix in *.
  rewrite Heq. cbn. repeat split; assumption || apply Hwf || apply Hdir || apply Hd || apply Hspeed || apply Hfood.
Qed.

Lemma snake_move_ok (w : World) : snake_ok w -> snake_ok (snake_move w).
Proof.
  intros Hok. unfold snake_move. cbv zeta.
  set (w1 := snake_turn (with_snake (set_snakeMoveTimer (millis w)) w)).
  assert (snake_ok w1) as H1.
  { destruct Hok as (Hwf & Hseg & Hfood & Hdir & Hpend & Hspeed).
    split; [exact Hwf|]. split; [exact Hseg|]. split; [exact Hfood|].
    split; [exact Hpend|]. split; [exact Hpend|exact Hspeed]. }
  destruct (snake_new_head w1) as [newX newY].
  destruct (snake_hits_wall newX newY) eqn:Hwall;
    [apply handleSnakeDeath_ok, H1|].
  split_if; [apply handleSnakeDeath_ok, H1|].
  apply snake_step_ok; [exact H1|]. apply snake_hits_wall_false, Hwall.
Qed.

Lemma runSnakeGame_ok_pass (w : World) :
  snake_ok w -> snake_ok (runSnakeGame w).
Proof.
  intros Hok. unfold runSnakeGame.
  split_if; [exact Hok|]. cbv zeta.
  apply snake_buffer_input_ok in Hok.
  split_if; [apply snake_move_ok|]; exact Hok.
Qed.

(** X9 ([runSnakeGame], [spawnFood], [resetSnake], [handleSnakeDeath]): a
    pass of the Snake engine keeps the length between 1 and 24, every
    segment and the food on the 15 by 10 grid, both headings among the
    four directions and the move interval between 80 and 300 ms. *)
Theorem runSnakeGame_ok (w : World) :
  snake_ok w -> snake_ok (runSnakeGame w).
Proof. apply runSnakeGame_ok_pass. Qed.

Lemma runSnakeGame_ok_witness :
  snake_ok (snake_session 3) /\ snake_ok (runSnakeGame (snake_session 3)).
Proof.
  assert (snake_ok (snake_session 3)) as H.
  { unfold snake_ok, snake_wf, snake_segments, body_prefix.
    remember (snake (snake_session 3)) as sn eqn:E.
    vm_compute in E. subst sn. cbn.
    unfold in_grid, SNAKE_MAX_LENGTH, SNAKE_COLS, SNAKE_ROWS, DIR_UP, DIR_LEFT,
      SNAKE_MIN_SPEED, SNAKE_INITIAL_SPEED.
    repeat split; try lia; repeat constructor; cbn; lia. }
  split; [exact H|]. apply runSnakeGame_ok, H.
Defined.

(** ** What the engines leave alone *)

(** An observation [obs] of the state that looks at the sketch through its
    settings only, and at the hardware through one part [hw_part] of it
    that the engines do not write, the RTC or the stream of random values:
    what follows shows, engine by engine, that a pass keeps it if it does
    not look at the state of that engine. *)
Section Frame.
Context {A B : Type} (obs : World -> A) (hw_part : Hw -> B).
Hypothesis obs_sketch :
  forall (f : Sketch -> Sketch) (w : World),
    (forall s, sketch_settings (f s) = sketch_settings s) ->
    obs (with_sketch f w) = obs w.
Hypothesis obs_hw :
  forall (f : Hw -> Hw) (w : World),
    (forall h, hw_part (f h) = hw_part h) -> obs (with_hw f w) = obs w.
Hypothesis hw_part_kept :
  forall (h : Hw) (c : Z) (p : nat) (e : gmap Z Z) (ws : list (Z * Z))
         (t : list Event),
    hw_part (mkHw c (rngDraws h) p e ws (rtcTime h) t) = hw_part h.

Lemma same_refl (w : World) : same obs w w.
Proof. reflexivity. Qed.

Lemma same_trans (w1 w2 w3 : World) :
  same obs w1 w2 -> same obs w2 w3 -> same obs w1 w3.
Proof. unfold same. congruence. Qed.

Lemma same_with_sketch (f : Sketch -> Sketch) (w x : World) :
  (forall s, sketch_settings (f s) = sketch_settings s) ->
  same obs w x -> same obs w (with_sketch f x).
Proof. unfold same. intros Hf <-. apply obs_sketch, Hf. Qed.

Lemma same_with_hw (f : Hw -> Hw) (w x : World) :
  (forall h, hw_part (f h) = hw_part h) ->
  same obs w x -> same obs w (with_hw f x).
Proof. unfold same. intros Hf <-. apply obs_hw, Hf. Qed.

(** The updates of the hardware that the engines make keep [hw_part]. *)
Ltac hw_kept :=
  intros; unfold set_clock, set_rngPos, set_eeprom, set_eepromWrites,
    set_trace;
  cbn [clock rngDraws rngPos eeprom eepromWrites rtcTime trace];
  apply hw_part_kept.

#[local] Instance Frames_delay (ms : Z) :
  Frames obs (delay ms).
Proof. intros w x. apply same_with_hw. hw_kept. Qed.

#[local] Instance Frames_flash (e : Event) :
  Frames obs (flash e).
Proof. intros w x. apply same_with_hw. hw_kept. Qed.

#[local] Instance Frames_EEPROM_put (addr v : Z) :
  Frames obs (EEPROM_put addr v).
Proof. intros w x. apply same_with_hw. hw_kept. Qed.

#[local] Instance Frames_to_clock :
  Frames obs to_clock.
Proof.
  intros w x H. unfold to_clock. cbv zeta.
  do 2 (apply same_with_sketch; [reflexivity|]). exact H.
Qed.

Lemma same_random (lo hi : Z) (w x : World) :
  same obs w x -> same obs w (random lo hi x).2.
Proof.
  intros H. rewrite random_spec. destruct (lo >=? hi); [exact H|].
  apply same_with_hw; [hw_kept | exact H].
Qed.

Lemma same_if (b : bool) (w x y : World) :
  same obs w x -> same obs w y -> same obs w (if b then x else y).
Proof. destruct b; intros; assumption. Qed.

(** Peel the updates off a goal [same obs w x], outermost first. *)
Ltac same_step :=
  match goal with
  | |- same obs ?w ?w => apply same_refl
  | H : same obs ?w ?y |- same obs ?w ?y => exact H
  | H : same obs ?x ?y |- same obs ?w ?y =>
      apply (same_trans w x y); [|exact H]
  | |- same obs _ (with_sketch _ _) =>
      apply same_with_sketch; [intros; reflexivity|]
  | |- same obs _ (with_hw _ _) =>
      apply same_with_hw; [hw_kept|]
  | |- same obs _ (if _ then _ else _) => apply same_if
  | |- same obs _ (let '(_, _) := random ?lo ?hi ?x in _) =>
      let H := fresh "Hrnd" in
      pose proof (same_random lo hi x x (same_refl x)) as H;
      destruct (random lo hi x); cbn [snd] in H
  | |- same obs _ (?f ?x) => apply (frames_app (obs := obs) (f := f))
  end.

Ltac same_tac := cbv zeta; repeat same_step.


Section Dino.
Hypothesis obs_dino : forall (f : Dino -> Dino) (w : World),
  obs (with_dino f w) = obs w.

#[local] Instance Frames_with_dino (f : Dino -> Dino) :
  Frames obs (with_dino f).
Proof. intros w x H. unfold same in *. now rewrite obs_dino. Qed.

#[local] Instance Frames_saveHighScore :
  Frames obs saveHighScore.
Proof. intros w x H. unfold saveHighScore. same_tac. Qed.

#[local] Instance Frames_handleGameOver :
  Frames obs handleGameOver.
Proof. intros w x H. unfold handleGameOver. same_tac. Qed.

#[local] Instance Frames_dino_jump_input :
  Frames obs dino_jump_input.
Proof. intros w x H. unfold dino_jump_input. same_tac. Qed.

#[local] Instance Frames_dino_jump_end :
  Frames obs dino_jump_end.
Proof. intros w x H. unfold dino_jump_end. same_tac. Qed.

#[local] Instance Frames_dino_player_y :
  Frames obs dino_player_y.
Proof. intros w x H. unfold dino_player_y. same_tac. Qed.

#[local] Instance Frames_dino_move_obstacle :
  Frames obs dino_move_obstacle.
Proof. intros w x H. unfold dino_move_obstacle. same_tac. Qed.

#[local] Instance Frames_runDinoGame :
  Frames obs runDinoGame.
Proof.
  intros w x H. rewrite runDinoGame_unfold. unfold dino_before_collision.
  same_tac.
Qed.

End Dino.

Section Dodge.
Hypothesis obs_dodge : forall (f : Dodge -> Dodge) (w : World),
  obs (with_dodge f w) = obs w.

#[local] Instance Frames_with_dodge (f : Dodge -> Dodge) :
  Frames obs (with_dodge f).
Proof. intros w x H. unfold same in *. now rewrite obs_dodge. Qed.

#[local] Instance Frames_set_block (i : nat) (b : DodgeBlock) :
  Frames obs (set_block i b).
Proof. apply Frames_with_dodge. Qed.

#[local] Instance Frames_spawnBlock (i : nat) :
  Frames obs (spawnBlock i).
Proof. intros w x H. unfold spawnBlock. same_tac. Qed.

#[local] Instance Frames_dodge_player_move :
  Frames obs dodge_player_move.
Proof. intros w x H. unfold dodge_player_move. same_tac. Qed.

Lemma same_dodge_advance_block (st : World * Z) (i : nat) :
  same obs st.1 (dodge_advance_block st i).1.
Proof.
  destruct st as [w ac]. unfold dodge_advance_block. cbn [fst].
  destruct (dodgeBlocks (dodge w) !! i) as [b|]; [|apply same_refl].
  destruct (negb (Block.active b)); [apply same_refl|].
  cbv zeta. split_if; cbn [fst]; same_tac.
Qed.

Lemma same_dodge_advance_blocks (w : World) (ac : Z) :
  same obs w (dodge_advance_blocks w ac).1.
Proof.
  unfold dodge_advance_blocks.
  change w with (w, ac).1 at 1.
  generalize (w, ac). generalize (seq 0 DODGE_MAX_BLOCKS).
  intros l. induction l as [|i l IH]; intros st; cbn [foldl].
  - apply same_refl.
  - eapply same_trans; [apply same_dodge_advance_block|apply IH].
Qed.

Lemma same_dodge_target_blocks (w : World) :
  same obs w (dodge_target_blocks w).2.
Proof.
  rewrite dodge_target_blocks_spec. repeat split_if; cbn [snd]; same_tac.
Qed.

Lemma same_dodge_fill_slots (n i : nat) (t : Z) (st : World * Z) :
  same obs st.1 (dodge_fill_slots n i t st).1.
Proof.
  revert i st. induction n as [|n IH]; intros i [w ac]; cbn [dodge_fill_slots].
  - apply same_refl.
  - split_if; [|apply same_refl].
    eapply same_trans; [|apply IH].
    destruct (dodgeBlocks (dodge w) !! i) as [b|]; [|apply same_refl].
    split_if; [|apply same_refl].
    cbn [fst]. apply (frames_app (obs := obs)), same_refl.
Qed.

#[local] Instance Frames_dodge_frame :
  Frames obs dodge_frame.
Proof.
  intros w x H. unfold dodge_frame.
  set (w0 := with_dodge (set_dodgeFrameTimer (millis x)) x).
  pose proof (same_dodge_advance_blocks w0 (dodge_count_active w0)) as H1.
  destruct (dodge_advance_blocks w0 (dodge_count_active w0)) as [w1 ac].
  pose proof (same_dodge_target_blocks w1) as H2.
  destruct (dodge_target_blocks w1) as [t w2].
  pose proof (same_dodge_fill_slots DODGE_MAX_BLOCKS 0 t (w2, ac)) as H3.
  cbn [fst snd] in *.
  eapply same_trans; [|exact H3].
  eapply same_trans; [|exact H2].
  eapply same_trans; [|exact H1].
  subst w0. same_tac.
Qed.

#[local] Instance Frames_resetDodgeGame :
  Frames obs resetDodgeGame.
Proof. intros w x H. unfold resetDodgeGame. same_tac. Qed.

#[local] Instance Frames_saveDodgeHighScore :
  Frames obs saveDodgeHighScore.
Proof. intros w x H. unfold saveDodgeHighScore. same_tac. Qed.

#[local] Instance Frames_handleDodgeGameOver :
  Frames obs handleDodgeGameOver.
Proof. intros w x H. unfold handleDodgeGameOver. same_tac. Qed.

#[local] Instance Frames_runDodgeGame :
  Frames obs runDodgeGame.
Proof.
  intros w x H. rewrite runDodgeGame_unfold. unfold dodge_before_collision.
  same_tac.
Qed.

End Dodge.

Section Snake.
Hypothesis obs_snake : forall (f : Snake -> Snake) (w : World),
  obs (with_snake f w) = obs w.

#[local] Instance Frames_with_snake (f : Snake -> Snake) :
  Frames obs (with_snake f).
Proof. intros w x H. unfold same in *. now rewrite obs_snake. Qed.

#[local] Instance Frames_set_segment (i : nat) (s : SnakeSegment) :
  Frames obs (set_segment i s).
Proof. apply Frames_with_snake. Qed.

#[local] Instance Frames_spawnFood :
  Frames obs spawnFood.
Proof.
  intros w x H. destruct (spawnFood_spec x) as (n & _ & Heq & _).
  rewrite Heq. unfold food_placed, rng_advance. same_tac.
Qed.

#[local] Instance Frames_clear_turn_flags :
  Frames obs clear_turn_flags.
Proof. intros w x H. unfold clear_turn_flags. same_tac. Qed.

#[local] Instance Frames_resetSnake :
  Frames obs resetSnake.
Proof. intros w x H. unfold resetSnake. same_tac. Qed.

#[local] Instance Frames_saveSnakeHighScore :
  Frames obs saveSnakeHighScore.
Proof. intros w x H. unfold saveSnakeHighScore. same_tac. Qed.

#[local] Instance Frames_snake_buffer_input :
  Frames obs snake_buffer_input.
Proof. intros w x H. unfold snake_buffer_input. same_tac. Qed.

#[local] Instance Frames_snake_turn :
  Frames obs snake_turn.
Proof. intros w x H. unfold snake_turn. same_tac. Qed.

#[local] Instance Frames_handleSnakeDeath :
  Frames obs handleSnakeDeath.
Proof.
  intros w x H. unfold handleSnakeDeath. cbv zeta.
  cbn [Nat.iter nat_rect]. cbv beta. same_tac.
Qed.

#[local] Instance Frames_snake_step (newX newY : Z) :
  Frames obs (snake_step newX newY).
Proof. intros w x H. unfold snake_step. same_tac. Qed.

#[local] Instance Frames_snake_move :
  Frames obs snake_move.
Proof.
  intros w x H. unfold snake_move. cbv zeta.
  match goal with
  | |- context [snake_new_head ?y] => destruct (snake_new_head y) as [newX newY]
  end.
  same_tac.
Qed.

#[local] Instance Frames_runSnakeGame :
  Frames obs runSnakeGame.
Proof. intros w x H. unfold runSnakeGame. same_tac. Qed.

End Snake.

Section Launch.
Hypothesis obs_dino : forall (f : Dino -> Dino) (w : World),
  obs (with_dino f w) = obs w.
Hypothesis obs_dodge : forall (f : Dodge -> Dodge) (w : World),
  obs (with_dodge f w) = obs w.
Hypothesis obs_snake : forall (f : Snake -> Snake) (w : World),
  obs (with_snake f w) = obs w.

#[local] Instance Frames_launch_dino (f : Dino -> Dino) :
  Frames obs (with_dino f) := Frames_with_dino obs_dino f.
#[local] Instance Frames_launch_dodge : Frames obs resetDodgeGame :=
  Frames_resetDodgeGame obs_dodge.
#[local] Instance Frames_launch_snake : Frames obs resetSnake :=
  Frames_resetSnake obs_snake.

#[local] Instance Frames_launchGame (choice : Z) :
  Frames obs (launchGame choice).
Proof. intros w x H. unfold launchGame. same_tac. Qed.

End Launch.

End Frame.

(** *** The settings and the RTC *)

Lemma spares_refl (w : World) : spares w w.
Proof. reflexivity. Qed.

(** The settings are an observation of that kind, and look at no engine. *)
Ltac settings_frame L :=
  let w := fresh "w" in
  let x := fresh "x" in
  let H := fresh "H" in
  intros w x H; unfold spares in *;
  first [apply (L _ _ settings_of rtcTime) | apply (L _ settings_of)];
  [..|exact H]; intros; unfold settings_of; cbn;
  try match goal with
      | Hf : forall _, _ = _ |- _ => rewrite Hf
      end;
  reflexivity.

#[global] Instance Spares_with_dino (f : Dino -> Dino) : Spares (with_dino f).
Proof. intros w x H. exact H. Qed.

#[global] Instance Spares_with_dodge (f : Dodge -> Dodge) : Spares (with_dodge f).
Proof. intros w x H. exact H. Qed.

#[global] Instance Spares_with_snake (f : Snake -> Snake) : Spares (with_snake f).
Proof. intros w x H. exact H. Qed.

#[global] Instance Spares_set_lastLines (l : Lines) : Spares (set_lastLines l).
Proof. intros w x H. exact H. Qed.

#[global] Instance Spares_to_clock : Spares to_clock.
Proof. settings_frame (@Frames_to_clock). Qed.

#[global] Instance Spares_runDinoGame : Spares runDinoGame.
Proof. settings_frame (@Frames_runDinoGame). Qed.

#[global] Instance Spares_runDodgeGame : Spares runDodgeGame.
Proof. settings_frame (@Frames_runDodgeGame). Qed.

#[global] Instance Spares_runSnakeGame : Spares runSnakeGame.
Proof. settings_frame (@Frames_runSnakeGame). Qed.

#[global] Instance Spares_launchGame (choice : Z) : Spares (launchGame choice).
Proof. settings_frame (fun A B obs part hs hh hk hd hg hn =>
                    @Frames_launchGame A B obs part hs hh hk hd hg hn choice). Qed.

(** X10 ([runDinoGame], [runDodgeGame], [runSnakeGame], [launchGame]): a
    pass of any of the three engines, and the launch of a game, leave alone
    the difficulty, the cursors of the game-select and settings menus, the
    staged time and date of the editors, the state of the push button and
    the time of the RTC. *)
Theorem engines_spare_settings (w : World) :
  spares w (runDinoGame w) /\ spares w (runDodgeGame w)
  /\ spares w (runSnakeGame w)
  /\ forall choice : Z, spares w (launchGame choice w).
Proof.
  repeat split; intros; apply spares_app, spares_refl.
Qed.

(** ** The indices of the menus *)

Lemma menu_ok_with_sketch (f : Sketch -> Sketch) (x : World) :
  (forall s, difficulty (f s) = difficulty s) ->
  (forall s, gameSelectChoice (f s) = gameSelectChoice s) ->
  menu_ok x -> menu_ok (with_sketch f x).
Proof. unfold menu_ok. intros Hd Hc. cbn. now rewrite Hd, Hc. Qed.

Lemma menu_ok_if (b : bool) (x y : World) :
  menu_ok x -> menu_ok y -> menu_ok (if b then x else y).
Proof. destruct b; intros; assumption. Qed.

#[global] Instance KeepsMenu_spares (f : World -> World) `{!Spares f} :
  KeepsMenu f.
Proof.
  intros x H. pose proof (spares_app (f := f) x x (spares_refl x)) as Hs.
  unfold menu_ok, spares, settings_of, sketch_settings in *.
  injection Hs as -> -> _. exact H.
Qed.

#[global] Instance KeepsMenu_with_hw (f : Hw -> Hw) : KeepsMenu (with_hw f).
Proof. intros x H. exact H. Qed.

(** The two updates that move an index. *)
#[global] Instance KeepsMenu_next_difficulty :
  KeepsMenu (with_sketch
               (fun s => set_difficulty (to_int8 (Z.rem (difficulty s) 5 + 1)) s)).
Proof.
  intros x [Hd Hc]. split; [|exact Hc]. cbn.
  pose proof (Z.rem_bound_pos (difficulty (sketch x)) 5 ltac:(lia) ltac:(lia)).
  wraps. lia.
Qed.

Lemma menu_ok_next_choice (k : Z) (x : World) :
  0 <= k ->
  menu_ok x ->
  menu_ok (with_sketch
             (fun s => set_gameSelectChoice
                         (to_int8 (Z.rem (gameSelectChoice s + k) 3)) s) x).
Proof.
  intros Hk [Hd Hc]. split; [exact Hd|]. cbn.
  pose proof (Z.rem_bound_pos (gameSelectChoice (sketch x) + k) 3
                ltac:(lia) ltac:(lia)).
  wraps. lia.
Qed.

#[global] Instance KeepsMenu_choice_down :
  KeepsMenu (with_sketch
               (fun s => set_gameSelectChoice
                           (to_int8 (Z.rem (gameSelectChoice s + 1) 3)) s)).
Proof. intros x. apply menu_ok_next_choice. lia. Qed.

#[global] Instance KeepsMenu_choice_up :
  KeepsMenu (with_sketch
               (fun s => set_gameSelectChoice
                           (to_int8 (Z.rem (gameSelectChoice s + 2) 3)) s)).
Proof. intros x. apply menu_ok_next_choice. lia. Qed.

(** Peel the updates off a goal [menu_ok x], outermost first; the two
    updates that move an index are instances. *)
Ltac menu_step_tac :=
  match goal with
  | H : menu_ok ?x |- menu_ok ?x => exact H
  | |- menu_ok (if _ then _ else _) => apply menu_ok_if
  | |- menu_ok (match ?m with CLOCK => _ | _ => _ end) => destruct m
  | |- menu_ok (match ?m with MENU_DIFFICULTY => _ | _ => _ end) => destruct m
  | |- menu_ok (?f ?x) => apply (@menu_app f _)
  | |- menu_ok (with_sketch _ _) =>
      apply menu_ok_with_sketch; [intros; reflexivity..|]
  end.

Ltac menu_tac := cbv zeta; repeat menu_step_tac.

#[global] Instance KeepsMenu_touch : KeepsMenu touch.
Proof. intros x H. unfold touch. menu_tac. Qed.

#[global] Instance KeepsMenu_menu_step (k : Z) : KeepsMenu (menu_step k).
Proof. intros x H. unfold menu_step. menu_tac. Qed.

#[global] Instance KeepsMenu_EEPROM_write (a v : Z) : KeepsMenu (EEPROM_write a v).
Proof. intros x H. exact H. Qed.

#[global] Instance KeepsMenu_rtc_adjust (t : DateTime) : KeepsMenu (rtc_adjust t).
Proof. intros x H. exact H. Qed.

#[global] Instance KeepsMenu_selectMenuItem : KeepsMenu selectMenuItem.
Proof. intros x H. unfold selectMenuItem. menu_tac. Qed.

#[global] Instance KeepsMenu_incrementTimeField : KeepsMenu incrementTimeField.
Proof. intros x H. unfold incrementTimeField. menu_tac. Qed.

#[global] Instance KeepsMenu_incrementDateField : KeepsMenu incrementDateField.
Proof. intros x H. unfold incrementDateField. menu_tac. Qed.

#[global] Instance KeepsMenu_saveTime : KeepsMenu saveTime.
Proof. intros x H. unfold saveTime. menu_tac. Qed.

#[global] Instance KeepsMenu_saveDate : KeepsMenu saveDate.
Proof. intros x H. unfold saveDate. menu_tac. Qed.

#[global] Instance KeepsMenu_next_step : KeepsMenu next_step.
Proof. intros x H. unfold next_step. menu_tac. Qed.

#[global] Instance KeepsMenu_launchSelectedGame : KeepsMenu launchSelectedGame.
Proof. intros x H. unfold launchSelectedGame. menu_tac. Qed.

#[global] Instance KeepsMenu_handleShortPress : KeepsMenu handleShortPress.
Proof. intros x H. unfold handleShortPress. menu_tac. Qed.

#[global] Instance KeepsMenu_handleMediumHold : KeepsMenu handleMediumHold.
Proof. intros x H. unfold handleMediumHold. menu_tac. Qed.

#[global] Instance KeepsMenu_handleLongPress : KeepsMenu handleLongPress.
Proof. intros x H. unfold handleLongPress. menu_tac. Qed.

#[global] Instance KeepsMenu_handleButton (b : bool) : KeepsMenu (handleButton b).
Proof. intros x H. unfold handleButton. menu_tac. Qed.

#[global] Instance KeepsMenu_mode_dispatch (e : Lines) : KeepsMenu (mode_dispatch e).
Proof. intros x H. unfold mode_dispatch. menu_tac. Qed.

#[global] Instance KeepsMenu_handleIRInput (pin : Lines) :
  KeepsMenu (handleIRInput pin).
Proof. intros x H. unfold handleIRInput. menu_tac. Qed.

#[global] Instance KeepsMenu_updateClock : KeepsMenu updateClock.
Proof.
  intros x H. destruct (updateClock_spec x) as [-> | [n ->]]; [exact H|].
  unfold rng_advance. menu_tac.
Qed.

#[global] Instance KeepsMenu_runSettingsMenu : KeepsMenu runSettingsMenu.
Proof. intros x H. unfold runSettingsMenu. menu_tac. Qed.

#[global] Instance KeepsMenu_runGameSelectMenu : KeepsMenu runGameSelectMenu.
Proof. intros x H. unfold runGameSelectMenu. menu_tac. Qed.

#[global] Instance KeepsMenu_loop (i : Input) : KeepsMenu (loop i).
Proof.
  intros x H. unfold loop, runTimeSettingMode, runDateSettingMode. menu_tac.
Qed.

Lemma setup_menu_ok (h : Hw) : menu_ok (setup h).
Proof.
  destruct (setup_values h) as (_ & Hd & _). split; [exact Hd|].
  unfold setup, loadDodgeHighScore, loadSnakeHighScore. cbv zeta.
  repeat split_if; cbn; lia.
Qed.

(** X11 ([setup], [loop] and the handlers of the input tab): in every state
    the sketch reaches from [setup], whatever the EEPROM held and whatever
    the inputs, the difficulty is between 1 and 5 and the game-select cursor
    between 0 and 2, the valid indices of the colour table of the levels
    and of the table of game names. *)
Theorem menu_indices_stay_valid (h : Hw) (inputs : list Input) :
  menu_ok (run inputs (setup h)).
Proof.
  unfold run. generalize (setup_menu_ok h). generalize (setup h).
  induction inputs as [|i inputs IH]; intros w Hw; cbn [foldl]; [exact Hw|].
  apply IH. apply (menu_app (f := loop i)), Hw.
Qed.

(** ** The RTC is written by the editors only *)

Lemma launchGame_mode (choice : Z) (w : World) :
  currentMode (sketch (launchGame choice w))
  = if choice =? 0 then GAME else if choice =? 1 then DODGE_GAME else SNAKE_GAME.
Proof.
  unfold launchGame. repeat split_if; cbv zeta.
  - reflexivity.
  - match goal with
    | |- currentMode (sketch (delay _ (resetDodgeGame ?x))) = _ =>
        assert (keeps x (delay 200 (resetDodgeGame x))) as [-> _]
          by keeps_tac
    end.
    reflexivity.
  - match goal with
    | |- currentMode (sketch (delay _ (resetSnake ?x))) = _ =>
        assert (keeps x (delay 200 (resetSnake x))) as [-> _]
          by keeps_tac
    end.
    reflexivity.
Qed.

Lemma launchGame_rtc (choice : Z) (w : World) :
  rtcTime (hw (launchGame choice w)) = rtcTime (hw w).
Proof.
  pose proof (spares_app (f := launchGame choice) w w (spares_refl w)) as H.
  unfold spares, settings_of in H. now injection H.
Qed.

Lemma launchGame_not_editing (choice : Z) (w : World) :
  currentMode (sketch (launchGame choice w)) <> SET_TIME
  /\ currentMode (sketch (launchGame choice w)) <> SET_DATE.
Proof. rewrite launchGame_mode. repeat split_if; split; discriminate. Qed.

#[local] Arguments launchGame : simpl never.

Ltac open_world w :=
  let sk := fresh "sk" in
  destruct w as [sk ? ? ? ? ?];
  destruct sk as [md mn gc st th tm ty tmo td df sc hs lm bt ba bm lir lgir
                  ijt su sd sl sr la].

Lemma handleMediumHold_outside (t : DateTime) (w : World) :
  outside_editors t w -> outside_editors t (handleMediumHold w).
Proof.
  unfold outside_editors. intros (Hr & Ht & Hd). open_world w. cbn in *.
  unfold handleMediumHold. destruct md; cbn; repeat split;
    assumption || discriminate.
Qed.

Lemma handleShortPress_outside (t : DateTime) (w : World) :
  outside_editors t w -> outside_editors t (handleShortPress w).
Proof.
  unfold outside_editors. intros (Hr & Ht & Hd). open_world w. cbn in *.
  unfold handleShortPress. destruct md; cbn; repeat split;
    assumption || discriminate || contradiction.
Qed.

Lemma handleLongPress_guard (t : DateTime) (w : World) :
  outside_editors t w -> rtc_guard t (handleLongPress w).
Proof.
  unfold outside_editors, rtc_guard. intros (Hr & Ht & Hd).
  unfold handleLongPress. cbv zeta.
  change (currentMode (sketch (touch w))) with (currentMode (sketch w)).
  destruct (currentMode (sketch w)) eqn:Hm; try contradiction.
  1,3,4,6: split; [exact Hr|]; cbn; rewrite Hm; intros [H|H]; discriminate H.
  - unfold selectMenuItem. cbv zeta.
    change (currentMenu (sketch (touch w))) with (currentMenu (sketch w)).
    destruct (currentMenu (sketch w)); (split; [exact Hr|]); cbn;
      try rewrite Hm; intros [H|H]; discriminate H || reflexivity.
  - unfold launchSelectedGame. rewrite launchGame_rtc.
    split; [exact Hr|].
    destruct (launchGame_not_editing
                (gameSelectChoice (sketch (touch w)) mod 256) (touch w))
      as [Hnt Hnd].
    intros [Habs|Habs]; contradiction.
Qed.

Lemma outside_with_sketch (t : DateTime) (f : Sketch -> Sketch) (w : World) :
  (forall s, currentMode (f s) = currentMode s) ->
  outside_editors t w -> outside_editors t (with_sketch f w).
Proof.
  unfold outside_editors. intros Hf (Hr & Ht & Hd). cbn. rewrite Hf. auto.
Qed.

Lemma outside_if (t : DateTime) (b : bool) (x y : World) :
  outside_editors t x -> outside_editors t y ->
  outside_editors t (if b then x else y).
Proof. destruct b; intros; assumption. Qed.

Lemma outside_guard (t : DateTime) (w : World) :
  outside_editors t w -> rtc_guard t w.
Proof.
  intros (Hr & Ht & Hd). split; [exact Hr|]. intros [H|H]; contradiction.
Qed.

(** The push button, outside the editors: the RTC is not written, and an
    editor that opens starts at its first field. *)
Lemma handleButton_guard (t : DateTime) (b : bool) (w : World) :
  outside_editors t w -> rtc_guard t (handleButton b w).
Proof.
  intros Hout. unfold handleButton. destruct b; cbn [andb negb].
  - rewrite andb_false_r.
    apply outside_guard. cbv zeta.
    match goal with
    | |- outside_editors t (if btnActive (sketch ?x) && true then _ else _) =>
        assert (outside_editors t x) as Hx
    end.
    { apply outside_if; [|exact Hout].
      repeat (apply outside_with_sketch; [reflexivity|]). exact Hout. }
    apply outside_if; [|exact Hx].
    apply outside_if; [|exact Hx].
    apply handleMediumHold_outside, outside_with_sketch; [reflexivity|exact Hx].
  - cbv zeta. rewrite andb_false_r, andb_true_r.
    split_if; [|apply outside_guard, Hout].
    assert (outside_editors t (with_sketch (set_btnActive false) w)) as Hx
      by (apply outside_with_sketch; [reflexivity|exact Hout]).
    repeat split_if; try (apply outside_guard, Hx).
    + apply handleLongPress_guard, Hx.
    + apply outside_guard, handleShortPress_outside, Hx.
Qed.

Lemma incrementTimeField_step (w : World) :
  settingStep (sketch (incrementTimeField w)) = settingStep (sketch w).
Proof. unfold incrementTimeField. split_if; reflexivity. Qed.

Lemma incrementDateField_step (w : World) :
  settingStep (sketch (incrementDateField w)) = settingStep (sketch w).
Proof. unfold incrementDateField. cbv zeta. repeat split_if; reflexivity. Qed.

Lemma incrementTimeField_rtc (w : World) :
  rtcTime (hw (incrementTimeField w)) = rtcTime (hw w).
Proof. unfold incrementTimeField. split_if; reflexivity. Qed.

Lemma incrementDateField_rtc (w : World) :
  rtcTime (hw (incrementDateField w)) = rtcTime (hw w).
Proof. unfold incrementDateField. cbv zeta. repeat split_if; reflexivity. Qed.

Lemma selectMenuItem_rtc (w : World) :
  rtcTime (hw (selectMenuItem w)) = rtcTime (hw w).
Proof. unfold selectMenuItem. destruct (currentMenu (sketch w)); reflexivity. Qed.

(** Reduce the RTC of a world built from the small updates of the input
    tab to the RTC of the world they start from. *)
Ltac rtc_simpl :=
  repeat first
    [ rewrite launchGame_rtc
    | rewrite selectMenuItem_rtc
    | rewrite incrementTimeField_rtc
    | rewrite incrementDateField_rtc
    | progress unfold launchSelectedGame, touch, to_clock, menu_step,
        next_step, EEPROM_write, EEPROM_put
    | progress cbn [hw sketch rtcTime with_sketch with_hw with_dodge with_dino
                    with_snake set_sketch set_hw set_dodge set_dino set_snake
                    set_lastLines set_eeprom set_eepromWrites] ].

(** The remote control: with no editor past its first field, no key
    writes the RTC. *)
Lemma mode_dispatch_rtc (t : DateTime) (e : Lines) (w : World) :
  rtc_guard t w -> rtcTime (hw (mode_dispatch e w)) = t.
Proof.
  intros [Hr Hstep]. unfold mode_dispatch.
  destruct (currentMode (sketch w)) eqn:Hm; cbv zeta.
  1-5,8: repeat split_if; rtc_simpl; exact Hr.
  - specialize (Hstep (or_introl eq_refl)).
    destruct (lnReturn e); [rtc_simpl; exact Hr|].
    destruct (lnUp e || lnDown e); (destruct (lnOk e); [|rtc_simpl; exact Hr]).
    + change (settingStep (sketch (touch (incrementTimeField w))))
        with (settingStep (sketch (incrementTimeField w))).
      rewrite incrementTimeField_step, Hstep. cbn [Z.ltb Z.compare].
      rtc_simpl. exact Hr.
    + rewrite Hstep. cbn [Z.ltb Z.compare]. rtc_simpl. exact Hr.
  - specialize (Hstep (or_intror eq_refl)).
    destruct (lnReturn e); [rtc_simpl; exact Hr|].
    destruct (lnUp e || lnDown e); (destruct (lnOk e); [|rtc_simpl; exact Hr]).
    + change (settingStep (sketch (touch (incrementDateField w))))
        with (settingStep (sketch (incrementDateField w))).
      rewrite incrementDateField_step, Hstep. cbn [Z.ltb Z.compare].
      rtc_simpl. exact Hr.
    + rewrite Hstep. cbn [Z.ltb Z.compare]. rtc_simpl. exact Hr.
Qed.

Lemma handleIRInput_rtc (t : DateTime) (pin : Lines) (w : World) :
  rtc_guard t w -> rtcTime (hw (handleIRInput pin w)) = t.
Proof.
  intros Hg. unfold handleIRInput. cbv zeta.
  change (rtcTime (hw (set_lastLines pin ?x))) with (rtcTime (hw x)).
  apply mode_dispatch_rtc. split_if; exact Hg.
Qed.

Lemma spares_rtc (w x : World) :
  spares w x -> rtcTime (hw x) = rtcTime (hw w).
Proof. unfold spares, settings_of. intros H. now injection H. Qed.

(** What [loop] runs once the inputs are handled does not write the RTC. *)
Lemma loop_dispatch_rtc (w : World) :
  rtcTime (hw
    (match currentMode (sketch w) with
     | GAME =>
         runDinoGame
           (if elapsed (lastGameIRActivity (sketch w)) w >? GAME_TIMEOUT_MS
            then to_clock w else w)
     | DODGE_GAME => runDodgeGame w
     | SNAKE_GAME => runSnakeGame w
     | GAME_SELECT => runGameSelectMenu w
     | SETTING => runSettingsMenu w
     | SET_TIME => runTimeSettingMode w
     | SET_DATE => runDateSettingMode w
     | CLOCK =>
         if (hour (rtc_now w) =? 7) && (minute (rtc_now w) =? 30)
         then w else updateClock w
     end)) = rtcTime (hw w).
Proof.
  destruct (currentMode (sketch w)).
  - split_if; [reflexivity|]. clock_cases; reflexivity.
  - unfold runSettingsMenu. split_if; reflexivity.
  - apply spares_rtc, spares_app.
    split_if; [apply spares_app|]; apply spares_refl.
  - apply spares_rtc, spares_app, spares_refl.
  - unfold runGameSelectMenu. split_if; reflexivity.
  - reflexivity.
  - reflexivity.
  - apply spares_rtc, spares_app, spares_refl.
Qed.

(** X12 ([loop], [handleButton], [handleIRInput], [saveTime], [saveDate]):
    a pass through [loop] that starts outside the time editor and the date
    editor leaves the time of the RTC as it is, whatever the push button
    and the remote control do during the pass. *)
Theorem rtc_written_by_editors_only (i : Input) (w : World) :
  currentMode (sketch w) <> SET_TIME ->
  currentMode (sketch w) <> SET_DATE ->
  rtcTime (hw (loop i w)) = rtcTime (hw w).
Proof.
  intros Ht Hd. unfold loop. cbv zeta.
  set (w0 := with_hw (set_clock (to_ulong (in_millis i))) w).
  assert (outside_editors (rtcTime (hw w)) w0) as H0
    by (split; [reflexivity|split; assumption]).
  apply (handleButton_guard _ (in_button i)) in H0.
  apply (handleIRInput_rtc _ (in_lines i)) in H0.
  rewrite <- H0. apply loop_dispatch_rtc.
Qed.

Lemma rtc_written_by_editors_only_witness :
  currentMode (sketch equation_world) <> SET_TIME
  /\ currentMode (sketch equation_world) <> SET_DATE
  /\ rtcTime (hw (loop (mkInput 5000 line_ok true) equation_world))
     = rtcTime (hw equation_world).
Proof.
  assert (currentMode (sketch equation_world) <> SET_TIME) as Ht
    by (vm_compute; discriminate).
  assert (currentMode (sketch equation_world) <> SET_DATE) as Hd
    by (vm_compute; discriminate).
  split; [exact Ht|]. split; [exact Hd|].
  apply rtc_written_by_editors_only; assumption.
Defined.

(** ** The editors *)

Lemma press_app (k1 k2 : list Lines) (w : World) :
  press (k1 ++ k2) w = press k2 (press k1 w).
Proof. apply foldl_app. Qed.

Lemma press_one (e : Lines) (w : World) : press [e] w = mode_dispatch e w.
Proof. reflexivity. Qed.

(** [UP] and [DOWN] both count upwards. *)
Lemma time_key (e : Lines) (step h m : Z) (w : World) :
  e = line_up \/ e = line_down ->
  editing_time step h m w -> 0 <= h < 24 -> 0 <= m < 60 ->
  editing_time step (if step =? 0 then (h + 1) mod 24 else h)
                    (if step =? 0 then m else (m + 1) mod 60)
               (mode_dispatch e w)
  /\ rtcTime (hw (mode_dispatch e w)) = rtcTime (hw w).
Proof.
  intros He (Hm & Hs & Hh & Hmi) Hhr Hmr.
  unfold mode_dispatch. rewrite Hm.
  assert (lnReturn e = false /\ lnUp e || lnDown e = true /\ lnOk e = false)
    as (-> & -> & ->) by (destruct He as [-> | ->]; repeat split).
  cbv zeta. unfold incrementTimeField. rewrite Hs.
  unfold editing_time.
  destruct (step =? 0); cbn; rewrite Hm, Hs, Hh, Hmi;
    rewrite Z.rem_mod_nonneg by lia;
    match goal with
    | |- context [to_int8 (?a mod ?b)] =>
        pose proof (Z.mod_pos_bound a b ltac:(lia))
    end; wraps; auto.
Qed.

Lemma time_keys (keys : list Lines) (step h m : Z) (w : World) :
  Forall (fun e => e = line_up \/ e = line_down) keys ->
  editing_time step h m w -> 0 <= h < 24 -> 0 <= m < 60 ->
  editing_time step
    (if step =? 0 then (h + Z.of_nat (length keys)) mod 24 else h)
    (if step =? 0 then m else (m + Z.of_nat (length keys)) mod 60)
    (press keys w)
  /\ rtcTime (hw (press keys w)) = rtcTime (hw w).
Proof.
  intros Hkeys. revert h m w.
  induction Hkeys as [|e keys He _ IH]; intros h m w Hed Hh Hm.
  - cbn [press foldl length Z.of_nat]. rewrite !Z.add_0_r, !Z.mod_small by lia.
    split; [|reflexivity]. destruct (step =? 0); exact Hed.
  - destruct (time_key e step h m w He Hed Hh Hm) as [Hed' Hr'].
    change (press (e :: keys) w) with (press keys (mode_dispatch e w)).
    pose proof (Z.mod_pos_bound (h + 1) 24 ltac:(lia)).
    pose proof (Z.mod_pos_bound (m + 1) 60 ltac:(lia)).
    destruct (IH _ _ _ Hed') as [Hed'' Hr''];
      [destruct (step =? 0); lia..|].
    rewrite Hr'', Hr'. split; [|reflexivity].
    replace (Z.of_nat (length (e :: keys)))
      with (1 + Z.of_nat (length keys)) by (cbn [length]; lia).
    rewrite !Z.add_assoc.
    destruct (step =? 0);
      rewrite ?Z.add_mod_idemp_l in Hed'' by lia; exact Hed''.
Qed.

Lemma time_open (w : World) :
  currentMode (sketch w) = SETTING -> currentMenu (sketch w) = MENU_TIME ->
  editing_time 0 (to_int8 (hour (rtcTime (hw w))))
                 (to_int8 (minute (rtcTime (hw w)))) (mode_dispatch line_ok w)
  /\ rtcTime (hw (mode_dispatch line_ok w)) = rtcTime (hw w).
Proof.
  intros Hm Hmenu. unfold mode_dispatch. rewrite Hm.
  cbn [line_ok lnReturn lnDown lnUp lnOk]. cbv zeta.
  unfold selectMenuItem. rewrite Hmenu. cbv zeta.
  split; [|reflexivity]. repeat split.
Qed.

Lemma time_next (h m : Z) (w : World) :
  editing_time 0 h m w ->
  editing_time 1 h m (mode_dispatch line_ok w)
  /\ rtcTime (hw (mode_dispatch line_ok w)) = rtcTime (hw w).
Proof.
  intros (Hm & Hs & Hh & Hmi). unfold mode_dispatch. rewrite Hm.
  cbn [line_ok lnReturn lnDown lnUp lnOk orb]. cbv zeta. rewrite Hs.
  cbn [Z.ltb Z.compare]. split; [|reflexivity].
  unfold editing_time. cbn. rewrite Hm, Hs, Hh, Hmi. repeat split.
Qed.

Lemma time_commit (h m : Z) (w : World) :
  editing_time 1 h m w ->
  currentMode (sketch (mode_dispatch line_ok w)) = CLOCK
  /\ rtcTime (hw (mode_dispatch line_ok w))
     = mkDateTime (year (rtcTime (hw w))) (month (rtcTime (hw w)))
                  (day (rtcTime (hw w))) h m 0.
Proof.
  intros (Hm & Hs & Hh & Hmi). unfold mode_dispatch. rewrite Hm.
  cbn [line_ok lnReturn lnDown lnUp lnOk orb]. cbv zeta. rewrite Hs.
  cbn [Z.ltb Z.compare]. split; [reflexivity|].
  unfold saveTime, rtc_now. cbn. rewrite Hh, Hmi. reflexivity.
Qed.

(** X13 ([selectMenuItem], [incrementTimeField], [saveTime], the time
    editor of [handleIRInput]): from the entry TIME of the settings menu,
    OK opens the editor on the time of the RTC; each UP or DOWN adds one
    to the selected field, the hour wrapping at 24 and the minute at 60;
    the second OK moves to the minute and the third writes the RTC: the
    date is the one it had, the hour and minute are the edited ones, the
    seconds are 0; the sketch is back in Clock mode. *)
Theorem time_edit_round_trip (hours minutes : list Lines) (w : World) :
  currentMode (sketch w) = SETTING -> currentMenu (sketch w) = MENU_TIME ->
  0 <= hour (rtcTime (hw w)) < 24 -> 0 <= minute (rtcTime (hw w)) < 60 ->
  Forall (fun e => e = line_up \/ e = line_down) hours ->
  Forall (fun e => e = line_up \/ e = line_down) minutes ->
  let w' := press ([line_ok] ++ hours ++ [line_ok] ++ minutes ++ [line_ok]) w in
  currentMode (sketch w') = CLOCK
  /\ rtcTime (hw w')
     = mkDateTime (year (rtcTime (hw w))) (month (rtcTime (hw w)))
         (day (rtcTime (hw w)))
         ((hour (rtcTime (hw w)) + Z.of_nat (length hours)) mod 24)
         ((minute (rtcTime (hw w)) + Z.of_nat (length minutes)) mod 60) 0.
Proof.
  intros Hm Hmenu Hh Hmi Hhs Hms w'. subst w'.
  rewrite !press_app.
  rewrite !press_one.
  destruct (time_open w Hm Hmenu) as [H1 R1].
  rewrite !to_int8_small in H1 by lia.
  destruct (time_keys hours _ _ _ _ Hhs H1 Hh Hmi) as [H2 R2].
  cbn [Z.eqb] in H2.
  destruct (time_next _ _ _ H2) as [H3 R3].
  pose proof (Z.mod_pos_bound (hour (rtcTime (hw w)) + Z.of_nat (length hours))
                24 ltac:(lia)) as Hh'.
  destruct (time_keys minutes _ _ _ _ Hms H3 Hh' Hmi) as [H4 R4].
  cbn [Z.eqb] in H4.
  destruct (time_commit _ _ _ H4) as [H5 R5].
  split; [exact H5|]. rewrite R5, R4, R3, R2, R1. reflexivity.
Qed.

Lemma time_edit_round_trip_witness :
  rtcTime (hw (press [line_ok; line_up; line_down; line_ok; line_up; line_ok]
                 (with_sketch (set_currentMenu MENU_TIME)
                    (with_sketch (set_currentMode SETTING)
                       (power_on (set_rtcTime (mkDateTime 2025 3 9 23 59 41)
                                    (blank_hw (fun _ => 0))))))))
  = mkDateTime 2025 3 9 1 0 0.
Proof.
  refine (proj2 (time_edit_round_trip [line_up; line_down] [line_up]
                   (with_sketch (set_currentMenu MENU_TIME)
                      (with_sketch (set_currentMode SETTING)
                         (power_on (set_rtcTime (mkDateTime 2025 3 9 23 59 41)
                                      (blank_hw (fun _ => 0))))))
                   eq_refl eq_refl _ _ _ _)).
  - vm_compute. split; [intros H; discriminate H|reflexivity].
  - vm_compute. split; [intros H; discriminate H|reflexivity].
  - repeat (apply Forall_cons; split; [auto|]). apply Forall_nil_2.
  - repeat (apply Forall_cons; split; [auto|]). apply Forall_nil_2.
Defined.

Lemma date_key (e : Lines) (step y m d : Z) (w : World) :
  e = line_up \/ e = line_down ->
  editing_date step y m d w ->
  2000 <= y <= 2099 -> 1 <= m <= 12 -> 1 <= d <= 31 ->
  editing_date step
    (if step =? 0 then 2000 + (y - 2000 + 1) mod 100 else y)
    (if step =? 0 then m else if step =? 1 then 1 + (m - 1 + 1) mod 12 else m)
    (if step =? 0 then d else if step =? 1 then d
     else 1 + (d - 1 + 1) mod 31)
    (mode_dispatch e w)
  /\ rtcTime (hw (mode_dispatch e w)) = rtcTime (hw w).
Proof.
  intros He (Hm & Hs & Hy & Hmo & Hd) Hyr Hmr Hdr.
  unfold mode_dispatch. rewrite Hm.
  assert (lnReturn e = false /\ lnUp e || lnDown e = true /\ lnOk e = false)
    as (-> & -> & ->) by (destruct He as [-> | ->]; repeat split).
  cbv zeta. unfold incrementDateField. rewrite Hs. cbv zeta.
  unfold editing_date.
  destruct (step =? 0); [|destruct (step =? 1)]; cbn;
    rewrite ?Hm, ?Hs, ?Hy, ?Hmo, ?Hd;
    repeat split_if; cbn; rewrite ?Hm, ?Hs, ?Hy, ?Hmo, ?Hd;
    arith_hyps; wraps; repeat split; try reflexivity;
    Z.div_mod_to_equations; lia.
Qed.

Lemma date_keys (keys : list Lines) (step y m d : Z) (w : World) :
  Forall (fun e => e = line_up \/ e = line_down) keys ->
  editing_date step y m d w ->
  2000 <= y <= 2099 -> 1 <= m <= 12 -> 1 <= d <= 31 ->
  let n := Z.of_nat (length keys) in
  editing_date step
    (if step =? 0 then 2000 + (y - 2000 + n) mod 100 else y)
    (if step =? 0 then m else if step =? 1 then 1 + (m - 1 + n) mod 12 else m)
    (if step =? 0 then d else if step =? 1 then d
     else 1 + (d - 1 + n) mod 31)
    (press keys w)
  /\ rtcTime (hw (press keys w)) = rtcTime (hw w).
Proof.
  intros Hkeys. revert y m d w.
  induction Hkeys as [|e keys He _ IH]; intros y m d w Hed Hy Hm Hd n; subst n.
  - cbn [press foldl length Z.of_nat]. rewrite !Z.add_0_r, !Z.mod_small by lia.
    split; [|reflexivity].
    replace (2000 + (y - 2000)) with y by lia.
    replace (1 + (m - 1)) with m by lia.
    replace (1 + (d - 1)) with d by lia.
    destruct (step =? 0); [|destruct (step =? 1)]; exact Hed.
  - destruct (date_key e step y m d w He Hed Hy Hm Hd) as [Hed' Hr'].
    change (press (e :: keys) w) with (press keys (mode_dispatch e w)).
    pose proof (Z.mod_pos_bound (y - 2000 + 1) 100 ltac:(lia)).
    pose proof (Z.mod_pos_bound (m - 1 + 1) 12 ltac:(lia)).
    pose proof (Z.mod_pos_bound (d - 1 + 1) 31 ltac:(lia)).
    destruct (IH _ _ _ _ Hed') as [Hed'' Hr''];
      [destruct (step =? 0); [|destruct (step =? 1)]; lia..|].
    rewrite Hr'', Hr'. split; [|reflexivity].
    replace (Z.of_nat (length (e :: keys)))
      with (1 + Z.of_nat (length keys)) by (cbn [length]; lia).
    cbv zeta in Hed''. rewrite !Z.add_assoc.
    destruct (step =? 0); [|destruct (step =? 1)];
      match type of Hed'' with
      | context [?lo + ?a mod ?k - ?lo + ?b] =>
          replace (lo + a mod k - lo + b) with (a mod k + b) in Hed'' by lia;
          rewrite Z.add_mod_idemp_l in Hed'' by lia
      end; exact Hed''.
Qed.

Lemma date_open (w : World) :
  currentMode (sketch w) = SETTING -> currentMenu (sketch w) = MENU_DATE ->
  editing_date 0 (to_int (year (rtcTime (hw w))))
    (to_int8 (month (rtcTime (hw w)))) (to_int8 (day (rtcTime (hw w))))
    (mode_dispatch line_ok w)
  /\ rtcTime (hw (mode_dispatch line_ok w)) = rtcTime (hw w).
Proof.
  intros Hm Hmenu. unfold mode_dispatch. rewrite Hm.
  cbn [line_ok lnReturn lnDown lnUp lnOk]. cbv zeta.
  unfold selectMenuItem. rewrite Hmenu. cbv zeta.
  split; [|reflexivity]. repeat split.
Qed.

Lemma date_next (step y m d : Z) (w : World) :
  0 <= step < 2 ->
  editing_date step y m d w ->
  editing_date (step + 1) y m d (mode_dispatch line_ok w)
  /\ rtcTime (hw (mode_dispatch line_ok w)) = rtcTime (hw w).
Proof.
  intros Hstep (Hm & Hs & Hy & Hmo & Hd). unfold mode_dispatch. rewrite Hm.
  cbn [line_ok lnReturn lnDown lnUp lnOk orb]. cbv zeta. rewrite Hs.
  destruct (Z.ltb_spec step 2); [|lia]. split; [|reflexivity].
  unfold editing_date. cbn. rewrite Hm, Hs, Hy, Hmo, Hd. wraps. repeat split.
Qed.

Lemma date_commit (y m d : Z) (w : World) :
  editing_date 2 y m d w ->
  currentMode (sketch (mode_dispatch line_ok w)) = CLOCK
  /\ rtcTime (hw (mode_dispatch line_ok w))
     = mkDateTime y m d (hour (rtcTime (hw w))) (minute (rtcTime (hw w)))
                  (second (rtcTime (hw w))).
Proof.
  intros (Hm & Hs & Hy & Hmo & Hd). unfold mode_dispatch. rewrite Hm.
  cbn [line_ok lnReturn lnDown lnUp lnOk orb]. cbv zeta. rewrite Hs.
  cbn [Z.ltb Z.compare Pos.compare Pos.compare_cont]. split; [reflexivity|].
  unfold saveDate, rtc_now. cbn. rewrite Hy, Hmo, Hd. reflexivity.
Qed.

(** X14 ([selectMenuItem], [incrementDateField], [saveDate], the date
    editor of [handleIRInput]): from the entry DATE of the settings menu,
    OK opens the editor on the date of the RTC; each UP or DOWN adds one to
    the selected field, the year wrapping from 2099 to 2000, the month from
    12 to 1 and the day from 31 to 1 whatever the month; OK moves from the
    year to the month and to the day, and the fourth OK writes the RTC: the
    time of day is the one it had, the date is the edited one; the sketch is
    back in Clock mode. *)
Theorem date_edit_round_trip (years months days : list Lines) (w : World) :
  currentMode (sketch w) = SETTING -> currentMenu (sketch w) = MENU_DATE ->
  2000 <= year (rtcTime (hw w)) <= 2099 ->
  1 <= month (rtcTime (hw w)) <= 12 ->
  1 <= day (rtcTime (hw w)) <= 31 ->
  Forall (fun e => e = line_up \/ e = line_down) years ->
  Forall (fun e => e = line_up \/ e = line_down) months ->
  Forall (fun e => e = line_up \/ e = line_down) days ->
  let w' := press ([line_ok] ++ years ++ [line_ok] ++ months ++ [line_ok]
                     ++ days ++ [line_ok]) w in
  currentMode (sketch w') = CLOCK
  /\ rtcTime (hw w')
     = mkDateTime
         (2000 + (year (rtcTime (hw w)) - 2000 + Z.of_nat (length years)) mod 100)
         (1 + (month (rtcTime (hw w)) - 1 + Z.of_nat (length months)) mod 12)
         (1 + (day (rtcTime (hw w)) - 1 + Z.of_nat (length days)) mod 31)
         (hour (rtcTime (hw w))) (minute (rtcTime (hw w)))
         (second (rtcTime (hw w))).
Proof.
  intros Hm Hmenu Hy Hmo Hd Hys Hms Hds w'. subst w'.
  rewrite !press_app, !press_one.
  destruct (date_open w Hm Hmenu) as [H1 R1].
  rewrite to_int_small, !to_int8_small in H1 by lia.
  destruct (date_keys years _ _ _ _ _ Hys H1 Hy Hmo Hd) as [H2 R2].
  cbv zeta in H2. change (0 =? 0) with true in H2. cbv iota in H2.
  pose proof (Z.mod_pos_bound
                (year (rtcTime (hw w)) - 2000 + Z.of_nat (length years)) 100
                ltac:(lia)) as Hy'.
  destruct (date_next 0 _ _ _ _ ltac:(lia) H2) as [H3 R3].
  change (0 + 1) with 1 in H3.
  destruct (date_keys months 1 _ _ _ _ Hms H3 ltac:(lia) Hmo Hd) as [H4 R4].
  cbv zeta in H4. change (1 =? 0) with false in H4.
  change (1 =? 1) with true in H4. cbv iota in H4.
  pose proof (Z.mod_pos_bound
                (month (rtcTime (hw w)) - 1 + Z.of_nat (length months)) 12
                ltac:(lia)) as Hmo'.
  destruct (date_next 1 _ _ _ _ ltac:(lia) H4) as [H5 R5].
  change (1 + 1) with 2 in H5.
  destruct (date_keys days 2 _ _ _ _ Hds H5 ltac:(lia) ltac:(lia) Hd) as [H6 R6].
  cbv zeta in H6. change (2 =? 0) with false in H6.
  change (2 =? 1) with false in H6. cbv iota in H6.
  destruct (date_commit _ _ _ _ H6) as [H7 R7].
  split; [exact H7|]. rewrite R7, R6, R5, R4, R3, R2, R1. reflexivity.
Qed.

Lemma date_edit_round_trip_witness :
  rtcTime (hw (press [line_ok; line_up; line_ok; line_ok; line_down; line_ok]
                 (with_sketch (set_currentMenu MENU_DATE)
                    (with_sketch (set_currentMode SETTING)
                       (power_on (set_rtcTime (mkDateTime 2099 2 31 23 59 41)
                                    (blank_hw (fun _ => 0))))))))
  = mkDateTime 2000 2 1 23 59 41.
Proof.
  refine (proj2 (date_edit_round_trip [line_up] [] [line_down]
                   (with_sketch (set_currentMenu MENU_DATE)
                      (with_sketch (set_currentMode SETTING)
                         (power_on (set_rtcTime (mkDateTime 2099 2 31 23 59 41)
                                      (blank_hw (fun _ => 0))))))
                   eq_refl eq_refl _ _ _ _ _ _)).
  1-3: vm_compute; split; intros H; discriminate H.
  all: repeat (apply Forall_cons; split; [auto|]); apply Forall_nil_2.
Defined.

(** [UP] and [DOWN] leave an editor open on the field it is on. *)
Lemma edit_key_stays (e : Lines) (w : World) :
  e = line_up \/ e = line_down ->
  currentMode (sketch w) = SET_TIME \/ currentMode (sketch w) = SET_DATE ->
  currentMode (sketch (mode_dispatch e w)) = currentMode (sketch w)
  /\ settingStep (sketch (mode_dispatch e w)) = settingStep (sketch w)
  /\ rtcTime (hw (mode_dispatch e w)) = rtcTime (hw w).
Proof.
  intros He Hm. unfold mode_dispatch.
  assert (lnReturn e = false /\ lnUp e || lnDown e = true /\ lnOk e = false)
    as (Hr & Hu & Ho) by (destruct He as [-> | ->]; repeat split).
  destruct Hm as [Hm|Hm]; rewrite Hm, Hr, Hu, Ho; cbv zeta.
  - change (?f (sketch (touch ?x))) with (f (sketch x)).
    rewrite incrementTimeField_step.
    split; [|split; [reflexivity|apply incrementTimeField_rtc]].
    unfold incrementTimeField. split_if; exact Hm.
  - split; [|split; [apply incrementDateField_step
                    |apply incrementDateField_rtc]].
    unfold incrementDateField. cbv zeta. repeat split_if; exact Hm.
Qed.

Lemma edit_keys_stay (keys : list Lines) (w : World) :
  Forall (fun e => e = line_up \/ e = line_down) keys ->
  currentMode (sketch w) = SET_TIME \/ currentMode (sketch w) = SET_DATE ->
  currentMode (sketch (press keys w)) = currentMode (sketch w)
  /\ rtcTime (hw (press keys w)) = rtcTime (hw w).
Proof.
  intros Hkeys. revert w.
  induction Hkeys as [|e keys He _ IH]; intros w Hm; [split; reflexivity|].
  change (press (e :: keys) w) with (press keys (mode_dispatch e w)).
  destruct (edit_key_stays e w He Hm) as (Hm' & _ & Hr').
  destruct (IH (mode_dispatch e w)) as [Hm'' Hr'']; [rewrite Hm'; exact Hm|].
  rewrite Hm'', Hr'', Hm', Hr'. split; reflexivity.
Qed.

(** X15 ([handleIRInput], editors): RETURN cancels an edit.  From the
    entry TIME or DATE of the settings menu, OK, any number of UP and DOWN
    and then RETURN, alone or with other keys, lead back to the settings
    menu with the RTC untouched. *)
Theorem return_cancels_edit (keys : list Lines) (e : Lines) (w : World) :
  currentMode (sketch w) = SETTING ->
  currentMenu (sketch w) = MENU_TIME \/ currentMenu (sketch w) = MENU_DATE ->
  Forall (fun k => k = line_up \/ k = line_down) keys ->
  lnReturn e = true ->
  let w' := press ([line_ok] ++ keys ++ [e]) w in
  currentMode (sketch w') = SETTING /\ rtcTime (hw w') = rtcTime (hw w).
Proof.
  intros Hm Hmenu Hkeys He w'. subst w'.
  rewrite !press_app, !press_one.
  assert ((currentMode (sketch (mode_dispatch line_ok w)) = SET_TIME
           \/ currentMode (sketch (mode_dispatch line_ok w)) = SET_DATE)
          /\ rtcTime (hw (mode_dispatch line_ok w)) = rtcTime (hw w))
    as [Hopen Hr1].
  { destruct Hmenu as [Hmenu|Hmenu].
    - destruct (time_open w Hm Hmenu) as [(H & _) R]. auto.
    - destruct (date_open w Hm Hmenu) as [(H & _) R]. auto. }
  destruct (edit_keys_stay keys _ Hkeys Hopen) as [Hm2 Hr2].
  rewrite <- Hm2 in Hopen. rewrite <- Hr1, <- Hr2.
  set (x := press keys (mode_dispatch line_ok w)) in *. clearbody x.
  unfold mode_dispatch.
  destruct Hopen as [-> | ->]; rewrite He; split; reflexivity.
Qed.

Lemma return_cancels_edit_witness :
  currentMode
    (sketch (press [line_ok; line_up; line_up; line_return]
               (with_sketch (set_currentMenu MENU_DATE)
                  (with_sketch (set_currentMode SETTING) equation_world))))
  = SETTING
  /\ rtcTime
       (hw (press [line_ok; line_up; line_up; line_return]
              (with_sketch (set_currentMenu MENU_DATE)
                 (with_sketch (set_currentMode SETTING) equation_world))))
     = rtcTime (hw equation_world).
Proof.
  apply (return_cancels_edit [line_up; line_up] line_return
           (with_sketch (set_currentMenu MENU_DATE)
              (with_sketch (set_currentMode SETTING) equation_world))).
  - reflexivity.
  - right. reflexivity.
  - repeat (apply Forall_cons; split; [auto|]). apply Forall_nil_2.
  - reflexivity.
Defined.

(** ** The difficulty setting *)

Lemma setup_difficulty (h : Hw) :
  difficulty (sketch (setup h))
  = (let v := to_int8 (default 255 (eeprom h !! EEPROM_DIFFICULTY_ADDR)) in
     if (v <? 1) || (v >? 5) then 1 else v).
Proof.
  unfold setup, loadDodgeHighScore, loadSnakeHighScore. cbv zeta.
  repeat split_if; cbn in *; unfold EEPROM_read in *;
    cbn [hw power_on eeprom] in *; reflexivity || congruence.
Qed.

(** OK on the entry LVL of the settings menu. *)
Lemma difficulty_key (w : World) :
  currentMode (sketch w) = SETTING ->
  currentMenu (sketch w) = MENU_DIFFICULTY ->
  1 <= difficulty (sketch w) <= 5 ->
  let w' := mode_dispatch line_ok w in
  currentMode (sketch w') = SETTING
  /\ currentMenu (sketch w') = MENU_DIFFICULTY
  /\ difficulty (sketch w') = difficulty (sketch w) mod 5 + 1
  /\ eeprom (hw w')
     = <[EEPROM_DIFFICULTY_ADDR := difficulty (sketch w')]> (eeprom (hw w)).
Proof.
  intros Hm Hmenu Hd w'. subst w'. unfold mode_dispatch. rewrite Hm.
  cbn [line_ok lnReturn lnDown lnUp lnOk]. cbv zeta.
  unfold selectMenuItem. rewrite Hmenu. cbv zeta.
  cbn [touch sketch with_sketch set_sketch currentMode currentMenu difficulty
       set_lastActivity set_difficulty EEPROM_write EEPROM_put with_hw set_hw
       hw eeprom set_eeprom set_eepromWrites].
  rewrite Z.rem_mod_nonneg by lia.
  pose proof (Z.mod_pos_bound (difficulty (sketch w)) 5 ltac:(lia)).
  wraps. rewrite Hm, Hmenu. repeat split.
Qed.

(** X16 ([selectMenuItem], [setup]): OK on the difficulty entry of the
    settings menu moves the difficulty one step round the cycle
    1, 2, 3, 4, 5, 1 and stores it; five presses bring back the level they
    started from; and the level that the next power-up loads is the one
    last selected. *)
Theorem difficulty_cycles_and_persists (w : World) :
  currentMode (sketch w) = SETTING ->
  currentMenu (sketch w) = MENU_DIFFICULTY ->
  1 <= difficulty (sketch w) <= 5 ->
  difficulty (sketch (mode_dispatch line_ok w))
  = (if difficulty (sketch w) =? 5 then 1 else difficulty (sketch w) + 1)
  /\ difficulty (sketch (setup (hw (mode_dispatch line_ok w))))
     = difficulty (sketch (mode_dispatch line_ok w))
  /\ difficulty (sketch (press (replicate 5 line_ok) w)) = difficulty (sketch w).
Proof.
  intros Hm Hmenu Hd.
  destruct (difficulty_key w Hm Hmenu Hd) as (Hm1 & Hmenu1 & Hd1 & He1).
  assert (forall x, 1 <= x <= 5 -> 1 <= x mod 5 + 1 <= 5) as Hrange.
  { intros x Hx. pose proof (Z.mod_pos_bound x 5 ltac:(lia)). lia. }
  split; [|split].
  - rewrite Hd1. destruct (Z.eqb_spec (difficulty (sketch w)) 5) as [->|Hne].
    + reflexivity.
    + rewrite Z.mod_small by lia. reflexivity.
  - rewrite setup_difficulty, He1, lookup_insert_eq. cbn [default from_option id].
    specialize (Hrange _ Hd). rewrite <- Hd1 in Hrange. wraps.
    destruct (Z.ltb_spec (difficulty (sketch (mode_dispatch line_ok w))) 1);
      [lia|].
    destruct (Z.gtb_spec (difficulty (sketch (mode_dispatch line_ok w))) 5);
      [lia|reflexivity].
  - cbn [replicate press foldl].
    pose proof (Hrange _ Hd) as Hr1. rewrite <- Hd1 in Hr1.
    destruct (difficulty_key _ Hm1 Hmenu1 Hr1) as (Hm2 & Hmenu2 & Hd2 & _).
    pose proof (Hrange _ Hr1) as Hr2. rewrite <- Hd2 in Hr2.
    destruct (difficulty_key _ Hm2 Hmenu2 Hr2) as (Hm3 & Hmenu3 & Hd3 & _).
    pose proof (Hrange _ Hr2) as Hr3. rewrite <- Hd3 in Hr3.
    destruct (difficulty_key _ Hm3 Hmenu3 Hr3) as (Hm4 & Hmenu4 & Hd4 & _).
    pose proof (Hrange _ Hr3) as Hr4. rewrite <- Hd4 in Hr4.
    destruct (difficulty_key _ Hm4 Hmenu4 Hr4) as (_ & _ & Hd5 & _).
    rewrite Hd5, Hd4, Hd3, Hd2, Hd1.
    assert (difficulty (sketch w) = 1 \/ difficulty (sketch w) = 2
            \/ difficulty (sketch w) = 3 \/ difficulty (sketch w) = 4
            \/ difficulty (sketch w) = 5) as Hcases by lia.
    destruct Hcases as [-> | [-> | [-> | [-> | ->]]]]; reflexivity.
Qed.

Lemma difficulty_cycles_and_persists_witness :
  difficulty
    (sketch (mode_dispatch line_ok
               (with_sketch (set_difficulty 5)
                  (with_sketch (set_currentMode SETTING) equation_world))))
  = 1
  /\ difficulty
       (sketch (setup (hw (mode_dispatch line_ok
          (with_sketch (set_difficulty 5)
             (with_sketch (set_currentMode SETTING) equation_world))))))
     = 1.
Proof.
  destruct (difficulty_cycles_and_persists
              (with_sketch (set_difficulty 5)
                 (with_sketch (set_currentMode SETTING) equation_world)))
    as (H1 & H2 & _).
  - reflexivity.
  - reflexivity.
  - vm_compute. split; intros H; discriminate H.
  - split; [exact H1|]. rewrite H2. exact H1.
Defined.

(** ** Edge detection *)

Lemma edges_same (pin : Lines) : edges pin pin = no_lines.
Proof.
  unfold edges, no_lines. rewrite !andb_negb_r. reflexivity.
Qed.

Lemma set_lastLines_same (pin : Lines) (w : World) :
  lastLines w = pin -> set_lastLines pin w = w.
Proof. destruct w. cbn. intros ->. reflexivity. Qed.

(** X17 ([handleIRInput]): a key is acted on once however long it is held.
    On the pass after the one that saw the lines [pin], with the lines
    unchanged, [handleIRInput] sees no edge: it refreshes the activity
    timers and does nothing else, except that the game-select menu may time
    out. *)
Theorem held_lines_fire_once (pin : Lines) (w : World) :
  let w1 := handleIRInput pin w in
  let x := stamp_activity pin w1 in
  handleIRInput pin w1 =
    if currentMode (sketch w1) is GAME_SELECT
    then if elapsed (lastIRActivity (sketch x)) x >? 10000 then to_clock x else x
    else x.
Proof.
  intros w1 x.
  assert (lastLines w1 = pin) as Hl by reflexivity.
  assert (lastLines x = pin) as Hx.
  { subst x. unfold stamp_activity. split_if; exact Hl. }
  assert (currentMode (sketch x) = currentMode (sketch w1)) as Hmode.
  { subst x. unfold stamp_activity. split_if; reflexivity. }
  clearbody w1.
  change (handleIRInput pin w1)
    with (set_lastLines pin (mode_dispatch (edges pin (lastLines w1)) x)).
  rewrite Hl, edges_same, mode_dispatch_idle, Hmode.
  destruct (currentMode (sketch w1)); try apply set_lastLines_same, Hx.
  split_if; [|apply set_lastLines_same, Hx].
  apply set_lastLines_same. exact Hx.
Qed.

(** ** The push button over several passes *)

Lemma to_ulong_sub (a b : Z) : to_ulong (to_ulong a - to_ulong b) = to_ulong (a - b).
Proof. unfold to_ulong. rewrite <- Zminus_mod. reflexivity. Qed.

Lemma button_press_starts (t0 : Z) (w : World) :
  btnActive (sketch w) = false ->
  handleButton true (at_time t0 w) = pressed_at t0 false (at_time t0 w).
Proof.
  intros Ha. unfold handleButton.
  change (btnActive (sketch (at_time t0 w))) with (btnActive (sketch w)).
  rewrite Ha. cbn [andb negb]. cbv zeta.
  cbn [btnActive btnMediumFired btnTimer sketch with_sketch set_sketch
       set_btnTimer set_btnActive set_btnMediumFired andb negb].
  unfold elapsed, millis, at_time.
  cbn [hw with_sketch with_hw set_hw set_sketch clock set_clock].
  rewrite Z.sub_diag. change (to_ulong 0 >=? BUTTON_MEDIUM_PRESS_MS) with false.
  reflexivity.
Qed.

Lemma button_held_early (t0 t : Z) (w : World) :
  to_ulong (t - t0) < BUTTON_MEDIUM_PRESS_MS ->
  handleButton true (at_time t (pressed_at t0 false w))
  = pressed_at t0 false (at_time t w).
Proof.
  intros Ht. unfold handleButton, at_time, pressed_at. cbn [andb negb].
  cbv zeta.
  cbn [btnActive btnMediumFired btnTimer sketch with_sketch set_sketch
       with_hw set_hw
       set_btnTimer set_btnActive set_btnMediumFired andb negb].
  unfold elapsed, millis.
  cbn [hw with_sketch with_hw set_hw set_sketch clock set_clock btnTimer
       sketch set_btnTimer set_btnActive set_btnMediumFired].
  rewrite to_ulong_sub.
  destruct (Z.geb_spec (to_ulong (t - t0)) BUTTON_MEDIUM_PRESS_MS); [lia|].
  reflexivity.
Qed.

Lemma at_time_twice (t t' : Z) (w : World) :
  at_time t (at_time t' w) = at_time t w.
Proof. reflexivity. Qed.

Lemma button_held_early_passes (t0 : Z) (ts : list Z) (t : Z) (w : World) :
  Forall (fun t => to_ulong (t - t0) < BUTTON_MEDIUM_PRESS_MS) ts ->
  exists t', hold ts (pressed_at t0 false (at_time t w))
             = pressed_at t0 false (at_time t' w).
Proof.
  intros Hts. revert t. induction Hts as [|t1 ts Ht1 _ IH]; intros t.
  - exists t. reflexivity.
  - cbn [hold foldl]. rewrite (button_held_early t0 t1 _ Ht1), at_time_twice.
    apply IH.
Qed.

Lemma button_release_unfired (t0 t1 : Z) (w : World) :
  handleButton false (at_time t1 (pressed_at t0 false w))
  = (let x := with_sketch (set_btnActive false)
                (pressed_at t0 false (at_time t1 w)) in
     if to_ulong (t1 - t0) <? BUTTON_SHORT_PRESS_MS then handleShortPress x
     else x).
Proof.
  unfold handleButton, at_time, pressed_at. cbn [andb negb]. cbv zeta.
  cbn [btnActive btnMediumFired btnTimer sketch with_sketch set_sketch
       with_hw set_hw
       set_btnTimer set_btnActive set_btnMediumFired andb negb].
  unfold elapsed, millis.
  cbn [hw with_sketch with_hw set_hw set_sketch clock set_clock btnTimer
       sketch set_btnTimer set_btnActive set_btnMediumFired].
  rewrite to_ulong_sub. reflexivity.
Qed.

(** X18 ([handleButton], [handleShortPress]): a press of the push button
    that no pass sees held for three seconds.  If it is released within one
    second of the pass that saw it go down, the short-press action runs,
    once; released later, nothing happens.  Either way the only other
    change is the bookkeeping of the button.  Durations are differences of
    [millis] modulo 2^32, so the rule holds across the wrap of the
    counter. *)
Theorem button_short_press (t0 t1 : Z) (ts : list Z) (w : World) :
  btnActive (sketch w) = false ->
  Forall (fun t => to_ulong (t - t0) < BUTTON_MEDIUM_PRESS_MS) ts ->
  let x := with_sketch (set_btnActive false)
             (pressed_at t0 false (at_time t1 w)) in
  handleButton false (at_time t1 (hold ts (handleButton true (at_time t0 w))))
  = if to_ulong (t1 - t0) <? BUTTON_SHORT_PRESS_MS then handleShortPress x
    else x.
Proof.
  intros Ha Hts x. subst x.
  rewrite (button_press_starts t0 w Ha).
  destruct (button_held_early_passes t0 ts t0 w Hts) as [t' ->].
  rewrite button_release_unfired. cbv zeta.
  rewrite at_time_twice. reflexivity.
Qed.

Lemma button_short_press_witness :
  currentMenu
    (sketch (handleButton false (at_time 4294967000
       (hold [4294966500; 4294966900]
          (handleButton true (at_time 4294966300
             (with_sketch (set_currentMode SETTING) equation_world)))))))
  = MENU_TIME
  /\ currentMenu
       (sketch (handleButton false (at_time 1200
          (hold [4294966500; 4294966900; 100]
             (handleButton true (at_time 4294966300
                (with_sketch (set_currentMode SETTING) equation_world)))))))
     = MENU_DIFFICULTY.
Proof.
  split.
  - rewrite (button_short_press 4294966300 4294967000 [4294966500; 4294966900]
               (with_sketch (set_currentMode SETTING) equation_world)
               eq_refl).
    + vm_compute. reflexivity.
    + repeat (apply Forall_cons; split; [vm_compute; reflexivity|]).
      apply Forall_nil_2.
  - rewrite (button_short_press 4294966300 1200
               [4294966500; 4294966900; 100]
               (with_sketch (set_currentMode SETTING) equation_world)
               eq_refl).
    + vm_compute. reflexivity.
    + repeat (apply Forall_cons; split; [vm_compute; reflexivity|]).
      apply Forall_nil_2.
Defined.

Lemma button_fires (t0 t : Z) (w : World) :
  BUTTON_MEDIUM_PRESS_MS <= to_ulong (t - t0) ->
  handleButton true (at_time t (pressed_at t0 false w))
  = pressed_at t0 true (handleMediumHold (at_time t w)).
Proof.
  intros Ht. unfold handleButton, at_time, pressed_at. cbn [andb negb].
  cbv zeta.
  cbn [btnActive btnMediumFired btnTimer sketch with_sketch set_sketch
       with_hw set_hw
       set_btnTimer set_btnActive set_btnMediumFired andb negb].
  unfold elapsed, millis.
  cbn [hw with_sketch with_hw set_hw set_sketch clock set_clock btnTimer
       sketch set_btnTimer set_btnActive set_btnMediumFired].
  rewrite to_ulong_sub.
  destruct (Z.geb_spec (to_ulong (t - t0)) BUTTON_MEDIUM_PRESS_MS); [|lia].
  unfold handleMediumHold.
  cbn [sketch with_sketch set_sketch currentMode set_btnTimer set_btnActive
       set_btnMediumFired].
  destruct (currentMode _); reflexivity.
Qed.

Lemma button_held_fired (t0 t : Z) (w : World) :
  handleButton true (at_time t (pressed_at t0 true w))
  = pressed_at t0 true (at_time t w).
Proof. reflexivity. Qed.

Lemma button_held_fired_passes (t0 : Z) (ts : list Z) (w : World) :
  exists k, hold ts (pressed_at t0 true w) = pressed_at t0 true (k w)
    /\ (forall t, at_time t (k w) = at_time t w).
Proof.
  revert w. induction ts as [|t ts IH]; intros w.
  - exists id. split; reflexivity.
  - cbn [hold foldl]. rewrite button_held_fired.
    destruct (IH (at_time t w)) as (k & Hk & Hat).
    exists (fun w => k (at_time t w)). split; [exact Hk|].
    intros t'. rewrite Hat. apply at_time_twice.
Qed.

Lemma button_release_fired (t0 t1 : Z) (w : World) :
  handleButton false (at_time t1 (pressed_at t0 true w))
  = (let x := with_sketch (set_btnActive false)
                (pressed_at t0 true (at_time t1 w)) in
     if (to_ulong (t1 - t0) >=? BUTTON_LONG_PRESS_MS)
        && editing (currentMode (sketch x))
     then handleLongPress x else x).
Proof.
  unfold handleButton, at_time, pressed_at. cbn [andb negb]. cbv zeta.
  cbn [btnActive btnMediumFired btnTimer sketch with_sketch set_sketch
       with_hw set_hw
       set_btnTimer set_btnActive set_btnMediumFired andb negb].
  unfold elapsed, millis.
  cbn [hw with_sketch with_hw set_hw set_sketch clock set_clock btnTimer
       sketch set_btnTimer set_btnActive set_btnMediumFired].
  rewrite to_ulong_sub. reflexivity.
Qed.

(** X19 ([handleButton], [handleMediumHold], [handleLongPress]): a press of
    the push button that a pass sees held for three seconds or more.  The
    three-second action runs on the first such pass and on no later one;
    at the release the long-press action runs if five seconds have gone by
    since the press and the sketch is then in the settings menu or an
    editor; nothing else changes but the bookkeeping of the button. *)
Theorem button_long_hold (t0 tf t1 : Z) (before after : list Z) (w : World) :
  btnActive (sketch w) = false ->
  Forall (fun t => to_ulong (t - t0) < BUTTON_MEDIUM_PRESS_MS) before ->
  BUTTON_MEDIUM_PRESS_MS <= to_ulong (tf - t0) ->
  let x := with_sketch (set_btnActive false)
             (pressed_at t0 true (at_time t1 (handleMediumHold (at_time tf w)))) in
  handleButton false
    (at_time t1
       (hold after
          (handleButton true
             (at_time tf (hold before (handleButton true (at_time t0 w)))))))
  = if (to_ulong (t1 - t0) >=? BUTTON_LONG_PRESS_MS)
       && editing (currentMode (sketch x))
    then handleLongPress x else x.
Proof.
  intros Ha Hbefore Hfire x. subst x.
  rewrite (button_press_starts t0 w Ha).
  destruct (button_held_early_passes t0 before t0 w Hbefore) as [t' ->].
  rewrite (button_fires t0 tf _ Hfire), at_time_twice.
  destruct (button_held_fired_passes t0 after (handleMediumHold (at_time tf w)))
    as (k & -> & Hat).
  rewrite button_release_fired. cbv zeta. rewrite Hat. reflexivity.
Qed.

(** Held from the clock face for more than five seconds, the button opens
    the settings menu at three seconds and, at the release, selects its
    first entry: the difficulty goes up by one. *)
Lemma button_long_hold_witness :
  currentMode (sketch equation_world) = CLOCK
  /\ difficulty (sketch equation_world) = 1
  /\ currentMode
       (sketch (handleButton false (at_time 6000
          (hold [4000; 5000]
             (handleButton true (at_time 3600
                (hold [1000; 2000]
                   (handleButton true (at_time 500 equation_world)))))))))
     = SETTING
  /\ difficulty
       (sketch (handleButton false (at_time 6000
          (hold [4000; 5000]
             (handleButton true (at_time 3600
                (hold [1000; 2000]
                   (handleButton true (at_time 500 equation_world)))))))))
     = 2.
Proof.
  do 2 (split; [reflexivity|]).
  rewrite (button_long_hold 500 3600 6000 [1000; 2000] [4000; 5000]
             equation_world eq_refl).
  - vm_compute. split; reflexivity.
  - repeat (apply Forall_cons; split; [vm_compute; reflexivity|]).
    apply Forall_nil_2.
  - vm_compute. intros H. discriminate H.
Defined.

(** ** The state of the engines in every reachable state *)

(** Each engine leaves the state of the two others alone. *)
Lemma runDinoGame_others (w : World) :
  dodge (runDinoGame w) = dodge w /\ snake (runDinoGame w) = snake w.
Proof.
  split.
  - change (same dodge w (runDinoGame w)).
    apply (@Frames_runDinoGame _ _ dodge rtcTime); intros; reflexivity.
  - change (same snake w (runDinoGame w)).
    apply (@Frames_runDinoGame _ _ snake rtcTime); intros; reflexivity.
Qed.

Lemma runDodgeGame_others (w : World) :
  dino (runDodgeGame w) = dino w /\ snake (runDodgeGame w) = snake w.
Proof.
  split.
  - change (same dino w (runDodgeGame w)).
    apply (@Frames_runDodgeGame _ _ dino rtcTime); intros; reflexivity.
  - change (same snake w (runDodgeGame w)).
    apply (@Frames_runDodgeGame _ _ snake rtcTime); intros; reflexivity.
Qed.

Lemma resetDodgeGame_others (w : World) :
  dino (resetDodgeGame w) = dino w /\ snake (resetDodgeGame w) = snake w.
Proof.
  split.
  - change (same dino w (resetDodgeGame w)).
    apply (@Frames_resetDodgeGame _ _ dino rtcTime); intros; reflexivity.
  - change (same snake w (resetDodgeGame w)).
    apply (@Frames_resetDodgeGame _ _ snake rtcTime); intros; reflexivity.
Qed.

Lemma runSnakeGame_others (w : World) :
  dino (runSnakeGame w) = dino w /\ dodge (runSnakeGame w) = dodge w.
Proof.
  split.
  - change (same dino w (runSnakeGame w)).
    apply (@Frames_runSnakeGame _ _ dino rtcTime); intros; reflexivity.
  - change (same dodge w (runSnakeGame w)).
    apply (@Frames_runSnakeGame _ _ dodge rtcTime); intros; reflexivity.
Qed.

Lemma resetSnake_others (w : World) :
  dino (resetSnake w) = dino w /\ dodge (resetSnake w) = dodge w.
Proof.
  split.
  - change (same dino w (resetSnake w)).
    apply (@Frames_resetSnake _ _ dino rtcTime); intros; reflexivity.
  - change (same dodge w (resetSnake w)).
    apply (@Frames_resetSnake _ _ dodge rtcTime); intros; reflexivity.
Qed.

Lemma dino_ok_ext (w w' : World) : dino w' = dino w -> dino_ok w -> dino_ok w'.
Proof. unfold dino_ok. intros ->. exact id. Qed.

Lemma dodge_ok_same (w w' : World) :
  dodge w' = dodge w -> dodge_ok w -> dodge_ok w'.
Proof. unfold dodge_ok. intros ->. exact id. Qed.

Lemma snake_ok_ext (w w' : World) :
  snake w' = snake w -> snake_ok w -> snake_ok w'.
Proof.
  unfold snake_ok, snake_wf, snake_segments, body_prefix. intros ->. exact id.
Qed.

Lemma engines_ok_ext (w w' : World) :
  dino w' = dino w -> dodge w' = dodge w -> snake w' = snake w ->
  (currentMode (sketch w') = SNAKE_GAME -> currentMode (sketch w) = SNAKE_GAME) ->
  engines_ok w -> engines_ok w'.
Proof.
  intros Hdi Hdo Hsn Hm (Hdino & Hdodge & Hlen & Hsnake).
  split; [exact (dino_ok_ext _ _ Hdi Hdino)|].
  split; [exact (dodge_ok_same _ _ Hdo Hdodge)|].
  split; [rewrite Hsn; exact Hlen|].
  intros H. apply (snake_ok_ext w); [exact Hsn|]. apply Hsnake, Hm, H.
Qed.

Lemma engines_ok_with_sketch (f : Sketch -> Sketch) (x : World) :
  (forall s, currentMode (f s) = SNAKE_GAME -> currentMode s = SNAKE_GAME) ->
  engines_ok x -> engines_ok (with_sketch f x).
Proof. intros Hf. apply engines_ok_ext; try reflexivity. apply Hf. Qed.

Lemma engines_ok_if (b : bool) (x y : World) :
  engines_ok x -> engines_ok y -> engines_ok (if b then x else y).
Proof. destruct b; intros; assumption. Qed.

#[global] Instance KeepsEngines_with_hw (f : Hw -> Hw) : KeepsEngines (with_hw f).
Proof. intros x. apply engines_ok_ext; auto. Qed.

#[global] Instance KeepsEngines_set_lastLines (l : Lines) :
  KeepsEngines (set_lastLines l).
Proof. intros x. apply engines_ok_ext; auto. Qed.

#[global] Instance KeepsEngines_EEPROM_write (a v : Z) :
  KeepsEngines (EEPROM_write a v).
Proof. intros x. apply engines_ok_ext; auto. Qed.

#[global] Instance KeepsEngines_rtc_adjust (t : DateTime) :
  KeepsEngines (rtc_adjust t).
Proof. intros x. apply engines_ok_ext; auto. Qed.

(** The two flags that the remote control sets for the Dodge engine. *)
#[global] Instance KeepsEngines_move_left (b : bool) :
  KeepsEngines (with_dodge (set_dodgeMoveLeft b)).
Proof.
  intros x (Hdino & Hdodge & Hsnake). split; [exact Hdino|].
  split; [|exact Hsnake]. revert Hdodge. apply dodge_ok_ext; reflexivity.
Qed.

#[global] Instance KeepsEngines_move_right (b : bool) :
  KeepsEngines (with_dodge (set_dodgeMoveRight b)).
Proof.
  intros x (Hdino & Hdodge & Hsnake). split; [exact Hdino|].
  split; [|exact Hsnake]. revert Hdodge. apply dodge_ok_ext; reflexivity.
Qed.

(** Peel the updates off a goal [engines_ok x], outermost first. *)
Ltac engines_step :=
  match goal with
  | H : engines_ok ?x |- engines_ok ?x => exact H
  | |- engines_ok (if _ then _ else _) => apply engines_ok_if
  | |- engines_ok (match ?m with CLOCK => _ | _ => _ end) => destruct m
  | |- engines_ok (match ?m with MENU_DIFFICULTY => _ | _ => _ end) => destruct m
  | |- engines_ok (?f ?x) => apply (@engines_app f _)
  | |- engines_ok (with_sketch _ _) =>
      apply engines_ok_with_sketch;
      [let s := fresh "s" in let H := fresh "H" in
       intros s H; first [discriminate H | exact H]|]
  end.

Ltac engines_tac := cbv zeta; repeat engines_step.

#[global] Instance KeepsEngines_to_clock : KeepsEngines to_clock.
Proof. intros x H. unfold to_clock. engines_tac. Qed.

#[global] Instance KeepsEngines_touch : KeepsEngines touch.
Proof. intros x H. unfold touch. engines_tac. Qed.

#[global] Instance KeepsEngines_menu_step (k : Z) : KeepsEngines (menu_step k).
Proof. intros x H. unfold menu_step. engines_tac. Qed.

#[global] Instance KeepsEngines_selectMenuItem : KeepsEngines selectMenuItem.
Proof. intros x H. unfold selectMenuItem. engines_tac. Qed.

#[global] Instance KeepsEngines_incrementTimeField :
  KeepsEngines incrementTimeField.
Proof. intros x H. unfold incrementTimeField. engines_tac. Qed.

#[global] Instance KeepsEngines_incrementDateField :
  KeepsEngines incrementDateField.
Proof. intros x H. unfold incrementDateField. engines_tac. Qed.

#[global] Instance KeepsEngines_saveTime : KeepsEngines saveTime.
Proof. intros x H. unfold saveTime. engines_tac. Qed.

#[global] Instance KeepsEngines_saveDate : KeepsEngines saveDate.
Proof. intros x H. unfold saveDate. engines_tac. Qed.

#[global] Instance KeepsEngines_next_step : KeepsEngines next_step.
Proof. intros x H. unfold next_step. engines_tac. Qed.

Lemma resetDodgeGame_engines (y : World) :
  currentMode (sketch y) <> SNAKE_GAME ->
  engines_ok y -> engines_ok (resetDodgeGame y).
Proof.
  intros Hm (Hdino & Hdodge & Hlen & _).
  destruct (resetDodgeGame_others y) as [Hdi Hsn].
  split; [revert Hdino; apply dino_ok_ext, Hdi|].
  split; [apply resetDodgeGame_ok, Hdodge|].
  split; [rewrite Hsn; exact Hlen|].
  destruct (keeps_app (f := resetDodgeGame) y y (keeps_refl y)) as [-> _].
  intros H. contradiction.
Qed.

Lemma resetSnake_engines (y : World) :
  dino_ok y -> dodge_ok y ->
  length (snakeBody (snake y)) = Z.to_nat SNAKE_MAX_LENGTH ->
  engines_ok (resetSnake y).
Proof.
  intros Hdino Hdodge Hlen.
  destruct (resetSnake_others y) as [Hdi Hdo].
  pose proof (resetSnake_ok y Hlen) as Hsn.
  split; [revert Hdino; apply dino_ok_ext, Hdi|].
  split; [revert Hdodge; apply dodge_ok_same, Hdo|].
  split; [apply Hsn|]. intros _. exact Hsn.
Qed.

(** A launch starts from the state the engines were left in: the Dino
    launch does not set the kind of the obstacle. *)
#[global] Instance KeepsEngines_launchGame (choice : Z) :
  KeepsEngines (launchGame choice).
Proof.
  intros x H. unfold launchGame. cbv zeta. unfold delay.
  destruct (choice =? 0); [|destruct (choice =? 1)].
  - apply (engines_app (f := with_hw _)).
    do 2 (apply engines_ok_with_sketch; [intros s Hs; exact Hs|]).
    destruct H as (Hdino & Hdodge & Hlen & Hsnake).
    split; [|split; [exact Hdodge|split; [exact Hlen|]]].
    + destruct Hdino as (Hx & Ht & Hs & Hy). unfold dino_ok. cbn.
      unfold OBSTACLE_START_X, MIN_GAME_SPEED, INITIAL_GAME_SPEED.
      auto with lia.
    + intros Hm. discriminate Hm.
  - apply (engines_app (f := with_hw _)).
    apply resetDodgeGame_engines; [discriminate|].
    do 2 (apply engines_ok_with_sketch; [intros s Hs; discriminate Hs || exact Hs|]).
    exact H.
  - apply (engines_app (f := with_hw _)).
    destruct H as (Hdino & Hdodge & Hlen & _).
    apply resetSnake_engines; [exact Hdino|exact Hdodge|exact Hlen].
Qed.

#[global] Instance KeepsEngines_runDinoGame : KeepsEngines runDinoGame.
Proof.
  intros x (Hdino & Hdodge & Hlen & Hsnake).
  destruct (runDinoGame_others x) as [Hdo Hsn].
  split; [apply runDinoGame_ok_pass, Hdino|].
  split; [revert Hdodge; apply dodge_ok_same, Hdo|].
  split; [rewrite Hsn; exact Hlen|].
  rewrite runDinoGame_mode. intros Hm.
  apply (snake_ok_ext x); [exact Hsn|apply Hsnake, Hm].
Qed.

#[global] Instance KeepsEngines_runDodgeGame : KeepsEngines runDodgeGame.
Proof.
  intros x (Hdino & Hdodge & Hlen & Hsnake).
  destruct (runDodgeGame_others x) as [Hdi Hsn].
  split; [revert Hdino; apply dino_ok_ext, Hdi|].
  split; [apply runDodgeGame_ok_pass, Hdodge|].
  split; [rewrite Hsn; exact Hlen|].
  rewrite runDodgeGame_mode. split_if; [discriminate|]. intros Hm.
  apply (snake_ok_ext x); [exact Hsn|apply Hsnake, Hm].
Qed.

(** The Snake engine, run while the Snake game is on. *)
Lemma runSnakeGame_engines (x : World) :
  currentMode (sketch x) = SNAKE_GAME ->
  engines_ok x -> engines_ok (runSnakeGame x).
Proof.
  intros Hm (Hdino & Hdodge & Hlen & Hsnake).
  destruct (runSnakeGame_others x) as [Hdi Hdo].
  pose proof (runSnakeGame_ok_pass x (Hsnake Hm)) as Hok.
  split; [revert Hdino; apply dino_ok_ext, Hdi|].
  split; [revert Hdodge; apply dodge_ok_same, Hdo|].
  split; [apply Hok|]. intros _. exact Hok.
Qed.

#[global] Instance KeepsEngines_launchSelectedGame :
  KeepsEngines launchSelectedGame.
Proof. intros x H. unfold launchSelectedGame. engines_tac. Qed.

#[global] Instance KeepsEngines_handleShortPress : KeepsEngines handleShortPress.
Proof. intros x H. unfold handleShortPress. engines_tac. Qed.

#[global] Instance KeepsEngines_handleMediumHold : KeepsEngines handleMediumHold.
Proof. intros x H. unfold handleMediumHold. engines_tac. Qed.

#[global] Instance KeepsEngines_handleLongPress : KeepsEngines handleLongPress.
Proof. intros x H. unfold handleLongPress. engines_tac. Qed.

#[global] Instance KeepsEngines_handleButton (b : bool) :
  KeepsEngines (handleButton b).
Proof. intros x H. unfold handleButton. engines_tac. Qed.

#[global] Instance KeepsEngines_mode_dispatch (e : Lines) :
  KeepsEngines (mode_dispatch e).
Proof. intros x H. unfold mode_dispatch. engines_tac. Qed.

#[global] Instance KeepsEngines_handleIRInput (pin : Lines) :
  KeepsEngines (handleIRInput pin).
Proof. intros x H. unfold handleIRInput. engines_tac. Qed.

#[global] Instance KeepsEngines_updateClock : KeepsEngines updateClock.
Proof.
  intros x H. destruct (updateClock_spec x) as [-> | [n ->]]; [exact H|].
  unfold rng_advance. engines_tac.
Qed.

#[global] Instance KeepsEngines_runSettingsMenu : KeepsEngines runSettingsMenu.
Proof. intros x H. unfold runSettingsMenu. engines_tac. Qed.

#[global] Instance KeepsEngines_runGameSelectMenu : KeepsEngines runGameSelectMenu.
Proof. intros x H. unfold runGameSelectMenu. engines_tac. Qed.

#[global] Instance KeepsEngines_loop (i : Input) : KeepsEngines (loop i).
Proof.
  intros x H. unfold loop, runTimeSettingMode, runDateSettingMode. cbv zeta.
  set (w0 := with_hw (set_clock (to_ulong (in_millis i))) x).
  assert (engines_ok w0) as H0 by (apply engines_app, H).
  apply (engines_app (f := handleButton (in_button i))) in H0.
  apply (engines_app (f := handleIRInput (in_lines i))) in H0.
  generalize dependent (handleIRInput (in_lines i)
                          (handleButton (in_button i) w0)).
  intros w2 H2.
  destruct (currentMode (sketch w2)) eqn:Hm; try engines_tac.
  apply runSnakeGame_engines; assumption.
Qed.

Lemma power_on_engines (h : Hw) : engines_ok (power_on h).
Proof.
  split; [|split; [|split]].
  - unfold dino_ok. cbn.
    unfold OBSTACLE_START_X, GROUND_OBSTACLE, MIN_GAME_SPEED,
      INITIAL_GAME_SPEED, PLAYER_GROUND_Y. auto with lia.
  - unfold dodge_ok. cbn.
    unfold DODGE_PLAYER_START_X, DODGE_COLS, DODGE_MIN_SPEED,
      DODGE_INITIAL_SPEED.
    split; [lia|]. split; [reflexivity|]. split; [|split; [lia|exists 80; lia]].
    repeat (apply Forall_cons; split; [intros Ha; discriminate Ha|]).
    apply Forall_nil_2.
  - reflexivity.
  - intros Hm. discriminate Hm.
Qed.

#[global] Instance KeepsEngines_dodgeHighScore (v : Z) :
  KeepsEngines (with_dodge (set_dodgeHighScore v)).
Proof.
  intros x (Hdino & Hdodge & Hsnake). split; [exact Hdino|].
  split; [|exact Hsnake]. revert Hdodge. apply dodge_ok_ext; reflexivity.
Qed.

#[global] Instance KeepsEngines_snakeHighScore (v : Z) :
  KeepsEngines (with_snake (set_snakeHighScore v)).
Proof.
  intros x (Hdino & Hdodge & Hlen & Hsnake). split; [exact Hdino|].
  split; [exact Hdodge|]. split; [exact Hlen|]. intros Hm.
  specialize (Hsnake Hm). exact Hsnake.
Qed.

Lemma setup_engines (h : Hw) : engines_ok (setup h).
Proof.
  pose proof (power_on_engines h) as H.
  unfold setup, loadDodgeHighScore, loadSnakeHighScore. engines_tac.
Qed.

(** X20 ([setup], [loop], the three engines, [launchGame]): in every state
    the sketch reaches from [setup], whatever the EEPROM held, whatever the
    inputs and whatever the random source yields, the Dino obstacle is on
    the grid, the Dodge player and every falling block are on the grid, the
    frame intervals are within their limits, and while the Snake game is on
    the snake, of length 1 to 24, and its food are on the grid. *)
Theorem engines_stay_in_order (h : Hw) (inputs : list Input) :
  engines_ok (run inputs (setup h)).
Proof.
  unfold run. generalize (setup_engines h). generalize (setup h).
  induction inputs as [|i inputs IH]; intros w Hw; cbn [foldl]; [exact Hw|].
  apply IH. apply (engines_app (f := loop i)), Hw.
Qed.

(** ** Drawing *)

Lemma dodgeDrawPixel_on_panel (x y : Z) :
  0 <= x < DODGE_COLS -> 0 <= y < DODGE_ROWS -> on_panel (dodgeDrawPixel x y).
Proof.
  unfold on_panel, dodgeDrawPixel, DODGE_COLS, DODGE_ROWS, GRID_WIDTH,
    GRID_HEIGHT. intros Hx Hy.
  repeat split_if; bool_hyps; try lia; wraps; eauto 10 with lia.
Qed.

Lemma snakeDrawPixel_on_panel (x y : Z) :
  0 <= x < SNAKE_COLS -> 0 <= y < SNAKE_ROWS -> on_panel (snakeDrawPixel x y).
Proof. apply dodgeDrawPixel_on_panel. Qed.

(** X21 ([dodgeDrawPixel], [snakeDrawPixel]): a pixel of the 15 by 10 field
    is drawn in the top half of the panel for rows 0 to 4 and in the bottom
    half, five rows up, for rows 5 to 9, by both functions; and no other
    pixel is drawn on the cell it gets. *)
Theorem draw_pixel_routing (x y x' y' : Z) :
  0 <= x < 15 -> 0 <= y < 10 ->
  dodgeDrawPixel x y = Some (x, y mod 5, y <? 5)
  /\ snakeDrawPixel x y = Some (x, y mod 5, y <? 5)
  /\ (dodgeDrawPixel x' y' = dodgeDrawPixel x y -> x' = x /\ y' = y).
Proof.
  intros Hx Hy.
  assert (dodgeDrawPixel x y = Some (x, y mod 5, y <? 5)) as Hspec.
  { unfold dodgeDrawPixel, DODGE_COLS, DODGE_ROWS.
    repeat split_if; bool_hyps; try lia; wraps; repeat f_equal;
      Z.div_mod_to_equations; lia. }
  split; [exact Hspec|]. split; [exact Hspec|].
  rewrite Hspec. unfold dodgeDrawPixel, DODGE_COLS, DODGE_ROWS.
  repeat split_if; bool_hyps; try discriminate; wraps;
    intros [= -> Hmod Hhalf]; (split; [reflexivity|]);
    destruct (Z.ltb_spec y 5); try discriminate;
    Z.div_mod_to_equations; lia.
Qed.

Lemma draw_pixel_routing_witness :
  dodgeDrawPixel 3 7 = Some (3, 2, false)
  /\ snakeDrawPixel 3 7 = Some (3, 2, false)
  /\ (dodgeDrawPixel 3 7 = dodgeDrawPixel 3 7 -> 3 = 3 /\ 7 = 7).
Proof. apply (draw_pixel_routing 3 7 3 7); lia. Defined.

Lemma block_draw_on_panel (b : DodgeBlock) :
  block_ok b ->
  Forall on_panel
    (if negb (Block.active b) then []
     else (fun col => dodgeDrawPixel (to_int (Block.x b + col)) (Block.y b))
            <$> seqZ 0 (Block.width b)).
Proof.
  intros Hb. destruct (Block.active b) eqn:E; cbn [negb]; [|constructor].
  destruct (Hb E) as (Hw & Hx & Hxw & Hy).
  apply Forall_fmap, Forall_forall. intros col Hcol.
  apply elem_of_seqZ in Hcol. cbn [compose].
  unfold DODGE_COLS, DODGE_PLAYER_Y in *.
  rewrite to_int_small by lia.
  apply dodgeDrawPixel_on_panel; unfold DODGE_COLS, DODGE_ROWS; lia.
Qed.

(** X22 ([runDodgeGame], [handleDodgeGameOver], [dodgeDrawPixel]): while the
    state of the game is in order, everything a frame of Dodge draws, the
    two pixels of the player and every column of every falling block, is
    on the panel: nothing is clipped. *)
Theorem dodge_draw_on_panel (w : World) :
  dodge_ok w -> Forall on_panel (dodge_draw w).
Proof.
  intros (Hp & Hlen & Hb & _). unfold dodge_draw.
  destruct (dodgeBlocks (dodge w)) as [|b0 [|b1 [|? ?]]]; try discriminate.
  apply Forall_cons in Hb as [Hb0 Hb]. apply Forall_cons in Hb as [Hb1 _].
  unfold DODGE_COLS, DODGE_PLAYER_Y in *.
  cbn [app seq fmap list_fmap concat lookup list_lookup DODGE_MAX_BLOCKS].
  rewrite app_nil_r.
  repeat apply Forall_cons_2.
  - apply dodgeDrawPixel_on_panel; unfold DODGE_COLS, DODGE_ROWS; lia.
  - apply dodgeDrawPixel_on_panel; unfold DODGE_COLS, DODGE_ROWS; wraps; lia.
  - apply Forall_app; split; apply block_draw_on_panel; assumption.
Qed.

Lemma dodge_draw_on_panel_witness :
  Forall on_panel (dodge_draw (resetDodgeGame equation_world)).
Proof.
  apply (dodge_draw_on_panel (resetDodgeGame equation_world)).
  apply resetDodgeGame_ok. reflexivity.
Defined.

(** X23 ([runSnakeGame], [snakeDrawPixel]): while the state of the snake is
    in order, everything a frame of Snake draws, the food and every segment
    from the tail to the head, is on the panel. *)
Theorem snake_draw_on_panel (w : World) :
  snake_ok w -> Forall on_panel (snake_draw w).
Proof.
  intros ((Hlen & Hn) & Hseg & Hfood & _). unfold snake_draw.
  apply Forall_app; split.
  - destruct (_ =? 0); [|constructor].
    apply Forall_cons_2; [|constructor].
    destruct Hfood as [Hx Hy]. cbn in Hx, Hy.
    apply snakeDrawPixel_on_panel; assumption.
  - apply Forall_fmap, Forall_forall. intros i Hi. cbn [compose].
    apply elem_of_reverse, elem_of_seq in Hi.
    assert (snake_segments w !! i = Some (snakeBody (snake w) !!! i)) as Hl.
    { unfold snake_segments, body_prefix.
      rewrite lookup_take_lt by lia.
      apply list_lookup_lookup_total_lt. unfold SNAKE_MAX_LENGTH in *. lia. }
    destruct (Forall_lookup_1 _ _ _ _ Hseg Hl) as [Hx Hy].
    apply snakeDrawPixel_on_panel; assumption.
Qed.

Lemma snake_draw_on_panel_witness :
  Forall on_panel (snake_draw (resetSnake equation_world)).
Proof.
  apply (snake_draw_on_panel (resetSnake equation_world)).
  apply resetSnake_ok. reflexivity.
Defined.

(** ** Birthdays tab *)

Lemma to_uint8_small (v : Z) : 0 <= v < 256 -> to_uint8 v = v.
Proof. intros H. unfold to_uint8. apply Z.mod_small. lia. Qed.

Lemma name_at_app (pre rest : list Ascii.ascii) :
  name_at (pre ++ rest) (Z.of_nat (length pre)) = hd NUL rest.
Proof.
  unfold name_at. rewrite Nat2Z.id, app_nth2, Nat.sub_diag by lia.
  destruct rest; reflexivity.
Qed.

Lemma next_index (pre : list Ascii.ascii) (c : Ascii.ascii) :
  (length pre < 255)%nat ->
  to_uint8 (Z.of_nat (length pre) + 1) = Z.of_nat (length (pre ++ [c])).
Proof.
  intros H. rewrite length_app. cbn [length].
  rewrite to_uint8_small by lia. lia.
Qed.

Lemma not_NUL (c : Ascii.ascii) : c <> NUL -> Ascii.eqb c NUL = false.
Proof. intros H. apply Ascii.eqb_neq. exact H. Qed.

Ltac walk_step pre c rest Hnul Hlen :=
  rewrite name_at_app; cbn [hd];
  assert (c <> NUL) as Hc
    by (apply Forall_app in Hnul as [_ Hnul];
        apply Forall_cons in Hnul as [Hnul _]; exact Hnul);
  rewrite (not_NUL _ Hc);
  assert (length pre < 255)%nat as Hi
    by (rewrite length_app in Hlen; cbn [length] in Hlen; lia);
  rewrite (next_index pre c Hi).

(** With no terminator among the characters and an index that fits in
    eight bits, the loops walk the characters once. *)
Lemma countNameWords_loop_rest (rest : list Ascii.ascii) :
  forall (pre : list Ascii.ascii) (fuel : nat) (count : Z),
    Forall (fun c => c <> NUL) (pre ++ rest) ->
    (length (pre ++ rest) <= 255)%nat ->
    (length rest < fuel)%nat ->
    countNameWords_loop fuel (pre ++ rest) (Z.of_nat (length pre)) count
    = Some (count_rest rest count).
Proof.
  induction rest as [|c rest IH]; intros pre fuel count Hnul Hlen Hf;
    (destruct fuel as [|fuel]; [cbn in Hf; lia|]);
    cbn [countNameWords_loop count_rest].
  - rewrite name_at_app. reflexivity.
  - walk_step pre c rest Hnul Hlen.
    rewrite (cons_middle c pre rest), app_assoc in *.
    apply IH; [assumption|assumption|cbn in Hf; lia].
Qed.

Lemma getNthNameWord_loop_rest (n : Z) (rest : list Ascii.ascii) :
  forall (pre : list Ascii.ascii) (fuel : nat) (word j : Z)
         (out : list Ascii.ascii),
    Forall (fun c => c <> NUL) (pre ++ rest) ->
    (length (pre ++ rest) <= 255)%nat ->
    (length rest < fuel)%nat ->
    getNthNameWord_loop fuel (pre ++ rest) n (Z.of_nat (length pre)) word j out
    = Some (word_rest rest n word j out).
Proof.
  induction rest as [|c rest IH]; intros pre fuel word j out Hnul Hlen Hf;
    (destruct fuel as [|fuel]; [cbn in Hf; lia|]);
    cbn [getNthNameWord_loop word_rest].
  - rewrite name_at_app. reflexivity.
  - walk_step pre c rest Hnul Hlen.
    rewrite (cons_middle c pre rest), app_assoc in *.
    cbn in Hf.
    repeat split_if; try reflexivity; apply IH; solve [assumption | lia].
Qed.

Lemma name_words_cons (c : Ascii.ascii) (rest : list Ascii.ascii) :
  Ascii.eqb c Ascii.Space = false ->
  exists word words,
    name_words rest = word :: words
    /\ name_words (c :: rest) = (c :: word) :: words.
Proof.
  intros Hc. cbn [name_words]. rewrite Hc.
  assert (name_words rest <> []) as Hne
    by (destruct rest as [|d rest]; cbn; [discriminate|];
        destruct (Ascii.eqb d Ascii.Space); [discriminate|];
        destruct (name_words rest); discriminate).
  destruct (name_words rest) as [|word words]; [contradiction|].
  exists word, words. split; reflexivity.
Qed.

(** [count_rest] counts the spaces. *)
Lemma count_rest_words (rest : list Ascii.ascii) :
  forall count : Z,
    0 <= count < 256 ->
    count_rest rest count
    = (count + Z.of_nat (length (name_words rest)) - 1) mod 256.
Proof.
  induction rest as [|c rest IH]; intros count Hc; cbn [count_rest].
  - cbn. rewrite Z.mod_small by lia. lia.
  - destruct (Ascii.eqb c Ascii.Space) eqn:E.
    + rewrite IH by (unfold to_uint8; apply Z.mod_pos_bound; lia).
      cbn [name_words]. rewrite E. cbn [length]. unfold to_uint8.
      change (2 ^ 8) with 256.
      rewrite <- Z.add_sub_assoc, Z.add_mod_idemp_l by lia.
      f_equal. lia.
    + rewrite IH by exact Hc.
      destruct (name_words_cons c rest E) as (word & words & -> & ->).
      reflexivity.
Qed.

Lemma c_str_app_NUL (p tail : list Ascii.ascii) :
  Forall (fun c => c <> NUL) p -> c_str (p ++ NUL :: tail) = p.
Proof.
  induction 1 as [|c p Hc _ IH]; cbn [app c_str].
  - reflexivity.
  - rewrite (not_NUL _ Hc), IH. reflexivity.
Qed.

Lemma terminate_at (p tail : list Ascii.ascii) :
  Forall (fun c => c <> NUL) p -> tail <> [] ->
  c_str (<[Z.to_nat (Z.of_nat (length p)) := NUL]> (p ++ tail)) = p.
Proof.
  intros Hp Ht. destruct tail as [|x tail]; [contradiction|].
  rewrite Nat2Z.id, insert_app_r_alt, Nat.sub_diag by lia.
  apply c_str_app_NUL. exact Hp.
Qed.

(** Inside the word asked for: [p] is what the buffer holds of it. *)
Lemma word_rest_at (n : Z) (rest : list Ascii.ascii) :
  forall p tail : list Ascii.ascii,
    Forall (fun c => c <> NUL) rest -> Forall (fun c => c <> NUL) p ->
    length (p ++ tail) = 6%nat -> (length p <= 5)%nat ->
    c_str (word_rest rest n n (Z.of_nat (length p)) (p ++ tail))
    = take 5 (p ++ hd [] (name_words rest)).
Proof.
  induction rest as [|c rest IH]; intros p tail Hrest Hp Hlen Hj;
    cbn [word_rest]; rewrite Z.eqb_refl.
  - rewrite terminate_at; [|exact Hp|intros ->; rewrite length_app in Hlen;
                                      cbn in Hlen; lia].
    cbn [name_words hd]. rewrite app_nil_r, take_ge by lia. reflexivity.
  - apply Forall_cons in Hrest as [Hc Hrest].
    destruct (Ascii.eqb c Ascii.Space) eqn:E.
    + rewrite terminate_at; [|exact Hp|intros ->; rewrite length_app in Hlen;
                                        cbn in Hlen; lia].
      cbn [name_words]. rewrite E. cbn [hd].
      rewrite app_nil_r, take_ge by lia. reflexivity.
    + destruct (name_words_cons c rest E) as (word & words & Hw & ->).
      cbn [andb hd]. destruct (Z.ltb_spec (Z.of_nat (length p)) 5) as [Hlt|Hge].
      * destruct tail as [|x tail];
          [rewrite length_app in Hlen; cbn in Hlen; lia|].
        rewrite Nat2Z.id, insert_app_r_alt, Nat.sub_diag by lia.
        cbn [insert list_insert]. rewrite to_uint8_small by lia.
        replace (Z.of_nat (length p) + 1) with (Z.of_nat (length (p ++ [c])))
          by (rewrite length_app; cbn [length]; lia).
        rewrite (cons_middle c p tail), app_assoc.
        rewrite IH.
        -- rewrite Hw. cbn [hd]. rewrite <- app_assoc. reflexivity.
        -- exact Hrest.
        -- apply Forall_app; split; [exact Hp|]. apply Forall_cons_2;
             [exact Hc|constructor].
        -- rewrite <- app_assoc. cbn [app].
           rewrite !length_app in *. cbn [length] in *. lia.
        -- rewrite length_app. cbn [length]. lia.
      * rewrite IH by assumption.
        rewrite !take_app_le by lia. reflexivity.
Qed.

Lemma word_rest_start (n : Z) (rest out : list Ascii.ascii) :
  Forall (fun c => c <> NUL) rest -> length out = 6%nat ->
  c_str (word_rest rest n n 0 out) = take 5 (nth 0 (name_words rest) []).
Proof.
  intros Hrest Hlen.
  etransitivity;
    [exact (word_rest_at n rest [] out Hrest (Forall_nil_2 _) Hlen
              ltac:(cbn; lia))|].
  destruct (name_words rest); reflexivity.
Qed.

(** Before the word asked for: the buffer holds the empty string. *)
Lemma word_rest_before (n : Z) (rest : list Ascii.ascii) :
  forall (word j : Z) (tail : list Ascii.ascii),
    Forall (fun c => c <> NUL) rest ->
    0 <= word < n -> n <= 255 -> length tail = 5%nat ->
    c_str (word_rest rest n word j (NUL :: tail))
    = take 5 (nth (Z.to_nat (n - word)) (name_words rest) []).
Proof.
  induction rest as [|c rest IH]; intros word j tail Hrest Hw Hn Hlen;
    cbn [word_rest];
    (destruct (Z.eqb_spec word n) as [Heq|_]; [lia|]); cbn [andb].
  - cbn [name_words c_str]. rewrite Ascii.eqb_refl.
    destruct (Z.to_nat (n - word)) as [|[|k]] eqn:Ek; [lia| |]; reflexivity.
  - apply Forall_cons in Hrest as [Hc Hrest].
    replace (Z.to_nat (n - word)) with (S (Z.to_nat (n - (word + 1)))) by lia.
    destruct (Ascii.eqb c Ascii.Space) eqn:E.
    + cbn [name_words]. rewrite E. cbn [nth].
      rewrite to_uint8_small by lia.
      destruct (Z.eq_dec (word + 1) n) as [Hnext|Hnext].
      * rewrite Hnext, Z.sub_diag.
        apply word_rest_start; [exact Hrest|cbn; lia].
      * apply IH; try assumption; lia.
    + destruct (name_words_cons c rest E) as (word' & words & Hw' & ->).
      rewrite (IH word j tail) by (assumption || lia).
      replace (Z.to_nat (n - word)) with (S (Z.to_nat (n - (word + 1))))
        by lia.
      rewrite Hw'. reflexivity.
Qed.

Lemma countNameWords_words (fuel : nat) (name : list Ascii.ascii) :
  Forall (fun c => c <> NUL) name ->
  (length name <= 255)%nat -> (length name < fuel)%nat ->
  countNameWords fuel name
  = Some (Z.of_nat (length (name_words name)) mod 256).
Proof.
  intros Hnul Hlen Hf. unfold countNameWords.
  etransitivity; [exact (countNameWords_loop_rest name [] fuel 1 Hnul Hlen Hf)|].
  rewrite count_rest_words by lia. do 2 f_equal. lia.
Qed.

Lemma getNthNameWord_word (fuel : nat) (name : list Ascii.ascii)
    (n : Z) (out : list Ascii.ascii) :
  Forall (fun c => c <> NUL) name ->
  (length name <= 255)%nat -> (length name < fuel)%nat ->
  0 <= n <= 255 -> length out = 6%nat ->
  c_str <$> getNthNameWord fuel name n out
  = Some (take 5 (nth (Z.to_nat n) (name_words name) [])).
Proof.
  intros Hnul Hlen Hf Hn Hout. unfold getNthNameWord.
  destruct out as [|x tail]; [discriminate|]. cbn [insert list_insert].
  etransitivity;
    [exact (f_equal (fmap c_str)
              (getNthNameWord_loop_rest n name [] fuel 0 0 (NUL :: tail)
                 Hnul Hlen Hf))|].
  cbn [fmap option_fmap option_map]. f_equal.
  destruct (Z.eq_dec n 0) as [->|Hpos].
  - apply word_rest_start; [exact Hnul|exact Hout].
  - rewrite (word_rest_before n name 0 0 tail) by (cbn in Hout; auto with lia).
    rewrite Z.sub_0_r. reflexivity.
Qed.

(** X24 ([countNameWords]): for a name of at most 255 characters the count
    returned is the number of its words, the runs of characters between
    its spaces, as eight bits hold it: a name of 255 spaces counts as 0
    words. *)
Theorem countNameWords_counts_words (fuel : nat) (name : list Ascii.ascii) :
  Forall (fun c => c <> NUL) name ->
  (length name <= 255)%nat -> (length name < fuel)%nat ->
  countNameWords fuel name
  = Some (Z.of_nat (length (name_words name)) mod 256).
Proof. apply countNameWords_words. Qed.

Lemma countNameWords_counts_words_witness :
  countNameWords 8 (String.list_ascii_of_string "OPA ZEE") = Some 2
  /\ countNameWords 256 (repeat Ascii.Space 255) = Some 0.
Proof.
  split.
  - apply (countNameWords_counts_words 8 (String.list_ascii_of_string "OPA ZEE"));
      [repeat constructor; discriminate|cbn; lia|cbn; lia].
  - assert (Z.of_nat (length (name_words (repeat Ascii.Space 255))) mod 256
            = 0) as <- by (vm_compute; reflexivity).
    apply (countNameWords_counts_words 256 (repeat Ascii.Space 255));
      [apply Forall_forall; intros c Hc;
       apply list_elem_of_In, repeat_spec in Hc; subst; discriminate
      |rewrite repeat_length; lia|rewrite repeat_length; lia].
Defined.

(** X25 ([getNthNameWord]): for a name of at most 255 characters, the
    string left in the buffer of six characters is the first five
    characters of the word number [n] of the name, counting from 0, and
    the empty string when the name has no such word. *)
Theorem getNthNameWord_takes_word (fuel : nat) (name : list Ascii.ascii)
    (n : Z) (out : list Ascii.ascii) :
  Forall (fun c => c <> NUL) name ->
  (length name <= 255)%nat -> (length name < fuel)%nat ->
  0 <= n <= 255 -> length out = 6%nat ->
  c_str <$> getNthNameWord fuel name n out
  = Some (take 5 (nth (Z.to_nat n) (name_words name) [])).
Proof. apply getNthNameWord_word. Qed.

Lemma getNthNameWord_takes_word_witness :
  c_str <$> getNthNameWord 16 (String.list_ascii_of_string "OPA JOHANNES") 1
              (repeat NUL 6)
  = Some (String.list_ascii_of_string "JOHAN").
Proof.
  apply (getNthNameWord_takes_word 16 (String.list_ascii_of_string "OPA JOHANNES") 1
           (repeat NUL 6));
    [repeat constructor; discriminate|cbn; lia|cbn; lia|lia|reflexivity].
Defined.

Lemma countNameWords_loop_long (name : list Ascii.ascii) :
  Forall (fun c => c <> NUL) name -> (256 <= length name)%nat ->
  forall (fuel : nat) (i count : Z),
    0 <= i < 256 -> countNameWords_loop fuel name i count = None.
Proof.
  intros Hnul Hlen. induction fuel as [|fuel IH]; intros i count Hi;
    cbn [countNameWords_loop]; [reflexivity|].
  rewrite not_NUL
    by (unfold name_at; apply (proj1 (Forall_nth _ NUL name) Hnul); lia).
  apply IH. unfold to_uint8. apply Z.mod_pos_bound. lia.
Qed.

(** X26 ([countNameWords]): on a name of 256 characters or more the index
    of eight bits starts again at 0 before it reaches the terminator, and
    the count never returns. *)
Theorem countNameWords_long_name (fuel : nat) (name : list Ascii.ascii) :
  Forall (fun c => c <> NUL) name -> (256 <= length name)%nat ->
  countNameWords fuel name = None.
Proof.
  intros Hnul Hlen. apply countNameWords_loop_long; [exact Hnul|exact Hlen|lia].
Qed.

Lemma countNameWords_long_name_witness :
  countNameWords 1000 (repeat Ascii.Space 256) = None.
Proof.
  apply (countNameWords_long_name 1000 (repeat Ascii.Space 256));
    [apply Forall_forall; intros c Hc;
     apply list_elem_of_In, repeat_spec in Hc; subst; discriminate
    |rewrite repeat_length; lia].
Defined.


(** ** Birthdays tab: the display *)

Lemma birthday_matches_entries (table : list BirthdayFlash) (now : DateTime)
    (entries : list BirthdayFlash) :
  forall (pre : list BirthdayFlash) (matchIdx : list nat),
    table = pre ++ entries ->
    (table !!!.) <$> birthday_matches entries (length pre) now matchIdx
    = ((table !!!.) <$> matchIdx)
      ++ take (8 - length matchIdx) (List.filter (is_today now) entries).
Proof.
  induction entries as [|b entries IH]; intros pre matchIdx Ht;
    cbn [birthday_matches List.filter].
  - rewrite take_nil, app_nil_r. reflexivity.
  - destruct (Nat.ltb_spec (length matchIdx) 8) as [Hlt|Hge].
    + replace (S (length pre)) with (length (pre ++ [b]))
        by (rewrite length_app; cbn; lia).
      rewrite IH by (rewrite Ht, <- app_assoc; reflexivity).
      destruct (is_today now b).
      * rewrite fmap_app, <- app_assoc, length_app. cbn [fmap list_fmap app length].
        replace (table !!! length pre) with b
          by (rewrite Ht, lookup_total_app_r, Nat.sub_diag by lia;
              reflexivity).
        replace (8 - length matchIdx)%nat
          with (S (8 - (length matchIdx + 1)))%nat by lia.
        reflexivity.
      * reflexivity.
    + replace (8 - length matchIdx)%nat with 0%nat by lia.
      rewrite take_0, app_nil_r. reflexivity.
Qed.

Lemma birthday_script_length (now : DateTime) (b : BirthdayFlash) :
  length (birthday_script now b)
  = S (length (name_words (Flash.name b))).
Proof.
  unfold birthday_script. rewrite length_app, length_fmap. cbn. lia.
Qed.

Lemma countNameWords_small (fuel : nat) (b : BirthdayFlash) :
  name_ok fuel b ->
  Z.of_nat (length (name_words (Flash.name b))) <= 255 ->
  countNameWords fuel (Flash.name b)
  = Some (Z.of_nat (length (name_words (Flash.name b)))).
Proof.
  intros (Hnul & Hlen & Hf) Hw.
  rewrite countNameWords_words by assumption.
  rewrite Z.mod_small by lia. reflexivity.
Qed.

Lemma birthday_total_script (fuel : nat) (table : list BirthdayFlash)
    (now : DateTime) (matchIdx : list nat) :
  forall totalWords : Z,
    Forall (name_ok fuel) ((table !!!.) <$> matchIdx) ->
    0 <= totalWords ->
    totalWords
    + Z.of_nat (length (concat (birthday_script now
                                  <$> ((table !!!.) <$> matchIdx)))) <= 255 ->
    birthday_total fuel table matchIdx totalWords
    = Some (totalWords
            + Z.of_nat (length (concat (birthday_script now
                                          <$> ((table !!!.) <$> matchIdx))))).
Proof.
  induction matchIdx as [|m matchIdx IH]; intros totalWords Hok Hpos Hsum;
    cbn [birthday_total fmap list_fmap concat] in *.
  - cbn. f_equal. lia.
  - apply Forall_cons in Hok as [Hm Hok].
    rewrite length_app, birthday_script_length in *.
    rewrite countNameWords_small by (exact Hm || lia).
    cbn [mbind option_bind]. rewrite to_uint8_small by lia.
    rewrite IH by (exact Hok || lia). f_equal. lia.
Qed.

Lemma birthday_word_script (fuel : nat) (table : list BirthdayFlash)
    (now : DateTime) (wordIdx : Z) (bottomWord : list Ascii.ascii)
    (matchIdx : list nat) :
  forall wordsSoFar : Z,
    Forall (name_ok fuel) ((table !!!.) <$> matchIdx) ->
    length bottomWord = 6%nat ->
    0 <= wordsSoFar <= wordIdx ->
    wordIdx
    < wordsSoFar
      + Z.of_nat (length (concat (birthday_script now
                                    <$> ((table !!!.) <$> matchIdx)))) ->
    wordsSoFar
    + Z.of_nat (length (concat (birthday_script now
                                  <$> ((table !!!.) <$> matchIdx)))) <= 255 ->
    birthday_word fuel table now matchIdx wordIdx wordsSoFar bottomWord
    = Some (nth (Z.to_nat (wordIdx - wordsSoFar))
              (concat (birthday_script now <$> ((table !!!.) <$> matchIdx)))
              []).
Proof.
  induction matchIdx as [|m matchIdx IH]; intros wordsSoFar Hok Hbuf Hidx Hlt Hsum;
    cbn [birthday_word fmap list_fmap concat] in *.
  - cbn in Hlt. lia.
  - apply Forall_cons in Hok as [Hm Hok].
    rewrite length_app, birthday_script_length in *.
    rewrite countNameWords_small by (exact Hm || lia).
    cbn [mbind option_bind]. rewrite to_uint8_small by lia.
    set (words := name_words (Flash.name (table !!! m))) in *.
    destruct (Z.ltb_spec wordIdx (wordsSoFar + (Z.of_nat (length words) + 1)))
      as [Hin|Hout].
    + rewrite to_uint8_small by lia.
      rewrite app_nth1 by (rewrite birthday_script_length; fold words; lia).
      unfold birthday_script. fold words.
      destruct (Z.ltb_spec (wordIdx - wordsSoFar) (Z.of_nat (length words)))
        as [Hname|Hage].
      * destruct Hm as (Hnul & Hlen & Hf).
        rewrite getNthNameWord_word by (assumption || lia).
        rewrite app_nth1 by (rewrite length_fmap; lia).
        f_equal. fold words.
        change (@nil Ascii.ascii) with (take 5 (@nil Ascii.ascii)) at 2.
        symmetry. apply (map_nth (take 5)).
      * rewrite app_nth2 by (rewrite length_fmap; lia).
        rewrite length_fmap.
        replace (Z.to_nat (wordIdx - wordsSoFar) - length words)%nat
          with 0%nat by lia.
        reflexivity.
    + rewrite to_uint8_small by lia.
      rewrite IH by (assumption || lia).
      rewrite app_nth2 by (rewrite birthday_script_length; fold words; lia).
      rewrite birthday_script_length. fold words.
      do 2 f_equal. lia.
Qed.

Lemma bottom_words_pos (table : list BirthdayFlash) (now : DateTime) :
  todays table now <> [] -> (0 < length (bottom_words table now))%nat.
Proof.
  unfold bottom_words. destruct (todays table now) as [|b today];
    [contradiction|]. intros _.
  cbn [fmap list_fmap concat]. rewrite length_app, birthday_script_length.
  lia.
Qed.

Lemma checkAndDisplayBirthdays_cycle (fuel : nat) (table : list BirthdayFlash)
    (now : DateTime) (w : World) :
  (length table <= 255)%nat ->
  todays table now <> [] ->
  Forall (name_ok fuel) (todays table now) ->
  (length (bottom_words table now) <= 255)%nat ->
  let phase :=
    ((millis w / 5000) mod 65536)
    mod (2 * Z.of_nat (length (bottom_words table now))) in
  checkAndDisplayBirthdays fuel table now w
  = Some (Some (if phase mod 2 =? 0 then "HAPPY"%string else "BDAY"%string,
                nth (Z.to_nat (phase / 2)) (bottom_words table now) [])).
Proof.
  intros Htable Htoday Hok Hsum phase. subst phase.
  unfold checkAndDisplayBirthdays.
  rewrite to_uint8_small, Nat2Z.id, firstn_all by lia.
  pose proof (birthday_matches_entries table now table [] [] eq_refl) as Hm.
  cbn [length fmap list_fmap app] in Hm. rewrite Nat.sub_0_r in Hm.
  fold (todays table now) in Hm.
  set (matchIdx := birthday_matches table 0 now []) in *.
  pose proof (bottom_words_pos table now Htoday) as Hpos.
  unfold bottom_words in *. rewrite <- Hm in *.
  destruct (Nat.eqb_spec (length matchIdx) 0) as [Hnone|_].
  { destruct matchIdx; [|discriminate]. cbn in Hpos. lia. }
  rewrite (birthday_total_script fuel table now matchIdx 0) by (assumption || lia).
  cbn [mbind option_bind]. rewrite Z.add_0_l.
  set (total := Z.of_nat (length _)) in *.
  unfold to_uint16. change (2 ^ 16) with 65536.
  rewrite (Z.mod_small (total * 2)) by lia.
  destruct (Z.eqb_spec (total * 2) 0) as [Hz|_]; [lia|].
  replace (total * 2) with (2 * total) by lia.
  set (phase := _ mod (2 * total)).
  assert (0 <= phase < 2 * total) as Hphase
    by (apply Z.mod_pos_bound; lia).
  rewrite to_uint8_small by (Z.div_mod_to_equations; lia).
  rewrite (birthday_word_script fuel table now (phase / 2) (repeat NUL 6)
             matchIdx 0);
    [|exact Hok|reflexivity| | |];
    try (fold total; Z.div_mod_to_equations; lia).
  cbn [mbind option_bind]. rewrite Z.sub_0_r. reflexivity.
Qed.

(** X27 ([checkAndDisplayBirthdays], [countNameWords], [getNthNameWord]):
    on a birthday the top row alternates HAPPY and BDAY and the bottom row
    goes through the words of the name, five characters of each, and then
    the age followed by J, for each of the first eight people of the day
    in turn, one step every five seconds; the table has at most 255
    entries and the words and ages of the day are at most 255. *)
Theorem birthdays_cycle_words (fuel : nat) (table : list BirthdayFlash)
    (now : DateTime) (w : World) :
  (length table <= 255)%nat ->
  todays table now <> [] ->
  Forall (name_ok fuel) (todays table now) ->
  (length (bottom_words table now) <= 255)%nat ->
  let phase :=
    ((millis w / 5000) mod 65536)
    mod (2 * Z.of_nat (length (bottom_words table now))) in
  checkAndDisplayBirthdays fuel table now w
  = Some (Some (if phase mod 2 =? 0 then "HAPPY"%string else "BDAY"%string,
                nth (Z.to_nat (phase / 2)) (bottom_words table now) [])).
Proof. apply checkAndDisplayBirthdays_cycle. Qed.

Lemma birthdays_cycle_words_witness :
  checkAndDisplayBirthdays 8 familyBirthdays (mkDateTime 2026 2 6 9 0 0)
    (with_hw (set_clock 12000) equation_world)
  = Some (Some ("HAPPY"%string, String.list_ascii_of_string "ONE"))
  /\ checkAndDisplayBirthdays 8 familyBirthdays (mkDateTime 2026 2 6 9 0 0)
       (with_hw (set_clock 25000) equation_world)
     = Some (Some ("BDAY"%string, String.list_ascii_of_string "66J")).
Proof.
  split.
  - apply (birthdays_cycle_words 8 familyBirthdays
             (mkDateTime 2026 2 6 9 0 0)
             (with_hw (set_clock 12000) equation_world));
      [cbn; lia|vm_compute; discriminate
      |repeat constructor; try discriminate; cbn; lia|cbn; lia].
  - apply (birthdays_cycle_words 8 familyBirthdays
             (mkDateTime 2026 2 6 9 0 0)
             (with_hw (set_clock 25000) equation_world));
      [cbn; lia|vm_compute; discriminate
      |repeat constructor; try discriminate; cbn; lia|cbn; lia].
Defined.

(** ** Snake: a direction key and the next movement tick, through [loop] *)

Lemma same_game_refl (w : World) : same_game w w.
Proof. repeat split. Qed.

Lemma same_game_with_sketch (f : Sketch -> Sketch) (w x : World) :
  (forall s, game_fields (f s) = game_fields s) ->
  same_game w x -> same_game w (with_sketch f x).
Proof.
  intros Hf (Hs & Hl & Hn & Hh). split; [|split; [|split]].
  - cbn [sketch with_sketch set_sketch]. rewrite Hf. exact Hs.
  - exact Hl.
  - exact Hn.
  - exact Hh.
Qed.

Lemma same_game_if (b : bool) (w x y : World) :
  same_game w x -> same_game w y -> same_game w (if b then x else y).
Proof. destruct b; intros; assumption. Qed.

Lemma same_game_mode (w x : World) :
  same_game w x -> currentMode (sketch x) = currentMode (sketch w).
Proof. intros (Hs & _). injection Hs as Hm _ _. exact Hm. Qed.

Ltac game_sketch :=
  apply same_game_with_sketch; [intros; reflexivity|].

(** While the Snake game is on the push button changes nothing that the
    game or the remote control read. *)
Lemma handleButton_in_game (b : bool) (w : World) :
  currentMode (sketch w) = SNAKE_GAME -> same_game w (handleButton b w).
Proof.
  intros Hm.
  assert (forall x, same_game w x -> same_game w (handleMediumHold x)) as Hmed.
  { intros x Hx. unfold handleMediumHold.
    rewrite (same_game_mode w x Hx), Hm. exact Hx. }
  assert (forall x, same_game w x -> same_game w (handleShortPress x)) as Hshort.
  { intros x Hx. unfold handleShortPress, touch. cbv zeta.
    assert (same_game w (with_sketch (set_lastActivity (millis x)) x)) as Hy
      by (game_sketch; exact Hx).
    rewrite (same_game_mode w _ Hy), Hm. exact Hy. }
  unfold handleButton. cbv zeta.
  match goal with
  | |- same_game w (if btnActive (sketch ?x1) && negb b
                    then _ else _) =>
      assert (same_game w x1) as H2
  end.
  { match goal with
    | |- same_game w (if btnActive (sketch ?x0) && b then _ else _) =>
        assert (same_game w x0) as H1
    end.
    { apply same_game_if; [|apply same_game_refl].
      do 3 game_sketch. apply same_game_refl. }
    apply same_game_if; [|exact H1].
    apply same_game_if; [|exact H1].
    apply Hmed. game_sketch. exact H1. }
  apply same_game_if; [|exact H2].
  match goal with
  | |- same_game w (if _ then (if _ && editing (currentMode (sketch ?x3))
                               then _ else _) else _) =>
      assert (same_game w x3) as H3 by (game_sketch; exact H2)
  end.
  rewrite (same_game_mode w _ H3), Hm. cbn [editing]. rewrite andb_false_r.
  apply same_game_if; [exact H3|].
  apply same_game_if; [apply Hshort, H3|exact H3].
Qed.

(** The remote control while the Snake game is on, RETURN apart: a key
    that goes down stamps the activity timers, and a direction key that
    goes down raises its flag. *)
Lemma handleIRInput_in_game (pin : Lines) (w : World) :
  currentMode (sketch w) = SNAKE_GAME ->
  lnReturn (edges pin (lastLines w)) = false ->
  let e := edges pin (lastLines w) in
  let x := handleIRInput pin w in
  currentMode (sketch x) = SNAKE_GAME
  /\ (snakeTurnUp (sketch x) = lnUp e || snakeTurnUp (sketch w)
      /\ snakeTurnDown (sketch x) = lnDown e || snakeTurnDown (sketch w)
      /\ snakeTurnLeft (sketch x) = lnLeft e || snakeTurnLeft (sketch w)
      /\ snakeTurnRight (sketch x) = lnRight e || snakeTurnRight (sketch w))
  /\ lastGameIRActivity (sketch x)
     = (if any_line pin then millis w else lastGameIRActivity (sketch w))
  /\ lastLines x = pin /\ snake x = snake w /\ hw x = hw w.
Proof.
  intros Hm Hret. cbv zeta. unfold handleIRInput. cbv zeta.
  set (e := edges pin (lastLines w)) in *.
  set (w1 := if any_line pin then _ else w).
  assert (currentMode (sketch w1) = SNAKE_GAME
          /\ lastGameIRActivity (sketch w1)
             = (if any_line pin then millis w else lastGameIRActivity (sketch w))
          /\ snakeTurnUp (sketch w1) = snakeTurnUp (sketch w)
          /\ snakeTurnDown (sketch w1) = snakeTurnDown (sketch w)
          /\ snakeTurnLeft (sketch w1) = snakeTurnLeft (sketch w)
          /\ snakeTurnRight (sketch w1) = snakeTurnRight (sketch w)
          /\ snake w1 = snake w /\ hw w1 = hw w) as (Hm1 & Ha & Hu & Hd & Hl & Hr & Hs & Hh).
  { subst w1. destruct (any_line pin); repeat split; assumption || reflexivity. }
  clearbody w1. rewrite <- Ha, <- Hu, <- Hd, <- Hl, <- Hr, <- Hs, <- Hh.
  clear Ha Hu Hd Hl Hr Hs Hh.
  unfold mode_dispatch. rewrite Hm1, Hret.
  destruct (lnUp e), (lnDown e), (lnLeft e), (lnRight e);
    cbn [orb]; repeat split; assumption || reflexivity.
Qed.

Lemma set_snakePendingDir_twice (a b : Z) (s : Snake) :
  set_snakePendingDir a (set_snakePendingDir b s) = set_snakePendingDir a s.
Proof. reflexivity. Qed.

Lemma set_snakePendingDir_same (s : Snake) :
  set_snakePendingDir (snakePendingDir s) s = s.
Proof. destruct s. reflexivity. Qed.

(** One of the four tests of "Apply buffered direction input". *)
Lemma buffer_stage (c : bool) (d : Z) (x0 x : World) (p : Z) :
  sketch x = sketch x0 /\ lastLines x = lastLines x0 /\ hw x = hw x0
  /\ snake x = set_snakePendingDir p (snake x0) ->
  let y := if c then with_snake (set_snakePendingDir d) x else x in
  sketch y = sketch x0 /\ lastLines y = lastLines x0 /\ hw y = hw x0
  /\ snake y = set_snakePendingDir (if c then d else p) (snake x0).
Proof.
  intros (Hs & Hl & Hh & Hn). destruct c; cbv zeta.
  - repeat match goal with |- _ /\ _ => split end; try assumption.
    cbn [snake with_snake set_snake]. rewrite Hn. reflexivity.
  - repeat match goal with |- _ /\ _ => split end; assumption.
Qed.

(** "Apply buffered direction input" changes the staged heading and
    clears the flags. *)
Lemma snake_buffer_input_view (x : World) :
  let y := snake_buffer_input x in
  currentMode (sketch y) = currentMode (sketch x)
  /\ flags_clear y
  /\ lastGameIRActivity (sketch y) = lastGameIRActivity (sketch x)
  /\ lastLines y = lastLines x /\ hw y = hw x
  /\ snake y
     = set_snakePendingDir
         (staged_dir (snakeTurnUp (sketch x)) (snakeTurnDown (sketch x))
            (snakeTurnLeft (sketch x)) (snakeTurnRight (sketch x))
            (snakeDir (snake x)) (snakePendingDir (snake x)))
         (snake x).
Proof.
  unfold snake_buffer_input, staged_dir. cbv zeta.
  assert (sketch x = sketch x /\ lastLines x = lastLines x /\ hw x = hw x
          /\ snake x = set_snakePendingDir (snakePendingDir (snake x)) (snake x))
    as H0 by (rewrite set_snakePendingDir_same; repeat split).
  pose proof (buffer_stage
                (snakeTurnUp (sketch x) && negb (snakeDir (snake x) =? DIR_DOWN))
                DIR_UP x x _ H0) as H1.
  cbv zeta in H1.
  set (w1 := if snakeTurnUp (sketch x) && _ then _ else x) in *.
  assert (snakeTurnDown (sketch w1) && negb (snakeDir (snake w1) =? DIR_UP)
          = snakeTurnDown (sketch x) && negb (snakeDir (snake x) =? DIR_UP))
    as ->
    by (destruct H1 as (-> & _ & _ & ->); reflexivity).
  pose proof (buffer_stage
                (snakeTurnDown (sketch x) && negb (snakeDir (snake x) =? DIR_UP))
                DIR_DOWN x w1 _ H1) as H2.
  cbv zeta in H2. clearbody w1.
  set (w2 := if snakeTurnDown (sketch x) && _ then _ else w1) in *.
  assert (snakeTurnLeft (sketch w2) && negb (snakeDir (snake w2) =? DIR_RIGHT)
          = snakeTurnLeft (sketch x) && negb (snakeDir (snake x) =? DIR_RIGHT))
    as ->
    by (destruct H2 as (-> & _ & _ & ->); reflexivity).
  pose proof (buffer_stage
                (snakeTurnLeft (sketch x) && negb (snakeDir (snake x) =? DIR_RIGHT))
                DIR_LEFT x w2 _ H2) as H3.
  cbv zeta in H3. clearbody w2.
  set (w3 := if snakeTurnLeft (sketch x) && _ then _ else w2) in *.
  assert (snakeTurnRight (sketch w3) && negb (snakeDir (snake w3) =? DIR_LEFT)
          = snakeTurnRight (sketch x) && negb (snakeDir (snake x) =? DIR_LEFT))
    as ->
    by (destruct H3 as (-> & _ & _ & ->); reflexivity).
  pose proof (buffer_stage
                (snakeTurnRight (sketch x) && negb (snakeDir (snake x) =? DIR_LEFT))
                DIR_RIGHT x w3 _ H3) as H4.
  cbv zeta in H4. clearbody w3.
  set (w4 := if snakeTurnRight (sketch x) && _ then _ else w3) in *.
  clearbody w4. destruct H4 as (Hs & Hl & Hh & Hn).
  unfold clear_turn_flags, flags_clear. cbv zeta.
  cbn [sketch with_sketch set_sketch lastLines hw snake].
  rewrite Hs, Hl, Hh, Hn.
  repeat match goal with |- _ /\ _ => split end; reflexivity.
Qed.

Lemma staged_dir_none (dir pend : Z) :
  staged_dir false false false false dir pend = pend.
Proof. reflexivity. Qed.

Lemma staged_dir_key (d dir pend : Z) :
  0 <= d <= 3 -> 0 <= dir <= 3 ->
  staged_dir (lnUp (turn_edge d)) (lnDown (turn_edge d))
    (lnLeft (turn_edge d)) (lnRight (turn_edge d)) dir pend
  = if d =? opposite dir then pend else d.
Proof.
  intros Hd Hdir.
  assert (d = 0 \/ d = 1 \/ d = 2 \/ d = 3) as Hd' by lia.
  assert (dir = 0 \/ dir = 1 \/ dir = 2 \/ dir = 3) as Hdir' by lia.
  destruct Hd' as [-> | [-> | [-> | ->]]];
    destruct Hdir' as [-> | [-> | [-> | ->]]]; reflexivity.
Qed.

Lemma turn_edge_cases (d : Z) :
  turn_edge d = line_up \/ turn_edge d = line_down
  \/ turn_edge d = line_left \/ turn_edge d = line_right.
Proof. unfold turn_edge. repeat split_if; auto. Qed.

(** The edges raised when no key but one direction key is ever down. *)
Lemma one_key_edges (d : Z) (pin last : Lines) :
  pin = no_lines \/ pin = turn_edge d ->
  last = no_lines \/ last = turn_edge d ->
  (edges pin last = no_lines \/ edges pin last = turn_edge d)
  /\ (any_line (edges pin last) = true -> edges pin last = turn_edge d)
  /\ (any_line (edges pin last) = false -> edges pin last = no_lines)
  /\ (pin = turn_edge d -> last = no_lines -> any_line (edges pin last) = true)
  /\ (pin = no_lines -> any_line (edges pin last) = false)
  /\ (any_line pin = true -> pin = turn_edge d).
Proof.
  intros [-> | ->] [-> | ->];
    destruct (turn_edge_cases d) as [-> | [-> | [-> | ->]]]; cbn;
    repeat match goal with |- _ /\ _ => split end;
    auto; intros; discriminate.
Qed.

Lemma to_ulong_small (v : Z) : 0 <= v < 2 ^ 32 -> to_ulong v = v.
Proof. intros H. unfold to_ulong. apply Z.mod_small. exact H. Qed.

(** A pass through [loop] while the game waits: up to the movement tick. *)
Lemma loop_in_game (d : Z) (w0 : World) (pend tlast : Z) (i : Input)
    (w : World) :
  0 <= d <= 3 -> 0 <= snakeDir (snake w0) <= 3 ->
  snake_waiting d w0 pend tlast w ->
  in_lines i = no_lines \/ in_lines i = turn_edge d ->
  0 <= in_millis i < 2 ^ 32 -> tlast <= in_millis i ->
  in_millis i <= lastGameIRActivity (sketch w0) + SNAKE_TIMEOUT_MS ->
  exists y,
    loop i w = (if snake_move_due y then snake_move y else y)
    /\ millis y = in_millis i
    /\ lastLines y = in_lines i
    /\ snake_waiting d w0
         (staged_after d (snakeDir (snake w0)) pend (in_lines i) (lastLines w))
         (in_millis i) y.
Proof.
  intros Hd Hh (Hm & (Hfu & Hfd & Hfl & Hfr) & Hll & Ha & Ht & Hs) Hpin Htime
    Hlast Hout.
  destruct i as [t pin b]. cbn [in_millis in_lines in_button] in *.
  unfold loop. cbn [in_millis in_lines in_button]. cbv zeta.
  set (wc := with_hw (set_clock (to_ulong t)) w).
  assert (millis wc = t) as Hclock
    by (unfold wc, millis; cbn; apply to_ulong_small; lia).
  destruct (handleButton_in_game b wc Hm) as (Hg1 & Hl1 & Hs1 & Hh1).
  set (x1 := handleButton b wc) in *.
  injection Hg1 as Hm1 Hu1 Hd1 Hle1 Hr1 Ha1.
  change (sketch wc) with (sketch w) in *.
  change (lastLines wc) with (lastLines w) in Hl1.
  change (snake wc) with (snake w) in Hs1.
  destruct (one_key_edges d pin (lastLines w) Hpin Hll)
    as (Hcases & Hsome & Hnone & Hpress & Hidle & Hany).
  assert (lnReturn (edges pin (lastLines x1)) = false) as Hret.
  { rewrite Hl1. destruct Hcases as [-> | ->]; [reflexivity|].
    destruct (turn_edge_cases d) as [-> | [-> | [-> | ->]]]; reflexivity. }
  assert (currentMode (sketch x1) = SNAKE_GAME) as Hm1' by congruence.
  destruct (handleIRInput_in_game pin x1 Hm1' Hret)
    as (Hm2 & (Hu2 & Hd2 & Hle2 & Hr2) & Ha2 & Hl2 & Hs2 & Hh2).
  cbv zeta in *. set (x2 := handleIRInput pin x1) in *.
  rewrite Hm2. unfold runSnakeGame.
  assert (millis x2 = t) as Hclock2
    by (unfold millis; rewrite Hh2, Hh1; exact Hclock).
  assert (lastGameIRActivity (sketch w0) <= lastGameIRActivity (sketch x2) <= t)
    as Ha2'.
  { rewrite Ha2. destruct (any_line pin).
    - unfold millis. rewrite Hh1. fold (millis wc). rewrite Hclock. lia.
    - rewrite Ha1. lia. }
  assert ((elapsed (lastGameIRActivity (sketch x2)) x2 >? SNAKE_TIMEOUT_MS)
          = false) as ->.
  { unfold elapsed, SNAKE_TIMEOUT_MS in *. rewrite Hclock2.
    rewrite to_ulong_small by lia. lia. }
  cbv zeta.
  destruct (snake_buffer_input_view x2) as (Hm3 & Hf3 & Ha3 & Hl3 & Hh3 & Hs3).
  cbv zeta in *. set (y := snake_buffer_input x2) in *.
  exists y. split; [reflexivity|].
  split; [unfold millis; rewrite Hh3; exact Hclock2|].
  split; [rewrite Hl3; exact Hl2|].
  split; [congruence|]. split; [exact Hf3|].
  split; [rewrite Hl3, Hl2; exact Hpin|].
  split; [rewrite Ha3; exact Ha2'|].
  split; [rewrite Hh3, Hh2, Hh1; exact Ht|].
  rewrite Hs3, Hs2, Hs1, Hs, Hu2, Hd2, Hle2, Hr2, Hu1, Hd1, Hle1, Hr1,
    Hfu, Hfd, Hfl, Hfr, Hl1, !orb_false_r.
  cbn [snakeDir snakePendingDir set_snakePendingDir].
  rewrite set_snakePendingDir_twice. f_equal.
  unfold staged_after.
  destruct (any_line (edges pin (lastLines w))) eqn:E.
  - rewrite (Hsome eq_refl). apply staged_dir_key; assumption.
  - rewrite (Hnone eq_refl). reflexivity.
Qed.

Lemma snake_head_in_grid (w : World) :
  snake_ok w -> in_grid (snakeBody (snake w) !!! 0%nat).
Proof.
  intros ((Hlen & Hn) & Hseg & _).
  assert (snake_segments w !! 0%nat = Some (snakeBody (snake w) !!! 0%nat))
    as Hl.
  { unfold snake_segments, body_prefix. rewrite lookup_take_lt by lia.
    apply list_lookup_lookup_total_lt. unfold SNAKE_MAX_LENGTH in *. lia. }
  exact (Forall_lookup_1 _ _ _ _ Hseg Hl).
Qed.

Lemma snake_new_head_ahead (e : Z) (y : World) :
  0 <= e <= 3 -> in_grid (snakeBody (snake y) !!! 0%nat) ->
  snakeDir (snake y) = e ->
  snake_new_head y = ahead e (snakeBody (snake y) !!! 0%nat).
Proof.
  intros He [Hx Hy] Hdir. unfold snake_new_head, ahead. cbv zeta.
  rewrite Hdir. unfold SNAKE_COLS, SNAKE_ROWS, DIR_UP, DIR_DOWN, DIR_LEFT,
    DIR_RIGHT in *.
  assert (e = 0 \/ e = 1 \/ e = 2 \/ e = 3) as [-> | [-> | [-> | ->]]] by lia;
    cbn [Z.eqb Pos.eqb]; wraps; reflexivity.
Qed.

(** The movement tick taken with the heading [e] staged. *)
Lemma snake_move_heading (w0 y : World) (e : Z) :
  snake_ok w0 -> 0 <= e <= 3 ->
  snake y = set_snakePendingDir e (snake w0) ->
  forall nx ny : Z,
    ahead e (snakeBody (snake w0) !!! 0%nat) = (nx, ny) ->
    if snake_hits_wall nx ny || snake_hits_self nx ny w0
    then trace (hw (snake_move y)) = SnakeDeath :: trace (hw y)
    else snakeDir (snake (snake_move y)) = e
         /\ snake_segments (snake_move y)
            = Segment.mk nx ny
                :: body_prefix
                     (if (nx =? foodX (snake w0)) && (ny =? foodY (snake w0))
                         && (snakeLength (snake w0) <? SNAKE_MAX_LENGTH)
                      then snakeLength (snake w0)
                      else snakeLength (snake w0) - 1) w0.
Proof.
  intros Hok He Hs nx ny Hhead. unfold snake_move. cbv zeta.
  set (y1 := snake_turn (with_snake (set_snakeMoveTimer (millis y)) y)).
  assert (snake y1
          = set_snakeDir e
              (set_snakeMoveTimer (millis y)
                 (set_snakePendingDir e (snake w0)))) as Hs1
    by (unfold y1, snake_turn; cbn [snake with_snake set_snake]; rewrite Hs;
        reflexivity).
  assert (hw y1 = hw y) as Hh1 by reflexivity.
  clearbody y1.
  assert (snakeBody (snake y1) = snakeBody (snake w0)) as Hbody
    by (rewrite Hs1; reflexivity).
  assert (snakeLength (snake y1) = snakeLength (snake w0)) as Hlen
    by (rewrite Hs1; reflexivity).
  assert (foodX (snake y1) = foodX (snake w0)) as Hfx
    by (rewrite Hs1; reflexivity).
  assert (foodY (snake y1) = foodY (snake w0)) as Hfy
    by (rewrite Hs1; reflexivity).
  assert (snakeDir (snake y1) = e) as Hdir by (rewrite Hs1; reflexivity).
  assert (forall n, body_prefix n y1 = body_prefix n w0) as Hpre
    by (intros n; unfold body_prefix; rewrite Hbody; reflexivity).
  pose proof (snake_head_in_grid w0 Hok) as Hgrid.
  rewrite (snake_new_head_ahead e y1 He) by (rewrite ?Hbody; assumption).
  rewrite Hbody, Hhead.
  assert (snake_hits_self nx ny y1 = snake_hits_self nx ny w0) as Hself
    by (unfold snake_hits_self; rewrite Hlen, Hpre; reflexivity).
  rewrite Hself.
  destruct (snake_hits_wall nx ny); cbn [orb].
  { rewrite handleSnakeDeath_trace, Hh1. reflexivity. }
  destruct (snake_hits_self nx ny w0).
  { rewrite handleSnakeDeath_trace, Hh1. reflexivity. }
  destruct Hok as (Hwf & Hseg & Hfood & Hd & Hp & Hspeed).
  assert (snake_wf y1) as Hwf1
    by (unfold snake_wf; rewrite Hbody, Hlen; exact Hwf).
  destruct (snake_step_segments nx ny y1 Hwf1) as [Hsegs _].
  cbv zeta in Hsegs. rewrite Hfx, Hfy, Hlen, Hpre in Hsegs.
  split; [|exact Hsegs].
  destruct (snake_step_fields nx ny y1) as (_ & Hdir' & _).
  - rewrite Hfx, Hfy. exact Hfood.
  - rewrite Hs1. exact Hspeed.
  - rewrite Hdir'. exact Hdir.
Qed.

Lemma snake_waiting_later (d : Z) (w0 : World) (pend tlast bound : Z)
    (w : World) :
  tlast <= bound ->
  snake_waiting d w0 pend tlast w -> snake_waiting d w0 pend bound w.
Proof.
  intros Hb (Hm & Hf & Hl & Ha & Ht & Hs).
  split; [exact Hm|]. split; [exact Hf|]. split; [exact Hl|].
  split; [lia|]. split; assumption.
Qed.

Lemma snake_move_due_waiting (d : Z) (w0 : World) (pend tlast : Z)
    (y : World) :
  SNAKE_MIN_SPEED <= snakeSpeed (snake w0) <= SNAKE_INITIAL_SPEED ->
  snake_waiting d w0 pend tlast y ->
  0 <= millis y < 2 ^ 32 -> 0 <= snakeMoveTimer (snake w0) <= millis y ->
  snake_move_due y
  = (snakeMoveTimer (snake w0) + snakeSpeed (snake w0) <=? millis y).
Proof.
  unfold SNAKE_MIN_SPEED, SNAKE_INITIAL_SPEED.
  intros Hspeed (_ & _ & _ & _ & _ & Hs) Hc Ht.
  unfold snake_move_due, elapsed. rewrite Hs.
  cbn [snakeMoveTimer snakeSpeed set_snakePendingDir].
  rewrite !to_ulong_small by lia. rewrite Z.geb_leb.
  destruct (Z.leb_spec (snakeMoveTimer (snake w0) + snakeSpeed (snake w0))
              (millis y)); [apply Z.leb_le|apply Z.leb_gt]; lia.
Qed.

(** A pass before the tick leaves the game waiting. *)
Lemma loop_before_tick (d : Z) (w0 : World) (pend tlast : Z) (i : Input)
    (w : World) :
  0 <= d <= 3 -> snake_ok w0 ->
  snake_waiting d w0 pend tlast w ->
  in_lines i = no_lines \/ in_lines i = turn_edge d ->
  before_tick w0 i -> tlast <= in_millis i ->
  lastLines (loop i w) = in_lines i
  /\ snake_waiting d w0
       (staged_after d (snakeDir (snake w0)) pend (in_lines i) (lastLines w))
       (in_millis i) (loop i w).
Proof.
  intros Hd Hok Hw Hpin ((Ht & Ha & Htimer) & Hearly) Hlast.
  pose proof Hok as (_ & _ & _ & Hh & _ & Hspeed).
  unfold DIR_UP, DIR_LEFT in Hh.
  destruct (loop_in_game d w0 pend tlast i w Hd Hh Hw Hpin Ht Hlast (proj2 Ha))
    as (y & -> & Hc & Hl & Hy).
  rewrite (snake_move_due_waiting d w0 _ _ y Hspeed Hy) by (rewrite Hc; lia).
  rewrite Hc. destruct (Z.leb_spec (snakeMoveTimer (snake w0)
                                    + snakeSpeed (snake w0)) (in_millis i));
    [lia|]. split; assumption.
Qed.

(** Passes before the tick during which the heading staged stays [pend]. *)
Lemma run_before_tick (d : Z) (w0 : World) (pend bound : Z)
    (l : list Input) :
  0 <= d <= 3 -> snake_ok w0 ->
  forall (tlast : Z) (w : World),
    snake_waiting d w0 pend tlast w ->
    Forall (fun i =>
              (in_lines i = no_lines \/ in_lines i = turn_edge d)
              /\ forall last,
                   staged_after d (snakeDir (snake w0)) pend (in_lines i) last
                   = pend) l ->
    Forall (before_tick w0) l ->
    StronglySorted Z.le (in_millis <$> l) ->
    Forall (fun i => tlast <= in_millis i <= bound) l ->
    tlast <= bound ->
    snake_waiting d w0 pend bound (run l w)
    /\ (lastLines w = no_lines ->
        Forall (fun i => in_lines i = no_lines) l ->
        lastLines (run l w) = no_lines).
Proof.
  intros Hd Hok. unfold run.
  induction l as [|i l IH]; intros tlast w Hw Hpin Htime Hsort Hb Hbound;
    cbn [foldl].
  - split; [exact (snake_waiting_later _ _ _ _ _ _ Hbound Hw)|auto].
  - apply Forall_cons in Hpin as [[Hi Hstay] Hpin].
    apply Forall_cons in Htime as [Hti Htime].
    apply Forall_cons in Hb as [Hbi Hb].
    cbn [fmap list_fmap] in Hsort. apply StronglySorted_inv in Hsort as [Hsort Hle].
    destruct (loop_before_tick d w0 pend tlast i w Hd Hok Hw Hi Hti (proj1 Hbi))
      as [Hl Hw'].
    rewrite Hstay in Hw'.
    destruct (IH (in_millis i) (loop i w) Hw' Hpin Htime Hsort) as [H1 H2].
    + apply Forall_forall. intros j Hj. split.
      * rewrite Forall_forall in Hle. apply Hle.
        apply list_elem_of_fmap. exists j. split; [reflexivity|exact Hj].
      * rewrite Forall_forall in Hb. apply Hb, Hj.
    + lia.
    + split; [exact H1|]. intros Hno Hall.
      apply Forall_cons in Hall as [Hi0 Hall].
      apply H2; [rewrite Hl; exact Hi0|exact Hall].
Qed.

Lemma run_app (l k : list Input) (w : World) :
  run (l ++ k) w = run k (run l w).
Proof. unfold run. apply foldl_app. Qed.

Lemma staged_after_settled (d h : Z) (pin last : Lines) :
  staged_after d h (if d =? opposite h then h else d) pin last
  = (if d =? opposite h then h else d).
Proof. unfold staged_after. repeat split_if; reflexivity. Qed.

Lemma staged_after_idle (d h pend : Z) (last : Lines) :
  staged_after d h pend no_lines last = pend.
Proof. reflexivity. Qed.

(** The whole of it: the game waits in [w] with the heading [h]; no key
    is down.  The passes [before] see no key; the pass [press] sees the
    direction key for [d] go down; the passes [after] and the pass [tick]
    see that key or none.  The movement tick comes with [tick]. *)
Lemma snake_heading_through_loop (w : World) (h d : Z)
    (before after : list Input) (press tick : Input) (nx ny : Z) :
  currentMode (sketch w) = SNAKE_GAME -> snake_ok w ->
  flags_clear w -> lastLines w = no_lines ->
  snakeDir (snake w) = h -> snakePendingDir (snake w) = h ->
  0 <= d <= 3 ->
  Forall (fun i => in_lines i = no_lines) before ->
  in_lines press = turn_edge d ->
  Forall (fun i => in_lines i = no_lines \/ in_lines i = turn_edge d)
    (after ++ [tick]) ->
  Forall (before_tick w) (before ++ press :: after) -> at_tick w tick ->
  StronglySorted Z.le (in_millis <$> (before ++ press :: after ++ [tick])) ->
  ahead (if d =? opposite h then h else d) (snakeBody (snake w) !!! 0%nat)
  = (nx, ny) ->
  let w' := run (before ++ press :: after ++ [tick]) w in
  if snake_hits_wall nx ny || snake_hits_self nx ny w
  then trace (hw w') = SnakeDeath :: trace (hw w)
  else snakeDir (snake w') = (if d =? opposite h then h else d)
       /\ snake_segments w'
          = Segment.mk nx ny
              :: body_prefix
                   (if (nx =? foodX (snake w)) && (ny =? foodY (snake w))
                       && (snakeLength (snake w) <? SNAKE_MAX_LENGTH)
                    then snakeLength (snake w)
                    else snakeLength (snake w) - 1) w.
Proof.
  intros Hm Hok Hf Hll Hdir Hpend Hd Hbefore Hpress Hafter Htimes Htick Hsort
    Hhead w'.
  pose proof Hok as (_ & _ & _ & Hh & _ & Hspeed).
  rewrite Hdir in Hh. unfold DIR_UP, DIR_LEFT in Hh.
  set (e := if d =? opposite h then h else d) in *.
  assert (0 <= e <= 3) as He by (unfold e; split_if; lia).
  (* the times *)
  apply Forall_app in Htimes as [Htb Htimes].
  apply Forall_cons in Htimes as [Htp Hta].
  apply Forall_app in Hafter as [Hla Hlt].
  apply Forall_cons in Hlt as [Hlt _].
  rewrite fmap_app in Hsort. cbn [fmap list_fmap] in Hsort.
  apply StronglySorted_app in Hsort as (Hbp & Hsb & Hsort).
  apply StronglySorted_cons in Hsort as [Hpa Hsort].
  change (list_fmap Input Z in_millis (after ++ [tick]))
    with (in_millis <$> (after ++ [tick])) in *.
  rewrite fmap_app in Hsort, Hpa.
  apply StronglySorted_app in Hsort as (Hat & Hsa & _).
  apply Forall_app in Hpa as [Hpa Hpt].
  cbn [fmap list_fmap] in Hpt. apply Forall_cons in Hpt as [Hpt _].
  (* the passes before the key *)
  assert (snake_waiting d w h (lastGameIRActivity (sketch w)) w) as H0.
  { split; [exact Hm|]. split; [exact Hf|]. split; [left; exact Hll|].
    split; [lia|]. split; [reflexivity|].
    rewrite <- Hpend. symmetry. apply set_snakePendingDir_same. }
  destruct (run_before_tick d w h (in_millis press) before Hd Hok
              (lastGameIRActivity (sketch w)) w H0) as [H1 Hl1].
  { eapply Forall_impl; [exact Hbefore|]. intros i Hi. cbv beta in Hi.
    split; [left; exact Hi|]. intros last. rewrite Hi.
    apply staged_after_idle. }
  { exact Htb. }
  { exact Hsb. }
  { apply Forall_forall. intros i Hi. split.
    - rewrite Forall_forall in Htb. apply (Htb i Hi).
    - apply Hbp; [apply list_elem_of_fmap; eauto|left]. }
  { destruct Htp as ((_ & Ha & _) & _). lia. }
  specialize (Hl1 Hll Hbefore).
  (* the pass that sees the key go down *)
  destruct (loop_before_tick d w h (in_millis press) press (run before w)
              Hd Hok H1 (or_intror Hpress) Htp (Z.le_refl _)) as [Hl2 H2].
  rewrite Hdir, Hpress, Hl1 in H2.
  assert (staged_after d h h (turn_edge d) no_lines = e) as Hst.
  { unfold staged_after.
    destruct (one_key_edges d (turn_edge d) no_lines (or_intror eq_refl)
                (or_introl eq_refl)) as (_ & _ & _ & Hgo & _).
    rewrite (Hgo eq_refl eq_refl). reflexivity. }
  rewrite Hst in H2.
  (* the passes before the tick *)
  destruct (run_before_tick d w e (in_millis tick) after Hd Hok
              (in_millis press) (loop press (run before w)) H2) as [H3 _].
  { eapply Forall_impl; [exact Hla|]. intros i Hi. cbv beta in Hi.
    split; [exact Hi|]. intros last. rewrite Hdir.
    apply staged_after_settled. }
  { exact Hta. }
  { exact Hsa. }
  { apply Forall_forall. intros i Hi. split.
    - rewrite Forall_forall in Hpa. apply Hpa.
      apply list_elem_of_fmap. eauto.
    - apply Hat; [apply list_elem_of_fmap; eauto|left]. }
  { exact Hpt. }
  (* the tick *)
  destruct Htick as ((Ht & Ha & Htimer) & Hdue).
  destruct (loop_in_game d w e (in_millis tick) tick
              (run after (loop press (run before w))) Hd
              ltac:(rewrite Hdir; exact Hh) H3 Hlt Ht (Z.le_refl _) (proj2 Ha))
    as (y & Hloop & Hc & _ & Hy).
  rewrite Hdir, staged_after_settled in Hy. fold e in Hy.
  rewrite (snake_move_due_waiting d w _ _ y Hspeed Hy) in Hloop
    by (rewrite Hc; lia).
  rewrite Hc in Hloop.
  destruct (Z.leb_spec (snakeMoveTimer (snake w) + snakeSpeed (snake w))
              (in_millis tick)); [|lia].
  assert (w' = snake_move y) as ->.
  { unfold w'. rewrite run_app. cbn [app].
    change (press :: after ++ [tick]) with ([press] ++ after ++ [tick]).
    rewrite !run_app. exact Hloop. }
  destruct Hy as (_ & _ & _ & _ & Hty & Hsy).
  rewrite <- Hty.
  apply (snake_move_heading w y e Hok He Hsy nx ny Hhead).
Qed.

(** C4.  The Snake game is on, the snake heads [h], no other heading is
    staged and no key is down.  Passes through [loop] follow, all of them
    before the next movement tick is due, and then the pass of the tick.
    The first passes see no key; then one pass sees the direction key for
    [d] go down; from then on the passes see that key or none.  The push
    button does what it likes.  The tick then moves the head one cell in
    the direction [h] when [d] is the reverse of [h], and in the direction
    [d] otherwise: either the snake dies there, at a wall or on itself,
    or [snakeDir] is that direction and the body follows the new head. *)
Theorem snake_heading_single_input (w : World) (h d : Z)
    (before after : list Input) (press tick : Input) (nx ny : Z) :
  currentMode (sketch w) = SNAKE_GAME -> snake_ok w ->
  flags_clear w -> lastLines w = no_lines ->
  snakeDir (snake w) = h -> snakePendingDir (snake w) = h ->
  0 <= d <= 3 ->
  Forall (fun i => in_lines i = no_lines) before ->
  in_lines press = turn_edge d ->
  Forall (fun i => in_lines i = no_lines \/ in_lines i = turn_edge d)
    (after ++ [tick]) ->
  Forall (before_tick w) (before ++ press :: after) -> at_tick w tick ->
  StronglySorted Z.le (in_millis <$> (before ++ press :: after ++ [tick])) ->
  ahead (if d =? opposite h then h else d) (snakeBody (snake w) !!! 0%nat)
  = (nx, ny) ->
  let w' := run (before ++ press :: after ++ [tick]) w in
  if snake_hits_wall nx ny || snake_hits_self nx ny w
  then trace (hw w') = SnakeDeath :: trace (hw w)
  else snakeDir (snake w') = (if d =? opposite h then h else d)
       /\ snake_segments w'
          = Segment.mk nx ny
              :: body_prefix
                   (if (nx =? foodX (snake w)) && (ny =? foodY (snake w))
                       && (snakeLength (snake w) <? SNAKE_MAX_LENGTH)
                    then snakeLength (snake w)
                    else snakeLength (snake w) - 1) w.
Proof. apply snake_heading_through_loop. Qed.

Lemma snake_start_ok : snake_ok snake_start.
Proof.
  unfold snake_ok, snake_wf, snake_segments, body_prefix.
  remember (snake snake_start) as sn eqn:E.
  vm_compute in E. subst sn. cbn.
  unfold in_grid, SNAKE_MAX_LENGTH, SNAKE_COLS, SNAKE_ROWS, DIR_UP, DIR_LEFT,
    SNAKE_MIN_SPEED, SNAKE_INITIAL_SPEED.
  repeat split; try lia; repeat constructor; cbn; lia.
Qed.

Lemma snake_key_passes_ok (d : Z) :
  Forall (before_tick snake_start)
    ([mkInput 260 no_lines false] ++ mkInput 270 (turn_edge d) true
     :: [mkInput 280 (turn_edge d) true; mkInput 290 no_lines false])
  /\ at_tick snake_start (mkInput 310 no_lines false)
  /\ StronglySorted Z.le (in_millis <$> snake_key_passes d).
Proof.
  unfold before_tick, at_tick, in_window, SNAKE_TIMEOUT_MS.
  remember (snake snake_start) as sn eqn:E. vm_compute in E. subst sn.
  remember (lastGameIRActivity (sketch snake_start)) as a eqn:E.
  vm_compute in E. subst a.
  cbn [snakeMoveTimer snakeSpeed in_millis app].
  split; [|split].
  - repeat (apply Forall_cons; split; [cbn [in_millis]; lia|]).
    apply Forall_nil_2.
  - cbn [in_millis]. lia.
  - cbn. repeat (apply SSorted_cons; [|repeat constructor; lia]).
    apply SSorted_nil.
Qed.

(** Heading RIGHT from (7,5): DOWN is taken, the head goes to (7,6); LEFT
    is rejected, the head goes on to (8,5) and eats the food there. *)
Lemma snake_heading_single_input_witness :
  (snakeDir (snake (run (snake_key_passes DIR_DOWN) snake_start)) = DIR_DOWN
   /\ snake_segments (run (snake_key_passes DIR_DOWN) snake_start)
      = [Segment.mk 7 6; Segment.mk 7 5; Segment.mk 6 5])
  /\ (snakeDir (snake (run (snake_key_passes DIR_LEFT) snake_start))
      = DIR_RIGHT
      /\ snake_segments (run (snake_key_passes DIR_LEFT) snake_start)
         = [Segment.mk 8 5; Segment.mk 7 5; Segment.mk 6 5; Segment.mk 5 5]).
Proof.
  split.
  - destruct (snake_key_passes_ok DIR_DOWN) as (Hb & Ht & Hs).
    refine (snake_heading_single_input snake_start DIR_RIGHT DIR_DOWN
              [mkInput 260 no_lines false]
              [mkInput 280 (turn_edge DIR_DOWN) true;
               mkInput 290 no_lines false]
              (mkInput 270 (turn_edge DIR_DOWN) true)
              (mkInput 310 no_lines false) 7 6
              _ snake_start_ok _ _ _ _ _ _ _ _ Hb Ht Hs _);
      try (vm_compute; reflexivity).
    + repeat split; vm_compute; reflexivity.
    + unfold DIR_DOWN. lia.
    + repeat constructor.
    + repeat (apply Forall_cons; split;
                [first [left; reflexivity | right; reflexivity]|]).
      apply Forall_nil_2.
  - destruct (snake_key_passes_ok DIR_LEFT) as (Hb & Ht & Hs).
    refine (snake_heading_single_input snake_start DIR_RIGHT DIR_LEFT
              [mkInput 260 no_lines false]
              [mkInput 280 (turn_edge DIR_LEFT) true;
               mkInput 290 no_lines false]
              (mkInput 270 (turn_edge DIR_LEFT) true)
              (mkInput 310 no_lines false) 8 5
              _ snake_start_ok _ _ _ _ _ _ _ _ Hb Ht Hs _);
      try (vm_compute; reflexivity).
    + repeat split; vm_compute; reflexivity.
    + unfold DIR_LEFT. lia.
    + repeat constructor.
    + repeat (apply Forall_cons; split;
                [first [left; reflexivity | right; reflexivity]|]).
      apply Forall_nil_2.
Defined.

(** ** Snake: food placement with a stream that does not starve it *)

Lemma food_candidate_drawn (w : World) (k : nat) :
  food_candidate w k = drawn_cell (rngDraws (hw w)) (rngPos (hw w) + 2 * k).
Proof. reflexivity. Qed.

Lemma snake_occupied_cell (fx fy : Z) (w : World) :
  snake_occupied fx fy w = true ->
  (fx, fy) ∈ (fun s => (Segment.x s, Segment.y s)) <$> snake_segments w.
Proof.
  unfold snake_occupied, snake_segments. intros H.
  apply existsb_exists in H as (s & Hin & Hs).
  unfold seg_at in Hs. apply andb_prop in Hs as [Hx Hy].
  apply Z.eqb_eq in Hx, Hy. subst fx fy.
  apply list_elem_of_fmap. exists s. split; [reflexivity|].
  apply list_elem_of_In. exact Hin.
Qed.

(** With such a stream the 200 tries of [spawnFood] are never all on the
    snake. *)
Lemma fair_stream_free_try (w : World) :
  fair_stream (rngDraws (hw w)) -> snake_wf w ->
  ~ (forall j : nat, (j < 200)%nat ->
       snake_occupied (food_candidate w j).1 (food_candidate w j).2 w = true).
Proof.
  intros Hfair [Hlen Hn] Hall.
  specialize (Hfair (rngPos (hw w))).
  assert (remove_dups (tried_cells (rngDraws (hw w)) (rngPos (hw w)))
          ⊆+ (fun s => (Segment.x s, Segment.y s)) <$> snake_segments w) as Hsub.
  { apply NoDup_submseteq; [apply NoDup_remove_dups|].
    intros c Hc. rewrite elem_of_remove_dups in Hc.
    unfold tried_cells in Hc. apply list_elem_of_fmap in Hc as (j & -> & Hj).
    apply elem_of_seq in Hj. rewrite <- food_candidate_drawn.
    specialize (Hall j ltac:(lia)).
    destruct (food_candidate w j) as [fx fy]. apply snake_occupied_cell, Hall. }
  apply submseteq_length in Hsub.
  rewrite length_fmap in Hsub. unfold snake_segments, body_prefix in Hsub.
  rewrite length_take in Hsub. unfold SNAKE_MAX_LENGTH in *. lia.
Qed.

(** With such a stream [spawnFood] puts the food on the first free cell
    that it tries. *)
Lemma spawnFood_fair (w : World) :
  fair_stream (rngDraws (hw w)) -> snake_wf w ->
  exists n : nat,
    (n < 200)%nat
    /\ (forall j, (j < n)%nat ->
          snake_occupied (food_candidate w j).1 (food_candidate w j).2 w = true)
    /\ snake_occupied (food_candidate w n).1 (food_candidate w n).2 w = false
    /\ spawnFood w
       = food_placed (food_candidate w n).1 (food_candidate w n).2 (2 * S n) w.
Proof.
  intros Hfair Hwf.
  destruct (spawnFood_spec w) as (n & Hn & Heq & Hocc & Hfree).
  exists n. split; [exact Hn|]. split; [exact Hocc|]. split; [|exact Heq].
  destruct (snake_occupied (food_candidate w n).1 (food_candidate w n).2 w)
    eqn:E; [|reflexivity].
  destruct (fair_stream_free_try w Hfair Hwf). intros j Hj.
  destruct (Nat.lt_trichotomy j n) as [Hlt | [-> | Hgt]].
  - apply Hocc, Hlt.
  - exact E.
  - specialize (Hfree ltac:(lia)). discriminate Hfree.
Qed.

Lemma spawnFood_food_free (w : World) :
  fair_stream (rngDraws (hw w)) -> snake_wf w -> food_free (spawnFood w).
Proof.
  intros Hfair Hwf.
  destruct (spawnFood_fair w Hfair Hwf) as (n & _ & _ & Hfree & ->).
  exact Hfree.
Qed.

(** *** The engines do not write the stream *)

Lemma stream_frames :
  (forall w, rngDraws (hw (runDinoGame w)) = rngDraws (hw w))
  /\ (forall w, rngDraws (hw (runDodgeGame w)) = rngDraws (hw w))
  /\ (forall w, rngDraws (hw (runSnakeGame w)) = rngDraws (hw w))
  /\ (forall w, rngDraws (hw (resetSnake w)) = rngDraws (hw w))
  /\ (forall w, rngDraws (hw (handleSnakeDeath w)) = rngDraws (hw w))
  /\ (forall w, rngDraws (hw (spawnFood w)) = rngDraws (hw w))
  /\ (forall c w, rngDraws (hw (launchGame c w)) = rngDraws (hw w)).
Proof.
  repeat match goal with |- _ /\ _ => split end; intros.
  - change (same (fun w => rngDraws (hw w)) w (runDinoGame w)).
    apply (@Frames_runDinoGame _ _ (fun w => rngDraws (hw w)) rngDraws);
      intros; try reflexivity. cbn. auto.
  - change (same (fun w => rngDraws (hw w)) w (runDodgeGame w)).
    apply (@Frames_runDodgeGame _ _ (fun w => rngDraws (hw w)) rngDraws);
      intros; try reflexivity. cbn. auto.
  - change (same (fun w => rngDraws (hw w)) w (runSnakeGame w)).
    apply (@Frames_runSnakeGame _ _ (fun w => rngDraws (hw w)) rngDraws);
      intros; try reflexivity. cbn. auto.
  - change (same (fun w => rngDraws (hw w)) w (resetSnake w)).
    apply (@Frames_resetSnake _ _ (fun w => rngDraws (hw w)) rngDraws);
      intros; try reflexivity. cbn. auto.
  - change (same (fun w => rngDraws (hw w)) w (handleSnakeDeath w)).
    apply (@Frames_handleSnakeDeath _ _ (fun w => rngDraws (hw w)) rngDraws);
      intros; try reflexivity. cbn. auto.
  - change (same (fun w => rngDraws (hw w)) w (spawnFood w)).
    apply (@Frames_spawnFood _ _ (fun w => rngDraws (hw w)) rngDraws);
      intros; try reflexivity. cbn. auto.
  - change (same (fun w => rngDraws (hw w)) w (launchGame c w)).
    apply (@Frames_launchGame _ _ (fun w => rngDraws (hw w)) rngDraws);
      intros; try reflexivity. cbn. auto.
Qed.

(** *** Reset, step and tick *)

Lemma snake_wf_same (w w' : World) :
  snakeBody (snake w') = snakeBody (snake w) ->
  snakeLength (snake w') = snakeLength (snake w) ->
  snake_wf w -> snake_wf w'.
Proof. unfold snake_wf. intros -> ->. exact id. Qed.

Lemma tidy_same (w w' : World) :
  snakeBody (snake w') = snakeBody (snake w) ->
  snakeLength (snake w') = snakeLength (snake w) ->
  foodX (snake w') = foodX (snake w) -> foodY (snake w') = foodY (snake w) ->
  NoDup (snake_segments w) /\ food_free w ->
  NoDup (snake_segments w') /\ food_free w'.
Proof.
  unfold food_free, snake_occupied, snake_segments, body_prefix.
  intros -> -> -> ->. exact id.
Qed.

Lemma tidy_with_sketch (f : Sketch -> Sketch) (x : World) :
  NoDup (snake_segments x) /\ food_free x ->
  NoDup (snake_segments (with_sketch f x)) /\ food_free (with_sketch f x).
Proof. exact id. Qed.

Lemma tidy_with_hw (f : Hw -> Hw) (x : World) :
  NoDup (snake_segments x) /\ food_free x ->
  NoDup (snake_segments (with_hw f x)) /\ food_free (with_hw f x).
Proof. exact id. Qed.

Lemma resetSnake_tidy (w : World) :
  fair_stream (rngDraws (hw w)) ->
  length (snakeBody (snake w)) = Z.to_nat SNAKE_MAX_LENGTH ->
  NoDup (snake_segments (resetSnake w)) /\ food_free (resetSnake w).
Proof.
  intros Hfair Hlen. split; [apply (resetSnake_distinct w Hlen)|].
  destruct (resetSnake_distinct w Hlen) as (_ & _ & Hwf).
  revert Hwf. unfold resetSnake. cbv zeta.
  match goal with
  | |- context [spawnFood ?x] => set (w' := x)
  end.
  intros Hwf.
  assert (hw w' = hw w) as Hh by reflexivity.
  clearbody w'.
  apply spawnFood_food_free; [rewrite Hh; exact Hfair|].
  destruct (spawnFood_snake w') as (fx & fy & _ & Heq).
  apply (snake_wf_same (spawnFood w')); [rewrite Heq..|exact Hwf]; reflexivity.
Qed.

Lemma handleSnakeDeath_tidy (w : World) :
  fair_stream (rngDraws (hw w)) ->
  length (snakeBody (snake w)) = Z.to_nat SNAKE_MAX_LENGTH ->
  NoDup (snake_segments (handleSnakeDeath w))
  /\ food_free (handleSnakeDeath w).
Proof.
  intros Hfair Hlen. rewrite <- saveSnakeHighScore_body in Hlen.
  unfold handleSnakeDeath. cbv zeta.
  match goal with
  | |- context [resetSnake ?x] => set (w' := x)
  end.
  assert (rngDraws (hw w') = rngDraws (hw w)) as Hh.
  { subst w'. cbn [Nat.iter nat_rect]. unfold delay, flash.
    cbn [hw with_hw set_hw set_clock set_trace rngDraws].
    unfold saveSnakeHighScore. split_if; reflexivity. }
  assert (length (snakeBody (snake w')) = Z.to_nat SNAKE_MAX_LENGTH) as Hl
    by (subst w'; cbn [Nat.iter nat_rect]; unfold delay, flash; exact Hlen).
  clearbody w'.
  apply tidy_with_sketch.
  apply resetSnake_tidy; [rewrite Hh; exact Hfair|exact Hl].
Qed.

Lemma snake_step_ate (newX newY : Z) (w : World) :
  (newX =? foodX (snake w)) && (newY =? foodY (snake w)) = true ->
  exists w2, snake_step newX newY w = spawnFood w2
             /\ rngDraws (hw w2) = rngDraws (hw w).
Proof.
  intros Hate. unfold snake_step. cbv zeta. rewrite Hate. cbn [andb].
  eexists. split; [reflexivity|].
  repeat split_if; reflexivity.
Qed.

Lemma snake_step_tidy (newX newY : Z) (w : World) :
  fair_stream (rngDraws (hw w)) -> snake_wf w ->
  NoDup (snake_segments w) -> food_free w ->
  snake_hits_self newX newY w = false ->
  NoDup (snake_segments (snake_step newX newY w))
  /\ food_free (snake_step newX newY w).
Proof.
  intros Hfair Hwf Hnd Hfood Hself.
  destruct (snake_step_distinct newX newY w Hwf Hnd Hself Hfood)
    as (Hnd' & Hwf' & Hkeep).
  split; [exact Hnd'|].
  destruct ((newX =? foodX (snake w)) && (newY =? foodY (snake w))) eqn:Hate;
    [|apply Hkeep; reflexivity].
  destruct (snake_step_ate newX newY w Hate) as (w2 & Heq & Hh).
  rewrite Heq in *.
  apply spawnFood_food_free; [rewrite Hh; exact Hfair|].
  destruct (spawnFood_snake w2) as (fx & fy & _ & Hs).
  apply (snake_wf_same (spawnFood w2)); [rewrite Hs..|exact Hwf']; reflexivity.
Qed.

Lemma snake_move_tidy (w : World) :
  fair_stream (rngDraws (hw w)) -> snake_wf w ->
  NoDup (snake_segments w) -> food_free w ->
  NoDup (snake_segments (snake_move w)) /\ food_free (snake_move w).
Proof.
  intros Hfair Hwf Hnd Hfood. unfold snake_move. cbv zeta.
  set (w1 := snake_turn (with_snake (set_snakeMoveTimer (millis w)) w)).
  assert (fair_stream (rngDraws (hw w1))) as Hfair1 by exact Hfair.
  assert (snake_wf w1) as Hwf1 by exact Hwf.
  assert (NoDup (snake_segments w1)) as Hnd1 by exact Hnd.
  assert (food_free w1) as Hfood1 by exact Hfood.
  clearbody w1.
  destruct (snake_new_head w1) as [newX newY].
  destruct (snake_hits_wall newX newY);
    [apply handleSnakeDeath_tidy; [exact Hfair1|apply Hwf1]|].
  destruct (snake_hits_self newX newY w1) eqn:Hself;
    [apply handleSnakeDeath_tidy; [exact Hfair1|apply Hwf1]|].
  apply snake_step_tidy; assumption.
Qed.

Lemma runSnakeGame_tidy (w : World) :
  fair_stream (rngDraws (hw w)) -> snake_wf w ->
  NoDup (snake_segments w) /\ food_free w ->
  NoDup (snake_segments (runSnakeGame w)) /\ food_free (runSnakeGame w).
Proof.
  intros Hfair Hwf Htidy. unfold runSnakeGame.
  split_if; [exact Htidy|]. cbv zeta.
  destruct (snake_buffer_input_view w) as (_ & _ & _ & _ & Hh & Hs).
  cbv zeta in *. set (y := snake_buffer_input w) in *. clearbody y.
  assert (NoDup (snake_segments y) /\ food_free y) as [Hnd Hfood]
    by (apply (tidy_same w); [rewrite Hs..|exact Htidy]; reflexivity).
  split_if; [|split; assumption].
  apply snake_move_tidy; try assumption.
  - rewrite Hh. exact Hfair.
  - apply (snake_wf_same w); [rewrite Hs..|exact Hwf]; reflexivity.
Qed.

(** *** Every reachable state *)

(** [distinct_ok] looks at the engines, the stream and the mode. *)
Lemma distinct_ok_frame (w w' : World) :
  engines_ok w' ->
  snake w' = snake w -> rngDraws (hw w') = rngDraws (hw w) ->
  (currentMode (sketch w') = SNAKE_GAME -> currentMode (sketch w) = SNAKE_GAME) ->
  distinct_ok w -> distinct_ok w'.
Proof.
  intros He Hs Hh Hm (_ & Hfair & Htidy).
  split; [exact He|]. split; [rewrite Hh; exact Hfair|].
  intros H. apply (tidy_same w); [rewrite Hs..|apply Htidy, Hm, H];
    reflexivity.
Qed.

Lemma distinct_ok_with_sketch (f : Sketch -> Sketch) (x : World) :
  (forall s, currentMode (f s) = SNAKE_GAME -> currentMode s = SNAKE_GAME) ->
  distinct_ok x -> distinct_ok (with_sketch f x).
Proof.
  intros Hf H. apply (distinct_ok_frame x); try reflexivity; [|apply Hf|exact H].
  apply engines_ok_with_sketch; [exact Hf|apply H].
Qed.

Lemma distinct_ok_with_hw (f : Hw -> Hw) (x : World) :
  (forall h, rngDraws (f h) = rngDraws h) ->
  distinct_ok x -> distinct_ok (with_hw f x).
Proof.
  intros Hf H. apply (distinct_ok_frame x); try reflexivity; [| |auto|exact H].
  - apply engines_app, H.
  - cbn. apply Hf.
Qed.

Lemma distinct_ok_if (b : bool) (x y : World) :
  distinct_ok x -> distinct_ok y -> distinct_ok (if b then x else y).
Proof. destruct b; intros; assumption. Qed.

(** A function that keeps the engines in order and writes neither the
    sketch, the snake nor the hardware. *)
Lemma distinct_ok_aside (f : World -> World) `{!KeepsEngines f} (x : World) :
  sketch (f x) = sketch x -> snake (f x) = snake x -> hw (f x) = hw x ->
  distinct_ok x -> distinct_ok (f x).
Proof.
  intros Hk Hs Hh H. apply (distinct_ok_frame x).
  - apply engines_app, H.
  - exact Hs.
  - rewrite Hh. reflexivity.
  - rewrite Hk. auto.
  - exact H.
Qed.

#[global] Instance KeepsDistinct_set_lastLines (l : Lines) :
  KeepsDistinct (set_lastLines l).
Proof. intros x. apply (distinct_ok_aside _); reflexivity. Qed.

#[global] Instance KeepsDistinct_move_left (b : bool) :
  KeepsDistinct (with_dodge (set_dodgeMoveLeft b)).
Proof. intros x. apply (distinct_ok_aside _); reflexivity. Qed.

#[global] Instance KeepsDistinct_move_right (b : bool) :
  KeepsDistinct (with_dodge (set_dodgeMoveRight b)).
Proof. intros x. apply (distinct_ok_aside _); reflexivity. Qed.

#[global] Instance KeepsDistinct_dodgeHighScore (v : Z) :
  KeepsDistinct (with_dodge (set_dodgeHighScore v)).
Proof. intros x. apply (distinct_ok_aside _); reflexivity. Qed.

#[global] Instance KeepsDistinct_snakeHighScore (v : Z) :
  KeepsDistinct (with_snake (set_snakeHighScore v)).
Proof.
  intros x (He & Hfair & Htidy). split; [apply engines_app, He|].
  split; [exact Hfair|]. intros H. apply (tidy_same x); try reflexivity.
  apply Htidy, H.
Qed.

#[global] Instance KeepsDistinct_EEPROM_write (a v : Z) :
  KeepsDistinct (EEPROM_write a v).
Proof. intros x. apply distinct_ok_with_hw. reflexivity. Qed.

#[global] Instance KeepsDistinct_rtc_adjust (t : DateTime) :
  KeepsDistinct (rtc_adjust t).
Proof. intros x. apply distinct_ok_with_hw. reflexivity. Qed.

(** Peel the updates off a goal [distinct_ok x], outermost first. *)
Ltac distinct_step :=
  match goal with
  | H : distinct_ok ?x |- distinct_ok ?x => exact H
  | |- distinct_ok (if _ then _ else _) => apply distinct_ok_if
  | |- distinct_ok (match ?m with CLOCK => _ | _ => _ end) => destruct m
  | |- distinct_ok (match ?m with MENU_DIFFICULTY => _ | _ => _ end) =>
      destruct m
  | |- distinct_ok (with_sketch _ _) =>
      apply distinct_ok_with_sketch;
      [let s := fresh "s" in let H := fresh "H" in
       intros s H; first [discriminate H | exact H]|]
  | |- distinct_ok (with_hw _ _) =>
      apply distinct_ok_with_hw; [intros; reflexivity|]
  | |- distinct_ok (?f ?x) => apply (@distinct_app f _)
  end.

Ltac distinct_tac := cbv zeta; repeat distinct_step.

#[global] Instance KeepsDistinct_to_clock : KeepsDistinct to_clock.
Proof. intros x H. unfold to_clock. distinct_tac. Qed.

#[global] Instance KeepsDistinct_touch : KeepsDistinct touch.
Proof. intros x H. unfold touch. distinct_tac. Qed.

#[global] Instance KeepsDistinct_menu_step (k : Z) :
  KeepsDistinct (menu_step k).
Proof. intros x H. unfold menu_step. distinct_tac. Qed.

#[global] Instance KeepsDistinct_selectMenuItem : KeepsDistinct selectMenuItem.
Proof. intros x H. unfold selectMenuItem. distinct_tac. Qed.

#[global] Instance KeepsDistinct_incrementTimeField :
  KeepsDistinct incrementTimeField.
Proof. intros x H. unfold incrementTimeField. distinct_tac. Qed.

#[global] Instance KeepsDistinct_incrementDateField :
  KeepsDistinct incrementDateField.
Proof. intros x H. unfold incrementDateField. distinct_tac. Qed.

#[global] Instance KeepsDistinct_saveTime : KeepsDistinct saveTime.
Proof. intros x H. unfold saveTime. distinct_tac. Qed.

#[global] Instance KeepsDistinct_saveDate : KeepsDistinct saveDate.
Proof. intros x H. unfold saveDate. distinct_tac. Qed.

#[global] Instance KeepsDistinct_next_step : KeepsDistinct next_step.
Proof. intros x H. unfold next_step. distinct_tac. Qed.

(** A launch of the Snake game lays the snake out and places the food. *)
#[global] Instance KeepsDistinct_launchGame (choice : Z) :
  KeepsDistinct (launchGame choice).
Proof.
  intros x (He & Hfair & Htidy).
  destruct stream_frames as (_ & _ & _ & _ & _ & _ & Hl).
  split; [apply engines_app, He|]. split; [rewrite Hl; exact Hfair|].
  rewrite launchGame_mode. unfold launchGame.
  destruct (choice =? 0); [discriminate|].
  destruct (choice =? 1); [discriminate|]. intros _. cbv zeta.
  unfold delay.
  match goal with
  | |- context [resetSnake ?y] => set (w' := y)
  end.
  assert (rngDraws (hw w') = rngDraws (hw x)) as Hh by reflexivity.
  assert (length (snakeBody (snake w')) = Z.to_nat SNAKE_MAX_LENGTH) as Hlen
    by (destruct He as (_ & _ & Hlen & _); exact Hlen).
  clearbody w'. apply tidy_with_hw.
  apply resetSnake_tidy; [rewrite Hh; exact Hfair|exact Hlen].
Qed.

#[global] Instance KeepsDistinct_runDinoGame : KeepsDistinct runDinoGame.
Proof.
  intros x H. destruct stream_frames as (Hs & _).
  apply (distinct_ok_frame x); [apply engines_app, H| | | |exact H].
  - apply runDinoGame_others.
  - apply Hs.
  - rewrite runDinoGame_mode. auto.
Qed.

#[global] Instance KeepsDistinct_runDodgeGame : KeepsDistinct runDodgeGame.
Proof.
  intros x H. destruct stream_frames as (_ & Hs & _).
  apply (distinct_ok_frame x); [apply engines_app, H| | | |exact H].
  - apply runDodgeGame_others.
  - apply Hs.
  - rewrite runDodgeGame_mode. split_if; [discriminate|auto].
Qed.

(** The Snake engine, run while the Snake game is on. *)
Lemma runSnakeGame_distinct (x : World) :
  currentMode (sketch x) = SNAKE_GAME ->
  distinct_ok x -> distinct_ok (runSnakeGame x).
Proof.
  intros Hm (He & Hfair & Htidy).
  destruct stream_frames as (_ & _ & Hs & _).
  split; [apply runSnakeGame_engines; assumption|].
  split; [rewrite Hs; exact Hfair|]. intros _.
  apply runSnakeGame_tidy; [exact Hfair| |apply Htidy, Hm].
  destruct He as (_ & _ & _ & Hok). apply (Hok Hm).
Qed.

#[global] Instance KeepsDistinct_launchSelectedGame :
  KeepsDistinct launchSelectedGame.
Proof. intros x H. unfold launchSelectedGame. distinct_tac. Qed.

#[global] Instance KeepsDistinct_handleShortPress :
  KeepsDistinct handleShortPress.
Proof. intros x H. unfold handleShortPress. distinct_tac. Qed.

#[global] Instance KeepsDistinct_handleMediumHold :
  KeepsDistinct handleMediumHold.
Proof. intros x H. unfold handleMediumHold. distinct_tac. Qed.

#[global] Instance KeepsDistinct_handleLongPress :
  KeepsDistinct handleLongPress.
Proof. intros x H. unfold handleLongPress. distinct_tac. Qed.

#[global] Instance KeepsDistinct_handleButton (b : bool) :
  KeepsDistinct (handleButton b).
Proof. intros x H. unfold handleButton. distinct_tac. Qed.

#[global] Instance KeepsDistinct_mode_dispatch (e : Lines) :
  KeepsDistinct (mode_dispatch e).
Proof. intros x H. unfold mode_dispatch. distinct_tac. Qed.

#[global] Instance KeepsDistinct_handleIRInput (pin : Lines) :
  KeepsDistinct (handleIRInput pin).
Proof. intros x H. unfold handleIRInput. distinct_tac. Qed.

#[global] Instance KeepsDistinct_updateClock : KeepsDistinct updateClock.
Proof.
  intros x H. destruct (updateClock_spec x) as [-> | [n ->]]; [exact H|].
  unfold rng_advance. distinct_tac.
Qed.

#[global] Instance KeepsDistinct_runSettingsMenu :
  KeepsDistinct runSettingsMenu.
Proof. intros x H. unfold runSettingsMenu. distinct_tac. Qed.

#[global] Instance KeepsDistinct_runGameSelectMenu :
  KeepsDistinct runGameSelectMenu.
Proof. intros x H. unfold runGameSelectMenu. distinct_tac. Qed.

#[global] Instance KeepsDistinct_loop (i : Input) : KeepsDistinct (loop i).
Proof.
  intros x H. unfold loop, runTimeSettingMode, runDateSettingMode. cbv zeta.
  set (w0 := with_hw (set_clock (to_ulong (in_millis i))) x).
  assert (distinct_ok w0) as H0
    by (apply distinct_ok_with_hw; [reflexivity|exact H]).
  apply (distinct_app (f := handleButton (in_button i))) in H0.
  apply (distinct_app (f := handleIRInput (in_lines i))) in H0.
  generalize dependent (handleIRInput (in_lines i)
                          (handleButton (in_button i) w0)).
  intros w2 H2.
  destruct (currentMode (sketch w2)) eqn:Hm; try distinct_tac.
  apply runSnakeGame_distinct; assumption.
Qed.




(** *** A stream of that kind *)











(** Without a stream of that kind [spawnFood] has no way round: when all
    its 200 tries fall on the snake, the food goes to the last cell
    tried. *)
Lemma spawnFood_tries_used_up (w : World) :
  (forall j : nat, (j < 200)%nat ->
     snake_occupied (food_candidate w j).1 (food_candidate w j).2 w = true) ->
  spawnFood w
  = food_placed (food_candidate w 199).1 (food_candidate w 199).2 400 w.
Proof.
  intros Hall. destruct (spawnFood_spec w) as (n & Hn & Heq & _ & Hfree).
  assert (n = 199%nat) as ->.
  { destruct (Nat.eq_dec n 199%nat) as [E|E]; [exact E|].
    specialize (Hfree ltac:(lia)). rewrite Hall in Hfree by lia.
    discriminate Hfree. }
  exact Heq.
Qed.
